(* ===== verification/_CoqProject ===== *)
-Q . S2P
Prelude.v
Libc.v
Circle.v
MqttSendPacket.v
MqttSendSpec.v
MqttReceivePacket.v
MqttReceiveSpec.v
MqttReadSpec.v
MqttClient.v
MqttQueueSpec.v
MqttClientInv.v
MqttClientPackets.v
MqttClientSafety.v
MqttClientTask.v
MqttClientApi.v
MqttClientLife.v
MqttDemo.v
MqttStreamProps.v
MqttClientProps.v
HttpClient.v
HttpSpec.v
HttpParse.v
HttpSafety.v
HttpProps.v
Sched.v
LibcxxSync.v
LibcxxSyncInv.v
LibcxxSyncProps.v
LibcxxRecursive.v
LibcxxThread.v
LibcxxThreadSpec.v
LibcxxTls.v
LibcxxThreadProps.v
HtmlScanner.v
HtmlSpec.v
HtmlScan.v
HtmlProps.v
WebClient.v
WebSpec.v
WebProps.v
NetSockets.v
NetInv.v
NetSafety.v
NetProps.v
X509Profile.v
TlsConfig.v
X509CertChain.v
TlsSocket.v
TlsClient.v
TlsInv.v
TlsSafety.v
TlsDemo.v
TlsProps.v
X509ChainProps.v
TlsClientProps.v
MbedModules.v
MbedModulesProps.v
MqttSample.v
MqttFrame.v
MqttSampleProps.v
ButtonTask.v
ButtonProps.v
SocketApp.v
SocketAppProps.v
SocketSample.v
SocketSampleProps.v
StdlibApp.v
StdlibAppProps.v
HttpsClient.v
HttpsClientProps.v
TlsProgram.v
TlsClient1.v
TlsServer1.v
NetOwner.v
TlsProgramProps.v
TlsProgramDemo.v
TlsClient1Props.v
TlsServer1Props.v
MqttKernel.v
MqttKernelProps.v
