(* ===== verification/Prelude.v ===== *)
(** * A verification of circle-stdlib

    circle-stdlib adds a C and C++ standard library and TLS to Circle, a C++
    framework for programs that run on a Raspberry Pi without an operating
    system.  The repository's own logic is C++ code between three other parts
    that are not in it: Circle, mbed TLS, and the libraries newlib and libc++.
    This library models that code and proves what makes it correct.  The paths
    below are relative to the sources; a definition has the name of the C++
    function or member it stands for.

    ** How the code is modelled

    [Prelude] holds the conventions.  A C++ function is a computation in the
    monad [M S]: it takes a state [S] and gives a result with a new state, or a
    [fault] - a failing assertion, an access outside an object or through a
    dangling or null pointer, or a read of memory nobody has written.  Integers
    are numbers of [Z] with the wrap-around of their type ([u8], [u16], [u32],
    [s32], [size_t]) written at every operation that can leave the range; the
    class [Target] gives the width of [size_t], for the 32-bit and the 64-bit
    targets.  An array is a list of [cell]s, where [None] is a cell that was
    never written, and [rd] and [wr] are checked accesses.  An object made with
    [new] is an entry of a finite map from addresses, and deletion removes the
    entry.  A C string that is only read is the list of its characters.

    Code that is not in the repository is a parameter: a type class with the
    operations the code calls and, apart from it, a class of laws with the
    documented behaviour it relies on.  [Circle] has the classes of the sockets,
    the clock, the log and the pointer list ([Platform], [PtrList]); [Sched] has
    the semaphore; [NetSockets], [TlsConfig] and [X509CertChain] have mbed TLS
    and the file system; [MbedModules], [LibcxxRecursive], [ButtonTask],
    [SocketApp], [MqttSample], [MqttKernel], [StdlibApp] and [TlsProgram] have
    what these parts call.  Every such class has an instance in a module whose name ends in [Demo], or in
    [Circle] and [Sched], on which the witnesses of the theorems are evaluated.
    [Libc] defines the functions of the C library that are called on strings.

    Partial correctness is stated with [wp]: [wp F m Q s] says that [m], run in
    [s], gives a result that satisfies [Q] or a fault that satisfies [F].  With
    the empty [F] it says that [m] returns.

    ** The parts

    - _MQTT packets_ ([mqttsendpacket.cpp], [mqttreceivepacket.cpp], [mqtt.h]):
      [MqttSendPacket], [MqttReceivePacket]; what they promise is in
      [MqttSendSpec], [MqttReceiveSpec] and [MqttReadSpec]: an append-only byte
      string, and the unread part of the byte stream.  [MqttStreamProps]: the
      stream is cut into the same packets however the network cuts it; a PUBLISH
      packet that was sent is read back; the bounds of the getters.
    - _MQTT client_ ([mqttclient.cpp]): [MqttClient] has all methods of
      [CMQTTClient], with the heap of packets and the virtual functions of a
      derived class as a parameter.  [MqttQueueSpec] relates the queue to a
      list, [MqttClientInv] states the invariant [Inv], [MqttClientPackets],
      [MqttClientSafety], [MqttClientTask] and [MqttClientApi] prove that the
      receiver, the sender, the keep alive handler and the public functions
      keep it, and [MqttClientLife] has the step relation of an application and
      the task of the client.  [MqttClientProps]: no reachable state faults but
      for assertions a broker can provoke, the public functions return, the
      queue stays sorted, QoS 2 messages are delivered once, and a silent broker
      is noticed.
    - _MQTT sample_ ([samples/mbedtls/07-mqttclient]): [MqttSample] has the two
      derived classes.  [MqttFrame] proves that the base class touches the
      members of the derived one only through the virtual functions;
      [MqttSampleProps] shows that both clients are safe, the schedule of the
      publisher, and what the subscriber shows.  [MqttKernel] has [CKernel::Run],
      cut where it sleeps, as a task beside the two clients; [MqttKernelProps]
      proves which states the system reaches and when it halts.
    - _HTTP client_ ([httpclient.cpp]): [HttpClient], cut at the boundaries the
      function's comments draw.  [HttpSpec] and [HttpParse] say what the byte
      loop makes of a response, [HttpSafety] bounds its accesses.  [HttpProps]:
      the result does not depend on the segments the response comes in, nothing
      is written outside of the buffers, and the content of plain and chunked
      responses.
    - _Threading layer of libc++_ ([libs/libcxx-threading]): [LibcxxSync]
      ([mutex_impl.h], [mutex.cpp], [condvar.cpp]), [LibcxxRecursive] (the rest
      of these files) and [LibcxxThread] ([thread.cpp]).  A function is a
      program of atomic steps that blocks on semaphores ([Sched]), and tasks
      that call such functions are a step relation.  [LibcxxSyncInv] and
      [LibcxxSyncProps]: exclusion, hand-over of the mutex, and the number of
      pending signals.  [LibcxxThreadSpec], [LibcxxTls] and
      [LibcxxThreadProps]: the lifetime of threads and their handles, the
      destructors of thread-local objects, and initialisation that runs once.
    - _Sockets below mbed TLS_ ([adaptedsocket.cpp], [net_sockets.cpp]):
      [NetSockets], with [NetInv] and [NetSafety] for the table of handles and
      the receive buffers.  [NetProps]: all sequences of operations are safe, and
      the bytes received are those of the stream.
    - _TLS_ ([tlssocket.cpp], [tlssimpleclientsocket.cpp], [x509certchain.cpp]
      and the headers of the configuration): [TlsConfig], [X509Profile],
      [X509CertChain], [TlsSocket], [TlsClient].  A function of mbed TLS is a
      finite tree of calls of the callbacks it was given, which run on the state
      of the sockets below.  [TlsInv], [TlsSafety] and [TlsProps]: permitted
      uses are safe, [Receive] keeps the contract of a plain socket that the
      HTTP and MQTT clients rely on, and the outcomes of [Connect].
      [TlsClientProps], [X509ChainProps], [X509Profile]: what is verified
      after [Setup], the end of a client socket, the certificates that are read.
    - _Modules of mbed TLS_ ([entropymodule.cpp], [threadingmodule.cpp],
      [tlssimplesupport.h]): [MbedModules] and [MbedModulesProps], a refinement
      of the life cycle mbed TLS specifies for its mutexes.
    - _Web client sample_ ([samples/mbedtls/06-webclient]): [HtmlScanner] with
      the reference [HtmlSpec], which [HtmlScan] and [HtmlProps] prove it to
      agree with; [WebClient], composed of the HTTP client and the scanner, with
      [WebSpec] and [WebProps] from the segments on the network to the rows on
      the screen.
    - _HTTPS client sample_ ([samples/mbedtls/05-https-client3]): [HttpsClient]
      and [HttpsClientProps], the transfer of a page over a
      [CTLSSimpleClientSocket] and the end of its local object.
    - _mbed TLS programs_ ([samples/mbedtls/01-https-client1/ssl_client1.c] and
      [03-https-server1/ssl_server.c], with their kernels): [TlsProgram] has what
      both call and their loops around a function of mbed TLS that wants to be
      called again; [TlsClient1] and [TlsServer1] are the programs, cut at the
      numbered comments of their [main], with the [goto]s as values.  [NetOwner]
      specifies the network functions by the context that owns a socket,
      [TlsProgramProps] carries this through the shared calls, [TlsProgramDemo]
      has a peer to run against.  [TlsClient1Props] and [TlsServer1Props]: on
      every path the programs give back what they hold, and which outcomes of a
      connection end the server.
    - _Socket sample_ ([samples/06-socket]): [ButtonTask] and [ButtonProps], the
      task that debounces a button, with interrupts, timers and other tasks
      interleaved freely; [SocketApp] and [SocketAppProps], the web server with
      its queue of messages; [SocketSample] and [SocketSampleProps], the set-up
      and the system of the server and both buttons, from a press to what every
      client receives.
    - _Application classes_ ([include/circle_stdlib_app.h] and the samples'
      [main]): [StdlibApp] and [StdlibAppProps], the order of the
      initialisation.

    The parts meet where the code's do: the clients use a socket through the
    class [Platform], whose contract for receiving [CTLSSocket::Receive] is
    proved to keep; [CTLSSocket] runs on the model of [CAdaptedSocket]; the
    derived MQTT clients and the web client run on the models of the clients, and
    the mbed TLS programs on that of [net_sockets.cpp].

    ** Fuel

    Loops whose number of rounds depends on the environment take fuel, and
    [OutOfFuel] is not a behaviour of the code.  [ends] below says of such a
    computation that it has no fault for any fuel and returns, always with the
    same result, for all fuel from some amount on if the environment does not
    keep it busy for ever; its lemmas compose it along a program.  So the calls of
    [mbedtls_net_*] return, those with a time limit if the clock reaches it
    ([NetProps.net_safe]); the calls of [CTLSSocket], the handshake if mbed TLS
    does not ask for ever to repeat it ([TlsProps.tls_safe]; the outcomes of
    [Connect] are in [TlsProps.tls_connect]); and the mbed TLS programs
    ([TlsClient1Props.client1_cleans_up], [TlsServer1Props.server1_serves]), the
    server being cut behind its round [n], for any [n] the table of the sockets
    has room for.  The fuel of a round of the MQTT task bounds the packets it
    takes in this round; the round returns if they are finitely many
    ([MqttClientProps.client_safe]).  A request of the HTTP client returns with
    one unit more than the number of pieces the response comes in
    ([HttpProps.http_segmentation]), the wait for the network with as much fuel as
    the network needs polls ([StdlibAppProps.app_initialize]).  The search for
    certificates takes one unit per entry of the directory, the HTTPS sample one
    per piece.  All other loops have a bound in the data, which the definition
    computes itself: the sizes of a buffer, a queue, or a document.
    The endless loops of [CMQTTClient::Run], [CButtonTask::Run] and
    [CKernel::Run] are one round or one step, repeated by a step relation or by
    a list of occurrences.

    ** Not modelled

    Circle, newlib, libc++ and mbed TLS themselves are submodules without
    sources here.  [config-circle-mbedtls.h] is the configuration of mbed TLS,
    macros and comments.  The programs [ssl_client2.c] and [ssl_server2.c] under
    [samples/mbedtls] are the test programs of mbed TLS's distribution, whose
    code is the parsing of some hundred options and the calls of mbed TLS each of
    them switches on; of the smaller programs the debug output ([my_debug],
    [fflush]) is left out.  The samples [01] to [05], [07] and [08] directly
    under [samples] and the programs under [tests] exercise the libraries and keep
    no state of their own.  The constructors of the kernels, which initialise
    members of Circle and blink the LED, are left out.  Of the log, the messages
    are modelled where they are the purpose of the code, as in the MQTT sample
    and the server; the debug output of mbed TLS
    ([CTLSSimpleClientSocket::DebugCallback]) is not.  Addresses of deleted
    objects are not used again in the model.  The code for tests under QEMU
    ([USE_QEMU_FOR_TEST]) is left out.

    ** Reading order

    [Prelude], then a part's definitions, then the file of its properties; a
    comment of the form C<n> marks the theorems that are properties of the
    program, in the order of importance.  The other theorems of these files,
    among them those about single defects of the code, have no number. *)
From stdpp Require Import base numbers list gmap option strings.
From Stdlib Require Import Lia.

#[global] Open Scope Z_scope.
#[global] Set Default Goal Selector "!".

#[global] Arguments Z.geb : simpl never.
#[global] Arguments Z.gtb : simpl never.
#[global] Arguments Z.leb : simpl never.
#[global] Arguments Z.ltb : simpl never.
#[global] Arguments Z.shiftl : simpl never.
#[global] Arguments Z.shiftr : simpl never.
#[global] Arguments Z.land : simpl never.
#[global] Arguments Z.lor : simpl never.

(** * Faults, results and the state monad *)

(** What can go wrong while a function runs.  [AssertFailed] is a failing
    [assert ()]; [BadAccess] is an access outside an object or through a
    dangling pointer; [Uninit] is a read of memory nobody has written;
    [NullDeref] is an access through a null pointer; [OutOfFuel] says that the
    fuel given to a loop was not enough, and is not a behaviour of the code. *)
Inductive fault :=
  | AssertFailed
  | BadAccess
  | Uninit
  | NullDeref
  | OutOfFuel.

#[export] Instance fault_eq_dec : EqDecision fault.
Proof. solve_decision. Defined.

Inductive res (A : Type) :=
  | Ok (a : A)
  | Fault (f : fault).
Arguments Ok {A} _.
Arguments Fault {A} _.

#[export] Instance res_ret : MRet res := @Ok.
#[export] Instance res_bind : MBind res := λ A B f m,
  match m with Ok a => f a | Fault e => Fault e end.

Definition M (S A : Type) : Type := S → res (A * S).

#[export] Instance M_ret {S} : MRet (M S) := λ A a s, Ok (a, s).
#[export] Instance M_bind {S} : MBind (M S) := λ A B f m s,
  match m s with
  | Ok (a, s') => f a s'
  | Fault e => Fault e
  end.

Definition fail {S A} (e : fault) : M S A := λ _, Fault e.
Definition get {S} : M S S := λ s, Ok (s, s).
Definition gets {S A} (f : S → A) : M S A := λ s, Ok (f s, s).
Definition put {S} (s : S) : M S () := λ _, Ok ((), s).
Definition modify {S} (f : S → S) : M S () := λ s, Ok ((), f s).
Definition assert_ {S} (b : bool) : M S () :=
  λ s, if b then Ok ((), s) else Fault AssertFailed.
Definition when {S} (b : bool) (m : M S ()) : M S () := if b then m else mret ().

(** A pure computation that can fault. *)
Definition lift_res {S A} (r : res A) : M S A := λ s,
  match r with
  | Ok a => Ok (a, s)
  | Fault e => Fault e
  end.

(** A dereference of a pointer that may be null. *)
Definition deref {S A} (p : option A) : M S A := λ s,
  match p with
  | Some a => Ok (a, s)
  | None => Fault NullDeref
  end.

(** A computation on a part of the state. *)
Definition zoom {S T A} (g : S → T) (upd : T → S → S) (m : M T A) : M S A := λ s,
  match m (g s) with
  | Ok (a, t) => Ok (a, upd t s)
  | Fault e => Fault e
  end.

(** An operation of the environment, which never faults by itself. *)
Definition env {S W A} (g : S → W) (upd : W → S → S) (f : W → A * W) : M S A := λ s,
  let '(a, w) := f (g s) in Ok (a, upd w s).

Lemma bind_ret_l {S A B} (a : A) (f : A → M S B) s : (mret a ≫= f) s = f a s.
Proof. reflexivity. Qed.

Lemma bind_unfold {S A B} (m : M S A) (f : A → M S B) s :
  (m ≫= f) s = match m s with Ok (a, s') => f a s' | Fault e => Fault e end.
Proof. reflexivity. Qed.

Lemma bind_Ok {S A B} (m : M S A) (f : A → M S B) s b s' :
  (m ≫= f) s = Ok (b, s') → ∃ a s1, m s = Ok (a, s1) ∧ f a s1 = Ok (b, s').
Proof. rewrite bind_unfold. destruct (m s) as [[a s1]|] eqn:?; [eauto|done]. Qed.

(** * Weakest preconditions

    [wp F m Q s]: running [m] from [s] either ends in a state and with a value
    that satisfy [Q], or in a fault that [F] allows. *)
Definition wp {S A} (F : fault → Prop) (m : M S A) (Q : A → S → Prop) (s : S) : Prop :=
  match m s with
  | Ok (a, s') => Q a s'
  | Fault e => F e
  end.

Definition no_fault (_ : fault) : Prop := False.

Section wp.
Context {S : Type}.
Implicit Types (F : fault → Prop) (s : S).

Lemma wp_bind {A B} F (m : M S A) (f : A → M S B) (Q : B → S → Prop) s :
  wp F m (λ a, wp F (f a) Q) s → wp F (m ≫= f) Q s.
Proof. unfold wp. rewrite bind_unfold. by destruct (m s) as [[??]|]. Qed.

Lemma wp_mono {A} F (m : M S A) (P Q : A → S → Prop) s :
  wp F m P s → (∀ a s', P a s' → Q a s') → wp F m Q s.
Proof. unfold wp. destruct (m s) as [[??]|]; eauto. Qed.

Lemma wp_mono_fault {A} F G (m : M S A) (Q : A → S → Prop) s :
  wp F m Q s → (∀ e, F e → G e) → wp G m Q s.
Proof. unfold wp. destruct (m s) as [[??]|]; eauto. Qed.

Lemma wp_ret {A} F (a : A) (Q : A → S → Prop) s : Q a s → wp F (mret a) Q s.
Proof. done. Qed.

Lemma wp_get F (Q : S → S → Prop) s : Q s s → wp F get Q s.
Proof. done. Qed.

Lemma wp_gets {A} F (f : S → A) (Q : A → S → Prop) s : Q (f s) s → wp F (gets f) Q s.
Proof. done. Qed.

Lemma wp_put F t (Q : () → S → Prop) s : Q () t → wp F (put t) Q s.
Proof. done. Qed.

Lemma wp_modify F f (Q : () → S → Prop) s : Q () (f s) → wp F (modify f) Q s.
Proof. done. Qed.

Lemma wp_fail {A} (F : fault → Prop) e (Q : A → S → Prop) s : F e → wp F (fail e) Q s.
Proof. done. Qed.

Lemma wp_assert (F : fault → Prop) b (Q : () → S → Prop) s :
  (b = true → Q () s) → (b = false → F AssertFailed) → wp F (assert_ b) Q s.
Proof. unfold wp, assert_. destruct b; auto. Qed.

Lemma wp_assert_true F b (Q : () → S → Prop) s :
  b = true → Q () s → wp F (assert_ b) Q s.
Proof. by intros ->. Qed.

Lemma wp_when F b m (Q : () → S → Prop) s :
  (b = true → wp F m Q s) → (b = false → Q () s) → wp F (when b m) Q s.
Proof. destruct b; cbn; intros H1 H2; [by apply H1 | by apply wp_ret, H2]. Qed.

Lemma wp_if {A} F (b : bool) (m1 m2 : M S A) (Q : A → S → Prop) s :
  (b = true → wp F m1 Q s) → (b = false → wp F m2 Q s) →
  wp F (if b then m1 else m2) Q s.
Proof. destruct b; auto. Qed.

Lemma wp_deref {A} (F : fault → Prop) (p : option A) (Q : A → S → Prop) s :
  (∀ a, p = Some a → Q a s) → (p = None → F NullDeref) → wp F (deref p) Q s.
Proof. unfold wp, deref. destruct p; auto. Qed.

Lemma wp_lift_res {A} (F : fault → Prop) (r : res A) (Q : A → S → Prop) s :
  (∀ a, r = Ok a → Q a s) → (∀ e, r = Fault e → F e) → wp F (lift_res r) Q s.
Proof. unfold wp, lift_res. destruct r; auto. Qed.

Lemma wp_deref_Some {A} F (p : option A) a (Q : A → S → Prop) s :
  p = Some a → Q a s → wp F (deref p) Q s.
Proof. by intros ->. Qed.

Lemma wp_lift_Ok {A} F (r : res A) a (Q : A → S → Prop) s :
  r = Ok a → Q a s → wp F (lift_res r) Q s.
Proof. by intros ->. Qed.

Lemma wp_zoom {T A} F (g : S → T) (upd : T → S → S) (m : M T A) (Q : A → S → Prop) s :
  wp F m (λ a t, Q a (upd t s)) (g s) → wp F (zoom g upd m) Q s.
Proof. unfold wp, zoom. by destruct (m (g s)) as [[??]|]. Qed.

Lemma wp_env {W A} F (g : S → W) (upd : W → S → S) (f : W → A * W) (Q : A → S → Prop) s :
  (∀ a w, f (g s) = (a, w) → Q a (upd w s)) → wp F (env g upd f) Q s.
Proof. unfold wp, env. destruct (f (g s)) as [a w] eqn:E. eauto. Qed.

(** A run without faults ends in a state that satisfies the postcondition. *)
Lemma wp_total {A} (m : M S A) (Q : A → S → Prop) s :
  wp no_fault m Q s → ∃ a s', m s = Ok (a, s') ∧ Q a s'.
Proof. unfold wp. destruct (m s) as [[a s']|]; [eauto|done]. Qed.

Lemma wp_Ok {A} F (m : M S A) (Q : A → S → Prop) s a s' :
  wp F m Q s → m s = Ok (a, s') → Q a s'.
Proof. unfold wp. intros H E. by rewrite E in H. Qed.

(** What holds of a result holds of it as the result of the run. *)
Lemma wp_with_run {A} F (m : M S A) (Q : A → S → Prop) s :
  wp F m Q s → wp F m (λ a s', m s = Ok (a, s') ∧ Q a s') s.
Proof. unfold wp. by destruct (m s) as [[a s']|]. Qed.

(** A run that certainly ends in the fault [e]. *)
Lemma wp_faults {A} (m : M S A) e s : wp (eq e) m (λ _ _, False) s → m s = Fault e.
Proof. unfold wp. destruct (m s) as [[??]|]; [done|by intros ->]. Qed.

Lemma wp_no_fault {A} F (m : M S A) (Q : A → S → Prop) s : wp no_fault m Q s → wp F m Q s.
Proof. intros Hm. eapply wp_mono_fault; [exact Hm|done]. Qed.

Lemma wp_conj {A} F G (m : M S A) (P Q : A → S → Prop) s :
  wp F m P s → wp G m Q s → wp F m (λ a s', P a s' ∧ Q a s') s.
Proof. unfold wp. destruct (m s) as [[??]|]; auto. Qed.

(** A program that certainly goes on as [k] from a state that satisfies [P]. *)
Lemma wp_tail {A} (m k : M S A) (P : S → Prop) s :
  (∀ F Q, (∀ s', P s' → wp F k Q s') → wp F m Q s) → ∃ s', P s' ∧ m s = k s'.
Proof.
  intros H.
  specialize (H (λ e, ∃ s', P s' ∧ k s' = Fault e) (λ a t, ∃ s', P s' ∧ k s' = Ok (a, t))).
  unfold wp in H. destruct (m s) as [[a t]|e].
  - destruct H as (s' & Hs' & E); [|by exists s'].
    intros s' Hs'. destruct (k s') as [[??]|] eqn:?; eauto.
  - destruct H as (s' & Hs' & E); [|by exists s'].
    intros s' Hs'. destruct (k s') as [[??]|] eqn:?; eauto.
Qed.

(** A part of a program whose run is known. *)
Lemma wp_run {A B} F (m : M S A) (f : A → M S B) (Q : B → S → Prop) s a s' :
  m s = Ok (a, s') → wp F (f a) Q s' → wp F (m ≫= f) Q s.
Proof. intros E Hf. apply wp_bind. unfold wp at 1. by rewrite E. Qed.

Lemma bind_run {A B} (m : M S A) (f : A → M S B) s a s' :
  m s = Ok (a, s') → (m ≫= f) s = f a s'.
Proof. rewrite bind_unfold. by intros ->. Qed.

Lemma wp_Fault {A} F (m : M S A) (Q : A → S → Prop) s e :
  wp F m Q s → m s = Fault e → F e.
Proof. unfold wp. intros H E. by rewrite E in H. Qed.
End wp.

(** * Computations with loops *)

(** A loop by its rounds: [None] is the way to the next one, [Some a] leaves it. *)
Fixpoint loop {S A} (step : M S (option A)) (fuel : nat) : M S A :=
  match fuel with
  | O => fail OutOfFuel
  | Datatypes.S fuel => r ← step; match r with Some a => mret a | None => loop step fuel end
  end.

(** The rounds do not go on for ever. *)
Definition finite {S A} (step : M S (option A)) : Prop :=
  ∀ s, Acc (λ s1 s, step s = Ok (None, s1)) s.

(** A computation whose loops take fuel: it has no fault, [Q] holds when it
    returns, and if its loops end, which [T] says, it returns with all fuel from
    some amount on, always the same. *)
Definition ends {S A} (T : Prop) (m : nat → M S A) (Q : A → S → Prop) (s : S) : Prop :=
  (∀ fuel, wp (eq OutOfFuel) (m fuel) Q s) ∧
  (T → ∃ n a s', Q a s' ∧ ∀ fuel, (n ≤ fuel)%nat → m fuel s = Ok (a, s')).

Section ends.
Context {S : Type} (T : Prop).

Lemma ends_const {A} (m : M S A) (Q : A → S → Prop) s :
  wp no_fault m Q s → ends T (λ _, m) Q s.
Proof using Type.
  intros Hm. split; [intros _; by apply wp_no_fault|]. intros _.
  destruct (wp_total _ _ _ Hm) as (a & s' & E & Ha). by exists 0%nat, a, s'.
Qed.

Lemma ends_mono {A} (m : nat → M S A) (R Q : A → S → Prop) s :
  ends T m R s → (∀ a s', R a s' → Q a s') → ends T m Q s.
Proof using Type.
  intros [Hp Ht] HRQ. split; [intros fuel; by eapply wp_mono|]. intros HT.
  destruct (Ht HT) as (n & a & s' & Ha & Hn). exists n, a, s'. auto.
Qed.

Lemma ends_weaken {A} (T' : Prop) (m : nat → M S A) (Q : A → S → Prop) s :
  ends T m Q s → (T' → T) → ends T' m Q s.
Proof using Type. intros [Hp Ht] HT. split; auto. Qed.

Lemma ends_bind {A B} (m : nat → M S A) (k : nat → A → M S B) R Q s :
  ends T m R s → (∀ a s', R a s' → ends T (λ fuel, k fuel a) Q s') → ends T (λ fuel, m fuel ≫= k fuel) Q s.
Proof using Type.
  intros [Hp Ht] Hk. split.
  - intros fuel. apply wp_bind. eapply wp_mono; [apply Hp|]. intros a s' Ha. by apply (Hk a s' Ha).
  - intros HT. destruct (Ht HT) as (n & a & s1 & Ha & Hn).
    destruct (proj2 (Hk a s1 Ha) HT) as (n' & b & s2 & Hb & Hn'). exists (n `max` n')%nat, b, s2.
    split; [done|]. intros fuel Hf. rewrite (bind_run _ _ _ _ _ (Hn fuel ltac:(lia))). apply Hn'. lia.
Qed.

(** A statement without a loop, and the rest. *)
Lemma ends_step {A B} (m : M S A) (k : nat → A → M S B) Q s :
  wp no_fault m (λ a, ends T (λ fuel, k fuel a) Q) s → ends T (λ fuel, m ≫= k fuel) Q s.
Proof using Type. intros Hm. apply (ends_bind (λ _, m) k _ _ _ (ends_const _ _ _ Hm)). auto. Qed.

Lemma ends_after {A B} (m : M S A) (k : nat → A → M S B) Q s a s' :
  m s = Ok (a, s') → ends T (λ fuel, k fuel a) Q s' → ends T (λ fuel, m ≫= k fuel) Q s.
Proof using Type. intros E Hk. apply ends_step. unfold wp. by rewrite E. Qed.

Lemma ends_ext {A} (m m' : nat → M S A) (Q : A → S → Prop) s :
  ends T m Q s → (∀ fuel, m' fuel s = m fuel s) → ends T m' Q s.
Proof using Type.
  intros [Hp Ht] E. split; [intros fuel; unfold wp; rewrite E; apply Hp|]. intros HT.
  destruct (Ht HT) as (n & a & s' & Ha & Hn). exists n, a, s'. split; [done|]. intros fuel Hf. rewrite E. auto.
Qed.

(** A loop keeps the invariant of its rounds, and returns when they end. *)
Lemma ends_loop {A} (step : M S (option A)) (I : S → Prop) (R : A → S → Prop) s :
  (∀ s, I s → wp no_fault step (λ r s', match r with Some a => R a s' | None => I s' end) s) →
  I s → (T → finite step) → ends T (loop step) R s.
Proof using Type.
  intros Hstep Hs Hfin. split.
  - intros fuel. revert s Hs. induction fuel as [|fuel IH]; intros s Hs; [by apply wp_fail|]. cbn [loop].
    apply wp_bind. eapply wp_mono; [by apply wp_no_fault, Hstep|].
    intros [a|] s' Hs'; [by apply wp_ret|by apply IH].
  - intros HT. induction (Hfin HT s) as [s _ IH].
    destruct (wp_total _ _ _ (Hstep s Hs)) as (r & s1 & E & Hr). destruct r as [a|].
    + exists 1%nat, a, s1. split; [done|]. intros [|fuel] Hf; [lia|]. cbn [loop].
      by rewrite (bind_run _ _ _ _ _ E).
    + destruct (IH s1 E Hr) as (n & a & s' & HR & Hn). exists (Datatypes.S n), a, s'. split; [done|].
      intros [|fuel] Hf; [lia|]. cbn [loop]. rewrite (bind_run _ _ _ _ _ E). apply Hn. lia.
Qed.
End ends.

(** * Machine integers *)

(** [u8], [u16], [u32] are the conversions to the unsigned types of those
    widths; [s32] reads a 32-bit pattern as a two's complement [int]. *)
Definition u8 (x : Z) : Z := x mod 2^8.
Definition u16 (x : Z) : Z := x mod 2^16.
Definition u32 (x : Z) : Z := x mod 2^32.
Definition s32 (x : Z) : Z := if u32 x <? 2^31 then u32 x else u32 x - 2^32.

Definition is_u8 (x : Z) : Prop := 0 ≤ x < 2^8.
Definition is_u16 (x : Z) : Prop := 0 ≤ x < 2^16.
Definition is_u32 (x : Z) : Prop := 0 ≤ x < 2^32.

Lemma u8_id x : is_u8 x → u8 x = x.
Proof. apply Z.mod_small. Qed.
Lemma u16_id x : is_u16 x → u16 x = x.
Proof. apply Z.mod_small. Qed.
Lemma u32_id x : is_u32 x → u32 x = x.
Proof. apply Z.mod_small. Qed.
Lemma u8_range x : is_u8 (u8 x).
Proof. by apply Z.mod_pos_bound. Qed.
Lemma u16_range x : is_u16 (u16 x).
Proof. by apply Z.mod_pos_bound. Qed.
Lemma u32_range x : is_u32 (u32 x).
Proof. by apply Z.mod_pos_bound. Qed.

Lemma s32_small x : -2^31 ≤ x < 2^31 → s32 x = x.
Proof.
  intros Hx. unfold s32, u32. destruct (decide (0 ≤ x)).
  - rewrite Z.mod_small by lia. destruct (Z.ltb_spec x (2^31)); lia.
  - replace (x mod 2^32) with (x + 2^32).
    + destruct (Z.ltb_spec (x + 2^32) (2^31)); lia.
    + apply Z.mod_unique with (-1); lia.
Qed.

Lemma s32_u32 x : s32 (u32 x) = s32 x.
Proof. unfold s32, u32. by rewrite Z.mod_mod. Qed.

(** The signed difference of two wrapped counters is their true difference as
    long as that is in range: the idiom [(int) (a - b)] of the tick code. *)
Lemma s32_sub_u32 x y : s32 (u32 x - u32 y) = s32 (x - y).
Proof. unfold s32, u32. by rewrite <-Zminus_mod. Qed.

(** The width of [size_t], which is 32 on AArch32 and 64 on AArch64. *)
Class Target := {
  size_bits : Z;
  size_bits_ok : size_bits = 32 ∨ size_bits = 64
}.
Definition usize `{Target} (x : Z) : Z := x mod 2^size_bits.

Lemma usize_bound `{Target} : 2^32 ≤ 2^size_bits.
Proof. destruct size_bits_ok as [-> | ->]; lia. Qed.

Lemma usize_id `{Target} x : 0 ≤ x < 2^32 → usize x = x.
Proof. intros ?. apply Z.mod_small. pose proof usize_bound. lia. Qed.

Definition aarch32 : Target := {| size_bits := 32; size_bits_ok := or_introl eq_refl |}.
Definition aarch64 : Target := {| size_bits := 64; size_bits_ok := or_intror eq_refl |}.

(** * Memory objects

    An array of bytes is the list of its cells, and a cell that was never
    written is [None]: [new u8[n]] and an automatic array start like that. *)
Abbreviation cell := (option Z).
Definition uninit (n : Z) : list cell := replicate (Z.to_nat n) None.

Definition rd (buf : list cell) (i : Z) : res Z :=
  if i <? 0 then Fault BadAccess
  else match buf !! Z.to_nat i with
       | None => Fault BadAccess
       | Some None => Fault Uninit
       | Some (Some v) => Ok v
       end.

(** Copying a cell does not fault on an uninitialised one. *)
Definition rd_cell (buf : list cell) (i : Z) : res cell :=
  if i <? 0 then Fault BadAccess
  else match buf !! Z.to_nat i with
       | None => Fault BadAccess
       | Some c => Ok c
       end.

Definition wr_cell (buf : list cell) (i : Z) (c : cell) : res (list cell) :=
  if (i <? 0) || (Z.of_nat (length buf) <=? i) then Fault BadAccess
  else Ok (<[Z.to_nat i := c]> buf).

Definition wr (buf : list cell) (i v : Z) : res (list cell) := wr_cell buf i (Some v).

(** [memcpy (buf + i, bytes, length bytes)]. *)
Fixpoint wr_bytes (buf : list cell) (i : Z) (bytes : list Z) : res (list cell) :=
  match bytes with
  | [] => Ok buf
  | b :: bs => match wr buf i b with
               | Ok buf' => wr_bytes buf' (i + 1) bs
               | Fault e => Fault e
               end
  end.

(** The [n] bytes at [buf + i], all of which have to be initialised. *)
Fixpoint rd_bytes (buf : list cell) (i : Z) (n : nat) : res (list Z) :=
  match n with
  | O => Ok []
  | S n => match rd buf i with
           | Ok v => match rd_bytes buf (i + 1) n with
                     | Ok vs => Ok (v :: vs)
                     | Fault e => Fault e
                     end
           | Fault e => Fault e
           end
  end.

(** [holds buf i bs]: the bytes [bs] are in the array [buf] from index [i] on. *)
Definition holds (buf : list cell) (i : Z) (bs : list Z) : Prop :=
  0 ≤ i ∧ ∀ j b, bs !! j = Some b → buf !! (Z.to_nat i + j)%nat = Some (Some b).

Lemma rd_Ok buf i v : rd buf i = Ok v ↔ 0 ≤ i ∧ buf !! Z.to_nat i = Some (Some v).
Proof.
  unfold rd. destruct (Z.ltb_spec i 0); [split; [done|lia]|].
  destruct (buf !! Z.to_nat i) as [[w|]|]; split; try done.
  - by intros [= ->].
  - by intros [_ [= ->]].
  - by intros [_ ?].
  - by intros [_ ?].
Qed.

Lemma wr_cell_Ok buf i c :
  0 ≤ i < Z.of_nat (length buf) → wr_cell buf i c = Ok (<[Z.to_nat i := c]> buf).
Proof.
  intros ?. unfold wr_cell.
  destruct (Z.ltb_spec i 0); [lia|].
  by destruct (Z.leb_spec (Z.of_nat (length buf)) i); [lia|].
Qed.

Lemma rd_cell_Ok buf i :
  0 ≤ i < Z.of_nat (length buf) → ∃ c, buf !! Z.to_nat i = Some c ∧ rd_cell buf i = Ok c.
Proof.
  intros ?. destruct (lookup_lt_is_Some_2 buf (Z.to_nat i)) as [c Hc]; [lia|].
  exists c. split; [done|]. unfold rd_cell. rewrite Hc.
  by destruct (Z.ltb_spec i 0); [lia|].
Qed.

Lemma holds_nil buf i : 0 ≤ i → holds buf i [].
Proof. by split. Qed.

Lemma holds_cons buf i b bs :
  holds buf i (b :: bs) ↔ rd buf i = Ok b ∧ holds buf (i + 1) bs.
Proof.
  rewrite rd_Ok. split.
  - intros [Hi H]. repeat split; [done| |lia|].
    + specialize (H 0%nat b eq_refl). by rewrite Nat.add_0_r in H.
    + intros j c Hj. specialize (H (S j) c Hj). rewrite <-H. f_equal. lia.
  - intros [[Hi Hb] [_ H]]. split; [done|]. intros [|j] c Hj; cbn in Hj.
    + simplify_eq. by rewrite Nat.add_0_r.
    + rewrite <-(H j c Hj). f_equal. lia.
Qed.

Lemma holds_app buf i xs ys :
  holds buf i (xs ++ ys) ↔ holds buf i xs ∧ holds buf (i + Z.of_nat (length xs)) ys.
Proof.
  revert i. induction xs as [|x xs IH]; intros i; cbn [app length].
  - rewrite Z.add_0_r. split; [|by intros [_ ?]].
    intros H. split; [|done]. apply holds_nil, H.
  - rewrite !holds_cons, IH.
    replace (i + 1 + Z.of_nat (length xs)) with (i + Z.of_nat (S (length xs))) by lia.
    tauto.
Qed.

Lemma holds_rd buf i bs j b :
  holds buf i bs → 0 ≤ j → bs !! Z.to_nat j = Some b → rd buf (i + j) = Ok b.
Proof.
  intros [Hi H] Hj Hb. apply rd_Ok. split; [lia|].
  rewrite <-(H _ _ Hb). f_equal. lia.
Qed.

Lemma holds_rd_bytes buf i bs : holds buf i bs → rd_bytes buf i (length bs) = Ok bs.
Proof.
  revert i. induction bs as [|b bs IH]; intros i H; [done|].
  apply holds_cons in H as [Hb H]. cbn. by rewrite Hb, (IH _ H).
Qed.

Lemma holds_frame buf buf' i bs :
  holds buf i bs →
  (∀ j, i ≤ j < i + Z.of_nat (length bs) → buf' !! Z.to_nat j = buf !! Z.to_nat j) →
  holds buf' i bs.
Proof.
  intros [Hi H] Hf. split; [done|]. intros j b Hj.
  rewrite <-(H j b Hj). pose proof (lookup_lt_Some _ _ _ Hj).
  replace (Z.to_nat i + j)%nat with (Z.to_nat (i + Z.of_nat j)) by lia.
  apply Hf. lia.
Qed.

Lemma wr_bytes_Ok buf i bs :
  0 ≤ i → i + Z.of_nat (length bs) ≤ Z.of_nat (length buf) →
  ∃ buf', wr_bytes buf i bs = Ok buf' ∧ length buf' = length buf ∧ holds buf' i bs ∧
    ∀ j, (j < Z.to_nat i ∨ Z.to_nat i + length bs ≤ j)%nat → buf' !! j = buf !! j.
Proof.
  revert buf i. induction bs as [|b bs IH]; intros buf i Hi Hlen; cbn [wr_bytes length] in *.
  { exists buf. split_and!; auto using holds_nil. }
  unfold wr. rewrite wr_cell_Ok by lia.
  destruct (IH (<[Z.to_nat i := Some b]> buf) (i + 1)) as (buf' & E & Hl & Hh & Hf).
  { lia. }
  { rewrite length_insert. lia. }
  exists buf'. split_and!; [done|by rewrite Hl, length_insert| |].
  - apply holds_cons. split; [|done]. apply rd_Ok. split; [done|].
    rewrite Hf by lia. apply list_lookup_insert_eq. lia.
  - intros j Hj. rewrite Hf by lia. apply list_lookup_insert_ne. lia.
Qed.

Lemma wr_bytes_app buf i xs ys :
  wr_bytes buf i (xs ++ ys) =
  match wr_bytes buf i xs with
  | Ok buf' => wr_bytes buf' (i + Z.of_nat (length xs)) ys
  | Fault e => Fault e
  end.
Proof.
  revert buf i. induction xs as [|x xs IH]; intros buf i; cbn [app wr_bytes length].
  - by rewrite Z.add_0_r.
  - destruct (wr buf i x) as [buf'|]; [|done]. rewrite IH.
    by replace (i + 1 + Z.of_nat (length xs)) with (i + Z.of_nat (S (length xs))) by lia.
Qed.

(** Strings of the source, as lists of character codes without the
    terminating zero. *)
Definition cstr (s : string) : list Z :=
  (λ c, Z.of_N (Ascii.N_of_ascii c)) <$> String.list_ascii_of_string s.

Definition is_byte (x : Z) : Prop := is_u8 x.
#[export] Instance is_u8_dec x : Decision (is_u8 x).
Proof. unfold is_u8. apply _. Defined.

(** [lia] for goals with divisions and remainders by constants. *)
Ltac zdiv := Z.to_euclidean_division_equations; lia.

(** A decidable property of a small range of integers holds if it computes to
    [true] on each of them. *)
Lemma Z_range_forallb (f : Z → bool) (lo n : Z) :
  forallb f (seqZ lo n) = true → ∀ x, lo ≤ x < lo + n → f x = true.
Proof.
  intros H x Hx. rewrite forallb_forall in H. apply H.
  apply list_elem_of_In, elem_of_seqZ. lia.
Qed.

Lemma land_127 x : Z.land x 0x7F = x mod 128.
Proof. change 0x7F with (Z.ones 7). by rewrite Z.land_ones. Qed.
Lemma land_255 x : Z.land x 0xFF = x mod 256.
Proof. change 0xFF with (Z.ones 8). by rewrite Z.land_ones. Qed.

Lemma lor_128 x : 0 ≤ x < 128 → Z.lor x 0x80 = x + 128.
Proof.
  intros Hx. apply Z.eqb_eq.
  by apply (Z_range_forallb (λ x, Z.lor x 0x80 =? x + 128) 0 128).
Qed.

(** The two bytes of a 16-bit word in network order. *)
Definition be16 (x : Z) : list Z := [x / 256; x mod 256].

Lemma be16_bytes x : is_u16 x → Forall is_byte (be16 x).
Proof. intros ?. repeat constructor; unfold is_u16, is_byte, is_u8 in *; zdiv. Qed.

Lemma land_disjoint a b n :
  0 ≤ n → 0 ≤ b < 2^n → Z.land (Z.shiftl a n) b = 0.
Proof.
  intros Hn Hb. apply Z.bits_inj'. intros i Hi.
  rewrite Z.land_spec, Z.bits_0, Z.shiftl_spec by done.
  destruct (decide (i < n)).
  - by rewrite Z.testbit_neg_r by lia.
  - rewrite <-(Z.mod_small b (2^n)) by done.
    by rewrite Z.mod_pow2_bits_high, andb_false_r by lia.
Qed.

(** Joining a shifted value with a smaller one is addition. *)
Lemma lor_shiftl_add a b n :
  0 ≤ n → 0 ≤ b < 2^n → Z.lor (Z.shiftl a n) b = a * 2^n + b.
Proof.
  intros Hn Hb. rewrite <-Z.add_nocarry_lor by (by apply land_disjoint).
  by rewrite Z.shiftl_mul_pow2.
Qed.

(** The C string at the start of an array: the bytes before the first zero. *)
Fixpoint c_string (buf : list cell) : res (list Z) :=
  match buf with
  | [] => Fault BadAccess
  | None :: _ => Fault Uninit
  | Some v :: buf =>
      if v =? 0 then Ok []
      else match c_string buf with
           | Ok s => Ok (v :: s)
           | Fault e => Fault e
           end
  end.

(** The part of a string before the first zero. *)
Fixpoint until_nul (s : list Z) : list Z :=
  match s with
  | [] => []
  | c :: s => if c =? 0 then [] else c :: until_nul s
  end.

Lemma c_string_holds buf s : holds buf 0 (s ++ [0]) → c_string buf = Ok (until_nul s).
Proof.
  revert buf. induction s as [|c s IH]; intros buf [_ H].
  - specialize (H 0%nat 0 eq_refl). destruct buf as [|[v|] buf]; simplify_eq/=. done.
  - pose proof (H 0%nat c eq_refl) as H0. destruct buf as [|[v|] buf]; simplify_eq/=.
    destruct (Z.eqb_spec c 0); [done|]. rewrite (IH buf); [done|].
    split; [done|]. intros j b Hj. by apply (H (S j) b).
Qed.

Lemma until_nul_id s : Forall (λ c, c ≠ 0) s → until_nul s = s.
Proof.
  induction 1 as [|c s Hc Hs IH]; [done|]. cbn. destruct (Z.eqb_spec c 0); [done|by rewrite IH].
Qed.

(** * Automation *)

Create HintDb circle.
#[export] Hint Resolve u8_range u16_range u32_range : circle.
#[export] Hint Extern 1 (_ ≤ _) => lia : circle.
#[export] Hint Extern 1 (_ < _) => lia : circle.

Ltac unfold_ints := unfold is_byte, is_u8, is_u16, is_u32 in *.

(** Split the boolean comparison of integers a goal or hypothesis tests. *)
Ltac zcase :=
  match goal with
  | |- context [?x <? ?y] => destruct (Z.ltb_spec x y)
  | |- context [?x <=? ?y] => destruct (Z.leb_spec x y)
  | |- context [?x >? ?y] => rewrite (Z.gtb_ltb x y)
  | |- context [?x >=? ?y] => rewrite (Z.geb_leb x y)
  | |- context [?x =? ?y] => destruct (Z.eqb_spec x y)
  end.

(** One step of symbolic execution of a monadic program in a [wp] goal. *)
Ltac wp_step :=
  lazymatch goal with
  | |- wp _ (_ ≫= _) _ _ => apply wp_bind
  | |- wp _ (mret _) _ _ => apply wp_ret
  | |- wp _ get _ _ => apply wp_get
  | |- wp _ (gets _) _ _ => apply wp_gets
  | |- wp _ (put _) _ _ => apply wp_put
  | |- wp _ (modify _) _ _ => apply wp_modify
  | |- wp _ (zoom _ _ _) _ _ => apply wp_zoom
  end; cbv beta zeta iota.
Ltac wp_steps := repeat wp_step.
