(* ===== verification/Libc.v ===== *)
(** The functions of the C library the modelled code calls on strings.

    A C string that is only read is the list of its characters without the
    terminating zero; [strtok_r], which writes to its argument, works on the
    cells of the array that holds the string.  [unsigned long] has the width of
    [size_t] on the targets of the library. *)
From stdpp Require Import base numbers list gmap option strings.
From S2P Require Import Prelude.

Module Libc.
Definition isspace (c : Z) : bool := (c =? 32) || ((9 <=? c) && (c <=? 13)).
Definition isdigit (c : Z) : bool := (48 <=? c) && (c <=? 57).
Definition tolower (c : Z) : Z := if (65 <=? c) && (c <=? 90) then c + 32 else c.

(** [strcmp (s, t) == 0] and [strcasecmp (s, t) == 0]. *)
Definition streq (s t : list Z) : bool := bool_decide (s = t).
Definition strcaseeq (s t : list Z) : bool := bool_decide (tolower <$> s = tolower <$> t).

(** The value of a digit in a base of at most 36. *)
Definition digit (base c : Z) : option Z :=
  let d := if isdigit c then c - 48
           else if (97 <=? tolower c) && (tolower c <=? 122) then tolower c - 87
           else 36 in
  if d <? base then Some d else None.

(** The number at the start of a string, continuing [acc], and the rest. *)
Fixpoint digits (base acc : Z) (s : list Z) : Z * list Z :=
  match s with
  | [] => (acc, [])
  | c :: s' => match digit base c with
               | Some d => digits base (acc * base + d) s'
               | None => (acc, s)
               end
  end.

Fixpoint skip_spaces (s : list Z) : list Z :=
  match s with
  | [] => []
  | c :: s' => if isspace c then skip_spaces s' else s
  end.

(** The sign: [true] for a minus. *)
Definition sign (s : list Z) : bool * list Z :=
  match s with
  | c :: s' => if c =? 45 then (true, s') else if c =? 43 then (false, s') else (false, s)
  | [] => (false, [])
  end.

(** The prefix [0x] in base 16, which counts only before a digit. *)
Definition prefix_0x (base : Z) (s : list Z) : list Z :=
  match s with
  | z :: x :: d :: _ =>
      if (base =? 16) && (z =? 48) && (tolower x =? 120) && bool_decide (is_Some (digit 16 d))
      then drop 2 s else s
  | _ => s
  end.

(** The number [strtoul] and [strtol] read: sign, absolute value and the rest;
    [None] when there is no digit. *)
Definition number (base : Z) (s : list Z) : option (bool * Z * list Z) :=
  let '(neg, s) := sign (skip_spaces s) in
  let s := prefix_0x base s in
  match s with
  | c :: _ => if bool_decide (is_Some (digit base c))
              then let '(v, rest) := digits base 0 s in Some (neg, v, rest)
              else None
  | [] => None
  end.

(** [strtoul (s, &end, base)]: the value and the string [end] points to. *)
Definition strtoul `{Target} (s : list Z) (base : Z) : Z * list Z :=
  match number base s with
  | None => (0, s)
  | Some (neg, v, rest) =>
      (if v >=? 2^size_bits then 2^size_bits - 1 else if neg then usize (- v) else v, rest)
  end.

(** [atoi (s)], which is [(int) strtol (s, NULL, 10)]. *)
Definition atoi `{Target} (s : list Z) : Z :=
  match number 10 s with
  | None => 0
  | Some (neg, v, _) =>
      let m := 2^(size_bits - 1) in
      s32 (if neg then Z.max (- m) (- v) else Z.min (m - 1) v)
  end.

(** * [strtok_r] *)

Definition is_delim (delim : list Z) (c : Z) : bool := existsb (Z.eqb c) delim.

(** The first index from [i] on whose character does not satisfy [p]. *)
Fixpoint seek (p : Z → bool) (fuel : nat) (buf : list cell) (i : Z) : res Z :=
  match fuel with
  | O => Fault OutOfFuel
  | S fuel => match rd buf i with
              | Fault e => Fault e
              | Ok c => if p c then seek p fuel buf (i + 1) else Ok i
              end
  end.

(** [strtok_r (s, delim, &save)]; [s] and [save] are indices into the array.
    The results are the token, the array and the new value of [save]. *)
Definition strtok_r (buf : list cell) (s : option Z) (delim : list Z) (save : option Z) :
    res (option Z * list cell * option Z) :=
  match (match s with Some p => Some p | None => save end) with
  | None => Ok (None, buf, None)
  | Some p =>
      match seek (is_delim delim) (S (length buf)) buf p with
      | Fault e => Fault e
      | Ok p =>
          match rd buf p with
          | Fault e => Fault e
          | Ok c =>
              if c =? 0 then Ok (None, buf, None)
              else
                match seek (λ c, negb (is_delim delim c || (c =? 0))) (S (length buf)) buf p with
                | Fault e => Fault e
                | Ok e =>
                    match rd buf e with
                    | Fault e => Fault e
                    | Ok c =>
                        if c =? 0 then Ok (Some p, buf, None)
                        else match wr buf e 0 with
                             | Fault e => Fault e
                             | Ok buf => Ok (Some p, buf, Some (e + 1))
                             end
                    end
                end
          end
      end
  end.

(** The C string at the address [i] of an array. *)
Definition string_at (buf : list cell) (i : Z) : res (list Z) :=
  if i <? 0 then Fault BadAccess else c_string (drop (Z.to_nat i) buf).

(** ** What it does, on the string *)

(** The longest prefix of characters that satisfy [p], and the rest. *)
Fixpoint span (p : Z → bool) (s : list Z) : list Z * list Z :=
  match s with
  | [] => ([], [])
  | c :: s' => if p c then let '(a, b) := span p s' in (c :: a, b) else ([], s)
  end.

(** The first token of a string, with the delimiters before it and what follows
    the delimiter that ends it. *)
Definition token (delim s : list Z) : option (list Z * list Z * list Z) :=
  let '(pre, s) := span (is_delim delim) s in
  match s with
  | [] => None
  | _ => let '(tok, rest) := span (λ c, negb (is_delim delim c)) s in Some (pre, tok, tail rest)
  end.

Lemma span_spec p s :
  let '(a, b) := span p s in
  s = a ++ b ∧ Forall (λ c, p c = true) a ∧ (b = [] ∨ ∃ c b', b = c :: b' ∧ p c = false).
Proof.
  induction s as [|c s IH]; cbn; [by eauto using Forall_nil_2|].
  destruct (p c) eqn:E.
  - destruct (span p s) as [a b]. destruct IH as (-> & Ha & Hb). eauto using Forall_cons_2.
  - split_and!; [done|constructor|eauto].
Qed.

Lemma span_app p a c b :
  Forall (λ x, p x = true) a → p c = false → span p (a ++ c :: b) = (a, c :: b).
Proof.
  intros Ha Hc. induction Ha as [|x a Hx Ha IH]; cbn; [by rewrite Hc|]. by rewrite Hx, IH.
Qed.
Lemma span_all p a : Forall (λ x, p x = true) a → span p a = (a, []).
Proof. intros Ha. induction Ha as [|x a Hx Ha IH]; cbn; [done|]. by rewrite Hx, IH. Qed.

(** [holds_str buf i s]: the C string [s] is at index [i]. *)
Definition holds_str (buf : list cell) (i : Z) (s : list Z) : Prop :=
  holds buf i (s ++ [0]) ∧ Forall (λ c, c ≠ 0) s.

Lemma holds_str_rest buf i a b :
  holds_str buf i (a ++ b) → holds_str buf (i + Z.of_nat (length a)) b.
Proof.
  intros [Hh Hs]. apply Forall_app in Hs as [_ Hs]. split; [|done].
  rewrite <-app_assoc in Hh. by apply holds_app in Hh as [_ Hh].
Qed.

Lemma holds_str_length buf i s :
  holds_str buf i s → 0 ≤ i ∧ i + Z.of_nat (length s) < Z.of_nat (length buf).
Proof.
  intros [[Hi Hh] _]. split; [done|].
  specialize (Hh (length s) 0). rewrite lookup_app_r, Nat.sub_diag in Hh by done.
  pose proof (lookup_lt_Some _ _ _ (Hh eq_refl)). lia.
Qed.

Lemma string_at_holds buf i s : holds_str buf i s → string_at buf i = Ok s.
Proof.
  intros [Hh Hs]. unfold string_at. destruct (Z.ltb_spec i 0); [by destruct Hh; lia|].
  rewrite <-(until_nul_id s) by done. apply c_string_holds.
  destruct Hh as [_ Hh]. split; [done|]. intros j b Hj. rewrite lookup_drop. by apply Hh.
Qed.

Lemma seek_holds p fuel buf i a c b :
  Forall (λ x, p x = true) a → p c = false → holds buf i (a ++ c :: b) →
  (length a < fuel)%nat → seek p fuel buf i = Ok (i + Z.of_nat (length a)).
Proof.
  intros Ha Hc. revert i fuel. induction Ha as [|x a Hx Ha IH]; intros i [|fuel] Hh Hf;
    try (cbn in Hf; lia); cbn [app] in Hh; apply holds_cons in Hh as [Hr Hh]; cbn [seek]; rewrite Hr.
  - rewrite Hc. f_equal. cbn. lia.
  - rewrite Hx, (IH (i + 1)); [f_equal; cbn; lia|done|cbn in Hf; lia].
Qed.

(** [strtok_r] finds the token of the string at its argument and ends it. *)
Lemma strtok_r_spec buf s delim save p str :
  (match s with Some p => Some p | None => save end) = Some p →
  is_delim delim 0 = false → holds_str buf p str →
  match token delim str with
  | None => strtok_r buf s delim save = Ok (None, buf, None)
  | Some (pre, tok, rest) =>
      let e := p + Z.of_nat (length pre) + Z.of_nat (length tok) in
      ∃ buf' save', strtok_r buf s delim save = Ok (Some (p + Z.of_nat (length pre)), buf', save') ∧
        holds_str buf' (p + Z.of_nat (length pre)) tok ∧ length buf' = length buf ∧
        (∀ j, j ≠ Z.to_nat e → buf' !! j = buf !! j) ∧
        match save' with
        | None => rest = [] ∧ str = pre ++ tok ∧ buf' = buf
        | Some q => holds_str buf' q rest
        end
  end.
Proof.
  intros Hp H0 Hs. unfold strtok_r. rewrite Hp. unfold token.
  pose proof (holds_str_length _ _ _ Hs) as [Hi Hl].
  pose proof (span_spec (is_delim delim) str) as Hsp.
  destruct (span (is_delim delim) str) as [pre s1]. destruct Hsp as (-> & Hpre & Hs1).
  rewrite length_app in Hl. destruct s1 as [|c1 s1].
  { rewrite (seek_holds _ _ buf p pre 0 []); [|done|done|..].
    - apply (holds_str_rest _ _ pre []) in Hs as [Hs _]. cbn in Hs.
      apply holds_cons in Hs as [-> _]. done.
    - destruct Hs as [Hs _]. by rewrite app_nil_r in Hs.
    - lia. }
  destruct Hs1 as [|(c & b & [= <- <-] & Hc)]; [done|].
  pose proof (holds_str_rest _ _ pre _ Hs) as Hs1.
  assert (Hc0 : c1 ≠ 0) by (destruct Hs1 as [_ Hz]; by inversion Hz).
  rewrite (seek_holds _ _ buf p pre c1 (s1 ++ [0])); [|done|done| |lia].
  2: { destruct Hs as [Hs _]. by rewrite <-app_assoc in Hs. }
  set (p1 := p + Z.of_nat (length pre)) in *.
  assert (rd buf p1 = Ok c1) as ->. { destruct Hs1 as [Hs1 _]. by apply holds_cons in Hs1 as [? _]. }
  destruct (Z.eqb_spec c1 0); [done|].
  pose proof (span_spec (λ c, negb (is_delim delim c)) (c1 :: s1)) as Hsp.
  destruct (span _ (c1 :: s1)) as [tok s2] eqn:Esp. destruct Hsp as (Etok & Htok & Hs2).
  rewrite Etok in Hs1. pose proof (holds_str_rest _ _ tok _ Hs1) as Hs2'.
  pose proof (holds_str_length _ _ _ Hs2') as [Hi2 Hl2].
  assert (Htok0 : Forall (λ c, negb (is_delim delim c || (c =? 0)) = true) tok).
  { destruct Hs1 as [_ Hz]. apply Forall_app in Hz as [Hz _].
    apply Forall_forall. intros x Hx. rewrite Forall_forall in Htok, Hz.
    specialize (Htok x Hx). specialize (Hz x Hx). destruct (is_delim delim x); [done|].
    by destruct (Z.eqb_spec x 0). }
  destruct Hs2 as [->|(c2 & s3 & -> & Hc2)].
  - rewrite app_nil_r in *. rewrite (seek_holds _ _ buf p1 tok 0 []); [|done| |by destruct Hs1|].
    + destruct Hs2' as [Hs2' _]. cbn in Hs2'. apply holds_cons in Hs2' as [-> _]. cbn.
      exists buf, None. split_and!; try done. by rewrite Etok.
    + by rewrite H0.
    + cbn in Hl2. lia.
  - apply negb_false_iff in Hc2.
    rewrite (seek_holds _ _ buf p1 tok c2 (s3 ++ [0])); [|done| | |].
    2: { by rewrite Hc2. }
    2: { destruct Hs1 as [Hs1 _]. by rewrite <-app_assoc in Hs1. }
    2: { cbn in Hl2. lia. }
    assert (rd buf (p1 + Z.of_nat (length tok)) = Ok c2) as ->.
    { destruct Hs2' as [Hs2' _]. by apply holds_cons in Hs2' as [? _]. }
    destruct (Z.eqb_spec c2 0) as [->|Hc20]; [by rewrite H0 in Hc2|].
    unfold wr. rewrite wr_cell_Ok by (cbn in Hl2; lia). cbn [tail].
    eexists _, _. split_and!; [done| | | |].
    + split.
      * apply holds_app. split.
        -- apply holds_frame with buf.
           ++ destruct Hs1 as [Hs1 _]. rewrite <-app_assoc in Hs1. by apply holds_app in Hs1 as [? _].
           ++ intros j Hj. apply list_lookup_insert_ne. lia.
        -- apply holds_cons. split; [|apply holds_nil; lia].
           apply rd_Ok. split; [done|]. apply list_lookup_insert_eq. cbn in Hl2. lia.
      * destruct Hs1 as [_ Hz]. by apply Forall_app in Hz as [? _].
    + apply length_insert.
    + intros j Hj. by apply list_lookup_insert_ne.
    + split.
      * apply holds_frame with buf.
        -- destruct Hs2' as [Hs2' _]. by apply holds_cons in Hs2' as [_ ?].
        -- intros j Hj. apply list_lookup_insert_ne. lia.
      * destruct Hs2' as [_ Hz]. by inversion Hz.
Qed.

(** The string before the end of the token stays where it is. *)
Lemma holds_str_cut buf buf' i s k :
  holds_str buf i s → (k ≤ length s)%nat →
  (∀ j, (Z.to_nat i ≤ j < Z.to_nat i + k)%nat → buf' !! j = buf !! j) →
  rd buf' (i + Z.of_nat k) = Ok 0 → holds_str buf' i (take k s).
Proof.
  intros [[Hi Hh] Hz] Hk Hf Hr. split; [|by apply Forall_take].
  apply holds_app. split.
  - split; [done|]. intros j b Hj. rewrite lookup_take in Hj. case_decide; [|done].
    rewrite Hf by lia. apply Hh. by apply lookup_app_l_Some.
  - rewrite length_take, Nat.min_l by done. apply holds_cons. split; [done|]. apply holds_nil. lia.
Qed.
End Libc.
