(* ===== verification/Circle.v ===== *)
(** The interfaces of the Circle framework the modelled code calls.

    Circle is a git submodule of the repository, and its sources are not part
    of it: the sockets, the timer, the logger, the name resolver and the
    pointer list are type classes here.  An operational class lists the
    operations, and a law class states the documented behaviour the code
    relies on.  [ListPtrList] and [Script] are instances for the evaluation of
    concrete runs. *)
From stdpp Require Import base numbers list gmap option strings.
From S2P Require Import Prelude.

(** * Sockets, timer, logger and name resolution *)

Inductive TLogSeverity := LogPanic | LogError | LogWarning | LogNotice | LogDebug.

(** An argument of a [printf]-like function. *)
Inductive fmt_arg :=
  | ArgS (s : list Z)
  | ArgZ (z : Z).

(** The operations take the state [W] of the world outside the program.
    [CNetSocket_Receive s n flags] returns the result and the bytes the socket
    has written to the buffer. *)
Class Platform (W : Type) := {
  Sock : Type;
  IPAddr : Type;
  FRAME_BUFFER_SIZE : Z;
  HZ : Z;
  MSG_DONTWAIT : Z;
  operator_new_array : Z → W → bool * W;
  CLogger_Write : TLogSeverity → string → list fmt_arg → W → () * W;
  CString_Format : string → list fmt_arg → list Z;
  CTimer_GetTicks : W → Z * W;
  CScheduler_MsSleep : Z → W → () * W;
  CDNSClient_Resolve : list Z → W → option IPAddr * W;
  CIPAddress_Format : IPAddr → list Z;
  PropertyTag_Serial : W → option (Z * Z) * W;
  new_CSocket : W → Sock * W;
  new_CTLSSimpleClientSocket : W → Sock * W;
  TLS_AddCertificatePath : Sock → list Z → W → Z * W;
  TLS_Setup : Sock → list Z → W → Z * W;
  CNetSocket_Connect : Sock → IPAddr → Z → W → Z * W;
  CNetSocket_Send : Sock → list Z → Z → W → Z * W;
  CNetSocket_Receive : Sock → Z → Z → W → (Z * list Z) * W;
  CNetSocket_delete : Sock → W → () * W
}.

Class PlatformOk (W : Type) `{Platform W} := {
  FRAME_BUFFER_SIZE_pos : 0 < FRAME_BUFFER_SIZE < 2^16;
  HZ_pos : 0 < HZ < 2^16;
  CTimer_GetTicks_u32 w : is_u32 (CTimer_GetTicks w).1;
  CNetSocket_Receive_len s n fl w r bs w' :
    CNetSocket_Receive s n fl w = ((r, bs), w') →
    0 ≤ n → Z.of_nat (length bs) = Z.max 0 r ∧ r ≤ n;
  CNetSocket_Receive_bytes s n fl w r bs w' :
    CNetSocket_Receive s n fl w = ((r, bs), w') → Forall is_byte bs;
  CString_Format_serial s0 s1 :
    let s := CString_Format "raspi%08x%08x" [ArgZ s1; ArgZ s0] in
    Forall is_byte s ∧ Z.of_nat (length s) ≤ 21
}.

(** * Pointer lists

    [CPtrList] is a doubly linked list of pointers whose elements are named by
    handles.  [pl_view] is the abstract content: the handles with their
    pointers, in list order.  A pointer is an integer, 0 is the null pointer. *)
Class PtrList := {
  plist : Type;
  pelem : Type;
  pl_empty : plist;
  GetFirst : plist → option pelem;
  GetNext : plist → pelem → option pelem;
  GetPtr : plist → pelem → Z;
  InsertBefore : plist → pelem → Z → plist;
  InsertAfter : plist → option pelem → Z → plist;
  Remove : plist → pelem → plist;
  Find : plist → Z → option pelem;
  pl_view : plist → list (pelem * Z)
}.

Class PtrListOk `{PtrList} := {
  view_empty : pl_view pl_empty = [];
  GetFirst_view l : GetFirst l = head (pl_view l).*1;
  GetNext_view l pre e p post :
    pl_view l = pre ++ (e, p) :: post → GetNext l e = head post.*1;
  GetPtr_view l pre e p post :
    pl_view l = pre ++ (e, p) :: post → GetPtr l e = p;
  InsertBefore_view l pre e p post q :
    pl_view l = pre ++ (e, p) :: post →
    ∃ e', pl_view (InsertBefore l e q) = pre ++ (e', q) :: (e, p) :: post;
  InsertAfter_view l pre e p post q :
    pl_view l = pre ++ (e, p) :: post →
    ∃ e', pl_view (InsertAfter l (Some e) q) = pre ++ (e, p) :: (e', q) :: post;
  InsertAfter_view_empty l q :
    pl_view l = [] → ∃ e', pl_view (InsertAfter l None q) = [(e', q)];
  Remove_view l pre e p post :
    pl_view l = pre ++ (e, p) :: post → pl_view (Remove l e) = pre ++ post;
  Find_view_Some l pre e p post :
    pl_view l = pre ++ (e, p) :: post → p ∉ pre.*2 → Find l p = Some e;
  Find_view_None l p : p ∉ (pl_view l).*2 → Find l p = None
}.

(** The pointers in the list, in order. *)
Definition pl_ptrs `{PtrList} (l : plist) : list Z := (pl_view l).*2.

(** ** An instance: lists whose elements carry a serial number as handle. *)
Module ListPtrList.
Abbreviation items := (list (nat * Z)).

Fixpoint after (e : nat) (l : items) : option nat :=
  match l with
  | [] => None
  | (e', _) :: l' => if decide (e = e') then head l'.*1 else after e l'
  end.
Fixpoint ptr_of (e : nat) (l : items) : Z :=
  match l with
  | [] => 0
  | (e', p) :: l' => if decide (e = e') then p else ptr_of e l'
  end.
Fixpoint ins_before (e n : nat) (q : Z) (l : items) : items :=
  match l with
  | [] => []
  | (e', p) :: l' =>
      if decide (e = e') then (n, q) :: (e', p) :: l' else (e', p) :: ins_before e n q l'
  end.
Fixpoint ins_after (e n : nat) (q : Z) (l : items) : items :=
  match l with
  | [] => []
  | (e', p) :: l' =>
      if decide (e = e') then (e', p) :: (n, q) :: l' else (e', p) :: ins_after e n q l'
  end.
Fixpoint del (e : nat) (l : items) : items :=
  match l with
  | [] => []
  | (e', p) :: l' => if decide (e = e') then l' else (e', p) :: del e l'
  end.
Fixpoint find (q : Z) (l : items) : option nat :=
  match l with
  | [] => None
  | (e, p) :: l' => if decide (q = p) then Some e else find q l'
  end.
Definition newest (l : items) : nat := S (max_list l.*1).

(** The handles of a well-formed list are distinct. *)
Definition t : Type := { l : items | NoDup l.*1 }.

Lemma newest_fresh l : newest l ∉ l.*1.
Proof. intros H%max_list_elem_of_le. unfold newest in H. lia. Qed.

Section split.
Context (pre : items) (e : nat) (p : Z) (post : items).
Hypothesis fresh : e ∉ pre.*1.

Lemma after_split : after e (pre ++ (e, p) :: post) = head post.*1.
Proof using fresh.
  induction pre as [|[e' p'] pre' IH]; cbn in *; [by rewrite decide_True|].
  rewrite decide_False by set_solver. apply IH. set_solver.
Qed.
Lemma ptr_of_split : ptr_of e (pre ++ (e, p) :: post) = p.
Proof using fresh.
  induction pre as [|[e' p'] pre' IH]; cbn in *; [by rewrite decide_True|].
  rewrite decide_False by set_solver. apply IH. set_solver.
Qed.
Lemma ins_before_split n q :
  ins_before e n q (pre ++ (e, p) :: post) = pre ++ (n, q) :: (e, p) :: post.
Proof using fresh.
  induction pre as [|[e' p'] pre' IH]; cbn in *; [by rewrite decide_True|].
  rewrite decide_False by set_solver. f_equal. apply IH. set_solver.
Qed.
Lemma ins_after_split n q :
  ins_after e n q (pre ++ (e, p) :: post) = pre ++ (e, p) :: (n, q) :: post.
Proof using fresh.
  induction pre as [|[e' p'] pre' IH]; cbn in *; [by rewrite decide_True|].
  rewrite decide_False by set_solver. f_equal. apply IH. set_solver.
Qed.
Lemma del_split : del e (pre ++ (e, p) :: post) = pre ++ post.
Proof using fresh.
  induction pre as [|[e' p'] pre' IH]; cbn in *; [by rewrite decide_True|].
  rewrite decide_False by set_solver. f_equal. apply IH. set_solver.
Qed.
End split.

Lemma find_split pre e p post : p ∉ pre.*2 → find p (pre ++ (e, p) :: post) = Some e.
Proof.
  intros H. induction pre as [|[e' p'] pre IH]; cbn in *; [by rewrite decide_True|].
  rewrite decide_False by set_solver. apply IH. set_solver.
Qed.
Lemma find_none p (l : items) : p ∉ l.*2 → find p l = None.
Proof.
  intros H. induction l as [|[e' p'] l IH]; cbn in *; [done|].
  rewrite decide_False by set_solver. apply IH. set_solver.
Qed.

Lemma ins_before_perm e n q l :
  ins_before e n q l = l ∨ ins_before e n q l ≡ₚ (n, q) :: l.
Proof.
  induction l as [|[e' p'] l IH]; cbn; [by left|]. case_decide; [by right|].
  destruct IH as [-> | IH]; [by left|right]. rewrite IH. apply perm_swap.
Qed.
Lemma ins_after_perm e n q l :
  ins_after e n q l = l ∨ ins_after e n q l ≡ₚ (n, q) :: l.
Proof.
  induction l as [|[e' p'] l IH]; cbn; [by left|]. case_decide.
  - right. apply perm_swap.
  - destruct IH as [-> | IH]; [by left|right]. rewrite IH. apply perm_swap.
Qed.
Lemma del_sublist e l : sublist (del e l) l.
Proof.
  induction l as [|[e' p'] l IH]; cbn; [done|].
  case_decide; [by apply sublist_cons|by apply sublist_skip].
Qed.

Lemma NoDup_ins l l' q :
  NoDup l.*1 → l' = l ∨ l' ≡ₚ (newest l, q) :: l → NoDup l'.*1.
Proof.
  intros Hl [-> | Hp]; [done|]. rewrite Hp. cbn. constructor; [apply newest_fresh|done].
Qed.
Lemma NoDup_del e l : NoDup l.*1 → NoDup (del e l).*1.
Proof. intros H. eapply sublist_NoDup; [exact H|]. apply fmap_sublist, del_sublist. Qed.

Lemma NoDup_new l q : NoDup l.*1 → NoDup ((newest l, q) :: l).*1.
Proof. intros H. by apply (NoDup_ins l _ q); [|right]. Qed.
Lemma NoDup_before e q l : NoDup l.*1 → NoDup (ins_before e (newest l) q l).*1.
Proof. intros H. eapply NoDup_ins; [done|apply ins_before_perm]. Qed.
Lemma NoDup_after e q l : NoDup l.*1 → NoDup (ins_after e (newest l) q l).*1.
Proof. intros H. eapply NoDup_ins; [done|apply ins_after_perm]. Qed.

#[export] Instance ops : PtrList := {|
  plist := t;
  pelem := nat;
  pl_empty := exist _ [] (NoDup_nil_2);
  GetFirst l := head (proj1_sig l).*1;
  GetNext l e := after e (proj1_sig l);
  GetPtr l e := ptr_of e (proj1_sig l);
  InsertBefore l e q := exist _ _ (NoDup_before e q _ (proj2_sig l));
  InsertAfter l o q :=
    match o with
    | Some e => exist _ _ (NoDup_after e q _ (proj2_sig l))
    | None => exist _ _ (NoDup_new _ q (proj2_sig l))
    end;
  Remove l e := exist _ _ (NoDup_del e _ (proj2_sig l));
  Find l q := find q (proj1_sig l);
  pl_view l := proj1_sig l
|}.

Lemma split_fresh (l pre : items) e p post :
  NoDup l.*1 → l = pre ++ (e, p) :: post → e ∉ pre.*1.
Proof.
  intros Hl ->. rewrite fmap_app, fmap_cons in Hl. cbn in Hl.
  apply NoDup_app in Hl as (_ & Hd & _). intros H. apply (Hd _ H). set_solver.
Qed.

#[export] Instance laws : PtrListOk.
Proof.
  split; cbn.
  - done.
  - done.
  - intros [l Hl] pre e p post; cbn; intros E.
    pose proof (split_fresh _ _ _ _ _ Hl E). subst. by apply after_split.
  - intros [l Hl] pre e p post; cbn; intros E.
    pose proof (split_fresh _ _ _ _ _ Hl E). subst. by apply ptr_of_split.
  - intros [l Hl] pre e p post q; cbn; intros E.
    pose proof (split_fresh _ _ _ _ _ Hl E). exists (newest l). subst. by apply ins_before_split.
  - intros [l Hl] pre e p post q; cbn; intros E.
    pose proof (split_fresh _ _ _ _ _ Hl E). exists (newest l). subst. by apply ins_after_split.
  - intros [l Hl] q; cbn. intros ->. eauto.
  - intros [l Hl] pre e p post; cbn; intros E.
    pose proof (split_fresh _ _ _ _ _ Hl E). subst. by apply del_split.
  - intros [l Hl] pre e p post; cbn. intros ->. apply find_split.
  - intros [l Hl] p. apply find_none.
Qed.
End ListPtrList.

(** ** An instance: a scripted world.

    [rx] are the results of the coming receive calls ([None] is a reset by the
    peer), [tx_refused] the number of the send calls to come before one fails,
    [tx] the data sent so far (latest first), [now] the tick counter and [log]
    what was logged (latest first). *)
Module Script.
Record t := mk {
  rx : list (option (list Z));
  tx : list (list Z);
  tx_refused : option nat;
  now : Z;
  log : list (TLogSeverity * string * list fmt_arg);
  opened : nat;
  closed : nat;
  events : list (string * list Z)
}.

Definition init (rx : list (option (list Z))) : t := mk rx [] None 0 [] 0 0 [].

Definition receive (n : Z) (w : t) : (Z * list Z) * t :=
  match rx w with
  | [] => ((0, []), w)
  | r :: rs =>
      let w' := mk rs (tx w) (tx_refused w) (now w) (log w) (opened w) (closed w) (events w) in
      match r with
      | None => ((-1, []), w')
      | Some bs => let bs := take (Z.to_nat n) (u8 <$> bs) in ((Z.of_nat (length bs), bs), w')
      end
  end.

Definition send (bs : list Z) (w : t) : Z * t :=
  match tx_refused w with
  | Some O => (-1, w)
  | o => (Z.of_nat (length bs),
          mk (rx w) (bs :: tx w) (pred <$> o) (now w) (log w) (opened w) (closed w) (events w))
  end.

Definition write_log (sev : TLogSeverity) (f : string) (args : list fmt_arg) (w : t) : () * t :=
  ((), mk (rx w) (tx w) (tx_refused w) (now w) ((sev, f, args) :: log w)
          (opened w) (closed w) (events w)).

Definition event (e : string) (args : list Z) (w : t) : () * t :=
  ((), mk (rx w) (tx w) (tx_refused w) (now w) (log w) (opened w) (closed w)
          ((e, args) :: events w)).

Definition open_socket (w : t) : nat * t :=
  (opened w, mk (rx w) (tx w) (tx_refused w) (now w) (log w) (S (opened w)) (closed w) (events w)).
Definition close_socket (w : t) : () * t :=
  ((), mk (rx w) (tx w) (tx_refused w) (now w) (log w) (opened w) (S (closed w)) (events w)).
Definition sleep (n : Z) (w : t) : () * t :=
  ((), mk (rx w) (tx w) (tx_refused w) (now w + n) (log w) (opened w) (closed w) (events w)).

#[export] Instance platform : Platform t := {|
  Sock := nat;
  IPAddr := list Z;
  FRAME_BUFFER_SIZE := 1600;
  HZ := 100;
  MSG_DONTWAIT := 64;
  operator_new_array _ w := (true, w);
  CLogger_Write := write_log;
  CString_Format f _ := cstr f;
  CTimer_GetTicks w := (u32 (now w), w);
  CScheduler_MsSleep ms := sleep (ms / 10);
  CDNSClient_Resolve h w := (Some h, w);
  CIPAddress_Format a := a;
  PropertyTag_Serial w := (Some (1, 2), w);
  new_CSocket := open_socket;
  new_CTLSSimpleClientSocket := open_socket;
  TLS_AddCertificatePath _ _ w := (0, w);
  TLS_Setup _ _ w := (0, w);
  CNetSocket_Connect _ _ _ w := (0, w);
  CNetSocket_Send _ bs _ := send bs;
  CNetSocket_Receive _ n _ := receive n;
  CNetSocket_delete _ := close_socket
|}.

#[export] Instance platform_ok : PlatformOk t.
Proof.
  split; cbn.
  - lia.
  - lia.
  - intros w. apply u32_range.
  - unfold receive. intros _ n _ w r bs w' E Hn.
    destruct (rx w) as [|[b|] rs]; simplify_eq/=; [lia| |lia].
    rewrite length_take, length_fmap. lia.
  - unfold receive. intros _ n _ w r bs w' E.
    destruct (rx w) as [|[b|] rs]; simplify_eq/=; [constructor| |constructor].
    apply Forall_take, Forall_fmap, Forall_true. intros x. apply u8_range.
  - intros s0 s1. split; [|done]. by apply (bool_decide_unpack _).
Qed.
End Script.
