(* ===== verification/MqttSendPacket.v ===== *)
(** The MQTT packets a client sends: [mqtt.h] and the class [CMQTTSendPacket]
    of [mqttsendpacket.cpp].  A packet is a record with the members of the
    class; the operations are its methods. *)
From stdpp Require Import base numbers list gmap option strings.
From S2P Require Import Prelude.
From S2P Require Import Circle.

(** * Constants and packet types of [mqtt.h] *)
Module Mqtt.
Definition MQTT_PROTOCOL_LEVEL : Z := 4.

Definition MQTT_QOS_AT_MOST_ONCE : Z := 0.
Definition MQTT_QOS_AT_LEAST_ONCE : Z := 1.
Definition MQTT_QOS_EXACTLY_ONCE : Z := 2.

Definition MQTT_FLAG_RETAIN : Z := Z.shiftl 1 0.
Definition MQTT_FLAG_QOS__SHIFT : Z := 1.
Definition MQTT_FLAG_QOS__MASK : Z := Z.shiftl 3 MQTT_FLAG_QOS__SHIFT.
Definition MQTT_FLAG_DUP : Z := Z.shiftl 1 3.

Definition MQTT_CONNECT_FLAG_CLEAN_SESSION : Z := Z.shiftl 1 1.
Definition MQTT_CONNECT_FLAG_WILL : Z := Z.shiftl 1 2.
Definition MQTT_CONNECT_FLAG_WILL_QOS__SHIFT : Z := 3.
Definition MQTT_CONNECT_FLAG_WILL_RETAIN : Z := Z.shiftl 1 5.
Definition MQTT_CONNECT_FLAG_PASSWORD : Z := Z.shiftl 1 6.
Definition MQTT_CONNECT_FLAG_USER_NAME : Z := Z.shiftl 1 7.

Definition MQTT_CONNACK_FLAG_SP : Z := Z.shiftl 1 0.

Inductive TMQTTPacketType :=
  | MQTTConnect
  | MQTTConnAck
  | MQTTPublish
  | MQTTPubAck
  | MQTTPubRec
  | MQTTPubRel
  | MQTTPubComp
  | MQTTSubscribe
  | MQTTSubAck
  | MQTTUnsubscribe
  | MQTTUnsubAck
  | MQTTPingReq
  | MQTTPingResp
  | MQTTDisconnect
  | MQTTPacketTypeUnknown.

#[export] Instance TMQTTPacketType_eq_dec : EqDecision TMQTTPacketType.
Proof. solve_decision. Defined.

(** The value of an enumerator. *)
Definition packet_type_code (t : TMQTTPacketType) : Z :=
  match t with
  | MQTTConnect => 1
  | MQTTConnAck => 2
  | MQTTPublish => 3
  | MQTTPubAck => 4
  | MQTTPubRec => 5
  | MQTTPubRel => 6
  | MQTTPubComp => 7
  | MQTTSubscribe => 8
  | MQTTSubAck => 9
  | MQTTUnsubscribe => 10
  | MQTTUnsubAck => 11
  | MQTTPingReq => 12
  | MQTTPingResp => 13
  | MQTTDisconnect => 14
  | MQTTPacketTypeUnknown => 15
  end.

(** The cast [(TMQTTPacketType) z] of a 4-bit value; no enumerator is 0. *)
Definition packet_type_of_code (z : Z) : option TMQTTPacketType :=
  find (λ t, bool_decide (packet_type_code t = z))
    [MQTTConnect; MQTTConnAck; MQTTPublish; MQTTPubAck; MQTTPubRec; MQTTPubRel;
     MQTTPubComp; MQTTSubscribe; MQTTSubAck; MQTTUnsubscribe; MQTTUnsubAck;
     MQTTPingReq; MQTTPingResp; MQTTDisconnect; MQTTPacketTypeUnknown].

Definition MQTT_SEND_TRIES : Z := 5.

Section timeouts.
Context `{Platform W}.
Definition MQTT_RESEND_TIMEOUT : Z := 5 * HZ.
Definition MQTT_PING_TIMEOUT : Z := 5 * HZ.
End timeouts.

Lemma packet_type_of_code_code t : packet_type_of_code (packet_type_code t) = Some t.
Proof. by destruct t. Qed.
End Mqtt.

(** * The class [CMQTTSendPacket] *)
Module SendPacket.
Import Mqtt.

Definition MAX_LENGTH_FIXED_HEADER : Z := 5.

(** The members.  [m_pBuffer] is [None] when the allocation has failed, and
    the members for the retransmission queue are [None] until they are set:
    the constructor does not initialise them. *)
Record CMQTTSendPacket := mkSendPacket {
  m_Type : TMQTTPacketType;
  m_nMaxPacketSize : Z;
  m_bError : bool;
  m_pBuffer : option (list cell);
  m_nBufPtr : Z;
  m_uchFlags : Z;
  m_nSendTries : Z;
  m_nScheduledTime : option Z;
  m_uchQoS : option Z;
  m_usPacketIdentifier : option Z
}.

Definition set_m_bError (b : bool) (p : CMQTTSendPacket) : CMQTTSendPacket :=
  mkSendPacket (m_Type p) (m_nMaxPacketSize p) b (m_pBuffer p) (m_nBufPtr p)
    (m_uchFlags p) (m_nSendTries p) (m_nScheduledTime p) (m_uchQoS p) (m_usPacketIdentifier p).
Definition set_m_pBuffer (b : list cell) (p : CMQTTSendPacket) : CMQTTSendPacket :=
  mkSendPacket (m_Type p) (m_nMaxPacketSize p) (m_bError p) (Some b) (m_nBufPtr p)
    (m_uchFlags p) (m_nSendTries p) (m_nScheduledTime p) (m_uchQoS p) (m_usPacketIdentifier p).
Definition set_m_nBufPtr (n : Z) (p : CMQTTSendPacket) : CMQTTSendPacket :=
  mkSendPacket (m_Type p) (m_nMaxPacketSize p) (m_bError p) (m_pBuffer p) n
    (m_uchFlags p) (m_nSendTries p) (m_nScheduledTime p) (m_uchQoS p) (m_usPacketIdentifier p).
Definition set_m_uchFlags (f : Z) (p : CMQTTSendPacket) : CMQTTSendPacket :=
  mkSendPacket (m_Type p) (m_nMaxPacketSize p) (m_bError p) (m_pBuffer p) (m_nBufPtr p)
    f (m_nSendTries p) (m_nScheduledTime p) (m_uchQoS p) (m_usPacketIdentifier p).
Definition set_m_nSendTries (n : Z) (p : CMQTTSendPacket) : CMQTTSendPacket :=
  mkSendPacket (m_Type p) (m_nMaxPacketSize p) (m_bError p) (m_pBuffer p) (m_nBufPtr p)
    (m_uchFlags p) n (m_nScheduledTime p) (m_uchQoS p) (m_usPacketIdentifier p).

Definition SetScheduledTime (nTime : Z) (p : CMQTTSendPacket) : CMQTTSendPacket :=
  mkSendPacket (m_Type p) (m_nMaxPacketSize p) (m_bError p) (m_pBuffer p) (m_nBufPtr p)
    (m_uchFlags p) (m_nSendTries p) (Some nTime) (m_uchQoS p) (m_usPacketIdentifier p).
Definition SetQoS (uchQoS : Z) (p : CMQTTSendPacket) : CMQTTSendPacket :=
  mkSendPacket (m_Type p) (m_nMaxPacketSize p) (m_bError p) (m_pBuffer p) (m_nBufPtr p)
    (m_uchFlags p) (m_nSendTries p) (m_nScheduledTime p) (Some uchQoS) (m_usPacketIdentifier p).
Definition SetPacketIdentifier (us : Z) (p : CMQTTSendPacket) : CMQTTSendPacket :=
  mkSendPacket (m_Type p) (m_nMaxPacketSize p) (m_bError p) (m_pBuffer p) (m_nBufPtr p)
    (m_uchFlags p) (m_nSendTries p) (m_nScheduledTime p) (m_uchQoS p) (Some us).

(** A getter of a member that may be uninitialised. *)
Definition initialised {A} (o : option A) : res A :=
  match o with Some a => Ok a | None => Fault Uninit end.

Definition GetType (p : CMQTTSendPacket) : TMQTTPacketType := m_Type p.
Definition GetFlags (p : CMQTTSendPacket) : Z := m_uchFlags p.
Definition GetScheduledTime (p : CMQTTSendPacket) : res Z := initialised (m_nScheduledTime p).
Definition GetQoS (p : CMQTTSendPacket) : res Z := initialised (m_uchQoS p).
Definition GetPacketIdentifier (p : CMQTTSendPacket) : res Z :=
  initialised (m_usPacketIdentifier p).

(** The constructor; [bNew] says whether [new u8[m_nMaxPacketSize]] succeeds. *)
Definition construct (bNew : bool) (Type_ : TMQTTPacketType) (nMaxPacketSize : Z) :
    res CMQTTSendPacket :=
  if negb (128 <=? nMaxPacketSize) then Fault AssertFailed
  else
    let p := mkSendPacket Type_ nMaxPacketSize false None MAX_LENGTH_FIXED_HEADER
               0 MQTT_SEND_TRIES None None None in
    if negb bNew then Ok (set_m_bError true p)
    else
      let p := set_m_pBuffer (uninit nMaxPacketSize) p in
      match Type_ with
      | MQTTPubRel | MQTTSubscribe | MQTTUnsubscribe => Ok (set_m_uchFlags (Z.shiftl 1 1) p)
      | _ => Ok p
      end.

Definition SetFlags (uchFlags : Z) : M CMQTTSendPacket () :=
  p ← get;
  assert_ (bool_decide (m_Type p = MQTTPublish));;
  assert_ (uchFlags <=? 0x0F);;
  put (set_m_uchFlags uchFlags p).

(** [memcpy (m_pBuffer+m_nBufPtr, data, n); m_nBufPtr += n]. *)
Definition put_data (data : list Z) : M CMQTTSendPacket () :=
  p ← get;
  buf ← deref (m_pBuffer p);
  buf' ← lift_res (wr_bytes buf (m_nBufPtr p) data);
  put (set_m_nBufPtr (u32 (m_nBufPtr p + Z.of_nat (length data))) (set_m_pBuffer buf' p)).

(** [m_pBuffer[m_nBufPtr++] = v], where [v] is converted to [u8]. *)
Definition put_byte (v : Z) : M CMQTTSendPacket () := put_data [u8 v].

Definition AppendByte (uchValue : Z) : M CMQTTSendPacket () :=
  p ← get;
  if m_bError p then mret ()
  else if m_nBufPtr p >=? m_nMaxPacketSize p then put (set_m_bError true p)
  else assert_ (bool_decide (is_Some (m_pBuffer p)));; put_byte uchValue.

Definition AppendWord (usValue : Z) : M CMQTTSendPacket () :=
  p ← get;
  if m_bError p then mret ()
  else if u32 (m_nBufPtr p + 1) >=? m_nMaxPacketSize p then put (set_m_bError true p)
  else
    assert_ (bool_decide (is_Some (m_pBuffer p)));;
    put_byte (Z.shiftr usValue 8);;
    put_byte (Z.land usValue 0xFF).

Section sizes.
Context `{Target}.

(** [pString] is the string without its terminating zero. *)
Definition AppendString (pString : list Z) : M CMQTTSendPacket () :=
  p ← get;
  if m_bError p then mret ()
  else
    let nLength := Z.of_nat (length pString) in
    if usize (m_nBufPtr p + nLength + 2) >? m_nMaxPacketSize p
    then put (set_m_bError true p)
    else
      put_byte (Z.shiftr nLength 8);;
      put_byte (Z.land nLength 0xFF);;
      when (nLength >? 0) (put_data pString).

(** [pBuffer] are the [nLength] bytes the caller points at. *)
Definition AppendData (pBuffer : list Z) : M CMQTTSendPacket () :=
  p ← get;
  if m_bError p then mret ()
  else
    let nLength := Z.of_nat (length pBuffer) in
    if usize (m_nBufPtr p + nLength) >? m_nMaxPacketSize p
    then put (set_m_bError true p)
    else when (nLength >? 0) (put_data pBuffer).
End sizes.

(** The [do ... while] loop of [Send] that encodes the remaining length; [acc]
    is [EncodedLength[0 .. nLengthBytes-1]].  Four bytes are the most the
    assertion lets pass, and a fifth round is the one that fails it. *)
Fixpoint encode_length (fuel : nat) (nTempLength : Z) (acc : list Z) : res (list Z) :=
  match fuel with
  | O => Fault OutOfFuel
  | S fuel =>
      let uchByte := Z.land nTempLength 0x7F in
      let nTempLength := Z.shiftr nTempLength 7 in
      let uchByte := if nTempLength >? 0 then Z.lor uchByte 0x80 else uchByte in
      if negb (Z.of_nat (length acc) <? 4) then Fault AssertFailed
      else
        let acc := acc ++ [uchByte] in
        if nTempLength >? 0 then encode_length fuel nTempLength acc else Ok acc
  end.

Section send.
Context `{Platform W}.

(** The packet with the fixed header in front of its content, and the bytes
    that are handed to the socket. *)
Definition finish (p : CMQTTSendPacket) : res (CMQTTSendPacket * list Z) :=
  if negb (m_nBufPtr p >=? MAX_LENGTH_FIXED_HEADER) then Fault AssertFailed else
  let nRemainingLength := u32 (m_nBufPtr p - MAX_LENGTH_FIXED_HEADER) in
  match encode_length 5 nRemainingLength [] with
  | Fault e => Fault e
  | Ok EncodedLength =>
    let nLengthBytes := Z.of_nat (length EncodedLength) in
    if negb (nLengthBytes >? 0) then Fault AssertFailed else
    if negb (nLengthBytes <? MAX_LENGTH_FIXED_HEADER - 1) then Fault AssertFailed else
    match m_pBuffer p with
    | None => Fault AssertFailed
    | Some buf =>
      match wr_bytes buf (MAX_LENGTH_FIXED_HEADER - nLengthBytes) EncodedLength with
      | Fault e => Fault e
      | Ok buf =>
        let nStart := MAX_LENGTH_FIXED_HEADER - nLengthBytes - 1 in
        match wr buf nStart
                (u8 (Z.lor (u8 (Z.shiftl (packet_type_code (m_Type p)) 4)) (m_uchFlags p))) with
        | Fault e => Fault e
        | Ok buf =>
          let nSendLength := 1 + nLengthBytes + nRemainingLength in
          match rd_bytes buf nStart (Z.to_nat nSendLength) with
          | Fault e => Fault e
          | Ok bytes => Ok (set_m_pBuffer buf p, bytes)
          end
        end
      end
    end
  end.

(** [Send], on the packet and the world; [pSocket] is not null. *)
Definition Send (pSocket : Sock) : M (CMQTTSendPacket * W) bool :=
  '(p, w) ← get;
  if m_bError p then mret false
  else if m_nSendTries p =? 0 then mret false
  else
    let p := set_m_nSendTries (m_nSendTries p - 1) p in
    '(p, bytes) ← lift_res (finish p);
    let '(n, w) := CNetSocket_Send pSocket bytes MSG_DONTWAIT w in
    put (p, w);;
    mret (n =? Z.of_nat (length bytes)).
End send.
End SendPacket.
