(* ===== verification/MqttSendSpec.v ===== *)
(** What a [CMQTTSendPacket] promises: an append-only byte string with a
    capacity and a sticky overflow, sent behind the fixed header of the MQTT
    specification.  [repr] relates a packet to its content. *)
From stdpp Require Import base numbers list gmap option strings.
From S2P Require Import Prelude.
From S2P Require Import Circle.
From S2P Require Import MqttSendPacket.
Import Mqtt SendPacket.

(** The remaining length field of the MQTT specification (2.2.3): base 128,
    least significant digit first, and the top bit says that more follow. *)
Fixpoint varint (fuel : nat) (n : Z) : list Z :=
  match fuel with
  | O => []
  | S fuel => if n <? 128 then [n] else (n mod 128 + 128) :: varint fuel (n / 128)
  end.

(** The bytes of a packet on the wire. *)
Definition wire (t : TMQTTPacketType) (flags : Z) (content : list Z) : list Z :=
  (packet_type_code t * 16 + flags) :: varint 4 (Z.of_nat (length content)) ++ content.

(** Appending under a capacity: [None] is the error state, which stays. *)
Definition append_spec (cap : Z) (content : option (list Z)) (bs : list Z) : option (list Z) :=
  content ≫= λ c,
    if MAX_LENGTH_FIXED_HEADER + Z.of_nat (length c) + Z.of_nat (length bs) <=? cap
    then Some (c ++ bs) else None.

(** A packet with the given content, [None] being the error state. *)
Definition repr (p : CMQTTSendPacket) (content : option (list Z)) : Prop :=
  128 ≤ m_nMaxPacketSize p < 2^31 ∧
  match content with
  | None => m_bError p = true
  | Some c =>
      m_bError p = false ∧
      m_nBufPtr p = MAX_LENGTH_FIXED_HEADER + Z.of_nat (length c) ∧
      m_nBufPtr p ≤ m_nMaxPacketSize p ∧
      Forall is_byte c ∧
      ∃ buf, m_pBuffer p = Some buf ∧ Z.of_nat (length buf) = m_nMaxPacketSize p ∧
             holds buf MAX_LENGTH_FIXED_HEADER c
  end.

(** The members the append operations leave alone. *)
Definition meta (p : CMQTTSendPacket) :=
  (m_Type p, m_nMaxPacketSize p, m_uchFlags p, m_nSendTries p,
   m_nScheduledTime p, m_uchQoS p, m_usPacketIdentifier p).

(** What an append operation establishes. *)
Definition appends (m : M CMQTTSendPacket ()) (bs : list Z) : Prop :=
  ∀ p content, repr p content →
    wp no_fault m (λ _ p', repr p' (append_spec (m_nMaxPacketSize p) content bs) ∧
                           meta p' = meta p) p.

Lemma repr_error p content : repr p content → m_bError p = true → content = None.
Proof. intros [_ Hc] He. destruct content as [c|]; [|done]. destruct Hc; congruence. Qed.

(** ** The remaining length *)

Lemma varint_step fuel n :
  varint (S fuel) n = if n <? 128 then [n] else (n mod 128 + 128) :: varint fuel (n / 128).
Proof. reflexivity. Qed.

Lemma varint_bytes fuel n : 0 ≤ n → Forall is_byte (varint fuel n).
Proof.
  revert n. induction fuel as [|fuel IH]; intros n Hn; cbn; [constructor|].
  zcase; constructor; unfold is_byte, is_u8; [lia|constructor|zdiv|].
  apply IH. zdiv.
Qed.

Lemma varint_length k fuel n :
  0 ≤ n < 128 ^ Z.of_nat (S k) → (k < fuel)%nat → (1 ≤ length (varint fuel n) ≤ S k)%nat.
Proof.
  revert fuel n. induction k as [|k IH]; intros [|fuel] n Hn Hk; cbn [varint]; try lia.
  - zcase; cbn; lia.
  - zcase; cbn [length]; [lia|].
    rewrite (Nat2Z.inj_succ (S k)), Z.pow_succ_r in Hn by lia.
    destruct (IH fuel (n / 128)); [zdiv|lia|lia].
Qed.

(** The loop of [Send] computes the remaining length field. *)
Lemma encode_length_varint k fuel n acc :
  0 ≤ n < 128 ^ Z.of_nat (S k) → (length acc + k < 4)%nat → (k < fuel)%nat →
  encode_length fuel n acc = Ok (acc ++ varint (S k) n).
Proof.
  revert fuel n acc. induction k as [|k IH]; intros [|fuel] n acc Hn Hacc Hk; try lia;
    cbn [encode_length]; rewrite land_127, Z.shiftr_div_pow2 by lia; change (2^7) with 128;
    (destruct (Z.ltb_spec (Z.of_nat (length acc)) 4); [|lia]); cbn [negb];
    rewrite Z.gtb_ltb, varint_step; destruct (Z.ltb_spec 0 (n / 128)).
  - zdiv.
  - rewrite Z.mod_small by zdiv. zcase; [done|zdiv].
  - zcase; [zdiv|]. rewrite lor_128 by zdiv.
    rewrite IH, <-app_assoc; [done| | |lia].
    + rewrite (Nat2Z.inj_succ (S k)), Z.pow_succ_r in Hn by lia. zdiv.
    + rewrite length_app. cbn. lia.
  - zcase; [by rewrite Z.mod_small by lia|zdiv].
Qed.

(** ** The append operations *)

(** Writing behind the content extends it. *)
Lemma repr_write p c buf bs :
  repr p (Some c) → m_pBuffer p = Some buf → Forall is_byte bs →
  m_nBufPtr p + Z.of_nat (length bs) ≤ m_nMaxPacketSize p →
  ∃ buf', wr_bytes buf (m_nBufPtr p) bs = Ok buf' ∧
    repr (set_m_nBufPtr (u32 (m_nBufPtr p + Z.of_nat (length bs))) (set_m_pBuffer buf' p))
         (Some (c ++ bs)).
Proof.
  intros (Hcap & He & Hptr & Hle & Hc & buf0 & Hbuf & Hlen & Hh) Hbuf' Hbs Hfit.
  assert (buf0 = buf) as -> by congruence. unfold MAX_LENGTH_FIXED_HEADER in *.
  destruct (wr_bytes_Ok buf (m_nBufPtr p) bs) as (buf' & E & Hl & Hhb & Hf); [lia|lia|].
  exists buf'. split; [done|]. split; [done|]. cbn.
  rewrite u32_id by (unfold is_u32; lia). rewrite length_app.
  unfold MAX_LENGTH_FIXED_HEADER. split_and!; [done|lia|lia|by apply Forall_app|].
  exists buf'. split_and!; [done|lia|]. apply holds_app. split.
  - eapply holds_frame; [exact Hh|]. intros j Hj. apply Hf. lia.
  - by rewrite <-Hptr.
Qed.

Lemma put_data_spec p c data (Q : () → CMQTTSendPacket → Prop) :
  repr p (Some c) → Forall is_byte data →
  m_nBufPtr p + Z.of_nat (length data) ≤ m_nMaxPacketSize p →
  (∀ p', repr p' (Some (c ++ data)) → meta p' = meta p →
         m_nBufPtr p' = m_nBufPtr p + Z.of_nat (length data) → Q () p') →
  wp no_fault (put_data data) Q p.
Proof.
  intros Hp Hd Hfit HQ. pose proof Hp as (_ & _ & Hptr & _ & _ & buf & Hbuf & _).
  destruct (repr_write p c buf data Hp Hbuf Hd Hfit) as (buf' & E & Hp').
  unfold put_data. wp_steps. rewrite Hbuf. unfold deref. cbn. unfold lift_res.
  wp_step. unfold wp. rewrite E.
  apply HQ; [done|done|]. destruct Hp' as (_ & _ & -> & _).
  rewrite length_app. lia.
Qed.

Lemma put_byte_spec p c v (Q : () → CMQTTSendPacket → Prop) :
  repr p (Some c) → m_nBufPtr p + 1 ≤ m_nMaxPacketSize p →
  (∀ p', repr p' (Some (c ++ [u8 v])) → meta p' = meta p →
         m_nBufPtr p' = m_nBufPtr p + 1 → Q () p') →
  wp no_fault (put_byte v) Q p.
Proof.
  intros Hp Hfit HQ.
  eapply put_data_spec; [done| |done|done].
  repeat constructor; apply u8_range.
Qed.

(** The common shape of the append operations: nothing in the error state, the
    error state when the content does not fit, and the content otherwise. *)
Lemma appends_intro (m : M CMQTTSendPacket ()) bs (fits : CMQTTSendPacket → bool)
    (body : CMQTTSendPacket → M CMQTTSendPacket ()) :
  m = (p ← get; if m_bError p then mret ()
                else if fits p then put (set_m_bError true p) else body p) →
  (∀ p c, repr p (Some c) →
     fits p = negb (m_nBufPtr p + Z.of_nat (length bs) <=? m_nMaxPacketSize p)) →
  (∀ p c, repr p (Some c) → m_nBufPtr p + Z.of_nat (length bs) ≤ m_nMaxPacketSize p →
     wp no_fault (body p) (λ _ p', repr p' (Some (c ++ bs)) ∧ meta p' = meta p) p) →
  appends m bs.
Proof.
  intros -> Hfits Hbody p content Hp. wp_steps.
  destruct (m_bError p) eqn:He.
  { apply wp_ret. by rewrite (repr_error p content Hp He) in Hp |- *. }
  destruct content as [c|]; [|by destruct Hp; congruence].
  pose proof Hp as (Hcap & _ & Hptr & _). cbn [append_spec mbind option_bind].
  rewrite (Hfits _ _ Hp), <-Hptr.
  destruct (Z.leb_spec (m_nBufPtr p + Z.of_nat (length bs)) (m_nMaxPacketSize p)); cbn [negb].
  - by apply Hbody.
  - apply wp_put. done.
Qed.

Lemma AppendByte_appends v : appends (AppendByte v) [u8 v].
Proof.
  eapply (appends_intro _ _ (λ p, m_nBufPtr p >=? m_nMaxPacketSize p) (λ p, _)); [done| |].
  - intros p c Hp. rewrite Z.geb_leb. cbn [length]. repeat zcase; cbn; lia.
  - intros p c Hp Hfit. cbn [length] in Hfit.
    apply wp_bind, wp_assert_true.
    + destruct Hp as (_ & _ & _ & _ & _ & buf & -> & _). apply bool_decide_eq_true_2. eauto.
    + eapply put_byte_spec; [done|lia|auto].
Qed.

Lemma AppendWord_appends v : is_u16 v → appends (AppendWord v) (be16 v).
Proof.
  intros Hv.
  eapply (appends_intro _ _ (λ p, u32 (m_nBufPtr p + 1) >=? m_nMaxPacketSize p) (λ p, _));
    [done| |].
  - intros p c (Hcap & _ & Hptr & Hle & _). rewrite Z.geb_leb. cbn [length be16].
    unfold MAX_LENGTH_FIXED_HEADER in *.
    rewrite u32_id by (unfold is_u32; lia). repeat zcase; cbn; lia.
  - intros p c Hp Hfit. cbn [length be16] in Hfit.
    apply wp_bind, wp_assert_true.
    { destruct Hp as (_ & _ & _ & _ & _ & buf & -> & _). apply bool_decide_eq_true_2. eauto. }
    apply wp_bind. eapply put_byte_spec; [done|lia|]. intros p1 Hp1 Hm1 Hptr1.
    assert (m_nMaxPacketSize p1 = m_nMaxPacketSize p) by (by injection Hm1).
    eapply put_byte_spec; [done|lia|]. intros p2 Hp2 Hm2 _.
    split; [|congruence]. rewrite Z.shiftr_div_pow2, land_255, <-app_assoc in Hp2 by lia.
    unfold is_u16 in Hv. by rewrite !u8_id in Hp2 by (unfold is_u8; zdiv).
Qed.

Section sizes.
Context `{Target}.

(** A string or payload that an object of the platform can have. *)
Definition fits_memory (s : list Z) : Prop := Z.of_nat (length s) < 2^31 - 2.

Lemma gtb_negb_leb x y : (x >? y) = negb (x <=? y).
Proof. rewrite Z.gtb_ltb. repeat zcase; cbn; lia. Qed.

Lemma AppendData_appends data :
  fits_memory data → Forall is_byte data → appends (AppendData data) data.
Proof.
  intros Hlen Hdata. unfold fits_memory in Hlen.
  eapply (appends_intro _ _
    (λ p, usize (m_nBufPtr p + Z.of_nat (length data)) >? m_nMaxPacketSize p) (λ p, _));
    [done| |].
  - intros p c (Hcap & _ & Hptr & Hle & _). unfold MAX_LENGTH_FIXED_HEADER in *.
    rewrite usize_id, gtb_negb_leb by lia. done.
  - intros p c Hp Hfit. apply wp_when.
    + intros _. eapply put_data_spec; eauto.
    + rewrite Z.gtb_ltb. intros Hz%Z.ltb_ge. destruct data; [|cbn in Hz; lia].
      by rewrite app_nil_r.
Qed.

Lemma AppendString_appends s :
  fits_memory s → Forall is_byte s → Z.of_nat (length s) < 2^16 →
  appends (AppendString s) (be16 (Z.of_nat (length s)) ++ s).
Proof.
  intros Hlen Hs Hs16. unfold fits_memory in Hlen. set (n := Z.of_nat (length s)) in *.
  eapply (appends_intro _ _
    (λ p, usize (m_nBufPtr p + n + 2) >? m_nMaxPacketSize p) (λ p, _)); [done| |].
  - intros p c (Hcap & _ & Hptr & Hle & _). unfold MAX_LENGTH_FIXED_HEADER in *.
    rewrite usize_id, gtb_negb_leb, length_app by (cbn; lia). do 2 f_equal. cbn. lia.
  - intros p c Hp. rewrite length_app. intros Hfit. cbn [length be16] in Hfit.
    apply wp_bind. eapply put_byte_spec; [done|lia|]. intros p1 Hp1 Hm1 Hptr1.
    assert (m_nMaxPacketSize p1 = m_nMaxPacketSize p) by (by injection Hm1).
    apply wp_bind. eapply put_byte_spec; [done|lia|]. intros p2 Hp2 Hm2 Hptr2.
    assert (m_nMaxPacketSize p2 = m_nMaxPacketSize p1) by (by injection Hm2).
    rewrite Z.shiftr_div_pow2, land_255, <-app_assoc in Hp2 by lia.
    rewrite !u8_id in Hp2 by (unfold is_u8; zdiv).
    apply wp_when; intros Hn; rewrite Z.gtb_ltb in Hn.
    + eapply put_data_spec; [done|done|lia|]. intros p3 Hp3 Hm3 _.
      split; [|congruence]. unfold be16. by rewrite <-app_assoc in Hp3.
    + apply Z.ltb_ge in Hn. destruct s; [|cbn in Hn; lia].
      split; [done|congruence].
Qed.
End sizes.

(** ** Sequences of append operations *)

Lemma append_spec_app cap content b1 b2 :
  append_spec cap (append_spec cap content b1) b2 = append_spec cap content (b1 ++ b2).
Proof.
  destruct content as [c|]; [|done]. cbn. rewrite length_app.
  destruct (Z.leb_spec (MAX_LENGTH_FIXED_HEADER + Z.of_nat (length c) + Z.of_nat (length b1)) cap) as [Hl|Hl];
    cbn; rewrite ?length_app; repeat zcase; rewrite ?app_assoc; try done; lia.
Qed.

Lemma appends_seq m1 m2 b1 b2 :
  appends m1 b1 → appends m2 b2 → appends (m1;; m2) (b1 ++ b2).
Proof.
  intros Hm1 Hm2 p content Hp. wp_step. eapply wp_mono; [by apply Hm1|].
  intros [] p1 [Hp1 Hmeta1]. eapply wp_mono; [by apply Hm2|].
  intros [] p2 [Hp2 Hmeta2]. split; [|congruence].
  assert (m_nMaxPacketSize p1 = m_nMaxPacketSize p) as E by (by injection Hmeta1).
  by rewrite E, append_spec_app in Hp2.
Qed.

Lemma append_spec_nil p content : repr p content → append_spec (m_nMaxPacketSize p) content [] = content.
Proof.
  intros [_ Hc]. destruct content as [c|]; [|done]. cbn. rewrite app_nil_r.
  destruct Hc as (_ & Hptr & Hle & _). by zcase; [|lia].
Qed.

Lemma appends_nil : appends (mret ()) [].
Proof. intros p content Hp. wp_steps. by rewrite append_spec_nil. Qed.

Lemma appends_when (b : bool) m bs : (b = true → appends m bs) → appends (when b m) (if b then bs else []).
Proof. destruct b; cbn; [auto|]. intros _. apply appends_nil. Qed.

(** ** The constructor *)

Definition initial_flags (t : TMQTTPacketType) : Z :=
  match t with MQTTPubRel | MQTTSubscribe | MQTTUnsubscribe => 2 | _ => 0 end.

Lemma construct_repr b t n :
  128 ≤ n < 2^31 →
  ∃ p, construct b t n = Ok p ∧ repr p (if b then Some [] else None) ∧
       m_Type p = t ∧ m_nMaxPacketSize p = n ∧ m_nSendTries p = MQTT_SEND_TRIES ∧
       (b = true → m_uchFlags p = initial_flags t) ∧ 0 ≤ m_uchFlags p < 16.
Proof.
  intros Hn. unfold construct. destruct (Z.leb_spec 128 n); [|lia]. cbn [negb].
  assert (Hrepr : ∀ f, repr (mkSendPacket t n false (Some (uninit n)) 5 f 5 None None None)
                            (Some [])).
  { intros f. repeat split; cbn; try lia; [constructor|].
    exists (uninit n). split_and!; [done| |by apply holds_nil].
    unfold uninit. rewrite length_replicate. lia. }
  destruct b; cbn; [|by eexists; split_and!; [done|repeat split; cbn; lia|..]; cbn; try lia].
  destruct t; cbn; eexists;
    (split_and!; [done|apply Hrepr|done|done|done|done|by cbn|by cbn]).
Qed.

(** ** Sending *)

Lemma packet_type_code_range t : 1 ≤ packet_type_code t ≤ 15.
Proof. by destruct t. Qed.

(** The control byte of the fixed header. *)
Lemma control_byte t f :
  0 ≤ f < 16 →
  u8 (Z.lor (u8 (Z.shiftl (packet_type_code t) 4)) f) = packet_type_code t * 16 + f.
Proof.
  intros Hf. pose proof (packet_type_code_range t).
  assert (Hs : u8 (Z.shiftl (packet_type_code t) 4) = Z.shiftl (packet_type_code t) 4).
  { apply u8_id. unfold is_u8. rewrite Z.shiftl_mul_pow2 by lia. lia. }
  rewrite Hs, lor_shiftl_add by lia. apply u8_id. unfold is_u8. lia.
Qed.

Section send.
Context `{Platform W}.

(** The content a packet may have so that its length takes three bytes. *)
Definition sendable (c : list Z) : Prop := Z.of_nat (length c) < 128 ^ 3.

Lemma finish_wire p c :
  repr p (Some c) → sendable c → 0 ≤ m_uchFlags p < 16 →
  ∃ p', finish p = Ok (p', wire (m_Type p) (m_uchFlags p) c) ∧
        repr p' (Some c) ∧ meta p' = meta p.
Proof.
  intros Hp Hc Hfl. pose proof Hp as (Hcap & He & Hptr & Hle & Hbytes & buf & Hbuf & Hlen & Hh).
  unfold sendable in Hc. unfold finish, MAX_LENGTH_FIXED_HEADER in *.
  rewrite Z.geb_leb. destruct (Z.leb_spec 5 (m_nBufPtr p)); [|lia]. cbn [negb].
  rewrite u32_id by (unfold is_u32; lia).
  replace (m_nBufPtr p - 5) with (Z.of_nat (length c)) by lia.
  rewrite (encode_length_varint 2) by (cbn; lia). rewrite app_nil_l.
  set (n := Z.of_nat (length c)) in *.
  assert (Hv : varint 3 n = varint 4 n).
  { unfold n. cbn. repeat (zcase; [done|]). zdiv. }
  destruct (varint_length 2 4 n) as [Hv1 Hv2]; [unfold n; lia|lia|].
  rewrite Hv. set (L := varint 4 n) in *.
  rewrite Z.gtb_ltb. destruct (Z.ltb_spec 0 (Z.of_nat (length L))); [|lia].
  destruct (Z.ltb_spec (Z.of_nat (length L)) (5 - 1)); [|lia]. cbn [negb].
  rewrite Hbuf.
  destruct (wr_bytes_Ok buf (5 - Z.of_nat (length L)) L) as (buf1 & -> & Hl1 & Hh1 & Hf1); [lia..|].
  unfold wr. rewrite wr_cell_Ok by lia.
  set (st := 5 - Z.of_nat (length L) - 1). set (ctl := u8 _).
  set (buf2 := <[Z.to_nat st:=Some ctl]> buf1).
  assert (Hctl : ctl = packet_type_code (m_Type p) * 16 + m_uchFlags p) by by apply control_byte.
  assert (Hw : holds buf2 st (wire (m_Type p) (m_uchFlags p) c)).
  { unfold wire. rewrite <-Hctl. change (Z.of_nat (length c)) with n. fold L.
    assert (Hst : 0 ≤ st) by lia.
    assert (Hf2 : ∀ j, st < j → buf2 !! Z.to_nat j = buf1 !! Z.to_nat j).
    { intros j Hj. apply list_lookup_insert_ne. lia. }
    apply holds_cons. split; [apply rd_Ok; split; [done|apply list_lookup_insert_eq; lia]|].
    apply holds_app. split.
    - eapply holds_frame; [replace (st + 1) with (5 - Z.of_nat (length L)) by lia; exact Hh1|].
      intros j Hj. apply Hf2. lia.
    - replace (st + 1 + Z.of_nat (length L)) with 5 by lia.
      eapply holds_frame; [exact Hh|]. intros j Hj. rewrite Hf2 by lia. apply Hf1. lia. }
  replace (Z.to_nat _) with (length (wire (m_Type p) (m_uchFlags p) c)).
  2: { unfold wire. cbn [length]. rewrite length_app. change (Z.of_nat (length c)) with n. fold L. lia. }
  rewrite (holds_rd_bytes _ _ _ Hw). eexists. split_and!; [done| |done].
  repeat split; cbn; try done; try lia.
  exists buf2. split_and!; [done|unfold buf2; rewrite length_insert; lia|].
  unfold wire in Hw. apply holds_cons in Hw as [_ [_ Hw]%holds_app].
  change (Z.of_nat (length c)) with n in Hw. fold L in Hw.
  by replace (st + 1 + Z.of_nat (length L)) with 5 in Hw by lia.
Qed.

(** A packet without error and with tries left is handed to the socket in its
    wire format, and costs one try. *)
Lemma Send_Ok sock p w c :
  repr p (Some c) → sendable c → 0 ≤ m_uchFlags p < 16 → m_nSendTries p ≠ 0 →
  let bytes := wire (m_Type p) (m_uchFlags p) c in
  let '(n, w') := CNetSocket_Send sock bytes MSG_DONTWAIT w in
  ∃ p', Send sock (p, w) = Ok (n =? Z.of_nat (length bytes), (p', w')) ∧
        repr p' (Some c) ∧ meta p' = meta (set_m_nSendTries (m_nSendTries p - 1) p).
Proof.
  intros Hp Hc Hfl Ht bytes. destruct (CNetSocket_Send _ _ _ _) as [n w'] eqn:Es.
  pose proof Hp as (_ & He & _).
  destruct (finish_wire (set_m_nSendTries (m_nSendTries p - 1) p) c) as (p' & Ef & Hp' & Hm);
    [done..|].
  exists p'. split; [|done]. unfold Send. rewrite bind_unfold. cbn [get]. rewrite He.
  destruct (Z.eqb_spec (m_nSendTries p) 0); [done|].
  rewrite bind_unfold. unfold lift_res. rewrite Ef. cbn -[wire]. fold bytes. by rewrite Es.
Qed.

Lemma Send_error sock p w : m_bError p = true → Send sock (p, w) = Ok (false, (p, w)).
Proof. intros He. unfold Send. rewrite bind_unfold. cbn [get]. by rewrite He. Qed.

Lemma Send_exhausted sock p w :
  m_nSendTries p = 0 → Send sock (p, w) = Ok (false, (p, w)).
Proof.
  intros Ht. unfold Send. rewrite bind_unfold. cbn [get]. rewrite Ht.
  by destruct (m_bError p).
Qed.

(** The assertion [nLengthBytes < MAX_LENGTH_FIXED_HEADER-1] of [Send] rejects
    the lengths that need all four bytes, although the header has room. *)
Lemma finish_four_length_bytes p c :
  repr p (Some c) → 128 ^ 3 ≤ Z.of_nat (length c) < 128 ^ 4 →
  finish p = Fault AssertFailed.
Proof.
  intros (Hcap & He & Hptr & Hle & _) Hc. unfold finish, MAX_LENGTH_FIXED_HEADER in *.
  rewrite Z.geb_leb. destruct (Z.leb_spec 5 (m_nBufPtr p)); [|lia]. cbn [negb].
  rewrite u32_id by (unfold is_u32; lia).
  replace (m_nBufPtr p - 5) with (Z.of_nat (length c)) by lia.
  rewrite (encode_length_varint 3) by (cbn; lia).
  assert (Hl : length (varint 4 (Z.of_nat (length c))) = 4%nat).
  { cbn. do 3 (zcase; [zdiv|cbn]). by zcase; cbn. }
  by rewrite app_nil_l, Hl.
Qed.
End send.
