(* ===== verification/MqttReceivePacket.v ===== *)
(** The MQTT packets a client receives: the class [CMQTTReceivePacket] of
    [mqttreceivepacket.cpp], a buffer that is filled from the socket and from
    whose front complete packets are taken. *)
From stdpp Require Import base numbers list gmap option strings.
From S2P Require Import Prelude.
From S2P Require Import Circle.
From S2P Require Import MqttSendPacket.
Import Mqtt.

Module ReceivePacket.
Inductive TMQTTReceiveStatus :=
  | MQTTReceiveContinue
  | MQTTReceivePacketOK
  | MQTTReceivePacketInvalid
  | MQTTReceiveDisconnect
  | MQTTReceiveNotEnoughMemory
  | MQTTReceiveUnknown.

#[export] Instance TMQTTReceiveStatus_eq_dec : EqDecision TMQTTReceiveStatus.
Proof. solve_decision. Defined.

(** The members; [m_Type] is [None] for a value that is no enumerator. *)
Record CMQTTReceivePacket := mkReceivePacket {
  m_nBufferSize : Z;
  m_pBuffer : option (list cell);
  m_nInPtr : Z;
  m_nOutPtr : Z;
  m_Type : option TMQTTPacketType;
  m_uchFlags : Z;
  m_nRemainingLength : Z;
  m_nBytesConsumed : Z
}.

Definition set_m_pBuffer (b : list cell) (p : CMQTTReceivePacket) : CMQTTReceivePacket :=
  mkReceivePacket (m_nBufferSize p) (Some b) (m_nInPtr p) (m_nOutPtr p) (m_Type p)
    (m_uchFlags p) (m_nRemainingLength p) (m_nBytesConsumed p).
Definition set_m_nInPtr (n : Z) (p : CMQTTReceivePacket) : CMQTTReceivePacket :=
  mkReceivePacket (m_nBufferSize p) (m_pBuffer p) n (m_nOutPtr p) (m_Type p)
    (m_uchFlags p) (m_nRemainingLength p) (m_nBytesConsumed p).
Definition set_m_nOutPtr (n : Z) (p : CMQTTReceivePacket) : CMQTTReceivePacket :=
  mkReceivePacket (m_nBufferSize p) (m_pBuffer p) (m_nInPtr p) n (m_Type p)
    (m_uchFlags p) (m_nRemainingLength p) (m_nBytesConsumed p).
Definition set_header (t : option TMQTTPacketType) (flags rem : Z) (p : CMQTTReceivePacket) :
    CMQTTReceivePacket :=
  mkReceivePacket (m_nBufferSize p) (m_pBuffer p) (m_nInPtr p) (m_nOutPtr p) t flags rem 0.
Definition set_m_nBytesConsumed (n : Z) (p : CMQTTReceivePacket) : CMQTTReceivePacket :=
  mkReceivePacket (m_nBufferSize p) (m_pBuffer p) (m_nInPtr p) (m_nOutPtr p) (m_Type p)
    (m_uchFlags p) (m_nRemainingLength p) n.

Section size.
Context `{Target, Platform W}.

(** The constructor.  [bNew] says whether the allocation succeeds; the
    members it leaves indeterminate are taken from [junk]. *)
Definition construct (bNew : bool) (nMaxPacketSize nMaxPacketsQueued : Z)
    (junk : CMQTTReceivePacket) : res CMQTTReceivePacket :=
  let nBufferSize := usize (nMaxPacketSize * nMaxPacketsQueued + FRAME_BUFFER_SIZE) in
  if negb (128 <=? nMaxPacketSize) then Fault AssertFailed
  else if negb (1 <=? nMaxPacketsQueued) then Fault AssertFailed
  else Ok (mkReceivePacket nBufferSize
             (if bNew then Some (uninit nBufferSize) else None) 0
             (m_nOutPtr junk) (m_Type junk) (m_uchFlags junk)
             (m_nRemainingLength junk) (m_nBytesConsumed junk)).

Definition Reset : M CMQTTReceivePacket () := modify (set_m_nInPtr 0).

(** The loop of [Complete]: [for (i = 0; m_nInPtr > m_nOutPtr; i++, m_nOutPtr++)
    m_pBuffer[i] = m_pBuffer[m_nOutPtr];].  It ends with the buffer, [i] and
    [m_nOutPtr]. *)
Fixpoint complete_loop (fuel : nat) (buf : list cell) (i nOut nIn : Z) :
    res (list cell * Z * Z) :=
  match fuel with
  | O => Fault OutOfFuel
  | S fuel =>
      if nIn >? nOut then
        match rd_cell buf nOut with
        | Fault e => Fault e
        | Ok c => match wr_cell buf i c with
                  | Fault e => Fault e
                  | Ok buf => complete_loop fuel buf (i + 1) (nOut + 1) nIn
                  end
        end
      else Ok (buf, i, nOut)
  end.

Definition Complete : M CMQTTReceivePacket () :=
  p ← get;
  assert_ (m_nInPtr p >=? m_nOutPtr p);;
  buf ← deref (m_pBuffer p);
  '(buf, i, nOut) ← lift_res (complete_loop (S (Z.to_nat (m_nInPtr p - m_nOutPtr p)))
                               buf 0 (m_nOutPtr p) (m_nInPtr p));
  put (set_m_nInPtr i (set_m_nOutPtr nOut (set_m_pBuffer buf p))).

(** How the loop that decodes the remaining length ends. *)
Inductive decoded :=
  | DecodeInvalid
  | DecodeContinue
  | DecodeLength (nRemainingLength : Z).

(** That loop, with the resulting [m_nOutPtr].  At most five rounds run: the
    fifth finds [nShift > 7*3]. *)
Fixpoint decode_length (fuel : nat) (buf : list cell) (nIn nOut nShift nRemainingLength : Z) :
    res (decoded * Z) :=
  match fuel with
  | O => Fault OutOfFuel
  | S fuel =>
      if nShift >? 7 * 3 then Ok (DecodeInvalid, nOut)
      else if nIn <=? nOut then Ok (DecodeContinue, nOut)
      else match rd buf nOut with
           | Fault e => Fault e
           | Ok uchByte =>
               if (uchByte =? 0) && (nOut >? 1) then Ok (DecodeInvalid, nOut)
               else
                 let nRemainingLength :=
                   usize (nRemainingLength + Z.shiftl (Z.land uchByte 0x7F) nShift) in
                 let nShift := nShift + 7 in
                 let nOut := u32 (nOut + 1) in
                 if Z.land uchByte 0x80 =? 0
                 then Ok (DecodeLength nRemainingLength, nOut)
                 else decode_length fuel buf nIn nOut nShift nRemainingLength
           end
  end.

Definition flags_qos (uchFlags : Z) : Z :=
  Z.shiftr (Z.land uchFlags MQTT_FLAG_QOS__MASK) MQTT_FLAG_QOS__SHIFT.

(** The basic checks on a received packet. *)
Definition header_ok (t : option TMQTTPacketType) (uchFlags nRemainingLength : Z) : bool :=
  match t with
  | Some MQTTConnAck => negb (negb (uchFlags =? 0) || negb (nRemainingLength =? 2))
  | Some MQTTPublish =>
      let uchQoS := flags_qos uchFlags in
      negb ((uchQoS >? MQTT_QOS_EXACTLY_ONCE)
            || (nRemainingLength <? (if uchQoS =? 0 then 3 else 5)))
  | Some MQTTPubAck | Some MQTTPubRec | Some MQTTPubComp | Some MQTTUnsubAck =>
      negb (negb (uchFlags =? 0) || negb (nRemainingLength =? 2))
  | Some MQTTPubRel =>
      negb (negb (uchFlags =? Z.shiftl 1 1) || negb (nRemainingLength =? 2))
  | Some MQTTSubAck => negb (negb (uchFlags =? 0) || (nRemainingLength <? 3))
  | Some MQTTPingResp => negb (negb (uchFlags =? 0) || negb (nRemainingLength =? 0))
  | _ => false
  end.

(** The part of [Receive] after the socket call: decode the packet at the
    front of the buffer. *)
Definition parse : M CMQTTReceivePacket TMQTTReceiveStatus :=
  modify (set_m_nOutPtr 1);;
  p ← get;
  buf ← deref (m_pBuffer p);
  '(d, nOut) ← lift_res (decode_length 5 buf (m_nInPtr p) 1 0 0);
  modify (set_m_nOutPtr nOut);;
  match d with
  | DecodeInvalid => mret MQTTReceivePacketInvalid
  | DecodeContinue => mret MQTTReceiveContinue
  | DecodeLength nRemainingLength =>
      if m_nInPtr p <? usize (nOut + nRemainingLength) then mret MQTTReceiveContinue
      else
        b0 ← lift_res (rd buf 0);
        let t := packet_type_of_code (Z.shiftr b0 4) in
        let fl := Z.land b0 0x0F in
        modify (set_header t fl nRemainingLength);;
        mret (if header_ok t fl nRemainingLength
              then MQTTReceivePacketOK else MQTTReceivePacketInvalid)
  end.

(** [Receive], on the packet and the world. *)
Definition Receive (pSocket : Sock) : M (CMQTTReceivePacket * W) TMQTTReceiveStatus :=
  '(p, w) ← get;
  match m_pBuffer p with
  | None => mret MQTTReceiveNotEnoughMemory
  | Some buf =>
    if m_nInPtr p >? usize (m_nBufferSize p - FRAME_BUFFER_SIZE)
    then mret MQTTReceiveNotEnoughMemory
    else
      let '((nBytesReceived, bytes), w) :=
        CNetSocket_Receive pSocket FRAME_BUFFER_SIZE MSG_DONTWAIT w in
      buf ← lift_res (wr_bytes buf (m_nInPtr p) bytes);
      put (set_m_pBuffer buf p, w);;
      if nBytesReceived <? 0 then mret MQTTReceiveDisconnect
      else
        modify (λ '(p, w), (set_m_nInPtr (u32 (m_nInPtr p + nBytesReceived)) p, w));;
        zoom fst (λ p s, (p, s.2)) parse
  end.

Definition GetType (p : CMQTTReceivePacket) : option TMQTTPacketType := m_Type p.
Definition GetFlags (p : CMQTTReceivePacket) : Z := m_uchFlags p.
Definition GetRemainingLength (p : CMQTTReceivePacket) : Z := m_nRemainingLength p.

(** [m_pBuffer[m_nOutPtr++]]. *)
Definition next_byte : M CMQTTReceivePacket Z :=
  p ← get;
  buf ← deref (m_pBuffer p);
  b ← lift_res (rd buf (m_nOutPtr p));
  put (set_m_nOutPtr (u32 (m_nOutPtr p + 1)) p);;
  mret b.

Definition consume (n : Z) : M CMQTTReceivePacket () :=
  modify (λ p, set_m_nBytesConsumed (usize (m_nBytesConsumed p + n)) p).

Definition GetByte : M CMQTTReceivePacket Z :=
  consume 1;;
  p ← get;
  assert_ (m_nRemainingLength p >=? m_nBytesConsumed p);;
  next_byte.

Definition GetWord : M CMQTTReceivePacket Z :=
  consume 2;;
  p ← get;
  assert_ (m_nRemainingLength p >=? m_nBytesConsumed p);;
  b1 ← next_byte;
  b2 ← next_byte;
  mret (u16 (Z.lor (u16 (Z.shiftl b1 8)) b2)).

(** The loop of [GetString], which stores at [pBuffer + i]; the result says
    whether all characters were in the range the client supports. *)
Fixpoint get_chars (n : nat) (pBuffer : list cell) (i : Z) :
    M CMQTTReceivePacket (bool * list cell) :=
  match n with
  | O => mret (true, pBuffer)
  | S n =>
      chChar ← next_byte;
      if negb (Z.land chChar 0x80 =? 0) then mret (false, pBuffer)
      else
        pBuffer ← lift_res (wr pBuffer i chChar);
        get_chars n pBuffer (i + 1)
  end.

(** [GetString]: the result and the caller's buffer of [nBufferSize] bytes
    after the call. *)
Definition GetString (pBuffer : list cell) (nBufferSize : Z) :
    M CMQTTReceivePacket (Z * list cell) :=
  usLength ← GetWord;
  consume usLength;;
  p ← get;
  if m_nRemainingLength p <? m_nBytesConsumed p then mret (0, pBuffer)
  else if u32 (usLength + 1) >? nBufferSize then mret (0, pBuffer)
  else
    '(ok, pBuffer) ← get_chars (Z.to_nat usLength) pBuffer 0;
    if negb ok then mret (0, pBuffer)
    else
      pBuffer ← lift_res (wr pBuffer usLength 0);
      mret (usLength, pBuffer).

(** [GetData]: the index in the buffer the returned pointer points at, [None]
    being the null pointer. *)
Definition GetData (nLength : Z) : M CMQTTReceivePacket (option Z) :=
  consume nLength;;
  p ← get;
  if m_nRemainingLength p <? m_nBytesConsumed p then mret None
  else
    put (set_m_nOutPtr (u32 (m_nOutPtr p + nLength)) p);;
    mret (Some (m_nOutPtr p)).
End size.
End ReceivePacket.
