(* ===== verification/MqttReceiveSpec.v ===== *)
(** What a [CMQTTReceivePacket] promises: the buffer holds the part of the
    byte stream that is not processed yet, [Receive] decides whether a packet
    is complete at its front, the getters read its content in order, and
    [Complete] drops what was read. *)
From stdpp Require Import base numbers list gmap option strings.
From S2P Require Import Prelude.
From S2P Require Import Circle.
From S2P Require Import MqttSendPacket.
From S2P Require Import MqttSendSpec.
From S2P Require Import MqttReceivePacket.
Import Mqtt ReceivePacket.

(** ** A reference parser on byte lists *)

Inductive length_field :=
  | LenInvalid
  | LenMore
  | LenIs (n : Z) (size : nat).

(** The remaining length field at the front of [bs].  At most [k] bytes are
    allowed, and a zero byte only as the single byte of the length 0. *)
Fixpoint read_length (k : nat) (first : bool) (bs : list Z) : length_field :=
  match k, bs with
  | O, _ => LenInvalid
  | S _, [] => LenMore
  | S k, b :: bs =>
      if (b =? 0) && negb first then LenInvalid
      else if b <? 128 then LenIs b 1
      else match read_length k false bs with
           | LenIs n size => LenIs (b - 128 + 128 * n) (S size)
           | r => r
           end
  end.

Inductive front :=
  | FrontMore
  | FrontInvalid
  | FrontPacket (t : TMQTTPacketType) (flags : Z) (header : nat) (rem : Z).

(** What is at the front of the stream: not yet a whole packet, an unacceptable
    one, or a packet with a header of [header] and a content of [rem] bytes. *)
Definition front_of (bs : list Z) : front :=
  match bs with
  | [] => FrontMore
  | b0 :: bs' =>
      match read_length 4 true bs' with
      | LenInvalid => FrontInvalid
      | LenMore => FrontMore
      | LenIs n size =>
          if Z.of_nat (length bs) <? Z.of_nat (S size) + n then FrontMore
          else match packet_type_of_code (b0 / 16) with
               | Some t => if header_ok (Some t) (b0 mod 16) n
                           then FrontPacket t (b0 mod 16) (S size) n else FrontInvalid
               | None => FrontInvalid
               end
      end
  end.

(** The stream a buffer holds. *)
Definition buffered `{Platform W} (p : CMQTTReceivePacket) (bs : list Z) : Prop :=
  FRAME_BUFFER_SIZE ≤ m_nBufferSize p < 2^31 ∧
  m_nInPtr p = Z.of_nat (length bs) ∧ m_nInPtr p ≤ m_nBufferSize p ∧
  Forall is_byte bs ∧
  ∃ buf, m_pBuffer p = Some buf ∧ Z.of_nat (length buf) = m_nBufferSize p ∧ holds buf 0 bs.

(** A buffer in the middle of the evaluation of a packet: [done] is what was
    read, [todo] the rest of the content and [rest] the stream behind it. *)
Definition reading `{Platform W} (p : CMQTTReceivePacket) (done todo rest : list Z) : Prop :=
  buffered p (done ++ todo ++ rest) ∧
  m_nOutPtr p = Z.of_nat (length done) ∧
  0 ≤ m_nBytesConsumed p ∧
  m_nRemainingLength p = m_nBytesConsumed p + Z.of_nat (length todo) ∧
  m_nRemainingLength p < 2^28.

(** ** The reference parser and the wire format *)

Lemma read_length_varint k first n rest :
  0 ≤ n < 128 ^ Z.of_nat (S k) → (first = false → 0 < n) →
  read_length (S k) first (varint (S k) n ++ rest) = LenIs n (length (varint (S k) n)).
Proof.
  revert first n. induction k as [|k IH]; intros first n Hn Hf; rewrite varint_step.
  - destruct (Z.ltb_spec n 128); [|cbn in Hn; lia]. cbn.
    destruct (Z.ltb_spec n 128); [|lia].
    destruct (Z.eqb_spec n 0); destruct first; cbn; try done. specialize (Hf eq_refl). lia.
  - destruct (Z.ltb_spec n 128).
    + cbn. destruct (Z.ltb_spec n 128); [|lia].
      destruct (Z.eqb_spec n 0); destruct first; cbn; try done. specialize (Hf eq_refl). lia.
    + remember (S k) as k' eqn:Ek. cbn [app read_length length].
      destruct (Z.eqb_spec (n mod 128 + 128) 0); [zdiv|].
      destruct (Z.ltb_spec (n mod 128 + 128) 128); [zdiv|]. cbn [andb].
      rewrite IH.
      * f_equal. zdiv.
      * rewrite (Nat2Z.inj_succ k'), Z.pow_succ_r in Hn by lia. zdiv.
      * intros _. zdiv.
Qed.

Lemma read_length_prefix k first n bs :
  0 ≤ n < 128 ^ Z.of_nat (S k) → (first = false → 0 < n) →
  bs `prefix_of` varint (S k) n → bs ≠ varint (S k) n → read_length (S k) first bs = LenMore.
Proof.
  revert first n bs. induction k as [|k IH]; intros first n bs Hn Hf [post Hpre] Hne;
    rewrite varint_step in *; (destruct bs as [|b bs]; [done|]).
  - destruct (Z.ltb_spec n 128); [|cbn in Hn; lia].
    destruct bs; simplify_eq/=.
  - destruct (Z.ltb_spec n 128); [destruct bs; simplify_eq/=|].
    remember (S k) as k' eqn:Ek. cbn [app] in Hpre. injection Hpre as <- Hpre.
    cbn [read_length].
    destruct (Z.eqb_spec (n mod 128 + 128) 0); [zdiv|].
    destruct (Z.ltb_spec (n mod 128 + 128) 128); [zdiv|]. cbn [andb].
    rewrite (IH false (n / 128)); [done| | |by exists post|congruence].
    + rewrite (Nat2Z.inj_succ k'), Z.pow_succ_r in Hn by lia. zdiv.
    + intros _. zdiv.
Qed.

(** A length field of at most four bytes is below 2^28. *)
Lemma read_length_bound k first bs n size :
  Forall is_byte bs → read_length k first bs = LenIs n size →
  0 ≤ n < 128 ^ Z.of_nat k ∧ (1 ≤ size ≤ length bs)%nat ∧ (size ≤ k)%nat.
Proof.
  revert first bs n size. induction k as [|k IH]; intros first bs n size Hbs E; [done|].
  destruct bs as [|b bs]; [done|]. cbn [read_length] in E.
  apply Forall_cons in Hbs as [Hb Hbs]. unfold is_byte, is_u8 in Hb.
  destruct ((b =? 0) && negb first); [done|].
  rewrite Nat2Z.inj_succ, Z.pow_succ_r by lia.
  destruct (Z.ltb_spec b 128).
  { simplify_eq. split_and!; [lia| |cbn; lia..].
    assert (0 < 128 ^ Z.of_nat k) by lia. lia. }
  destruct (read_length k false bs) as [| |m sz] eqn:Er; [done|done|].
  simplify_eq. destruct (IH _ _ _ _ Hbs Er) as (Hm & Hsz & Hk). cbn [length]. lia.
Qed.

Section receive.
Context `{Target, Platform W, !PlatformOk W}.
Implicit Types (p : CMQTTReceivePacket) (bs : list Z).

Lemma land_128_zero b : is_byte b → (Z.land b 0x80 =? 0) = (b <? 128).
Proof.
  intros Hb. apply eqb_prop, (Z_range_forallb (λ b, eqb (Z.land b 0x80 =? 0) (b <? 128)) 0 256);
    [done|exact Hb].
Qed.

Lemma holds_drop buf bs i b bs' :
  holds buf 0 bs → drop i bs = b :: bs' →
  rd buf (Z.of_nat i) = Ok b ∧ drop (S i) bs = bs' ∧ (i < length bs)%nat.
Proof using Type.
  intros Hh Ed.
  assert (Hb : bs !! i = Some b) by (rewrite <-(Nat.add_0_r i), <-lookup_drop, Ed; done).
  split_and!.
  - apply (holds_rd buf 0 bs (Z.of_nat i) b); [done|lia|by rewrite Nat2Z.id].
  - by rewrite <-Nat.add_1_r, <-drop_drop, Ed.
  - by apply lookup_lt_Some in Hb.
Qed.

(** How the loop ends, given what the reference parser reads behind the [j]
    length bytes that were seen. *)
Definition decode_result (j : nat) (acc : Z) (r : length_field) (o : res (decoded * Z)) : Prop :=
  match r with
  | LenInvalid => ∃ out, o = Ok (DecodeInvalid, out)
  | LenMore => ∃ out, o = Ok (DecodeContinue, out)
  | LenIs n size => o = Ok (DecodeLength (acc + n * 128 ^ Z.of_nat j), Z.of_nat (S j + size))
  end.

(** The loop of [Receive] computes what the reference parser reads. *)
Lemma decode_length_read k fuel buf bs j acc :
  holds buf 0 bs → Forall is_byte bs → Z.of_nat (length bs) < 2^31 →
  (S j ≤ length bs)%nat → (k + j = 4)%nat → (k < fuel)%nat →
  0 ≤ acc < 128 ^ Z.of_nat j →
  decode_result j acc (read_length k (j =? 0)%nat (drop (S j) bs))
    (decode_length fuel buf (Z.of_nat (length bs)) (Z.of_nat (S j)) (7 * Z.of_nat j) acc).
Proof using Type.
  intros Hh Hb Hlen. revert fuel j acc.
  induction k as [|k IH]; intros [|fuel] j acc Hi Hki Hf Hacc; try lia;
    cbn [decode_length]; rewrite Z.gtb_ltb.
  { cbn. destruct (Z.ltb_spec (7 * 3) (7 * Z.of_nat j)); [eauto|lia]. }
  destruct (Z.ltb_spec (7 * 3) (7 * Z.of_nat j)); [lia|].
  destruct (Z.leb_spec (Z.of_nat (length bs)) (Z.of_nat (S j))).
  { rewrite drop_ge by lia. cbn. eauto. }
  destruct (drop (S j) bs) as [|b bs'] eqn:Ed.
  { apply (f_equal length) in Ed. rewrite length_drop in Ed. cbn in Ed. lia. }
  destruct (holds_drop buf bs (S j) b bs' Hh Ed) as (-> & Ed' & Hlt).
  assert (Hbyte : 0 ≤ b < 256).
  { apply (Forall_drop _ (S j)) in Hb. rewrite Ed in Hb. by apply Forall_cons in Hb as [? _]. }
  cbn [read_length].
  replace (Z.of_nat (S j) >? 1) with (negb (j =? 0)%nat)
    by (rewrite Z.gtb_ltb; destruct (Z.ltb_spec 1 (Z.of_nat (S j))), (Nat.eqb_spec j 0); done || lia).
  destruct ((b =? 0) && negb (j =? 0)%nat); [cbn; eauto|].
  rewrite land_128_zero, land_127, Z.shiftl_mul_pow2, Z.pow_mul_r by (done || lia).
  change (2^7) with 128.
  assert (Hpow : 0 < 128 ^ Z.of_nat j ≤ 128 ^ 3) by (split; [lia|apply Z.pow_le_mono_r; lia]).
  assert (Hm : 0 ≤ b mod 128 < 128) by zdiv.
  rewrite usize_id, u32_id by (unfold is_u32; nia).
  destruct (Z.ltb_spec b 128).
  { cbn. do 3 f_equal; [|lia]. rewrite Z.mod_small by lia. lia. }
  specialize (IH fuel (S j) (acc + b mod 128 * 128 ^ Z.of_nat j)).
  rewrite Nat2Z.inj_succ, Z.pow_succ_r in IH by lia. rewrite Ed' in IH.
  replace (7 * Z.succ (Z.of_nat j)) with (7 * Z.of_nat j + 7) in IH by lia.
  replace (Z.of_nat (S (S j))) with (Z.of_nat (S j) + 1) in IH by lia.
  specialize (IH ltac:(lia) ltac:(lia) ltac:(lia) ltac:(nia)). cbn [Nat.eqb] in IH.
  unfold decode_result in *. destruct (read_length k false bs') as [| |n size]; [done|done|].
  rewrite IH. do 3 f_equal; [|lia].
  replace (b mod 128) with (b - 128) by zdiv.
  rewrite (Nat2Z.inj_succ j), Z.pow_succ_r by lia. ring.
Qed.

Lemma type_of_byte b0 : Z.shiftr b0 4 = b0 / 16.
Proof using Type. by rewrite Z.shiftr_div_pow2. Qed.
Lemma flags_of_byte b0 : Z.land b0 0x0F = b0 mod 16.
Proof using Type. change 0x0F with (Z.ones 4). by rewrite Z.land_ones. Qed.

(** Only [m_nOutPtr] and the header members differ. *)
Lemma buffered_same p p' bs :
  buffered p bs → m_nBufferSize p' = m_nBufferSize p → m_nInPtr p' = m_nInPtr p →
  m_pBuffer p' = m_pBuffer p → buffered p' bs.
Proof using Type. unfold buffered. by intros ? -> -> ->. Qed.

(** The loop of [Receive] on the buffered stream. *)
Lemma decode_buffered buf bs :
  holds buf 0 bs → Forall is_byte bs → Z.of_nat (length bs) < 2^31 →
  match bs with
  | [] => decode_length 5 buf (Z.of_nat (length bs)) 1 0 0 = Ok (DecodeContinue, 1)
  | b0 :: bs' => decode_result 0 0 (read_length 4 true bs')
                   (decode_length 5 buf (Z.of_nat (length bs)) 1 0 0)
  end.
Proof using Type.
  intros Hh Hb Hlen. destruct bs as [|b0 bs']; [done|].
  apply (decode_length_read 4 5 buf (b0 :: bs') 0 0); cbn in *; auto with lia.
Qed.

(** What [Receive] leaves when a packet is complete. *)
Definition complete p (t : TMQTTPacketType) (fl : Z) (content rest : list Z) : Prop :=
  m_Type p = Some t ∧ m_uchFlags p = fl ∧ m_nRemainingLength p = Z.of_nat (length content) ∧
  header_ok (Some t) fl (Z.of_nat (length content)) = true ∧
  m_nBytesConsumed p = 0 ∧
  ∃ hdr, reading p hdr content rest ∧ (2 ≤ length hdr)%nat.

(** The result of [parse] on the stream [bs]. *)
Definition parsed p' bs (st : TMQTTReceiveStatus) : Prop :=
  match front_of bs with
  | FrontMore => st = MQTTReceiveContinue
  | FrontInvalid => st = MQTTReceivePacketInvalid
  | FrontPacket t fl hdr rem =>
      st = MQTTReceivePacketOK ∧ (hdr + Z.to_nat rem ≤ length bs)%nat ∧
      complete p' t fl (take (Z.to_nat rem) (drop hdr bs)) (drop (hdr + Z.to_nat rem) bs)
  end.

Lemma parse_spec p bs :
  buffered p bs → wp no_fault parse (λ st p', buffered p' bs ∧ parsed p' bs st) p.
Proof using Type*.
  intros Hp. pose proof Hp as (Hsz & Hin & Hle & Hb & buf & Hbuf & Hlen & Hh).
  pose proof (decode_buffered buf bs Hh Hb ltac:(lia)) as Hdec.
  unfold parse. wp_steps. eapply wp_deref_Some; [exact Hbuf|]. wp_steps.
  cbn [m_nInPtr set_m_nOutPtr]. rewrite Hin.
  destruct bs as [|b0 bs'].
  { eapply wp_lift_Ok; [exact Hdec|]. by wp_steps. }
  unfold parsed. cbn [front_of]. set (bs := b0 :: bs') in *. unfold decode_result in Hdec.
  destruct (read_length 4 true bs') as [| |n size] eqn:Er.
  - destruct Hdec as [out Hdec]. eapply wp_lift_Ok; [exact Hdec|]. wp_steps.
    split; [|done]. by eapply buffered_same.
  - destruct Hdec as [out Hdec]. eapply wp_lift_Ok; [exact Hdec|]. wp_steps.
    split; [|done]. by eapply buffered_same.
  - eapply wp_lift_Ok; [exact Hdec|]. wp_steps.
    assert (Hbs' : Forall is_byte bs') by (by apply Forall_cons in Hb as [_ ?]).
    destruct (read_length_bound 4 true bs' n size Hbs' Er) as (Hn & Hsize & _).
    assert (Hlbs : length bs = S (length bs')) by done.
    rewrite Z.mul_1_r, Z.add_0_l, usize_id by lia.
    replace (Z.of_nat (1 + size)) with (Z.of_nat (S size)) by done.
    destruct (Z.ltb_spec (Z.of_nat (length bs)) (Z.of_nat (S size) + n)).
    { wp_steps. split; [|done]. by eapply buffered_same. }
    wp_steps. eapply (wp_lift_Ok _ _ b0).
    { by apply (holds_rd buf 0 bs 0 b0). }
    wp_steps. rewrite type_of_byte, flags_of_byte.
    split; [by eapply buffered_same|].
    destruct (packet_type_of_code (b0 / 16)) as [t|]; [|done].
    destruct (header_ok (Some t) (b0 mod 16) n) eqn:Eh; [|done].
    split; [done|]. split; [lia|].
    assert (Hlc : length (take (Z.to_nat n) (drop (S size) bs)) = Z.to_nat n).
    { rewrite length_take, length_drop. lia. }
    split_and!; [done|done|rewrite Hlc; cbn; lia|by rewrite Hlc, Z2Nat.id by lia|done|].
    exists (take (S size) bs). split; [|rewrite length_take; lia].
    change (128 ^ Z.of_nat 4) with (2^28) in Hn.
    split_and!; cbn [m_nOutPtr m_nRemainingLength m_nBytesConsumed set_header set_m_nOutPtr];
      [..|exact (proj2 Hn)].
    + rewrite <-drop_drop, take_drop, take_drop. by eapply buffered_same.
    + rewrite length_take. lia.
    + done.
    + rewrite Hlc. lia.
Qed.

(** ** Receiving *)

(** The outcome of [Receive] on a buffer with the stream [bs]. *)
Definition received p (w : W) bs (sock : Sock) (st : TMQTTReceiveStatus) (s' : CMQTTReceivePacket * W) : Prop :=
  if m_nInPtr p >? m_nBufferSize p - FRAME_BUFFER_SIZE
  then st = MQTTReceiveNotEnoughMemory ∧ s' = (p, w)
  else
    let '((r, data), w') := CNetSocket_Receive sock FRAME_BUFFER_SIZE MSG_DONTWAIT w in
    s'.2 = w' ∧
    if r <? 0 then st = MQTTReceiveDisconnect ∧ buffered s'.1 bs
    else buffered s'.1 (bs ++ data) ∧ parsed s'.1 (bs ++ data) st.

Lemma buffered_write p bs buf data :
  buffered p bs → m_pBuffer p = Some buf → Forall is_byte data →
  m_nInPtr p + Z.of_nat (length data) ≤ m_nBufferSize p →
  ∃ buf', wr_bytes buf (m_nInPtr p) data = Ok buf' ∧
    buffered (set_m_nInPtr (u32 (m_nInPtr p + Z.of_nat (length data))) (set_m_pBuffer buf' p))
      (bs ++ data).
Proof using Type*.
  intros (Hsz & Hin & Hle & Hb & buf0 & Hbuf0 & Hlen & Hh) Hbuf Hd Hfit.
  assert (buf0 = buf) as -> by congruence.
  destruct (wr_bytes_Ok buf (m_nInPtr p) data) as (buf' & E & Hl & Hhd & Hf); [lia|lia|].
  exists buf'. split; [done|]. unfold buffered. cbn.
  rewrite u32_id by (unfold is_u32; lia).
  split_and!; [lia|lia|rewrite length_app; lia|lia|by apply Forall_app|].
  exists buf'. split_and!; [done|lia|]. apply holds_app. split.
  - eapply holds_frame; [exact Hh|]. intros j Hj. apply Hf. lia.
  - by rewrite Z.add_0_l, <-Hin.
Qed.

Lemma Receive_received sock p w bs :
  buffered p bs → wp no_fault (Receive sock) (received p w bs sock) (p, w).
Proof using Type*.
  intros Hp. pose proof Hp as (Hsz & Hin & Hle & Hb & buf & Hbuf & Hlen & Hh).
  pose proof FRAME_BUFFER_SIZE_pos as HF.
  unfold Receive. wp_steps. rewrite Hbuf, usize_id by lia. unfold received.
  destruct (m_nInPtr p >? m_nBufferSize p - FRAME_BUFFER_SIZE) eqn:Efull; [by wp_steps|].
  assert (Hroom : m_nInPtr p + FRAME_BUFFER_SIZE ≤ m_nBufferSize p).
  { rewrite Z.gtb_ltb in Efull. apply Z.ltb_ge in Efull. lia. }
  destruct (CNetSocket_Receive sock FRAME_BUFFER_SIZE MSG_DONTWAIT w) as [[r data] w'] eqn:Er.
  destruct (CNetSocket_Receive_len _ _ _ _ _ _ _ Er) as [Hdl Hr]; [lia|].
  pose proof (CNetSocket_Receive_bytes _ _ _ _ _ _ _ Er) as Hdb.
  destruct (buffered_write p bs buf data Hp Hbuf Hdb) as (buf' & Ew & Hbuf'); [lia|].
  wp_step. eapply wp_lift_Ok; [exact Ew|]. wp_steps.
  destruct (Z.ltb_spec r 0).
  - wp_steps. split; [done|]. split; [done|].
    assert (data = []) as -> by (apply length_zero_iff_nil; lia).
    cbn in Ew. injection Ew as <-. eapply buffered_same; [exact Hp|done..|]. by cbn.
  - wp_steps. cbn [fst snd]. rewrite Hdl, Z.max_r in Hbuf' by lia.
    eapply wp_mono; [apply parse_spec, Hbuf'|]. intros st p' [Hb' Hst]. done.
Qed.

(** The read pointer never becomes negative. *)
Lemma decode_length_out fuel buf nIn nOut nShift acc d out :
  decode_length fuel buf nIn nOut nShift acc = Ok (d, out) → 0 ≤ nOut → 0 ≤ out.
Proof using Type.
  revert nOut nShift acc. induction fuel as [|fuel IH]; intros nOut nShift acc; [done|].
  cbn [decode_length]. destruct (_ >? _); [by intros [= _ <-]|].
  destruct (_ <=? _); [by intros [= _ <-]|]. destruct (rd buf nOut) as [b|]; [|done].
  destruct (_ && _); [by intros [= _ <-]|].
  pose proof (u32_range (nOut + 1)) as Hu. unfold is_u32 in Hu.
  destruct (_ =? _); [intros [= _ <-]; lia|]. intros E _. eapply IH; [exact E|lia].
Qed.

Definition any_fault (_ : fault) : Prop := True.

Lemma parse_out p : wp any_fault parse (λ _ p', 0 ≤ m_nOutPtr p') p.
Proof using Type.
  unfold parse. wp_steps. apply wp_deref; [|done]. intros buf _. wp_steps.
  apply wp_lift_res; [|done]. intros [d out] E. wp_steps.
  pose proof (decode_length_out _ _ _ _ _ _ _ _ E ltac:(lia)) as Ho.
  destruct d; [by wp_steps|by wp_steps|]. apply wp_if; intros _; [by wp_steps|]. wp_steps.
  apply wp_lift_res; [|done]. intros b _. by wp_steps.
Qed.

Lemma Receive_out sock p w :
  0 ≤ m_nOutPtr p → wp any_fault (Receive sock) (λ _ s, 0 ≤ m_nOutPtr s.1) (p, w).
Proof using Type.
  intros Hp. unfold Receive. wp_steps. destruct (m_pBuffer p); [|by wp_steps].
  apply wp_if; intros _; [by wp_steps|].
  destruct (CNetSocket_Receive _ _ _ _) as [[r data] w']. wp_step.
  apply wp_lift_res; [|done]. intros buf _. wp_steps.
  apply wp_if; intros _; wp_steps; [done|]. apply parse_out.
Qed.
End receive.
