(* ===== verification/MqttReadSpec.v ===== *)
(** The getters of [CMQTTReceivePacket] and [Complete], on the abstract view
    of [MqttReceiveSpec]; and the round trip between the packets that are sent
    and the packets that are received. *)
From stdpp Require Import base numbers list gmap option strings.
From S2P Require Import Prelude.
From S2P Require Import Circle.
From S2P Require Import MqttSendPacket.
From S2P Require Import MqttSendSpec.
From S2P Require Import MqttReceivePacket.
From S2P Require Import MqttReceiveSpec.
Import Mqtt ReceivePacket.

Section read.
Context `{Target, Platform W, !PlatformOk W}.
Implicit Types (p : CMQTTReceivePacket) (bs pre todo rest : list Z).

(** The members the getters leave alone. *)
Definition frame p :=
  (m_nBufferSize p, m_pBuffer p, m_nInPtr p, m_Type p, m_uchFlags p, m_nRemainingLength p).

Lemma buffered_frame p p' bs : buffered p bs → frame p' = frame p → buffered p' bs.
Proof using Type. intros ? [= ? ? ? _ _ _]. by eapply buffered_same. Qed.

Lemma reading_lookup p pre b todo rest :
  reading p pre (b :: todo) rest →
  ∃ buf, m_pBuffer p = Some buf ∧ rd buf (m_nOutPtr p) = Ok b ∧ is_byte b.
Proof using Type.
  intros [(_ & _ & _ & Hb & buf & Hbuf & _ & Hh) (Hout & _)]. exists buf. split_and!; [done| |].
  - rewrite Hout. apply holds_app in Hh as [_ Hh]. apply holds_cons in Hh as [Hh _].
    by rewrite Z.add_0_l in Hh.
  - apply Forall_app in Hb as [_ Hb]. by apply Forall_cons in Hb as [? _].
Qed.

Lemma reading_small p pre todo rest :
  reading p pre todo rest →
  m_nOutPtr p + Z.of_nat (length todo) < 2^31 ∧ 0 ≤ m_nOutPtr p ∧
  m_nBytesConsumed p + Z.of_nat (length todo) < 2^28.
Proof using Type.
  intros [(Hsz & Hin & Hle & _) (Hout & Hc & Hr & Hb)]. rewrite !length_app in Hin. lia.
Qed.

(** One byte of the content is read; [consume] has been called before. *)
Lemma next_byte_read p pre b todo rest k :
  reading (set_m_nBytesConsumed k p) pre (b :: todo) rest →
  wp no_fault next_byte (λ v p',
    v = b ∧ is_byte b ∧ frame p' = frame p ∧ m_nBytesConsumed p' = m_nBytesConsumed p ∧
    reading (set_m_nBytesConsumed (k + 1) p') (pre ++ [b]) todo rest) p.
Proof using Type.
  intros Hp. pose proof (reading_small _ _ _ _ Hp) as (Hs & Hs0 & _). cbn in Hs, Hs0.
  destruct (reading_lookup _ _ _ _ _ Hp) as (buf & Hbuf & Hrd & Hb). cbn in Hbuf, Hrd.
  unfold next_byte. wp_steps. eapply wp_deref_Some; [exact Hbuf|].
  wp_step. eapply wp_lift_Ok; [exact Hrd|]. wp_steps.
  split_and!; [done|done|done|done|].
  destruct Hp as [Hbuf' (Hout & Hc & Hr & Hlt)]. cbn in *.
  split_and!; cbn; [|rewrite u32_id by (unfold is_u32; lia); rewrite length_app; cbn; lia|lia|lia|done].
  rewrite <-app_assoc. cbn. by eapply buffered_frame.
Qed.

Lemma reading_consume p pre todo rest :
  reading p pre todo rest →
  reading (set_m_nBytesConsumed (m_nBytesConsumed p) p) pre todo rest.
Proof using Type. by destruct p. Qed.

Lemma GetByte_read p pre b todo rest :
  reading p pre (b :: todo) rest →
  wp no_fault GetByte (λ v p',
    v = b ∧ frame p' = frame p ∧ reading p' (pre ++ [b]) todo rest) p.
Proof using Type.
  intros Hp. pose proof (reading_small _ _ _ _ Hp) as (Hs & Hs0 & Hk). cbn [length] in Hk.
  pose proof Hp as [_ (_ & Hc & Hr & _)]. cbn [length] in Hr.
  unfold GetByte, consume. wp_steps. rewrite usize_id by lia.
  apply wp_assert_true; [cbn; rewrite Z.geb_leb; zcase; lia|].
  eapply wp_mono; [eapply (next_byte_read _ _ _ _ _ (m_nBytesConsumed p)); by destruct p|].
  cbn. intros v p' (-> & _ & Hf & Hc' & Hp'). split_and!; [done|done|].
  rewrite <-Hc' in Hp'. by destruct p'.
Qed.

(** At the end of the content the assertion in the getters fails. *)
Lemma GetByte_end p pre rest :
  reading p pre [] rest → GetByte p = Fault AssertFailed.
Proof using Type.
  intros Hp. pose proof (reading_small _ _ _ _ Hp) as (Hs & Hs0 & Hk). cbn [length] in Hk.
  pose proof Hp as [_ (_ & Hc & Hr & _)]. cbn [length] in Hr.
  apply wp_faults. unfold GetByte, consume. wp_steps. rewrite usize_id by lia.
  apply wp_assert; [cbn; rewrite Z.geb_leb; zcase; lia|done].
Qed.

Lemma word_value b1 b2 :
  is_byte b1 → is_byte b2 → u16 (Z.lor (u16 (Z.shiftl b1 8)) b2) = b1 * 256 + b2.
Proof using Type.
  intros H1 H2. unfold is_byte, is_u8 in *.
  assert (Hs : u16 (Z.shiftl b1 8) = Z.shiftl b1 8).
  { apply u16_id. unfold is_u16. rewrite Z.shiftl_mul_pow2 by lia. lia. }
  rewrite Hs, lor_shiftl_add by lia. apply u16_id. unfold is_u16. lia.
Qed.

Lemma GetWord_read p pre b1 b2 todo rest :
  reading p pre (b1 :: b2 :: todo) rest →
  wp no_fault GetWord (λ v p',
    v = b1 * 256 + b2 ∧ is_byte b1 ∧ is_byte b2 ∧ frame p' = frame p ∧
    reading p' (pre ++ [b1; b2]) todo rest) p.
Proof using Type.
  intros Hp. pose proof (reading_small _ _ _ _ Hp) as (Hs & Hs0 & Hk). cbn [length] in Hk.
  pose proof Hp as [_ (_ & Hc & Hr & _)]. cbn [length] in Hr.
  unfold GetWord, consume. wp_steps. rewrite usize_id by lia.
  apply wp_assert_true; [cbn; rewrite Z.geb_leb; zcase; lia|]. wp_step.
  eapply wp_mono; [eapply (next_byte_read _ _ _ _ _ (m_nBytesConsumed p)); by destruct p|].
  cbn. intros v p1 (-> & Hb1 & Hf1 & Hc1 & Hp1). wp_step.
  eapply wp_mono; [eapply (next_byte_read _ _ _ _ _ (m_nBytesConsumed p + 1)); exact Hp1|].
  cbn. intros v p2 (-> & Hb2 & Hf2 & Hc2 & Hp2). wp_steps.
  split_and!; [by apply word_value|done|done|by rewrite Hf2, Hf1|].
  rewrite <-app_assoc in Hp2. replace (m_nBytesConsumed p + 1 + 1) with (m_nBytesConsumed p2) in Hp2
    by (rewrite Hc2, Hc1; cbn; lia).
  by destruct p2.
Qed.

Lemma GetWord_end p pre todo rest :
  reading p pre todo rest → (length todo < 2)%nat → GetWord p = Fault AssertFailed.
Proof using Type.
  intros Hp Hl. pose proof (reading_small _ _ _ _ Hp) as (Hs & Hs0 & Hk).
  pose proof Hp as [_ (_ & Hc & Hr & _)].
  apply wp_faults. unfold GetWord, consume. wp_steps. rewrite usize_id by lia.
  apply wp_assert; [cbn; rewrite Z.geb_leb; zcase; lia|done].
Qed.

(** ** Strings *)

Definition is_ascii (b : Z) : bool := b <? 128.

(** What the loop of [GetString] does to the caller's buffer [tb] of which
    the first [i] bytes are written. *)
Definition chars_read (k : Z) pre todo rest (n : nat) (tb : list cell) (i : Z)
    p (r : bool * list cell) p' : Prop :=
  length r.2 = length tb ∧ frame p' = frame p ∧ m_nBytesConsumed p' = m_nBytesConsumed p ∧
  0 ≤ m_nOutPtr p' ∧ r.1 = forallb is_ascii (take n todo) ∧
  (∀ j, (j < Z.to_nat i)%nat → r.2 !! j = tb !! j) ∧
  (r.1 = true → holds r.2 i (take n todo) ∧
     reading (set_m_nBytesConsumed (k + Z.of_nat n) p') (pre ++ take n todo) (drop n todo) rest).

Lemma get_chars_read n k p pre todo rest tb i :
  reading (set_m_nBytesConsumed k p) pre todo rest → (n ≤ length todo)%nat →
  0 ≤ i → i + Z.of_nat n ≤ Z.of_nat (length tb) →
  wp no_fault (get_chars n tb i) (λ r p', chars_read k pre todo rest n tb i p r p') p.
Proof using Type*.
  revert k p pre todo tb i. induction n as [|n IH]; intros k p pre todo tb i Hp Hn Hi Hfit.
  - cbn. wp_steps. pose proof (reading_small _ _ _ _ Hp) as (_ & Ho & _).
    split_and!; try done. intros _. split; [by apply holds_nil|].
    cbn. by rewrite app_nil_r, Z.add_0_r.
  - destruct todo as [|b todo]; [cbn in Hn; lia|]. cbn [length] in Hn.
    cbn [get_chars]. wp_step.
    eapply wp_mono; [by eapply next_byte_read|].
    intros v p1 (-> & Hb & Hf1 & Hc1 & Hp1). rewrite land_128_zero by done.
    unfold chars_read. cbn [take forallb drop]. unfold is_ascii at 1.
    destruct (Z.ltb_spec b 128); cbn [negb andb].
    2: { wp_steps. pose proof (reading_small _ _ _ _ Hp1) as (_ & Ho & _). by split_and!. }
    wp_step. eapply wp_lift_Ok; [by apply wr_cell_Ok; lia|].
    eapply wp_mono; [apply (IH _ _ _ _ _ (i + 1) Hp1); [lia|lia|rewrite length_insert; lia]|].
    intros [ok tb'] p2 (Hl & Hf & Hc & Ho & Hok & Hfr & Hread). cbn [fst snd] in *.
    rewrite length_insert in Hl. split_and!; [done|congruence|congruence|done|done| |].
    + intros j Hj. rewrite Hfr by lia. apply list_lookup_insert_ne. lia.
    + intros E. destruct (Hread E) as [Hh Hr]. split.
      * apply holds_cons. split; [|done]. apply rd_Ok. split; [done|].
        rewrite Hfr by lia. apply list_lookup_insert_eq. lia.
      * rewrite <-app_assoc in Hr. by replace (k + Z.of_nat (S n)) with (k + 1 + Z.of_nat n) by lia.
Qed.

(** The string at the front of a content, and what follows it, if [GetString]
    accepts it for a buffer of [size] bytes. *)
Definition string_of todo (size : Z) : option (list Z * list Z) :=
  match todo with
  | b1 :: b2 :: t =>
      let n := b1 * 256 + b2 in
      if (n <=? Z.of_nat (length t)) && (n + 1 <=? size)
         && forallb is_ascii (take (Z.to_nat n) t)
      then Some (take (Z.to_nat n) t, drop (Z.to_nat n) t) else None
  | _ => None
  end.

Definition string_read pre todo rest (tb : list cell) (size : Z) p (r : Z * list cell) p' : Prop :=
  length r.2 = length tb ∧ frame p' = frame p ∧ 0 ≤ m_nOutPtr p' ∧
  match string_of todo size with
  | Some (s, todo') =>
      r.1 = Z.of_nat (length s) ∧ holds r.2 0 (s ++ [0]) ∧
      reading p' (pre ++ take 2 todo ++ s) todo' rest
  | None => r.1 = 0
  end.

Lemma GetString_read p pre todo rest tb size :
  reading p pre todo rest → (2 ≤ length todo)%nat →
  size ≤ Z.of_nat (length tb) →
  wp no_fault (GetString tb size) (string_read pre todo rest tb size p) p.
Proof using Type*.
  intros Hp H2 Hsize. destruct todo as [|b1 [|b2 t]]; [cbn in H2; lia..|].
  unfold GetString, consume. wp_step.
  eapply wp_mono; [by eapply GetWord_read|].
  intros v p1 (-> & Hb1 & Hb2 & Hf1 & Hp1). set (n := b1 * 256 + b2) in *.
  assert (Hn : 0 ≤ n < 2^16) by (unfold is_byte, is_u8 in *; lia).
  pose proof (reading_small _ _ _ _ Hp1) as (Hs & Hs0 & Hk).
  pose proof Hp1 as [_ (_ & Hc & Hr & Hlt)].
  wp_steps. rewrite usize_id, u32_id by (unfold is_u32; lia).
  cbn [m_nRemainingLength m_nBytesConsumed set_m_nBytesConsumed].
  unfold string_read, string_of. fold n.
  destruct (Z.leb_spec n (Z.of_nat (length t))), (Z.ltb_spec (m_nRemainingLength p1) (m_nBytesConsumed p1 + n));
    try lia; cbn [andb]; [|by wp_steps].
  rewrite Z.gtb_ltb. destruct (Z.leb_spec (n + 1) size), (Z.ltb_spec size (n + 1));
    try lia; cbn [andb]; [|by wp_steps].
  wp_step. eapply wp_mono.
  { apply (get_chars_read _ (m_nBytesConsumed p1) _ (pre ++ [b1; b2]) t rest); [|lia..].
    by destruct p1. }
  intros [ok tb'] p2 (Hl & Hf2 & Hc2 & Ho & Hok & _ & Hread). cbn [fst snd] in *. subst ok.
  destruct (forallb is_ascii (take (Z.to_nat n) t)); cbn [negb]; [|wp_steps; split_and!; [done|by rewrite Hf2|done|done]].
  destruct (Hread eq_refl) as [Hh Hr2]. rewrite Z2Nat.id in Hr2 by lia.
  wp_step. eapply wp_lift_Ok; [by apply wr_cell_Ok; lia|]. wp_steps. cbn [fst snd].
  assert (Hln : length (take (Z.to_nat n) t) = Z.to_nat n) by (rewrite length_take; lia).
  split_and!; [by rewrite length_insert|by rewrite Hf2|done|rewrite Hln; lia| |].
  - apply holds_app. split.
    + eapply holds_frame; [exact Hh|]. intros j Hj. apply list_lookup_insert_ne. lia.
    + apply holds_cons. split; [|apply holds_nil; lia]. apply rd_Ok. split; [lia|].
      rewrite Hln. replace (Z.to_nat (0 + Z.of_nat (Z.to_nat n))) with (Z.to_nat n) by lia.
      apply list_lookup_insert_eq. lia.
  - rewrite <-app_assoc in Hr2. cbn [m_nBytesConsumed set_m_nBytesConsumed] in Hc2.
    rewrite <-Hc2 in Hr2. by destruct p2.
Qed.

(** ** Payloads *)

Lemma GetData_read p pre todo rest n :
  reading p pre todo rest → 0 ≤ n ≤ Z.of_nat (length todo) →
  wp no_fault (GetData n) (λ r p',
    r = Some (Z.of_nat (length pre)) ∧ frame p' = frame p ∧
    (∃ buf, m_pBuffer p' = Some buf ∧
       rd_bytes buf (Z.of_nat (length pre)) (Z.to_nat n) = Ok (take (Z.to_nat n) todo)) ∧
    reading p' (pre ++ take (Z.to_nat n) todo) (drop (Z.to_nat n) todo) rest) p.
Proof using Type*.
  intros Hp Hn. pose proof (reading_small _ _ _ _ Hp) as (Hs & Hs0 & Hk).
  pose proof Hp as [Hb (Hout & Hc & Hr & Hlt)].
  pose proof Hb as (_ & _ & _ & _ & buf & Hbuf & _ & Hh).
  unfold GetData, consume. wp_steps. rewrite usize_id by lia. cbn.
  destruct (Z.ltb_spec (m_nRemainingLength p) (m_nBytesConsumed p + n)); [lia|].
  wp_steps. assert (Hln : length (take (Z.to_nat n) todo) = Z.to_nat n) by (rewrite length_take; lia).
  split_and!; [by rewrite Hout|done| |].
  - exists buf. split; [done|]. rewrite <-Hln at 1. apply holds_rd_bytes.
    rewrite <-(take_drop (Z.to_nat n) todo), <-app_assoc in Hh.
    apply holds_app in Hh as [_ Hh]. by apply holds_app in Hh as [Hh _].
  - split_and!; cbn; [| | |rewrite length_drop; lia|lia].
    + rewrite <-app_assoc, (app_assoc (take _ _)), take_drop. by eapply buffered_frame.
    + rewrite length_app, Hln, u32_id; [lia|unfold is_u32; lia].
    + lia.
Qed.

(** ** Completion *)

(** The loop of [Complete] moves the rest [xs] of the stream to index [i]. *)
Lemma complete_loop_moves fuel buf i out xs :
  holds buf out xs → 0 ≤ i ≤ out → (length xs < fuel)%nat →
  out + Z.of_nat (length xs) ≤ Z.of_nat (length buf) →
  ∃ buf', complete_loop fuel buf i out (out + Z.of_nat (length xs))
          = Ok (buf', i + Z.of_nat (length xs), out + Z.of_nat (length xs)) ∧
    length buf' = length buf ∧ holds buf' i xs ∧
    ∀ j, (j < Z.to_nat i)%nat → buf' !! j = buf !! j.
Proof using Type.
  revert fuel buf i out. induction xs as [|x xs IH]; intros [|fuel] buf i out Hh Hi Hf Hlen;
    cbn [length complete_loop] in *; try lia; rewrite Z.gtb_ltb.
  { rewrite !Z.add_0_r. destruct (Z.ltb_spec out out); [lia|].
    exists buf. split_and!; [done|done|apply holds_nil; lia|done]. }
  destruct (Z.ltb_spec out (out + Z.of_nat (S (length xs)))); [|lia].
  apply holds_cons in Hh as [[_ Hx]%rd_Ok Hh].
  assert (Hc : rd_cell buf out = Ok (Some x)).
  { unfold rd_cell. rewrite Hx. by destruct (Z.ltb_spec out 0); [lia|]. }
  rewrite Hc, wr_cell_Ok by lia.
  destruct (IH fuel (<[Z.to_nat i:=Some x]> buf) (i + 1) (out + 1)) as (buf' & E & Hl & Hh' & Hfr).
  { eapply holds_frame; [exact Hh|]. intros j Hj. apply list_lookup_insert_ne. lia. }
  { lia. } { lia. } { rewrite length_insert. lia. }
  replace (out + Z.of_nat (S (length xs))) with (out + 1 + Z.of_nat (length xs)) by lia.
  replace (i + Z.of_nat (S (length xs))) with (i + 1 + Z.of_nat (length xs)) by lia.
  rewrite length_insert in Hl. exists buf'. split_and!; [done|done| |].
  - apply holds_cons. split; [|done]. apply rd_Ok. split; [lia|].
    rewrite Hfr by lia. apply list_lookup_insert_eq. lia.
  - intros j Hj. rewrite Hfr by lia. apply list_lookup_insert_ne. lia.
Qed.

(** [Complete] drops what was read from the stream. *)
Lemma Complete_drops p bs k :
  buffered p bs → m_nOutPtr p = Z.of_nat k → (k ≤ length bs)%nat →
  wp no_fault Complete (λ _ p', buffered p' (drop k bs) ∧ m_nOutPtr p' = m_nInPtr p) p.
Proof using Type.
  intros Hp Hout Hk. pose proof Hp as (Hsz & Hin & Hle & Hb & buf & Hbuf & Hlen & Hh).
  unfold Complete. wp_steps.
  apply wp_assert_true; [rewrite Z.geb_leb; zcase; lia|].
  wp_step. eapply wp_deref_Some; [exact Hbuf|].
  assert (Hln : length (drop k bs) = (length bs - k)%nat) by apply length_drop.
  destruct (complete_loop_moves (S (Z.to_nat (m_nInPtr p - m_nOutPtr p))) buf 0 (m_nOutPtr p)
              (drop k bs)) as (buf' & E & Hl & Hh' & _); [|lia..|].
  { rewrite <-(take_drop k bs) in Hh. apply holds_app in Hh as [_ Hh].
    rewrite length_take in Hh. rewrite Hout.
    by replace (0 + Z.of_nat (k `min` length bs)) with (Z.of_nat k) in Hh by lia. }
  replace (m_nOutPtr p + Z.of_nat (length (drop k bs))) with (m_nInPtr p) in E by lia.
  wp_step. eapply wp_lift_Ok; [exact E|]. wp_steps. split; [|done].
  unfold buffered. cbn. split_and!; [lia|lia|lia|lia|by apply Forall_drop|].
  exists buf'. split_and!; [done|lia|done].
Qed.

Lemma Complete_reading p pre todo rest :
  reading p pre todo rest →
  wp no_fault Complete (λ _ p', buffered p' (todo ++ rest) ∧ m_nOutPtr p' = m_nInPtr p) p.
Proof using Type.
  intros [Hb [Hout _]]. eapply wp_mono.
  - eapply (Complete_drops _ _ (length pre)); [exact Hb|done|rewrite length_app; lia].
  - intros [] p'. by rewrite drop_app_length.
Qed.

(** Whatever has happened in between, [Complete] stays in the buffer: it can
    only fail its assertion. *)
Lemma Complete_any p bs :
  buffered p bs → 0 ≤ m_nOutPtr p →
  wp (eq AssertFailed) Complete
    (λ _ p', (∃ bs', buffered p' bs') ∧ m_nOutPtr p' = m_nInPtr p) p.
Proof using Type.
  intros Hp Hout. destruct (decide (m_nOutPtr p ≤ m_nInPtr p)) as [Hle|Hgt].
  - eapply wp_mono.
    + apply wp_no_fault. eapply (Complete_drops _ _ (Z.to_nat (m_nOutPtr p))); [exact Hp|lia|].
      destruct Hp as (_ & Hin & _). lia.
    + intros [] p' [Hp' E]. eauto.
  - unfold Complete. wp_steps. apply wp_assert; [|done]. rewrite Z.geb_leb, Z.leb_le. lia.
Qed.

(** ** The wire format and the parser *)

(** A packet the client accepts is recognised as soon as all of its bytes are
    there, whatever follows it. *)
Lemma front_of_wire t fl c rest :
  0 ≤ fl < 16 → Z.of_nat (length c) < 128 ^ 4 →
  header_ok (Some t) fl (Z.of_nat (length c)) = true →
  let hdr := S (length (varint 4 (Z.of_nat (length c)))) in
  front_of (wire t fl c ++ rest) = FrontPacket t fl hdr (Z.of_nat (length c)) ∧
  take (length c) (drop hdr (wire t fl c ++ rest)) = c ∧
  drop (hdr + length c) (wire t fl c ++ rest) = rest.
Proof using Type.
  intros Hfl Hc Hok hdr. unfold wire. set (n := Z.of_nat (length c)) in *.
  set (L := varint 4 n) in *.
  assert (Hdrop : drop hdr (((packet_type_code t * 16 + fl) :: L ++ c) ++ rest) = c ++ rest).
  { cbn. by rewrite <-app_assoc, drop_app_length. }
  split_and!.
  - unfold front_of. cbn [app]. rewrite <-app_assoc.
    pose proof (read_length_varint 3 true n (c ++ rest)) as Hr. fold L in Hr.
    rewrite Hr by (done || (unfold n; cbn; lia)). clear Hr.
    assert (Hlen : length ((packet_type_code t * 16 + fl) :: L ++ c ++ rest)
                   = (S (length L) + length c + length rest)%nat).
    { cbn. rewrite !length_app. lia. }
    rewrite Hlen. destruct (Z.ltb_spec (Z.of_nat (S (length L) + length c + length rest))
                              (Z.of_nat (S (length L)) + n)); [lia|].
    replace ((packet_type_code t * 16 + fl) / 16) with (packet_type_code t) by zdiv.
    replace ((packet_type_code t * 16 + fl) mod 16) with fl by zdiv.
    by rewrite packet_type_of_code_code, Hok.
  - by rewrite Hdrop, take_app_length.
  - by rewrite <-drop_drop, Hdrop, drop_app_length.
Qed.

(** With only a part of its bytes there, it is waited for. *)
Lemma front_of_prefix t fl c bs :
  Z.of_nat (length c) < 128 ^ 4 → bs `prefix_of` wire t fl c → bs ≠ wire t fl c →
  front_of bs = FrontMore.
Proof using Type.
  intros Hc [post Hpre] Hne. unfold wire in *. set (n := Z.of_nat (length c)) in *.
  destruct bs as [|b0 bs]; [done|]. cbn [app] in Hpre. pose proof (f_equal head Hpre) as Hb0. apply (f_equal tail) in Hpre. cbn [head tail] in Hb0, Hpre.
  cbn [front_of].
  destruct (decide (length bs < length (varint 4 n))%nat) as [Hl|Hl].
  - rewrite (read_length_prefix 3 true n bs); [done|unfold n; cbn; lia|done| |].
    + exists (drop (length bs) (varint 4 n)).
      apply (f_equal (take (length bs))) in Hpre.
      rewrite take_app_length, take_app_le in Hpre by lia.
      rewrite <-Hpre at 1. by rewrite take_drop.
    + intros ->. lia.
  - assert (Hsplit : bs = varint 4 n ++ drop (length (varint 4 n)) bs).
    { rewrite <-(take_drop (length (varint 4 n)) bs) at 1. f_equal.
      apply (f_equal (take (length (varint 4 n)))) in Hpre.
      rewrite take_app_length, take_app_le in Hpre by lia. done. }
    rewrite Hsplit.
    rewrite (read_length_varint 3 true n) by (done || (unfold n; cbn; lia)).
    rewrite <-Hsplit.
    apply (f_equal length) in Hpre as Hlen. rewrite !length_app in Hlen.
    destruct (Z.ltb_spec (Z.of_nat (length (b0 :: bs))) (Z.of_nat (S (length (varint 4 n))) + n));
      [done|].
    cbn [length] in *. unfold n in *. exfalso. apply Hne.
    assert (post = []) as -> by (apply length_zero_iff_nil; lia).
    rewrite app_nil_r in Hpre. injection Hb0 as <-. by rewrite Hpre.
Qed.
End read.
