(* ===== verification/MqttClient.v ===== *)
(** The MQTT client: the class [CMQTTClient] of [mqttclient.cpp].

    Its methods are computations on the members and on two things the members
    point to: the [heap] of the [CMQTTSendPacket] objects made with [new], and
    the state of the [world] outside (sockets, clock, logger).  The virtual
    functions a derived class overrides are a parameter. *)
From stdpp Require Import base numbers list gmap option strings.
From S2P Require Import Prelude.
From S2P Require Import Circle.
From S2P Require Import MqttSendPacket.
From S2P Require Import MqttReceivePacket.
Import Mqtt.
Import (hints) SendPacket ReceivePacket.

Module Client.
Abbreviation CMQTTSendPacket := SendPacket.CMQTTSendPacket.
Abbreviation CMQTTReceivePacket := ReceivePacket.CMQTTReceivePacket.

Inductive TMQTTDisconnectReason :=
  | MQTTDisconnectFromApplication
  | MQTTDisconnectUnacceptableProtocolVersion
  | MQTTDisconnectIdentifierRejected
  | MQTTDisconnectServerUnavailable
  | MQTTDisconnectBadUsernameOrPassword
  | MQTTDisconnectNotAuthorized
  | MQTTDisconnectDNSError
  | MQTTDisconnectConnectFailed
  | MQTTDisconnectFromPeer
  | MQTTDisconnectInvalidPacket
  | MQTTDisconnectPacketIdentifier
  | MQTTDisconnectSubscribeError
  | MQTTDisconnectSendFailed
  | MQTTDisconnectPingFailed
  | MQTTDisconnectNotSupported
  | MQTTDisconnectInsufficientResources
  | MQTTDisconnectSSLSetupFailed
  | MQTTDisconnectUnknown.

Definition all_reasons : list TMQTTDisconnectReason :=
  [MQTTDisconnectFromApplication; MQTTDisconnectUnacceptableProtocolVersion;
   MQTTDisconnectIdentifierRejected; MQTTDisconnectServerUnavailable;
   MQTTDisconnectBadUsernameOrPassword; MQTTDisconnectNotAuthorized;
   MQTTDisconnectDNSError; MQTTDisconnectConnectFailed; MQTTDisconnectFromPeer;
   MQTTDisconnectInvalidPacket; MQTTDisconnectPacketIdentifier;
   MQTTDisconnectSubscribeError; MQTTDisconnectSendFailed; MQTTDisconnectPingFailed;
   MQTTDisconnectNotSupported; MQTTDisconnectInsufficientResources;
   MQTTDisconnectSSLSetupFailed; MQTTDisconnectUnknown].

#[export] Instance TMQTTDisconnectReason_eq_dec : EqDecision TMQTTDisconnectReason.
Proof. solve_decision. Defined.

(** The value of an enumerator is its position; 1 to 5 are the return codes
    of the CONNACK packet.  [reason_of_code] is the cast from an integer. *)
Definition reason_code (r : TMQTTDisconnectReason) : nat :=
  match list_find (r =.) all_reasons with Some (i, _) => i | None => 0%nat end.
Definition reason_of_code (z : Z) : TMQTTDisconnectReason :=
  default MQTTDisconnectUnknown (all_reasons !! Z.to_nat z).

Inductive TMQTTConnectStatus :=
  | MQTTStatusDisconnected
  | MQTTStatusConnectPending
  | MQTTStatusConnected
  | MQTTStatusWaitForPingResp
  | MQTTStatusUnknown.

#[export] Instance TMQTTConnectStatus_eq_dec : EqDecision TMQTTConnectStatus.
Proof. solve_decision. Defined.

Definition status_code (s : TMQTTConnectStatus) : Z :=
  match s with
  | MQTTStatusDisconnected => 0
  | MQTTStatusConnectPending => 1
  | MQTTStatusConnected => 2
  | MQTTStatusWaitForPingResp => 3
  | MQTTStatusUnknown => 4
  end.

Definition s_pErrorMsg : list string :=
  ["Disconnect from application"; "Unacceptable protocol version"; "Identifier rejected";
   "Server unavailable"; "Bad username or password"; "Not authorized"; "DNS error";
   "Connect failed"; "Disconnect from peer"; "Invalid packet received"; "Invalid identifier";
   "Subscribe error"; "Send failed"; "Ping timeout"; "Not supported";
   "Insufficient resources"; "SSL setup failed"; "Unknown reason"]%string.

(** * The state *)
Section client.
Context `{Target, Platform W, PtrList}.

Record CMQTTClient := mkClient {
  m_nMaxPacketSize : Z;
  m_nMaxTopicSize : Z;
  m_pTopicBuffer : option (list cell);
  m_pSocket : option Sock;
  m_ConnectStatus : TMQTTConnectStatus;
  m_IPServerString : list Z;
  m_nKeepAliveSeconds : Z;
  m_bTimerRunning : bool;
  m_nTimerElapsesAt : Z;
  m_usNextPacketIdentifier : Z;
  m_ReceivePacket : CMQTTReceivePacket;
  m_RetransmissionQueue : plist;
  m_PacketIdentifierStore : plist;
  heap : gmap Z CMQTTSendPacket;
  heap_next : Z;
  world : W
}.

Definition set_m_pTopicBuffer (x : option (list cell)) (c : CMQTTClient) : CMQTTClient :=
  mkClient (m_nMaxPacketSize c) (m_nMaxTopicSize c) x (m_pSocket c) (m_ConnectStatus
    c) (m_IPServerString c) (m_nKeepAliveSeconds c) (m_bTimerRunning c)
    (m_nTimerElapsesAt c) (m_usNextPacketIdentifier c) (m_ReceivePacket c)
    (m_RetransmissionQueue c) (m_PacketIdentifierStore c) (heap c) (heap_next c)
    (world c).
Definition set_m_pSocket (x : option Sock) (c : CMQTTClient) : CMQTTClient :=
  mkClient (m_nMaxPacketSize c) (m_nMaxTopicSize c) (m_pTopicBuffer c) x
    (m_ConnectStatus c) (m_IPServerString c) (m_nKeepAliveSeconds c) (m_bTimerRunning
    c) (m_nTimerElapsesAt c) (m_usNextPacketIdentifier c) (m_ReceivePacket c)
    (m_RetransmissionQueue c) (m_PacketIdentifierStore c) (heap c) (heap_next c)
    (world c).
Definition set_m_ConnectStatus (x : TMQTTConnectStatus) (c : CMQTTClient) : CMQTTClient :=
  mkClient (m_nMaxPacketSize c) (m_nMaxTopicSize c) (m_pTopicBuffer c) (m_pSocket c) x
    (m_IPServerString c) (m_nKeepAliveSeconds c) (m_bTimerRunning c)
    (m_nTimerElapsesAt c) (m_usNextPacketIdentifier c) (m_ReceivePacket c)
    (m_RetransmissionQueue c) (m_PacketIdentifierStore c) (heap c) (heap_next c)
    (world c).
Definition set_m_IPServerString (x : list Z) (c : CMQTTClient) : CMQTTClient :=
  mkClient (m_nMaxPacketSize c) (m_nMaxTopicSize c) (m_pTopicBuffer c) (m_pSocket c)
    (m_ConnectStatus c) x (m_nKeepAliveSeconds c) (m_bTimerRunning c)
    (m_nTimerElapsesAt c) (m_usNextPacketIdentifier c) (m_ReceivePacket c)
    (m_RetransmissionQueue c) (m_PacketIdentifierStore c) (heap c) (heap_next c)
    (world c).
Definition set_m_nKeepAliveSeconds (x : Z) (c : CMQTTClient) : CMQTTClient :=
  mkClient (m_nMaxPacketSize c) (m_nMaxTopicSize c) (m_pTopicBuffer c) (m_pSocket c)
    (m_ConnectStatus c) (m_IPServerString c) x (m_bTimerRunning c) (m_nTimerElapsesAt
    c) (m_usNextPacketIdentifier c) (m_ReceivePacket c) (m_RetransmissionQueue c)
    (m_PacketIdentifierStore c) (heap c) (heap_next c) (world c).
Definition set_m_bTimerRunning (x : bool) (c : CMQTTClient) : CMQTTClient :=
  mkClient (m_nMaxPacketSize c) (m_nMaxTopicSize c) (m_pTopicBuffer c) (m_pSocket c)
    (m_ConnectStatus c) (m_IPServerString c) (m_nKeepAliveSeconds c) x
    (m_nTimerElapsesAt c) (m_usNextPacketIdentifier c) (m_ReceivePacket c)
    (m_RetransmissionQueue c) (m_PacketIdentifierStore c) (heap c) (heap_next c)
    (world c).
Definition set_m_nTimerElapsesAt (x : Z) (c : CMQTTClient) : CMQTTClient :=
  mkClient (m_nMaxPacketSize c) (m_nMaxTopicSize c) (m_pTopicBuffer c) (m_pSocket c)
    (m_ConnectStatus c) (m_IPServerString c) (m_nKeepAliveSeconds c) (m_bTimerRunning
    c) x (m_usNextPacketIdentifier c) (m_ReceivePacket c) (m_RetransmissionQueue c)
    (m_PacketIdentifierStore c) (heap c) (heap_next c) (world c).
Definition set_m_usNextPacketIdentifier (x : Z) (c : CMQTTClient) : CMQTTClient :=
  mkClient (m_nMaxPacketSize c) (m_nMaxTopicSize c) (m_pTopicBuffer c) (m_pSocket c)
    (m_ConnectStatus c) (m_IPServerString c) (m_nKeepAliveSeconds c) (m_bTimerRunning
    c) (m_nTimerElapsesAt c) x (m_ReceivePacket c) (m_RetransmissionQueue c)
    (m_PacketIdentifierStore c) (heap c) (heap_next c) (world c).
Definition set_m_ReceivePacket (x : CMQTTReceivePacket) (c : CMQTTClient) : CMQTTClient :=
  mkClient (m_nMaxPacketSize c) (m_nMaxTopicSize c) (m_pTopicBuffer c) (m_pSocket c)
    (m_ConnectStatus c) (m_IPServerString c) (m_nKeepAliveSeconds c) (m_bTimerRunning
    c) (m_nTimerElapsesAt c) (m_usNextPacketIdentifier c) x (m_RetransmissionQueue c)
    (m_PacketIdentifierStore c) (heap c) (heap_next c) (world c).
Definition set_m_RetransmissionQueue (x : plist) (c : CMQTTClient) : CMQTTClient :=
  mkClient (m_nMaxPacketSize c) (m_nMaxTopicSize c) (m_pTopicBuffer c) (m_pSocket c)
    (m_ConnectStatus c) (m_IPServerString c) (m_nKeepAliveSeconds c) (m_bTimerRunning
    c) (m_nTimerElapsesAt c) (m_usNextPacketIdentifier c) (m_ReceivePacket c) x
    (m_PacketIdentifierStore c) (heap c) (heap_next c) (world c).
Definition set_m_PacketIdentifierStore (x : plist) (c : CMQTTClient) : CMQTTClient :=
  mkClient (m_nMaxPacketSize c) (m_nMaxTopicSize c) (m_pTopicBuffer c) (m_pSocket c)
    (m_ConnectStatus c) (m_IPServerString c) (m_nKeepAliveSeconds c) (m_bTimerRunning
    c) (m_nTimerElapsesAt c) (m_usNextPacketIdentifier c) (m_ReceivePacket c)
    (m_RetransmissionQueue c) x (heap c) (heap_next c) (world c).
Definition set_heap (x : gmap Z CMQTTSendPacket) (c : CMQTTClient) : CMQTTClient :=
  mkClient (m_nMaxPacketSize c) (m_nMaxTopicSize c) (m_pTopicBuffer c) (m_pSocket c)
    (m_ConnectStatus c) (m_IPServerString c) (m_nKeepAliveSeconds c) (m_bTimerRunning
    c) (m_nTimerElapsesAt c) (m_usNextPacketIdentifier c) (m_ReceivePacket c)
    (m_RetransmissionQueue c) (m_PacketIdentifierStore c) x (heap_next c) (world c).
Definition set_heap_next (x : Z) (c : CMQTTClient) : CMQTTClient :=
  mkClient (m_nMaxPacketSize c) (m_nMaxTopicSize c) (m_pTopicBuffer c) (m_pSocket c)
    (m_ConnectStatus c) (m_IPServerString c) (m_nKeepAliveSeconds c) (m_bTimerRunning
    c) (m_nTimerElapsesAt c) (m_usNextPacketIdentifier c) (m_ReceivePacket c)
    (m_RetransmissionQueue c) (m_PacketIdentifierStore c) (heap c) x (world c).
Definition set_world (x : W) (c : CMQTTClient) : CMQTTClient :=
  mkClient (m_nMaxPacketSize c) (m_nMaxTopicSize c) (m_pTopicBuffer c) (m_pSocket c)
    (m_ConnectStatus c) (m_IPServerString c) (m_nKeepAliveSeconds c) (m_bTimerRunning
    c) (m_nTimerElapsesAt c) (m_usNextPacketIdentifier c) (m_ReceivePacket c)
    (m_RetransmissionQueue c) (m_PacketIdentifierStore c) (heap c) (heap_next c) x.

Abbreviation C := (M CMQTTClient).

(** The virtual functions of the class. *)
Record Callbacks := mkCallbacks {
  OnConnect : bool → C ();
  OnDisconnect : TMQTTDisconnectReason → C ();
  OnMessage : list Z → list Z → bool → C ();
  OnLoop : C ()
}.

(** The implementations of the class itself, which do nothing. *)
Definition default_callbacks : Callbacks :=
  mkCallbacks (λ _, mret ()) (λ _, mret ()) (λ _ _ _, mret ()) (mret ()).

(** The constructor; [junk] supplies the members it does not initialise.  The
    topic buffer is [None] when its allocation fails. *)
Definition construct (bTopic bReceive : bool)
    (nMaxPacketSize nMaxPacketsQueued nMaxTopicSize : Z)
    (junk : CMQTTClient) (w : W) : res CMQTTClient :=
  match ReceivePacket.construct bReceive nMaxPacketSize nMaxPacketsQueued (m_ReceivePacket junk) with
  | Fault e => Fault e
  | Ok rp =>
      Ok (mkClient nMaxPacketSize nMaxTopicSize
            (if bTopic then Some (uninit (usize (nMaxTopicSize + 1))) else None)
            None MQTTStatusDisconnected [] (m_nKeepAliveSeconds junk) (m_bTimerRunning junk)
            (m_nTimerElapsesAt junk) (m_usNextPacketIdentifier junk) rp
            pl_empty pl_empty ∅ 1 w)
  end.

Definition IsConnected (c : CMQTTClient) : bool :=
  status_code (m_ConnectStatus c) >=? status_code MQTTStatusConnected.

(** * The world, the heap and the received packet *)

Definition world_op {A} (f : W → A * W) : C A := env world set_world f.
Definition log (sev : TLogSeverity) (f : string) (args : list fmt_arg) : C () :=
  world_op (CLogger_Write sev f args).
Definition GetTicks : C Z := world_op CTimer_GetTicks.
Definition rp_op {A} (m : M CMQTTReceivePacket A) : C A :=
  zoom m_ReceivePacket set_m_ReceivePacket m.

(** [new CMQTTSendPacket (Type, m_nMaxPacketSize)], with the address. *)
Definition make_packet (t : TMQTTPacketType) (nMaxPacketSize : Z) : C CMQTTSendPacket :=
  bNew ← world_op (operator_new_array nMaxPacketSize);
  lift_res (SendPacket.construct bNew t nMaxPacketSize).

Definition alloc (p : CMQTTSendPacket) : C Z :=
  c ← get;
  put (set_heap_next (heap_next c + 1) (set_heap (<[heap_next c := p]> (heap c)) c));;
  mret (heap_next c).
Definition load (a : Z) : C CMQTTSendPacket :=
  c ← get;
  match heap c !! a with
  | Some p => mret p
  | None => fail BadAccess
  end.
Definition store (a : Z) (p : CMQTTSendPacket) : C () :=
  _ ← load a;
  modify (λ c, set_heap (<[a := p]> (heap c)) c).
(** [delete pPacket]; deleting the null pointer does nothing. *)
Definition delete_packet (o : option Z) : C () :=
  match o with
  | None => mret ()
  | Some a => _ ← load a; modify (λ c, set_heap (delete a (heap c)) c)
  end.
(** An operation of a packet, through its address. *)
Definition at_packet (a : Z) (m : M CMQTTSendPacket ()) : C () :=
  p ← load a;
  '(_, p) ← lift_res (m p);
  store a p.

Definition delete_socket : C () :=
  c ← get;
  s ← deref (m_pSocket c);
  world_op (CNetSocket_delete s);;
  modify (set_m_pSocket None).

(** * The packet queue and the identifier store *)

(** [while (pElement != 0)] of [InsertPacketIntoQueue]. *)
Fixpoint insert_position (fuel : nat) (q : plist) (nScheduledTime : Z)
    (pPrevElement pElement : option pelem) : C (option pelem * option pelem) :=
  match fuel with
  | O => fail OutOfFuel
  | S fuel =>
      match pElement with
      | None => mret (pPrevElement, None)
      | Some e =>
          p2 ← load (GetPtr q e);
          t ← lift_res (SendPacket.GetScheduledTime p2);
          if s32 (t - nScheduledTime) >? 0 then mret (pPrevElement, Some e)
          else insert_position fuel q nScheduledTime (Some e) (GetNext q e)
      end
  end.

Definition queue_fuel (q : plist) : nat := S (length (pl_view q)).

Definition InsertPacketIntoQueue (a : Z) (nScheduledTime : Z) : C () :=
  p ← load a;
  store a (SendPacket.SetScheduledTime nScheduledTime p);;
  c ← get;
  let q := m_RetransmissionQueue c in
  '(pPrevElement, pElement) ←
    insert_position (queue_fuel q) q nScheduledTime None (GetFirst q);
  match pElement with
  | Some e => modify (set_m_RetransmissionQueue (InsertBefore q e a))
  | None => modify (set_m_RetransmissionQueue (InsertAfter q pPrevElement a))
  end.

Fixpoint find_packet (fuel : nat) (q : plist) (usPacketIdentifier : Z)
    (pElement : option pelem) : C (option pelem) :=
  match fuel with
  | O => fail OutOfFuel
  | S fuel =>
      match pElement with
      | None => mret None
      | Some e =>
          p ← load (GetPtr q e);
          us ← lift_res (SendPacket.GetPacketIdentifier p);
          if us =? usPacketIdentifier then mret (Some e)
          else find_packet fuel q usPacketIdentifier (GetNext q e)
      end
  end.

Definition RemovePacketFromQueue (usPacketIdentifier : Z) : C (option Z) :=
  c ← get;
  let q := m_RetransmissionQueue c in
  o ← find_packet (queue_fuel q) q usPacketIdentifier (GetFirst q);
  match o with
  | None => mret None
  | Some e =>
      modify (set_m_RetransmissionQueue (Remove q e));;
      mret (Some (GetPtr q e))
  end.

Fixpoint cleanup_queue (fuel : nat) (pElement : option pelem) : C () :=
  match fuel with
  | O => fail OutOfFuel
  | S fuel =>
      match pElement with
      | None => mret ()
      | Some e =>
          c ← get;
          let q := m_RetransmissionQueue c in
          let a := GetPtr q e in
          let pNextElement := GetNext q e in
          modify (set_m_RetransmissionQueue (Remove q e));;
          delete_packet (Some a);;
          cleanup_queue fuel pNextElement
      end
  end.
Definition CleanupQueue : C () :=
  c ← get;
  let q := m_RetransmissionQueue c in
  cleanup_queue (queue_fuel q) (GetFirst q).

Definition InsertPacketIdentifierIntoStore (us : Z) : C () :=
  c ← get;
  let l := m_PacketIdentifierStore c in
  match GetFirst l with
  | None => modify (set_m_PacketIdentifierStore (InsertAfter l None us))
  | Some e => modify (set_m_PacketIdentifierStore (InsertBefore l e us))
  end.

Definition IsPacketIdentifierInStore (us : Z) : C bool :=
  gets (λ c, bool_decide (is_Some (Find (m_PacketIdentifierStore c) us))).

Definition RemovePacketIdentifierFromStore (us : Z) : C bool :=
  c ← get;
  let l := m_PacketIdentifierStore c in
  match Find l us with
  | None => mret false
  | Some e => modify (set_m_PacketIdentifierStore (Remove l e));; mret true
  end.

Fixpoint cleanup_store (fuel : nat) (pElement : option pelem) : C () :=
  match fuel with
  | O => fail OutOfFuel
  | S fuel =>
      match pElement with
      | None => mret ()
      | Some e =>
          c ← get;
          let l := m_PacketIdentifierStore c in
          let pNextElement := GetNext l e in
          modify (set_m_PacketIdentifierStore (Remove l e));;
          cleanup_store fuel pNextElement
      end
  end.
Definition CleanupPacketIdentifierStore : C () :=
  c ← get;
  let l := m_PacketIdentifierStore c in
  cleanup_store (queue_fuel l) (GetFirst l).

Context (CB : Callbacks).

(** * Connection handling *)

Definition CloseConnection (Reason : TMQTTDisconnectReason) : C () :=
  c ← get;
  if bool_decide (m_ConnectStatus c = MQTTStatusDisconnected) then mret ()
  else
    log (if bool_decide (Reason = MQTTDisconnectFromApplication) then LogDebug else LogError)
      "%s: %s" [ArgS (m_IPServerString c);
                ArgS (cstr (default ""%string (s_pErrorMsg !! reason_code Reason)))];;
    modify (set_m_ConnectStatus MQTTStatusDisconnected);;
    modify (set_m_bTimerRunning false);;
    CleanupQueue;;
    CleanupPacketIdentifierStore;;
    c ← get;
    assert_ (bool_decide (is_Some (m_pSocket c)));;
    delete_socket;;
    OnDisconnect CB Reason.

Definition start_timer (nTicks : Z) : C () :=
  t ← GetTicks;
  modify (set_m_nTimerElapsesAt (u32 (t + nTicks)));;
  modify (set_m_bTimerRunning true).

(** The keep alive handling of [SendPacket], by the type of the packet. *)
Definition keep_alive_sent (t : TMQTTPacketType) : C () :=
  c ← get;
  match t with
  | MQTTConnect | MQTTPublish | MQTTPubAck | MQTTPubRec | MQTTPubRel | MQTTPubComp
  | MQTTSubscribe | MQTTUnsubscribe =>
      when (bool_decide (m_ConnectStatus c = MQTTStatusConnected)
            && (m_nKeepAliveSeconds c >? 0))
        (start_timer (m_nKeepAliveSeconds c * HZ))
  | MQTTPingReq =>
      assert_ (m_nKeepAliveSeconds c >? 0);;
      assert_ (bool_decide (m_ConnectStatus c = MQTTStatusConnected));;
      modify (set_m_ConnectStatus MQTTStatusWaitForPingResp);;
      assert_ (negb (m_bTimerRunning c));;
      start_timer MQTT_PING_TIMEOUT
  | MQTTDisconnect => mret ()
  | _ => assert_ false
  end.

(** [SendPacket], with the packet after the call. *)
Definition SendPacket_ (p : CMQTTSendPacket) : C (bool * CMQTTSendPacket) :=
  c ← get;
  if bool_decide (m_ConnectStatus c = MQTTStatusDisconnected) then mret (false, p)
  else
    assert_ (bool_decide (is_Some (m_pSocket c)));;
    sock ← deref (m_pSocket c);
    '(b, (p, w)) ← lift_res (SendPacket.Send sock (p, world c));
    modify (set_world w);;
    if negb b then mret (false, p)
    else keep_alive_sent (SendPacket.GetType p);; mret (true, p).

Definition SendPacket (a : Z) : C bool :=
  p ← load a;
  '(b, p) ← SendPacket_ p;
  store a p;;
  mret b.

(** A packet on the stack with the given content operations is sent. *)
Definition send_local (t : TMQTTPacketType) (nMaxPacketSize : Z)
    (fill : M CMQTTSendPacket ()) : C bool :=
  p ← make_packet t nMaxPacketSize;
  '(_, p) ← lift_res (fill p);
  '(b, _) ← SendPacket_ p;
  mret b.

(** The packet size a [CMQTTSendPacket] has by default. *)
Definition default_packet_size : Z := 128.

Definition schedule (a : Z) : C () :=
  t ← GetTicks;
  InsertPacketIntoQueue a (u32 (t + MQTT_RESEND_TIMEOUT)).

Definition NextPacketIdentifier : C Z :=
  c ← get;
  let us := m_usNextPacketIdentifier c in
  let next := u16 (us + 1) in
  modify (set_m_usNextPacketIdentifier (if next =? 0 then u16 (next + 1) else next));;
  mret us.

(** The flags of a CONNECT packet. *)
Definition connect_flags (bCleanSession : bool) (pWillTopic : option (list Z))
    (uchWillQoS : Z) (bWillRetain : bool) (pUsername pPassword : option (list Z)) : Z :=
  let f := if bCleanSession then MQTT_CONNECT_FLAG_CLEAN_SESSION else 0 in
  let f := match pWillTopic with
           | None => f
           | Some _ =>
               let f := Z.lor f MQTT_CONNECT_FLAG_WILL in
               let f := u8 (Z.lor f (Z.shiftl uchWillQoS MQTT_CONNECT_FLAG_WILL_QOS__SHIFT)) in
               if bWillRetain then Z.lor f MQTT_CONNECT_FLAG_WILL_RETAIN else f
           end in
  match pUsername with
  | None => f
  | Some _ =>
      let f := Z.lor f MQTT_CONNECT_FLAG_USER_NAME in
      match pPassword with
      | None => f
      | Some _ => Z.lor f MQTT_CONNECT_FLAG_PASSWORD
      end
  end.

(** The content of a CONNECT packet.  A payload is the list of its bytes. *)
Definition connect_content (ClientIdentifier : list Z) (uchConnectFlags usKeepAliveSeconds : Z)
    (pWillTopic : option (list Z)) (WillPayload : list Z)
    (pUsername pPassword : option (list Z)) : M CMQTTSendPacket () :=
  SendPacket.AppendString (cstr "MQTT");;
  SendPacket.AppendByte MQTT_PROTOCOL_LEVEL;;
  SendPacket.AppendByte uchConnectFlags;;
  SendPacket.AppendWord usKeepAliveSeconds;;
  SendPacket.AppendString ClientIdentifier;;
  match pWillTopic with
  | None => mret ()
  | Some topic =>
      SendPacket.AppendString topic;;
      let nWillPayloadLength := Z.of_nat (length WillPayload) in
      assert_ (nWillPayloadLength <? 0x10000);;
      SendPacket.AppendWord nWillPayloadLength;;
      when (nWillPayloadLength >? 0) (SendPacket.AppendData WillPayload)
  end;;
  match pUsername with
  | None => mret ()
  | Some u =>
      SendPacket.AppendString u;;
      match pPassword with
      | None => mret ()
      | Some pw => SendPacket.AppendString pw
      end
  end.

(** The string that identifies the client to the broker. *)
Definition client_identifier (pClientIdentifier : option (list Z)) : C (list Z) :=
  match pClientIdentifier with
  | Some id =>
      when (Z.of_nat (length id) >? 23)
        (log LogWarning "Client ID exceeds 23 characters" []);;
      mret id
  | None =>
      o ← world_op PropertyTag_Serial;
      let '(s0, s1) := default (0, 0) o in
      mret (CString_Format "raspi%08x%08x" [ArgZ s1; ArgZ s0])
  end.

(** The socket of a new connection; [false] when the TLS setup has failed. *)
Definition open_socket (bUseSSL : bool) (pHost : list Z) : C bool :=
  if negb bUseSSL then
    s ← world_op new_CSocket;
    modify (set_m_pSocket (Some s));;
    mret true
  else
    s ← world_op new_CTLSSimpleClientSocket;
    modify (set_m_pSocket (Some s));;
    n ← world_op (TLS_AddCertificatePath s (cstr "/"));
    if n <? 0 then mret false
    else
      m ← world_op (TLS_Setup s pHost);
      mret (m =? 0).

(** [Connect] after the connection is open. *)
Definition start_session (pClientIdentifier pUsername pPassword : option (list Z))
    (usKeepAliveSeconds : Z) (bCleanSession : bool) (pWillTopic : option (list Z))
    (uchWillQoS : Z) (bWillRetain : bool) (WillPayload : list Z) : C () :=
  modify (set_m_nKeepAliveSeconds usKeepAliveSeconds);;
  modify (set_m_bTimerRunning false);;
  modify (set_m_usNextPacketIdentifier 1);;
  rp_op ReceivePacket.Reset;;
  modify (set_m_ConnectStatus MQTTStatusConnectPending);;
  id ← client_identifier pClientIdentifier;
  assert_ (bool_decide (pWillTopic = None) || (uchWillQoS <=? MQTT_QOS_EXACTLY_ONCE));;
  c ← get;
  b ← send_local MQTTConnect (m_nMaxPacketSize c)
        (connect_content id
           (connect_flags bCleanSession pWillTopic uchWillQoS bWillRetain pUsername pPassword)
           usKeepAliveSeconds pWillTopic WillPayload pUsername pPassword);
  if negb b then CloseConnection MQTTDisconnectSendFailed else mret ().

Definition Connect (bUseSSL : bool) (pHost : list Z) (usPort : Z)
    (pClientIdentifier pUsername pPassword : option (list Z))
    (usKeepAliveSeconds : Z) (bCleanSession : bool) (pWillTopic : option (list Z))
    (uchWillQoS : Z) (bWillRetain : bool) (WillPayload : list Z) : C () :=
  c ← get;
  assert_ (bool_decide (m_ConnectStatus c = MQTTStatusDisconnected));;
  match m_pTopicBuffer c with
  | None => OnDisconnect CB MQTTDisconnectInsufficientResources
  | Some _ =>
    o ← world_op (CDNSClient_Resolve pHost);
    match o with
    | None =>
        log LogError "Cannot resolve: %s" [ArgS pHost];;
        OnDisconnect CB MQTTDisconnectDNSError
    | Some IPServer =>
        modify (set_m_IPServerString (CIPAddress_Format IPServer));;
        log LogDebug "%s: Opening connection" [ArgS (CIPAddress_Format IPServer)];;
        c ← get;
        assert_ (bool_decide (m_pSocket c = None));;
        ok ← open_socket bUseSSL pHost;
        if negb ok then
          log LogError "SSL setup failed" [];;
          delete_socket;;
          OnDisconnect CB MQTTDisconnectSSLSetupFailed
        else
          c ← get;
          s ← deref (m_pSocket c);
          nResult ← world_op (CNetSocket_Connect s IPServer usPort);
          if negb (nResult =? 0) then
            log LogError "Cannot connect: %s (%d)" [ArgS pHost; ArgZ nResult];;
            delete_socket;;
            OnDisconnect CB MQTTDisconnectConnectFailed
          else
            start_session pClientIdentifier pUsername pPassword usKeepAliveSeconds
              bCleanSession pWillTopic uchWillQoS bWillRetain WillPayload
    end
  end.

Definition Disconnect (bForce : bool) : C () :=
  when (negb bForce) (send_local MQTTDisconnect default_packet_size (mret ());; mret ());;
  CloseConnection MQTTDisconnectFromApplication.

(** The end of the functions that send a packet that is acknowledged. *)
Definition send_and_schedule (a uchQoS usPacketIdentifier : Z) : C () :=
  b ← SendPacket a;
  if negb b then
    delete_packet (Some a);;
    CloseConnection MQTTDisconnectSendFailed
  else
    at_packet a (modify (SendPacket.SetQoS uchQoS));;
    at_packet a (modify (SendPacket.SetPacketIdentifier usPacketIdentifier));;
    schedule a.

Definition new_packet (t : TMQTTPacketType) (nMaxPacketSize : Z)
    (fill : M CMQTTSendPacket ()) : C Z :=
  p ← make_packet t nMaxPacketSize;
  '(_, p) ← lift_res (fill p);
  alloc p.

Definition Subscribe (pTopic : list Z) (uchQoS : Z) : C () :=
  assert_ (uchQoS <=? MQTT_QOS_EXACTLY_ONCE);;
  usPacketIdentifier ← NextPacketIdentifier;
  c ← get;
  a ← new_packet MQTTSubscribe (m_nMaxPacketSize c)
        (SendPacket.AppendWord usPacketIdentifier;;
         SendPacket.AppendString pTopic;;
         SendPacket.AppendByte uchQoS);
  send_and_schedule a MQTT_QOS_AT_LEAST_ONCE usPacketIdentifier.

Definition Unsubscribe (pTopic : list Z) : C () :=
  usPacketIdentifier ← NextPacketIdentifier;
  c ← get;
  a ← new_packet MQTTUnsubscribe (m_nMaxPacketSize c)
        (SendPacket.AppendWord usPacketIdentifier;;
         SendPacket.AppendString pTopic);
  send_and_schedule a MQTT_QOS_AT_LEAST_ONCE usPacketIdentifier.

(** The content of a PUBLISH packet. *)
Definition publish_content (uchFlags : Z) (pTopic : list Z) (usPacketIdentifier : Z)
    (Payload : list Z) : M CMQTTSendPacket () :=
  SendPacket.SetFlags uchFlags;;
  SendPacket.AppendString pTopic;;
  SendPacket.AppendWord usPacketIdentifier;;
  when (Z.of_nat (length Payload) >? 0) (SendPacket.AppendData Payload).

Definition publish_flags (uchQoS : Z) (bRetain : bool) : Z :=
  let uchFlags := u8 (Z.shiftl uchQoS MQTT_FLAG_QOS__SHIFT) in
  if bRetain then Z.lor uchFlags MQTT_FLAG_RETAIN else uchFlags.

Definition Publish (pTopic Payload : list Z) (uchQoS : Z) (bRetain : bool) : C () :=
  assert_ (uchQoS <=? MQTT_QOS_EXACTLY_ONCE);;
  usPacketIdentifier ← NextPacketIdentifier;
  c ← get;
  a ← new_packet MQTTPublish (m_nMaxPacketSize c)
        (publish_content (publish_flags uchQoS bRetain) pTopic usPacketIdentifier Payload);
  if uchQoS >=? MQTT_QOS_AT_LEAST_ONCE
  then send_and_schedule a uchQoS usPacketIdentifier
  else
    b ← SendPacket a;
    delete_packet (Some a);;
    if negb b then CloseConnection MQTTDisconnectSendFailed else mret ().

(** * The client task *)

(** An acknowledgement on the stack, with the packet identifier as content. *)
Definition send_ack (t : TMQTTPacketType) (usPacketIdentifier : Z) : C bool :=
  send_local t default_packet_size (SendPacket.AppendWord usPacketIdentifier).

(** The call of [OnMessage]: the topic is the C string in the topic buffer,
    the payload the bytes behind the pointer [GetData] has returned. *)
Definition deliver (pPayload : option Z) (nPayloadLength : Z) (bRetain : bool) : C () :=
  c ← get;
  tb ← deref (m_pTopicBuffer c);
  topic ← lift_res (c_string tb);
  i ← deref pPayload;
  buf ← deref (ReceivePacket.m_pBuffer (m_ReceivePacket c));
  payload ← lift_res (rd_bytes buf i (Z.to_nat nPayloadLength));
  OnMessage CB topic payload bRetain.

(** [pPacket != 0 && pPacket->GetQoS () == uchQoS]. *)
Definition has_QoS (pPacket : option Z) (uchQoS : Z) : C bool :=
  match pPacket with
  | None => mret false
  | Some a =>
      p ← load a;
      q ← lift_res (SendPacket.GetQoS p);
      mret (q =? uchQoS)
  end.

Definition HandleConnAck : C () :=
  uchConnAckFlags ← rp_op ReceivePacket.GetByte;
  uchReturnCode ← rp_op ReceivePacket.GetByte;
  rp_op ReceivePacket.Complete;;
  c ← get;
  if negb (bool_decide (m_ConnectStatus c = MQTTStatusConnectPending))
  then CloseConnection MQTTDisconnectInvalidPacket
  else if uchReturnCode =? 0 then
    modify (set_m_ConnectStatus MQTTStatusConnected);;
    OnConnect CB (negb (Z.land uchConnAckFlags MQTT_CONNACK_FLAG_SP =? 0))
  else
    CloseConnection
      (reason_of_code (if uchReturnCode >? 5
                       then Z.of_nat (reason_code MQTTDisconnectUnknown)
                       else uchReturnCode)).

(** The packet identifier of a PUBLISH packet, and whether it is valid. *)
Definition publish_identifier (uchQoS nPayloadLength : Z) : C (Z * bool) :=
  if uchQoS >? MQTT_QOS_AT_MOST_ONCE then
    us ← rp_op ReceivePacket.GetWord;
    mret (us, negb ((us =? 0) || (nPayloadLength <? 2)))
  else mret (0, true).

(** The handling of a PUBLISH packet whose content has been read. *)
Definition publish_received (uchQoS usPacketIdentifier : Z) (pPayload : option Z)
    (nPayloadLength : Z) (bRetain : bool) : C () :=
  if uchQoS =? MQTT_QOS_AT_MOST_ONCE then
    deliver pPayload nPayloadLength bRetain;;
    rp_op ReceivePacket.Complete
  else if uchQoS =? MQTT_QOS_AT_LEAST_ONCE then
    b ← send_ack MQTTPubAck usPacketIdentifier;
    if negb b then
      rp_op ReceivePacket.Complete;;
      CloseConnection MQTTDisconnectSendFailed
    else
      deliver pPayload nPayloadLength bRetain;;
      rp_op ReceivePacket.Complete
  else if uchQoS =? MQTT_QOS_EXACTLY_ONCE then
    b ← send_ack MQTTPubRec usPacketIdentifier;
    if negb b then
      rp_op ReceivePacket.Complete;;
      CloseConnection MQTTDisconnectSendFailed
    else
      bStored ← IsPacketIdentifierInStore usPacketIdentifier;
      when (negb bStored)
        (InsertPacketIdentifierIntoStore usPacketIdentifier;;
         deliver pPayload nPayloadLength bRetain);;
      rp_op ReceivePacket.Complete
  else mret ().

(** The handling of a PUBLISH packet after the call of [GetString]. *)
Definition publish_after_topic (uchQoS nTopicLen : Z) (bRetain : bool) : C () :=
  if nTopicLen =? 0 then CloseConnection MQTTDisconnectNotSupported
  else
    c ← get;
    let nPayloadLength :=
      usize (ReceivePacket.GetRemainingLength (m_ReceivePacket c) - (nTopicLen + 2)) in
    '(usPacketIdentifier, ok) ← publish_identifier uchQoS nPayloadLength;
    if negb ok then CloseConnection MQTTDisconnectInvalidPacket
    else
      let nPayloadLength :=
        if uchQoS >? MQTT_QOS_AT_MOST_ONCE then nPayloadLength - 2 else nPayloadLength in
      pPayload ← rp_op (ReceivePacket.GetData nPayloadLength);
      publish_received uchQoS usPacketIdentifier pPayload nPayloadLength bRetain.

Definition HandlePublish : C () :=
  c ← get;
  let uchFlags := ReceivePacket.GetFlags (m_ReceivePacket c) in
  let uchQoS := ReceivePacket.flags_qos uchFlags in
  let bRetain := negb (Z.land uchFlags MQTT_FLAG_RETAIN =? 0) in
  tb ← deref (m_pTopicBuffer c);
  '(nTopicLen, tb) ← rp_op (ReceivePacket.GetString tb (usize (m_nMaxTopicSize c + 1)));
  modify (set_m_pTopicBuffer (Some tb));;
  publish_after_topic uchQoS nTopicLen bRetain.

(** [GetWord ()] and [Complete ()], with which the acknowledgements start. *)
Definition take_identifier : C Z :=
  us ← rp_op ReceivePacket.GetWord;
  rp_op ReceivePacket.Complete;;
  mret us.

(** The end of a transaction: the packet with this identifier is dropped, and
    the connection is closed if there is none of this QoS. *)
Definition acknowledged (uchQoS usPacketIdentifier : Z) : C () :=
  pPacket ← RemovePacketFromQueue usPacketIdentifier;
  ok ← has_QoS pPacket uchQoS;
  when (negb ok) (CloseConnection MQTTDisconnectPacketIdentifier);;
  delete_packet pPacket.

Definition HandlePubAck : C () :=
  us ← take_identifier;
  acknowledged MQTT_QOS_AT_LEAST_ONCE us.

(** PUBREC: the PUBLISH packet is dropped and PUBREL takes its place. *)
Definition pubrec_received (us : Z) : C () :=
  pPacket ← RemovePacketFromQueue us;
  ok ← has_QoS pPacket MQTT_QOS_EXACTLY_ONCE;
  delete_packet pPacket;;
  if negb ok then CloseConnection MQTTDisconnectPacketIdentifier
  else
    a ← new_packet MQTTPubRel default_packet_size (SendPacket.AppendWord us);
    send_and_schedule a MQTT_QOS_EXACTLY_ONCE us.

Definition HandlePubRec : C () :=
  us ← take_identifier;
  pubrec_received us.

Definition HandlePubRel : C () :=
  us ← take_identifier;
  if us =? 0 then CloseConnection MQTTDisconnectInvalidPacket
  else
    b ← send_ack MQTTPubComp us;
    if negb b then CloseConnection MQTTDisconnectSendFailed
    else RemovePacketIdentifierFromStore us;; mret ().

Definition HandlePubComp : C () :=
  us ← take_identifier;
  acknowledged MQTT_QOS_EXACTLY_ONCE us.

Definition HandleSubAck : C () :=
  us ← rp_op ReceivePacket.GetWord;
  uchReturnCode ← rp_op ReceivePacket.GetByte;
  rp_op ReceivePacket.Complete;;
  if uchReturnCode >? MQTT_QOS_EXACTLY_ONCE
  then CloseConnection MQTTDisconnectSubscribeError
  else acknowledged MQTT_QOS_AT_LEAST_ONCE us.

Definition HandleUnsubAck : C () :=
  us ← take_identifier;
  acknowledged MQTT_QOS_AT_LEAST_ONCE us.

Definition HandlePingResp : C () :=
  rp_op ReceivePacket.Complete;;
  modify (set_m_ConnectStatus MQTTStatusConnected);;
  c ← get;
  when (m_nKeepAliveSeconds c >? 0) (start_timer (m_nKeepAliveSeconds c * HZ)).

(** The [switch] on the type of the received packet. *)
Definition handle_packet : C () :=
  c ← get;
  match ReceivePacket.GetType (m_ReceivePacket c) with
  | Some MQTTConnAck => HandleConnAck
  | Some MQTTPublish => HandlePublish
  | Some MQTTPubAck => HandlePubAck
  | Some MQTTPubRec => HandlePubRec
  | Some MQTTPubRel => HandlePubRel
  | Some MQTTPubComp => HandlePubComp
  | Some MQTTSubAck => HandleSubAck
  | Some MQTTUnsubAck => HandleUnsubAck
  | Some MQTTPingResp => HandlePingResp
  | _ => assert_ false
  end.

Definition receive_packet (pSocket : Sock) : C ReceivePacket.TMQTTReceiveStatus :=
  zoom (λ c, (m_ReceivePacket c, world c))
    (λ '(p, w) c, set_m_ReceivePacket p (set_world w c))
    (ReceivePacket.Receive pSocket).

(** The loop of [Receiver]; the fuel bounds the packets it takes. *)
Fixpoint Receiver (fuel : nat) : C () :=
  match fuel with
  | O => fail OutOfFuel
  | S fuel =>
      c ← get;
      match m_pSocket c with
      | None => mret ()
      | Some pSocket =>
          Status ← receive_packet pSocket;
          match Status with
          | ReceivePacket.MQTTReceiveContinue => mret ()
          | ReceivePacket.MQTTReceivePacketOK => handle_packet;; Receiver fuel
          | ReceivePacket.MQTTReceivePacketInvalid =>
              CloseConnection MQTTDisconnectInvalidPacket
          | ReceivePacket.MQTTReceiveDisconnect => CloseConnection MQTTDisconnectFromPeer
          | ReceivePacket.MQTTReceiveNotEnoughMemory =>
              CloseConnection MQTTDisconnectInsufficientResources
          | ReceivePacket.MQTTReceiveUnknown => assert_ false
          end
      end
  end.

(** The loop of [Sender].  Each round takes a try from a packet of the queue,
    so the sum of the tries bounds the rounds. *)
Fixpoint sender_loop (fuel : nat) (nTicks : Z) (pElement : option pelem) : C () :=
  match fuel with
  | O => fail OutOfFuel
  | S fuel =>
      match pElement with
      | None => mret ()
      | Some e =>
          c ← get;
          let q := m_RetransmissionQueue c in
          let a := GetPtr q e in
          p ← load a;
          t ← lift_res (SendPacket.GetScheduledTime p);
          if s32 (t - nTicks) >? 0 then mret ()
          else
            let pNextElement := GetNext q e in
            modify (set_m_RetransmissionQueue (Remove q e));;
            when (bool_decide (SendPacket.GetType p = MQTTPublish))
              (at_packet a (SendPacket.SetFlags (Z.lor (SendPacket.GetFlags p) MQTT_FLAG_DUP)));;
            b ← SendPacket a;
            if negb b then
              delete_packet (Some a);;
              CloseConnection MQTTDisconnectSendFailed
            else
              schedule a;;
              sender_loop fuel nTicks pNextElement
      end
  end.

Definition tries_at (c : CMQTTClient) (a : Z) : nat :=
  match heap c !! a with
  | Some p => Z.to_nat (SendPacket.m_nSendTries p)
  | None => 0
  end.
Definition sender_fuel (c : CMQTTClient) : nat :=
  S (sum_list_with (tries_at c) (pl_ptrs (m_RetransmissionQueue c))).

Definition Sender : C () :=
  nTicks ← GetTicks;
  c ← get;
  sender_loop (sender_fuel c) nTicks (GetFirst (m_RetransmissionQueue c)).

Definition KeepAliveHandler : C () :=
  c ← get;
  if negb (m_bTimerRunning c) then mret ()
  else
    t ← GetTicks;
    if negb (s32 (m_nTimerElapsesAt c - t) <=? 0) then mret ()
    else
      modify (set_m_bTimerRunning false);;
      if bool_decide (m_ConnectStatus c = MQTTStatusConnected) then
        b ← send_local MQTTPingReq default_packet_size (mret ());
        if negb b then CloseConnection MQTTDisconnectSendFailed else mret ()
      else
        assert_ (bool_decide (m_ConnectStatus c = MQTTStatusWaitForPingResp));;
        CloseConnection MQTTDisconnectPingFailed.

(** One round of the loop of [Run]; [fuel] is for [Receiver]. *)
Definition Run_round (fuel : nat) : C () :=
  c ← get;
  (if negb (bool_decide (m_ConnectStatus c = MQTTStatusDisconnected)) then
     Receiver fuel;;
     Sender;;
     KeepAliveHandler;;
     world_op (CScheduler_MsSleep 50)
   else world_op (CScheduler_MsSleep 200));;
  OnLoop CB.

(** The destructor. *)
Definition destruct_client : C () :=
  c ← get;
  assert_ (bool_decide (m_ConnectStatus c = MQTTStatusDisconnected));;
  assert_ (bool_decide (m_pSocket c = None));;
  CleanupQueue;;
  CleanupPacketIdentifierStore;;
  modify (set_m_pTopicBuffer None).
End client.
End Client.
