(* ===== verification/MqttQueueSpec.v ===== *)
(** What the packet queue and the identifier store of [CMQTTClient] promise.

    The queue is a list of addresses of packets in the heap; each operation is
    related to a function on that list: insertion behind the packets that are
    not due later, removal of the first packet with an identifier, and the
    destruction of all packets. *)
From stdpp Require Import base numbers list gmap option strings sorting.
From S2P Require Import Prelude.
From S2P Require Import Circle.
From S2P Require Import MqttSendPacket.
From S2P Require Import MqttReceivePacket.
From S2P Require Import MqttClient.
Import Mqtt Client.
Import (hints) SendPacket ReceivePacket.

(** * Insertion by time *)

(** Whether the time [t] is after [n] on the wrapping tick counter. *)
Definition later (t n : Z) : bool := s32 (t - n) >? 0.

Fixpoint insert_due (due : Z → Z) (n a : Z) (l : list Z) : list Z :=
  match l with
  | [] => [a]
  | b :: l' => if later (due b) n then a :: l else b :: insert_due due n a l'
  end.

(** Each packet is due no later than its successors, up to half of the range
    of the counter. *)
Definition in_order (t n : Z) : Prop := later t n = false.

Lemma later_window base t n :
  0 ≤ t - base < 2^31 → 0 ≤ n - base < 2^31 → later (u32 t) (u32 n) = (n <? t).
Proof.
  intros Ht Hn. unfold later. rewrite s32_sub_u32, s32_small by lia.
  rewrite Z.gtb_ltb. repeat zcase; lia.
Qed.

Lemma insert_due_perm due n a l : insert_due due n a l ≡ₚ a :: l.
Proof.
  induction l as [|b l IH]; cbn; [done|]. destruct (later _ _); [done|].
  rewrite IH. apply perm_swap.
Qed.

Lemma insert_due_elem due n a l b : b ∈ insert_due due n a l ↔ b = a ∨ b ∈ l.
Proof. rewrite insert_due_perm. apply elem_of_cons. Qed.

(** A pair of consecutive splits determines the insertion. *)
Lemma insert_due_split due n a l1 l2 :
  Forall (λ b, later (due b) n = false) l1 →
  (∀ b, head l2 = Some b → later (due b) n = true) →
  insert_due due n a (l1 ++ l2) = l1 ++ a :: l2.
Proof.
  intros H1 H2. induction H1 as [|b l1 Hb H1 IH]; cbn.
  - destruct l2 as [|b l2]; [done|]. cbn. by rewrite H2.
  - by rewrite Hb, IH.
Qed.

Lemma insert_due_ext due due' n a l :
  (∀ b, b ∈ l → due b = due' b) → insert_due due n a l = insert_due due' n a l.
Proof.
  induction l as [|b l IH]; intros E; cbn; [done|].
  rewrite (E b) by (apply elem_of_cons; by left).
  rewrite IH by (intros x Hx; apply E, elem_of_cons; by right). done.
Qed.

(** Insertion keeps the queue sorted when all times are in a window of half the
    range of the counter. *)
Definition window (base : Z) (time due : Z → Z) (a : Z) : Prop :=
  due a = u32 (time a) ∧ 0 ≤ time a - base < 2^31.

Lemma insert_due_sorted base time due a l :
  Forall (window base time due) (a :: l) →
  Sorted (λ x y, time x ≤ time y) l →
  Sorted (λ x y, time x ≤ time y) (insert_due due (due a) a l).
Proof.
  intros [[Ha Hwa] Hl]%Forall_cons. induction l as [|b l IH]; intros Hs; cbn.
  { repeat constructor. }
  apply Forall_cons in Hl as [[Hb Hwb] Hl].
  rewrite Hb, Ha, (later_window base) by done. apply Sorted_inv in Hs as [Hs Hd].
  destruct (Z.ltb_spec (time a) (time b)).
  - constructor; [by constructor|]. constructor. lia.
  - rewrite <-Ha. constructor; [by apply IH|]. destruct l as [|c l]; cbn.
    + constructor. lia.
    + apply HdRel_inv in Hd.
      apply Forall_cons in Hl as [[Hc Hwc] _]. rewrite Hc, Ha, (later_window base) by done.
      destruct (Z.ltb_spec (time a) (time c)); constructor; lia.
Qed.

(** * The queue *)

Section queue.
Context `{Target, Platform W, PtrList, !PtrListOk}.
Implicit Types (c : CMQTTClient) (q : plist) (a : Z).

Abbreviation queue c := (pl_ptrs (m_RetransmissionQueue c)).
Abbreviation stored c := (pl_ptrs (m_PacketIdentifierStore c)).

Definition due c a : Z := default 0 (heap c !! a ≫= SendPacket.m_nScheduledTime).
Definition ident c a : Z := default 0 (heap c !! a ≫= SendPacket.m_usPacketIdentifier).

(** The members for the queue are initialised. *)
Definition queueable (p : CMQTTSendPacket) : Prop :=
  is_Some (SendPacket.m_nScheduledTime p) ∧ is_Some (SendPacket.m_uchQoS p) ∧
  is_Some (SendPacket.m_usPacketIdentifier p).

Definition in_heap (P : CMQTTSendPacket → Prop) c a : Prop :=
  ∃ p, heap c !! a = Some p ∧ P p.

Lemma ptrs_view l pre e p post :
  pl_view l = pre ++ (e, p) :: post → pl_ptrs l = pre.*2 ++ p :: post.*2.
Proof using Type. unfold pl_ptrs. intros ->. by rewrite fmap_app. Qed.

Lemma ptrs_nil l : pl_ptrs l = [] ↔ pl_view l = [].
Proof using Type. unfold pl_ptrs. split; [by intros ?%fmap_nil_inv|by intros ->]. Qed.

Lemma ptrs_empty : pl_ptrs pl_empty = [].
Proof using Type*. apply ptrs_nil, view_empty. Qed.

(** The handle at a position, for the traversals. *)
Lemma view_head (post : list (pelem * Z)) e :
  head post.*1 = Some e → ∃ a post', post = (e, a) :: post'.
Proof using Type. destruct post as [|[e' a] post]; cbn; [done|]. intros [= ->]. eauto. Qed.

Lemma load_Ok F a p c (Q : CMQTTSendPacket → CMQTTClient → Prop) :
  heap c !! a = Some p → Q p c → wp F (load a) Q c.
Proof using Type. unfold load. intros E HQ. wp_steps. by rewrite E. Qed.

Lemma store_Ok F a p p' c (Q : () → CMQTTClient → Prop) :
  heap c !! a = Some p' → Q () (set_heap (<[a:=p]> (heap c)) c) → wp F (store a p) Q c.
Proof using Type. unfold store. intros E HQ. wp_step. eapply load_Ok; [exact E|]. by wp_steps. Qed.

Lemma delete_packet_Ok F a p c (Q : () → CMQTTClient → Prop) :
  heap c !! a = Some p → Q () (set_heap (delete a (heap c)) c) →
  wp F (delete_packet (Some a)) Q c.
Proof using Type. unfold delete_packet. intros E HQ. wp_step. eapply load_Ok; [exact E|]. by wp_steps. Qed.

(** The loop of [InsertPacketIntoQueue]. *)
Lemma insert_position_spec F fuel q n c pre post
    (Q : option pelem * option pelem → CMQTTClient → Prop) :
  pl_view q = pre ++ post → (length post < fuel)%nat →
  Forall (in_heap queueable c) post.*2 →
  (∀ p1 p2, post = p1 ++ p2 →
     Forall (λ b, later (due c b) n = false) p1.*2 →
     (∀ b, head p2.*2 = Some b → later (due c b) n = true) →
     Q (last (pre ++ p1).*1, head p2.*1) c) →
  wp F (insert_position fuel q n (last pre.*1) (head post.*1)) Q c.
Proof using Type*.
  revert pre post. induction fuel as [|fuel IH]; intros pre post Hv Hf Hq HQ; [lia|].
  cbn [insert_position]. destruct post as [|[e a] post]; cbn [fmap list_fmap head fst].
  { apply wp_ret. specialize (HQ [] [] eq_refl). rewrite app_nil_r in HQ. by apply HQ. }
  cbn in Hq. apply Forall_cons in Hq as [(p & Hp & [[t Ht] _]) Hq].
  rewrite (GetPtr_view _ _ _ _ _ Hv). wp_step. eapply load_Ok; [exact Hp|].
  wp_step. eapply (wp_lift_Ok _ _ t); [unfold SendPacket.GetScheduledTime; by rewrite Ht|].
  assert (Hdue : due c a = t) by (unfold due; rewrite Hp; cbn; by rewrite Ht).
  destruct (s32 (t - n) >? 0) eqn:El.
  - apply wp_ret. specialize (HQ [] ((e, a) :: post) eq_refl). rewrite app_nil_r in HQ.
    apply HQ; [constructor|]. cbn. intros b [= <-]. by rewrite Hdue.
  - rewrite (GetNext_view _ _ _ _ _ Hv).
    replace (Some e) with (last (pre ++ [(e, a)]).*1) by (rewrite fmap_app; cbn [fmap list_fmap fst]; by rewrite last_snoc).
    apply IH; [by rewrite <-app_assoc|cbn in Hf; lia|done|].
    intros p1 p2 -> Hbef Haft. rewrite <-app_assoc. cbn. apply (HQ ((e, a) :: p1) p2); [done| |done].
    cbn. constructor; [by rewrite Hdue|done].
Qed.

(** [InsertPacketIntoQueue] stores the time in the packet and inserts the
    packet behind those that are not due later. *)
Lemma InsertPacketIntoQueue_spec F a p n c (Q : () → CMQTTClient → Prop) :
  heap c !! a = Some p → a ∉ queue c → Forall (in_heap queueable c) (queue c) →
  (∀ c' q', c' = set_m_RetransmissionQueue q'
                   (set_heap (<[a:=SendPacket.SetScheduledTime n p]> (heap c)) c) →
     pl_ptrs q' = insert_due (due c) n a (queue c) →
     pl_view (m_RetransmissionQueue c) ⊆ pl_view q' → Q () c') →
  wp F (InsertPacketIntoQueue a n) Q c.
Proof using Type*.
  intros Hp Ha Hq HQ. unfold InsertPacketIntoQueue. wp_step. eapply load_Ok; [exact Hp|].
  wp_step. eapply store_Ok; [exact Hp|]. wp_steps.
  set (c1 := set_heap _ _). cbn [m_RetransmissionQueue set_heap c1].
  set (q := m_RetransmissionQueue c) in *.
  assert (Hsame : ∀ b, b ∈ queue c → heap c1 !! b = heap c !! b).
  { intros b Hb. apply lookup_insert_ne. by intros ->. }
  assert (Hdue : ∀ b, b ∈ queue c → due c1 b = due c b).
  { intros b Hb. unfold due. by rewrite Hsame. }
  rewrite GetFirst_view.
  change None with (last (@nil (pelem * Z)).*1).
  apply insert_position_spec; [done|unfold queue_fuel; lia| |].
  { change ((pl_view q).*2) with (queue c). apply Forall_forall. intros b Hb.
    rewrite Forall_forall in Hq. destruct (Hq b Hb) as (p' & Hp' & ?).
    exists p'. by rewrite Hsame. }
  cbn [app]. intros p1 p2 Hv Hbef Haft.
  assert (Hptrs : queue c = p1.*2 ++ p2.*2) by (unfold pl_ptrs; fold q; by rewrite Hv, fmap_app).
  assert (Hins : insert_due (due c) n a (queue c) = p1.*2 ++ a :: p2.*2).
  { rewrite Hptrs. apply insert_due_split.
    - rewrite Forall_forall in Hbef |- *. intros b Hb. rewrite <-Hdue; [by apply Hbef|].
      rewrite Hptrs. apply elem_of_app. by left.
    - intros b Hb. rewrite <-Hdue; [by apply Haft|].
      rewrite Hptrs. apply elem_of_app. right. by apply head_Some_elem_of. }
  fold q in Hins.
  destruct p2 as [|[e b] p2]; cbn [head fmap list_fmap fst]; wp_steps.
  - destruct (last p1.*1) as [e|] eqn:El.
    + rewrite fmap_last in El. destruct (last p1) as [[e' b]|] eqn:El1; simplify_eq/=.
      apply last_Some in El1 as [p1' ->].
      destruct (InsertAfter_view q p1' e b [] a) as [e' Hv']; [by rewrite Hv, app_nil_r|].
      eapply HQ; [done| |].
      * rewrite (ptrs_view _ (p1' ++ [(e, b)]) e' a []); [by rewrite Hins|].
        rewrite Hv'. by rewrite <-app_assoc.
      * rewrite Hv, Hv', app_nil_r. intros x. rewrite !elem_of_app, !elem_of_cons. tauto.
    + apply last_None in El. apply fmap_nil_inv in El as ->.
      destruct (InsertAfter_view_empty q a) as [e' Hv']; [done|].
      eapply HQ; [done| |].
      * rewrite (ptrs_view _ [] e' a []); [by rewrite Hins|done].
      * rewrite Hv. intros x. by intros ?%not_elem_of_nil.
  - destruct (InsertBefore_view q p1 e b p2 a) as [e' Hv']; [done|].
    eapply HQ; [done| |].
    + rewrite (ptrs_view _ p1 e' a ((e, b) :: p2)); [by rewrite Hins|done].
    + rewrite Hv, Hv'. intros x. rewrite !elem_of_app, !elem_of_cons. tauto.
Qed.

(** ** Removal by identifier *)

Lemma find_packet_spec F fuel q us c pre post (Q : option pelem → CMQTTClient → Prop) :
  pl_view q = pre ++ post → (length post < fuel)%nat →
  Forall (in_heap queueable c) post.*2 →
  (∀ p1 e a p2, post = p1 ++ (e, a) :: p2 → Forall (λ b, ident c b ≠ us) p1.*2 →
     ident c a = us → Q (Some e) c) →
  (Forall (λ b, ident c b ≠ us) post.*2 → Q None c) →
  wp F (find_packet fuel q us (head post.*1)) Q c.
Proof using Type*.
  revert pre post. induction fuel as [|fuel IH]; intros pre post Hv Hf Hq HQ HN; [lia|].
  cbn [find_packet]. destruct post as [|[e a] post]; cbn [fmap list_fmap head fst].
  { apply wp_ret, HN. constructor. }
  cbn in Hq. apply Forall_cons in Hq as [(p & Hp & [_ [_ [v Hid]]]) Hq].
  rewrite (GetPtr_view _ _ _ _ _ Hv). wp_step. eapply load_Ok; [exact Hp|].
  wp_step. eapply (wp_lift_Ok _ _ v); [unfold SendPacket.GetPacketIdentifier; by rewrite Hid|].
  assert (Hident : ident c a = v) by (unfold ident; rewrite Hp; cbn; by rewrite Hid).
  destruct (Z.eqb_spec v us) as [->|Hne].
  - apply wp_ret. by eapply (HQ [] e a post).
  - rewrite (GetNext_view _ _ _ _ _ Hv).
    apply (IH (pre ++ [(e, a)])); [by rewrite <-app_assoc|cbn in Hf; lia|done| |].
    + intros p1 e' a' p2 -> Hbef Hin. eapply (HQ ((e, a) :: p1)); [done| |done].
      cbn. constructor; [by rewrite Hident|done].
    + intros HF. apply HN. cbn. constructor; [by rewrite Hident|done].
Qed.

(** [RemovePacketFromQueue] takes the first packet with the identifier. *)
Lemma RemovePacketFromQueue_spec F us c (Q : option Z → CMQTTClient → Prop) :
  Forall (in_heap queueable c) (queue c) →
  (∀ l1 a l2 q', queue c = l1 ++ a :: l2 → Forall (λ b, ident c b ≠ us) l1 →
     ident c a = us → pl_ptrs q' = l1 ++ l2 →
     Q (Some a) (set_m_RetransmissionQueue q' c)) →
  (Forall (λ b, ident c b ≠ us) (queue c) → Q None c) →
  wp F (RemovePacketFromQueue us) Q c.
Proof using Type*.
  intros Hq HQ HN. unfold RemovePacketFromQueue. wp_steps. rewrite GetFirst_view.
  eapply (find_packet_spec _ _ _ _ _ []); [done|unfold queue_fuel; lia|done| |].
  - intros p1 e a p2 Hv Hbef Hin. cbv beta iota. wp_steps.
    rewrite (GetPtr_view _ _ _ _ _ Hv).
    eapply (HQ p1.*2 a p2.*2); [by apply ptrs_view with e|done|done|].
    unfold pl_ptrs. by rewrite (Remove_view _ _ _ _ _ Hv), fmap_app.
  - intros HF. wp_steps. by apply HN.
Qed.

(** ** Destruction *)

Definition heap_without (l : list Z) (h h' : gmap Z CMQTTSendPacket) : Prop :=
  ∀ b, h' !! b = if bool_decide (b ∈ l) then None else h !! b.

Lemma cleanup_queue_spec F fuel c post (Q : () → CMQTTClient → Prop) :
  pl_view (m_RetransmissionQueue c) = post → (length post < fuel)%nat →
  NoDup post.*2 → Forall (λ a, is_Some (heap c !! a)) post.*2 →
  (∀ q' h', pl_ptrs q' = [] → heap_without post.*2 (heap c) h' →
     Q () (set_m_RetransmissionQueue q' (set_heap h' c))) →
  wp F (cleanup_queue fuel (head post.*1)) Q c.
Proof using Type*.
  revert c post. induction fuel as [|fuel IH]; intros c post Hv Hf Hnd Hall HQ; [lia|].
  cbn [cleanup_queue]. destruct post as [|[e a] post]; cbn [fmap list_fmap head fst].
  { apply wp_ret. replace c with (set_m_RetransmissionQueue (m_RetransmissionQueue c)
      (set_heap (heap c) c)) by by destruct c.
    apply HQ; [by apply ptrs_nil|]. by intros b. }
  cbn in Hnd, Hall. apply NoDup_cons in Hnd as [Hni Hnd].
  apply Forall_cons in Hall as [[p Hp] Hall]. wp_steps.
  rewrite (GetPtr_view _ [] _ _ _ Hv), (GetNext_view _ [] _ _ _ Hv).
  eapply delete_packet_Ok; [exact Hp|].
  apply IH; [cbn; by rewrite (Remove_view _ [] _ _ _ Hv)|cbn in Hf; lia|done| |].
  - rewrite Forall_forall in Hall |- *. intros b Hb. cbn.
    rewrite lookup_delete_ne; [by apply Hall|congruence].
  - cbn [heap set_heap set_m_RetransmissionQueue]. intros q' h' Hq' Hh'.
    apply (HQ q' h'); [done|]. intros b. rewrite (Hh' b). cbn [fmap list_fmap snd].
    rewrite (bool_decide_ext _ _ (elem_of_cons post.*2 b a)).
    destruct (decide (b = a)) as [->|Hba].
    + rewrite (bool_decide_eq_false_2 (a ∈ post.*2)), bool_decide_eq_true_2 by auto.
      apply lookup_delete_eq.
    + rewrite lookup_delete_ne by done. erewrite (bool_decide_ext (_ ∨ _)); [done|naive_solver].
Qed.

Lemma CleanupQueue_spec F c (Q : () → CMQTTClient → Prop) :
  NoDup (queue c) → Forall (λ a, is_Some (heap c !! a)) (queue c) →
  (∀ q' h', pl_ptrs q' = [] → heap_without (queue c) (heap c) h' →
     Q () (set_m_RetransmissionQueue q' (set_heap h' c))) →
  wp F CleanupQueue Q c.
Proof using Type*.
  intros Hnd Hall HQ. unfold CleanupQueue. wp_steps. rewrite GetFirst_view.
  apply cleanup_queue_spec; [done|unfold queue_fuel; lia|done..].
Qed.

(** * The identifier store *)

Lemma InsertPacketIdentifierIntoStore_spec F us c (Q : () → CMQTTClient → Prop) :
  (∀ l', pl_ptrs l' = us :: stored c → Q () (set_m_PacketIdentifierStore l' c)) →
  wp F (InsertPacketIdentifierIntoStore us) Q c.
Proof using Type*.
  intros HQ. unfold InsertPacketIdentifierIntoStore. wp_steps. rewrite GetFirst_view.
  unfold pl_ptrs in HQ.
  destruct (pl_view (m_PacketIdentifierStore c)) as [|[e a] post] eqn:Hv;
    cbn [fmap list_fmap head fst]; wp_steps; apply HQ.
  - destruct (InsertAfter_view_empty _ us Hv) as [e' Hv']. by rewrite Hv'.
  - destruct (InsertBefore_view _ [] _ _ _ us Hv) as [e' Hv']. by rewrite Hv'.
Qed.

Lemma stored_split c us :
  us ∈ stored c → ∃ pre e post,
    pl_view (m_PacketIdentifierStore c) = pre ++ (e, us) :: post ∧ us ∉ pre.*2.
Proof using Type*.
  unfold pl_ptrs. induction (pl_view (m_PacketIdentifierStore c)) as [|[e a] l IH]; cbn.
  { by intros ?%not_elem_of_nil. }
  intros Hin. destruct (decide (us = a)) as [->|Hne].
  { exists [], e, l. split; [done|apply not_elem_of_nil]. }
  apply elem_of_cons in Hin as [|Hin]; [done|].
  destruct (IH Hin) as (pre & e' & post & -> & Hni).
  exists ((e, a) :: pre), e', post. split; [done|]. cbn. set_solver.
Qed.

Lemma stored_find c us :
  bool_decide (is_Some (Find (m_PacketIdentifierStore c) us)) = bool_decide (us ∈ stored c).
Proof using Type*.
  apply bool_decide_ext. split.
  - intros [e He]. destruct (decide (us ∈ stored c)) as [|Hni]; [done|].
    rewrite Find_view_None in He; done.
  - intros (pre & e & post & Hv & Hni)%stored_split.
    rewrite (Find_view_Some _ _ _ _ _ Hv Hni). eauto.
Qed.

Lemma IsPacketIdentifierInStore_spec F us c (Q : bool → CMQTTClient → Prop) :
  Q (bool_decide (us ∈ stored c)) c → wp F (IsPacketIdentifierInStore us) Q c.
Proof using Type*.
  intros HQ. unfold IsPacketIdentifierInStore. wp_steps. by rewrite stored_find.
Qed.

Lemma RemovePacketIdentifierFromStore_spec F us c (Q : bool → CMQTTClient → Prop) :
  (∀ l1 l2 l', stored c = l1 ++ us :: l2 → us ∉ l1 → pl_ptrs l' = l1 ++ l2 →
     Q true (set_m_PacketIdentifierStore l' c)) →
  (us ∉ stored c → Q false c) →
  wp F (RemovePacketIdentifierFromStore us) Q c.
Proof using Type*.
  intros HQ HN. unfold RemovePacketIdentifierFromStore. wp_steps.
  destruct (decide (us ∈ stored c)) as [Hin|Hni].
  - destruct (stored_split c us Hin) as (pre & e & post & Hv & Hni).
    rewrite (Find_view_Some _ _ _ _ _ Hv Hni). wp_steps.
    eapply (HQ pre.*2 post.*2); [by apply ptrs_view with e|done|].
    unfold pl_ptrs. by rewrite (Remove_view _ _ _ _ _ Hv), fmap_app.
  - rewrite Find_view_None by done. wp_steps. by apply HN.
Qed.

Lemma cleanup_store_spec F fuel c post (Q : () → CMQTTClient → Prop) :
  pl_view (m_PacketIdentifierStore c) = post → (length post < fuel)%nat →
  (∀ l', pl_ptrs l' = [] → Q () (set_m_PacketIdentifierStore l' c)) →
  wp F (cleanup_store fuel (head post.*1)) Q c.
Proof using Type*.
  revert c post. induction fuel as [|fuel IH]; intros c post Hv Hf HQ; [lia|].
  cbn [cleanup_store]. destruct post as [|[e a] post]; cbn [fmap list_fmap head fst].
  { apply wp_ret. replace c with (set_m_PacketIdentifierStore (m_PacketIdentifierStore c) c)
      by by destruct c.
    by apply HQ, ptrs_nil. }
  wp_steps. rewrite (GetNext_view _ [] _ _ _ Hv).
  apply IH; [cbn; by rewrite (Remove_view _ [] _ _ _ Hv)|cbn in Hf; lia|done].
Qed.

Lemma CleanupPacketIdentifierStore_spec F c (Q : () → CMQTTClient → Prop) :
  (∀ l', pl_ptrs l' = [] → Q () (set_m_PacketIdentifierStore l' c)) →
  wp F CleanupPacketIdentifierStore Q c.
Proof using Type*.
  intros HQ. unfold CleanupPacketIdentifierStore. wp_steps. rewrite GetFirst_view.
  apply cleanup_store_spec; [done|unfold queue_fuel; lia|done].
Qed.
End queue.
