(* ===== verification/MqttClientInv.v ===== *)
(** The invariant of [CMQTTClient], and the operations below the public ones.

    [Inv w X c] says that the packets in the heap are the queued ones and the
    [X] an operation is holding, that a socket exists exactly while there is a
    connection, that the keep alive timer runs only with a keep alive period,
    and that buffers, identifiers and sizes are in their ranges. *)
From stdpp Require Import base numbers list gmap option strings.
From S2P Require Import Prelude.
From S2P Require Import Circle.
From S2P Require Import MqttSendPacket.
From S2P Require Import MqttSendSpec.
From S2P Require Import MqttReceivePacket.
From S2P Require Import MqttReceiveSpec.
From S2P Require Import MqttReadSpec.
From S2P Require Import MqttClient.
From S2P Require Import MqttQueueSpec.
Import Mqtt Client.
Import (hints) SendPacket ReceivePacket.

(** The packets that are retransmitted until they are acknowledged. *)
Definition retransmitted (t : TMQTTPacketType) : bool :=
  match t with
  | MQTTPublish | MQTTSubscribe | MQTTUnsubscribe | MQTTPubRel => true
  | _ => false
  end.

(** The types a client sends, without PINGREQ. *)
Definition client_type (t : TMQTTPacketType) : bool :=
  match t with
  | MQTTConnect | MQTTPublish | MQTTPubAck | MQTTPubRec | MQTTPubRel | MQTTPubComp
  | MQTTSubscribe | MQTTUnsubscribe | MQTTDisconnect => true
  | _ => false
  end.

Lemma retransmitted_client t : retransmitted t = true → client_type t = true.
Proof. by destruct t. Qed.

(** A packet that can be sent. *)
Definition packet_ok (p : CMQTTSendPacket) : Prop :=
  (∃ content, repr p content) ∧ SendPacket.m_nMaxPacketSize p < 128^3 ∧
  0 ≤ SendPacket.m_uchFlags p < 16 ∧ 0 ≤ SendPacket.m_nSendTries p ≤ MQTT_SEND_TRIES.

Section inv.
Context `{Target, Platform W, !PlatformOk W, PtrList, !PtrListOk}.
Implicit Types (c : CMQTTClient) (a : Z) (X : list Z) (w : bool).

(** Whether the allocations of the constructor have succeeded. *)
Context (bTopic bReceive : bool).

Abbreviation queue c := (pl_ptrs (m_RetransmissionQueue c)).
Abbreviation stored c := (pl_ptrs (m_PacketIdentifierStore c)).

Record heap_inv X c : Prop := {
  hi_nodup : NoDup (queue c ++ X);
  hi_dom a : is_Some (heap c !! a) ↔ a ∈ queue c ++ X;
  hi_fresh a : is_Some (heap c !! a) → 0 < a < heap_next c;
  hi_next : 0 < heap_next c;
  hi_ok a p : heap c !! a = Some p →
    packet_ok p ∧ retransmitted (SendPacket.GetType p) = true;
  hi_queueable : Forall (in_heap queueable c) (queue c)
}.

Definition buffer_inv c : Prop :=
  0 ≤ m_nMaxTopicSize c < 2^32 - 1 ∧ 128 ≤ m_nMaxPacketSize c < 128^3 ∧
  (if bTopic then ∃ tb, m_pTopicBuffer c = Some tb ∧ Z.of_nat (length tb) = m_nMaxTopicSize c + 1
   else m_pTopicBuffer c = None) ∧
  0 ≤ ReceivePacket.m_nOutPtr (m_ReceivePacket c) ∧
  (if bReceive then ∃ bs, buffered (m_ReceivePacket c) bs
   else ReceivePacket.m_pBuffer (m_ReceivePacket c) = None).

Definition store_inv c : Prop :=
  NoDup (stored c) ∧ Forall (λ us, 0 < us < 2^16) (stored c).

Definition disconnected_inv w c : Prop :=
  m_pSocket c = None ∧ (w = true → m_bTimerRunning c = false) ∧ queue c = [] ∧ stored c = [].

Definition connected_inv c : Prop :=
  is_Some (m_pSocket c) ∧ bTopic = true ∧ 0 < m_usNextPacketIdentifier c ∧
  m_ConnectStatus c ≠ MQTTStatusUnknown ∧
  (m_bTimerRunning c = true → 0 < m_nKeepAliveSeconds c ∧
     (m_ConnectStatus c = MQTTStatusConnected ∨ m_ConnectStatus c = MQTTStatusWaitForPingResp)).

Record Core w X c : Prop := {
  co_heap : heap_inv X c;
  co_buffer : buffer_inv c;
  co_store : store_inv c;
  co_next : is_u16 (m_usNextPacketIdentifier c);
  co_disconnected : m_ConnectStatus c = MQTTStatusDisconnected → disconnected_inv w c;
  co_connected : m_ConnectStatus c ≠ MQTTStatusDisconnected → connected_inv c
}.

(** While the client waits for the answer to a ping, the timer runs. *)
Definition ping_inv c : Prop :=
  m_ConnectStatus c = MQTTStatusWaitForPingResp → m_bTimerRunning c = true.

(** [w] says that the timer member has been initialised, by a connection. *)
Record Inv w X c : Prop := { inv_core : Core w X c; inv_ping : ping_inv c }.

(** The members the invariant depends on. *)
Definition view c :=
  (m_nMaxPacketSize c, m_nMaxTopicSize c, m_pTopicBuffer c, m_pSocket c, m_ConnectStatus c,
   (m_nKeepAliveSeconds c, m_bTimerRunning c, m_usNextPacketIdentifier c, m_ReceivePacket c,
    m_RetransmissionQueue c, m_PacketIdentifierStore c, heap c, heap_next c)).

Lemma Inv_view w X c c' : Inv w X c → view c' = view c → Inv w X c'.
Proof using Type.
  destruct c, c'. unfold view. cbn. intros [[Hh Hb Hs Hn Hd Hc] Hp] E. simplify_eq.
  split; [split|]; try done. by destruct Hh; split.
Qed.

Lemma Inv_weaken w X c : Inv true X c → Inv w X c.
Proof using Type.
  intros [[Hh Hb Hs Hn Hd Hc] Hp]. split; [|done]. split; try done.
  intros E. destruct (Hd E) as (? & ? & ? & ?). split_and!; auto.
Qed.

Lemma Inv_connected w X c :
  Inv w X c → m_ConnectStatus c ≠ MQTTStatusDisconnected → Inv true X c.
Proof using Type. intros [[Hh Hb Hs Hn Hd Hc] Hp] E. split; [|done]. split; by auto. Qed.

(** ** The world *)

Lemma world_op_Inv {A} F w X c (f : W → A * W) (Q : A → CMQTTClient → Prop) :
  (∀ v u, Inv w X c → view (set_world u c) = view c → f (world c) = (v, u) →
     Inv w X (set_world u c) → Q v (set_world u c)) →
  Inv w X c → wp F (world_op f) Q c.
Proof using Type.
  intros HQ Hc. apply wp_env. intros v u E. apply HQ; [done|done|done|].
  by eapply Inv_view; [exact Hc|].
Qed.

(** ** Packets *)

(** A fresh packet: its content is empty, or it is in the error state when
    its buffer could not be allocated. *)
Definition fresh (t : TMQTTPacketType) (n : Z) (b : bool) (p : CMQTTSendPacket) : Prop :=
  repr p (if b then Some [] else None) ∧ SendPacket.m_Type p = t ∧
  SendPacket.m_nMaxPacketSize p = n ∧ SendPacket.m_nSendTries p = MQTT_SEND_TRIES ∧
  (b = true → SendPacket.m_uchFlags p = initial_flags t) ∧ packet_ok p.

Lemma make_packet_spec F t n c (Q : CMQTTSendPacket → CMQTTClient → Prop) :
  128 ≤ n < 128^3 →
  (∀ b p u, operator_new_array n (world c) = (b, u) → fresh t n b p → Q p (set_world u c)) →
  wp F (make_packet t n) Q c.
Proof using Type.
  intros Hn HQ. unfold make_packet. wp_step. apply wp_env. intros b u Eu.
  destruct (construct_repr b t n) as (p & E & Hp & Ht & Hm & Htr & Hf & Hf'); [lia|].
  eapply wp_lift_Ok; [exact E|]. apply (HQ b); [done|].
  unfold fresh, packet_ok. rewrite Htr. unfold MQTT_SEND_TRIES in *.
  split_and!; try done; try lia. by eexists.
Qed.

(** ** Sending *)

(** The members [SendPacket] leaves alone: all but the timer. *)
Definition steady c :=
  (m_nMaxPacketSize c, m_nMaxTopicSize c, m_pTopicBuffer c, m_pSocket c, m_ConnectStatus c,
   (m_nKeepAliveSeconds c, m_usNextPacketIdentifier c, m_ReceivePacket c,
    m_RetransmissionQueue c, m_PacketIdentifierStore c, heap c, heap_next c)).

(** Sending changes the number of tries, and the content stays. *)
Definition resent (b : bool) (p p' : CMQTTSendPacket) : Prop :=
  (∀ content, repr p content → repr p' content) ∧
  ∃ k, meta p' = meta (SendPacket.set_m_nSendTries k p) ∧
       (b = true → k = SendPacket.m_nSendTries p - 1 ∧ 0 < SendPacket.m_nSendTries p) ∧
       0 ≤ k ≤ SendPacket.m_nSendTries p.

Lemma resent_ok b p p' : packet_ok p → resent b p p' → packet_ok p'.
Proof using Type.
  intros [[content Hp] (Hm & Hf & Ht)] [Hr (k & E & _ & Hk)]. injection E as E1 E2 E3 E4 E5 E6 E7.
  unfold packet_ok. rewrite E2, E3, E4. cbn. split_and!; eauto; lia.
Qed.

Lemma resent_same b p p' : resent b p p' →
  SendPacket.GetType p' = SendPacket.GetType p ∧
  SendPacket.m_nScheduledTime p' = SendPacket.m_nScheduledTime p ∧
  SendPacket.m_uchQoS p' = SendPacket.m_uchQoS p ∧
  SendPacket.m_usPacketIdentifier p' = SendPacket.m_usPacketIdentifier p.
Proof using Type. intros [_ (k & E & _)]. by injection E. Qed.

Lemma resent_refl p : packet_ok p → resent false p p.
Proof using Type.
  intros (_ & _ & _ & Ht). split; [done|]. exists (SendPacket.m_nSendTries p).
  split_and!; [by destruct p|done|lia..].
Qed.

Lemma Send_resent sock p u :
  packet_ok p → ∃ b p' u', SendPacket.Send sock (p, u) = Ok (b, (p', u')) ∧ resent b p p'.
Proof using Type.
  intros Hok. pose proof Hok as [[content Hp] (Hm & Hf & Ht)].
  destruct (SendPacket.m_bError p) eqn:He.
  { rewrite Send_error by done. do 3 eexists. split; [done|by apply resent_refl]. }
  destruct (decide (SendPacket.m_nSendTries p = 0)) as [Hz|Hz].
  { rewrite Send_exhausted by done. do 3 eexists. split; [done|by apply resent_refl]. }
  destruct content as [ct|]; [|by destruct Hp; congruence].
  pose proof Hp as (Hmax & _ & Hptr & Hle & _). unfold SendPacket.MAX_LENGTH_FIXED_HEADER in *.
  pose proof (Send_Ok sock p u ct Hp) as Hs. unfold sendable in Hs.
  specialize (Hs ltac:(lia) Hf Hz). cbv zeta in Hs.
  destruct (CNetSocket_Send sock _ _ u) as [n u'] eqn:Es. destruct Hs as (p' & E & Hp' & Hmeta).
  do 3 eexists. split; [exact E|]. split.
  - intros content Hc. destruct content as [ct'|]; [|by destruct Hc; congruence].
    assert (ct' = ct) as ->; [|done].
    destruct Hp as (_ & _ & Hl1 & _ & _ & buf & Hbuf & _ & _ & Hh1).
    destruct Hc as (_ & _ & Hl2 & _ & _ & buf' & Hbuf' & _ & _ & Hh2).
    assert (buf' = buf) as -> by congruence.
    apply list_eq_same_length with (length ct); [done|lia|].
    intros j x y Hj Hx Hy. apply Hh1 in Hy. apply Hh2 in Hx. congruence.
  - exists (SendPacket.m_nSendTries p - 1). split_and!; [done|intros _; lia|lia..].
Qed.

Lemma Inv_steady w X c c' :
  Inv w X c → steady c' = steady c → m_ConnectStatus c ≠ MQTTStatusWaitForPingResp →
  (m_bTimerRunning c' = true → 0 < m_nKeepAliveSeconds c ∧
     m_ConnectStatus c = MQTTStatusConnected) → Inv w X c'.
Proof using Type.
  intros [[Hh Hb Hs Hn Hd Hc] Hp] E Hnw Ht.
  destruct c, c'. unfold steady in E. cbn in *. simplify_eq.
  split; [split|]; try done.
  - by destruct Hh; split.
  - intros Es. destruct (Hd Es) as (? & ? & ? & ?). split_and!; try done.
    intros _. cbn. destruct m_bTimerRunning1; [|done]. destruct Ht; [done|]. cbn in Es. congruence.
  - intros Es. destruct (Hc Es) as (? & ? & ? & ? & ?). cbn. split_and!; try done.
    cbn. naive_solver.
  - by intros ?.
Qed.

Lemma start_timer_spec F n c (Q : () → CMQTTClient → Prop) :
  (∀ c', steady c' = steady c → m_bTimerRunning c' = true →
     m_nTimerElapsesAt c' = u32 ((CTimer_GetTicks (world c)).1 + n) → Q () c') →
  wp F (start_timer n) Q c.
Proof using Type.
  intros HQ. unfold start_timer. wp_step. apply wp_env. intros t u E. wp_steps.
  apply HQ; [done|done|]. by rewrite E.
Qed.

(** [SendPacket] of a packet that is no PINGREQ. *)
Lemma SendPacket__spec F w X p c (Q : bool * CMQTTSendPacket → CMQTTClient → Prop) :
  Inv w X c → packet_ok p → client_type (SendPacket.GetType p) = true →
  (∀ b p' c', Inv w X c' → resent b p p' → steady c' = steady c →
     (b = true → m_ConnectStatus c ≠ MQTTStatusDisconnected) → Q (b, p') c') →
  wp F (SendPacket_ p) Q c.
Proof using Type.
  intros Hc Hp Ht HQ. unfold SendPacket_. wp_steps.
  case_bool_decide as Es; wp_steps.
  { apply HQ; [done|by apply resent_refl|done|done]. }
  pose proof (co_connected _ _ _ (inv_core _ _ _ Hc) Es) as ([sock Hs] & _).
  apply wp_assert_true; [apply bool_decide_eq_true_2; eauto|].
  wp_step. eapply wp_deref_Some; [exact Hs|]. wp_step.
  destruct (Send_resent sock p (world c) Hp) as (b & p' & u & E & Hr).
  eapply wp_lift_Ok; [exact E|]. wp_steps.
  assert (Hc1 : Inv w X (set_world u c)) by (by eapply Inv_view).
  destruct b; cbn [negb]; wp_steps; [|by apply HQ].
  destruct (resent_same _ _ _ Hr) as (Ety & _). rewrite Ety.
  assert (Hstop : wp F (mret ()) (λ _ s, wp F (mret (true, p')) Q s) (set_world u c)).
  { wp_steps. by apply HQ. }
  assert (Hrun : wp F (when (bool_decide (m_ConnectStatus (set_world u c) = MQTTStatusConnected)
            && (m_nKeepAliveSeconds (set_world u c) >? 0))
        (start_timer (m_nKeepAliveSeconds (set_world u c) * HZ)))
        (λ _ s, wp F (mret (true, p')) Q s) (set_world u c)).
  { apply wp_when; intros Hcond; [|exact Hstop].
    apply andb_true_iff in Hcond as [Hconn%bool_decide_eq_true Hka].
    rewrite Z.gtb_ltb, Z.ltb_lt in Hka. cbn in Hconn, Hka.
    apply start_timer_spec. intros c' Hst Htr _. wp_steps. apply HQ; [|done|by rewrite Hst|done].
    eapply Inv_steady; [exact Hc1|done|cbn; congruence|]. by intros _. }
  unfold keep_alive_sent. wp_step.
  destruct (SendPacket.GetType p); try done.
Qed.

(** [SendPacket] of PINGREQ, which the keep alive handler calls. *)
Lemma SendPacket__ping F w X p c (Q : bool * CMQTTSendPacket → CMQTTClient → Prop) :
  Inv w X c → packet_ok p → SendPacket.GetType p = MQTTPingReq →
  m_ConnectStatus c = MQTTStatusConnected → 0 < m_nKeepAliveSeconds c →
  m_bTimerRunning c = false →
  (∀ b p' c', Inv w X c' → resent b p p' →
     m_ConnectStatus c' = (if b then MQTTStatusWaitForPingResp else MQTTStatusConnected) →
     m_bTimerRunning c' = b → Q (b, p') c') →
  wp F (SendPacket_ p) Q c.
Proof using Type.
  intros Hc Hp Ht Es Hka Htr HQ. unfold SendPacket_. wp_steps.
  case_bool_decide as Ed; [congruence|wp_steps].
  pose proof (co_connected _ _ _ (inv_core _ _ _ Hc) Ed) as ([sock Hs] & _).
  apply wp_assert_true; [apply bool_decide_eq_true_2; eauto|].
  wp_step. eapply wp_deref_Some; [exact Hs|]. wp_step.
  destruct (Send_resent sock p (world c) Hp) as (b & p' & u & E & Hr).
  eapply wp_lift_Ok; [exact E|]. wp_steps.
  assert (Hc1 : Inv w X (set_world u c)) by (by eapply Inv_view).
  destruct b; cbn [negb]; wp_steps; [|by apply HQ].
  destruct (resent_same _ _ _ Hr) as (Ety & _). rewrite Ety, Ht.
  unfold keep_alive_sent. wp_steps.
  apply wp_assert_true; [cbn; rewrite Z.gtb_ltb; by apply Z.ltb_lt|]. wp_step.
  apply wp_assert_true; [by apply bool_decide_eq_true_2|]. wp_steps.
  apply wp_assert_true; [cbn; by rewrite Htr|].
  apply start_timer_spec. intros c' Hst Htr' _. wp_steps.
  assert (m_ConnectStatus c' = MQTTStatusWaitForPingResp) as Es' by (by injection Hst).
  apply HQ; [|done|done|done].
  destruct Hc as [[Hh Hb Hsto Hn Hdc Hcc] Hpi].
  destruct c, c'. unfold steady in Hst. cbn in *. simplify_eq.
  split; [split|]; try done.
  - by destruct Hh; split.
  - intros _. destruct (Hcc Ed) as (? & ? & ? & ? & ?). cbn in *. split_and!; try done. auto.
Qed.

(** ** The heap *)

(** The members apart from the heap and the queue. *)
Definition apart c :=
  (m_nMaxPacketSize c, m_nMaxTopicSize c, m_pTopicBuffer c, m_pSocket c, m_ConnectStatus c,
   (m_nKeepAliveSeconds c, m_bTimerRunning c, m_usNextPacketIdentifier c, m_ReceivePacket c,
    m_PacketIdentifierStore c)).

Lemma Inv_heap w X X' c c' :
  Inv w X c → apart c' = apart c → heap_inv X' c' →
  (m_ConnectStatus c = MQTTStatusDisconnected → queue c' = []) → Inv w X' c'.
Proof using Type.
  intros [[Hh Hb Hs Hn Hd Hc] Hp] E Hh' Hq.
  destruct c, c'. unfold apart in E. cbn in *. simplify_eq.
  split; [split|]; try done. intros Es. destruct (Hd Es) as (? & ? & ? & ?). by split_and!; auto.
Qed.

Lemma in_heap_mono (P : CMQTTSendPacket → Prop) c c' l :
  (∀ b, b ∈ l → heap c' !! b = heap c !! b) → Forall (in_heap P c) l → Forall (in_heap P c') l.
Proof using Type.
  intros E. rewrite !Forall_forall. intros Hl b Hb. destruct (Hl b Hb) as (p & ? & ?).
  exists p. by rewrite E.
Qed.

(** A packet the operation holds. *)
Definition held X c a (p : CMQTTSendPacket) : Prop := a ∈ X ∧ heap c !! a = Some p.

Lemma held_not_queued w X c a p : Inv w X c → held X c a p → a ∉ queue c.
Proof using Type.
  intros [[Hh _ _ _ _ _] _] [Ha _] Hq. pose proof (hi_nodup _ _ Hh) as (_ & Hd & _)%NoDup_app.
  by apply (Hd a).
Qed.

Lemma held_ok w X c a p : Inv w X c → held X c a p →
  packet_ok p ∧ retransmitted (SendPacket.GetType p) = true.
Proof using Type. intros [[Hh _ _ _ _ _] _] [_ Ha]. by eapply hi_ok. Qed.

Lemma alloc_spec F w X c p (Q : Z → CMQTTClient → Prop) :
  Inv w X c → packet_ok p → retransmitted (SendPacket.GetType p) = true →
  (∀ a c', Inv w (a :: X) c' → held (a :: X) c' a p → apart c' = apart c →
     queue c' = queue c → world c' = world c → Q a c') → wp F (alloc p) Q c.
Proof using Type.
  intros Hc Hp Ht HQ. unfold alloc. wp_steps.
  pose proof Hc as [[[Hnd Hdom Hfr Hnx Hok Hq] _ _ _ Hd _] _].
  assert (Hnew : ∀ b, b ∈ queue c ++ X → b ≠ heap_next c).
  { intros b Hb ->. apply Hdom, Hfr in Hb. lia. }
  apply HQ; [| |done|done|done]; [|split; [apply elem_of_cons; by left|apply lookup_insert_eq]].
  eapply Inv_heap; [exact Hc|done| |by intros (_ & _ & ? & _)%Hd].
  split; cbn.
  - rewrite <-Permutation_middle. apply NoDup_cons. split; [|done]. intros Hb. by apply (Hnew _ Hb).
  - intros b. rewrite <-Permutation_middle, elem_of_cons, <-Hdom.
    destruct (decide (b = heap_next c)) as [->|].
    + rewrite lookup_insert_eq. split; eauto.
    + rewrite lookup_insert_ne by done. naive_solver.
  - intros b. destruct (decide (b = heap_next c)) as [->|]; [lia|].
    rewrite lookup_insert_ne by done. intros ?%Hfr. lia.
  - lia.
  - intros b p'. destruct (decide (b = heap_next c)) as [->|].
    + rewrite lookup_insert_eq. by intros [= <-].
    + rewrite lookup_insert_ne by done. apply Hok.
  - eapply in_heap_mono; [|exact Hq]. cbn. intros b Hb. apply lookup_insert_ne.
    intros <-. apply (Hnew (heap_next c)); [|done]. apply elem_of_app. by left.
Qed.

Lemma delete_held F w X c a (Q : () → CMQTTClient → Prop) :
  Inv w (a :: X) c →
  (∀ c', Inv w X c' → apart c' = apart c → queue c' = queue c → world c' = world c → Q () c') →
  wp F (delete_packet (Some a)) Q c.
Proof using Type.
  intros Hc HQ. pose proof Hc as [[[Hnd Hdom Hfr Hnx Hok Hq] _ _ _ Hd _] _].
  assert (Hin : a ∈ queue c ++ a :: X) by (apply elem_of_app; right; apply elem_of_cons; by left).
  destruct (proj2 (Hdom a) Hin) as [p Hp].
  eapply delete_packet_Ok; [exact Hp|]. apply HQ; [|done..].
  eapply Inv_heap; [exact Hc|done| |by intros (_ & _ & ? & _)%Hd].
  rewrite <-Permutation_middle in Hnd. apply NoDup_cons in Hnd as [Hni Hnd].
  split; cbn.
  - done.
  - intros b. destruct (decide (b = a)) as [->|].
    + rewrite lookup_delete_eq. split; [by intros [? ?]|by intros ?].
    + rewrite lookup_delete_ne by done. rewrite Hdom, <-Permutation_middle, elem_of_cons. naive_solver.
  - intros b. destruct (decide (b = a)) as [->|]; [rewrite lookup_delete_eq; by intros [? ?]|].
    rewrite lookup_delete_ne by done. apply Hfr.
  - done.
  - intros b p' [_ ?]%lookup_delete_Some. by apply (Hok b).
  - eapply in_heap_mono; [|exact Hq]. cbn. intros b Hb. apply lookup_delete_ne.
    intros <-. apply Hni, elem_of_app. by left.
Qed.

(** A held packet is replaced. *)
Lemma Inv_store w X c a p p' :
  Inv w X c → held X c a p → packet_ok p' → retransmitted (SendPacket.GetType p') = true →
  Inv w X (set_heap (<[a:=p']> (heap c)) c).
Proof using Type.
  intros Hc Ha Hp' Ht. pose proof Hc as [[[Hnd Hdom Hfr Hnx Hok Hq] _ _ _ Hd _] _].
  pose proof (held_not_queued _ _ _ _ _ Hc Ha) as Hni. destruct Ha as [HaX Ha].
  eapply Inv_heap; [exact Hc|done| |by intros (_ & _ & ? & _)%Hd].
  assert (Hsome : ∀ b, is_Some (<[a:=p']> (heap c) !! b) ↔ is_Some (heap c !! b)).
  { intros b. destruct (decide (b = a)) as [->|].
    - rewrite lookup_insert_eq, Ha. split; eauto.
    - by rewrite lookup_insert_ne. }
  split; cbn; [done| | |done| |].
  - intros b. by rewrite Hsome.
  - intros b. rewrite Hsome. apply Hfr.
  - intros b p0 [[<- <-]|[_ ?]]%lookup_insert_Some; [done|by apply (Hok b)].
  - eapply in_heap_mono; [|exact Hq]. cbn. intros b Hb. apply lookup_insert_ne. by intros <-.
Qed.

Lemma at_packet_spec F w X c a p p' m (Q : () → CMQTTClient → Prop) :
  Inv w X c → held X c a p → packet_ok p' → retransmitted (SendPacket.GetType p') = true →
  m p = Ok ((), p') →
  (∀ c', Inv w X c' → held X c' a p' → apart c' = apart c → queue c' = queue c →
     world c' = world c → Q () c') →
  wp F (at_packet a m) Q c.
Proof using Type.
  intros Hc Ha Hp' Ht E HQ. unfold at_packet. wp_step. eapply load_Ok; [apply Ha|].
  wp_step. eapply wp_lift_Ok; [exact E|]. eapply store_Ok; [apply Ha|].
  apply HQ; [by eapply Inv_store|split; [apply Ha|apply lookup_insert_eq]|done..].
Qed.

(** The members [SendPacket] leaves alone, by address. *)
Definition steady_heap c :=
  (m_nMaxPacketSize c, m_nMaxTopicSize c, m_pTopicBuffer c, m_pSocket c, m_ConnectStatus c,
   (m_nKeepAliveSeconds c, m_usNextPacketIdentifier c, m_ReceivePacket c,
    m_RetransmissionQueue c, m_PacketIdentifierStore c, heap_next c)).

Lemma SendPacket_held F w X c a p (Q : bool → CMQTTClient → Prop) :
  Inv w X c → held X c a p →
  (∀ b p' c', Inv w X c' → held X c' a p' → resent b p p' → steady_heap c' = steady_heap c →
     (∀ a', a' ≠ a → heap c' !! a' = heap c !! a') →
     (b = true → m_ConnectStatus c ≠ MQTTStatusDisconnected) → Q b c') →
  wp F (SendPacket a) Q c.
Proof using Type.
  intros Hc Ha HQ. unfold SendPacket. wp_step. eapply load_Ok; [apply Ha|]. wp_step.
  destruct (held_ok _ _ _ _ _ Hc Ha) as [Hok Ht].
  eapply SendPacket__spec; [done|done|by apply retransmitted_client|].
  intros b p' c1 Hc1 Hr Hst Hb. wp_step.
  assert (Ha1 : held X c1 a p) by (destruct Ha; split; [done|]; unfold steady in Hst; congruence).
  eapply store_Ok; [apply Ha1|]. wp_steps. apply (HQ b p').
  - eapply Inv_store; [done|exact Ha1|by eapply resent_ok|].
    by destruct (resent_same _ _ _ Hr) as [-> _].
  - split; [apply Ha|apply lookup_insert_eq].
  - done.
  - unfold steady in Hst. unfold steady_heap. cbn. by injection Hst as -> -> -> -> -> -> -> -> -> -> _ ->.
  - intros a' Hne. cbn. rewrite lookup_insert_ne by done. by injection Hst as _ _ _ _ _ _ _ _ _ _ -> _.
  - done.
Qed.

(** ** The queue *)

Lemma queue_some w X c : Inv w X c → Forall (λ a, is_Some (heap c !! a)) (queue c).
Proof using Type.
  intros [[Hh _ _ _ _ _] _]. apply Forall_forall. intros a Ha. apply (hi_dom _ _ Hh).
  apply elem_of_app. by left.
Qed.

Lemma schedule_spec F w X c a p (Q : () → CMQTTClient → Prop) :
  Inv w (a :: X) c → held (a :: X) c a p → m_ConnectStatus c ≠ MQTTStatusDisconnected →
  is_Some (SendPacket.m_uchQoS p) → is_Some (SendPacket.m_usPacketIdentifier p) →
  (∀ c' t, Inv w X c' → apart c' = apart c →
     t = u32 ((CTimer_GetTicks (world c)).1 + MQTT_RESEND_TIMEOUT) →
     heap c' = <[a:=SendPacket.SetScheduledTime t p]> (heap c) →
     queue c' = insert_due (due c) t a (queue c) →
     pl_view (m_RetransmissionQueue c) ⊆ pl_view (m_RetransmissionQueue c') → Q () c') →
  wp F (schedule a) Q c.
Proof using Type*.
  intros Hc Ha Hst HQoS Hid HQ. unfold schedule. wp_step. apply wp_env. intros t u Et.
  pose proof (held_not_queued _ _ _ _ _ Hc Ha) as Hni.
  pose proof Hc as [[[Hnd Hdom Hfr Hnx Hok Hq] _ _ _ Hd _] _].
  eapply InsertPacketIntoQueue_spec; [apply Ha|exact Hni|exact Hq|].
  intros c' q' -> Hq' Hsub. eapply HQ; [|done|done|by rewrite Et|by rewrite Et|exact Hsub].
  set (p' := SendPacket.SetScheduledTime _ p).
  assert (Hperm : pl_ptrs q' ≡ₚ a :: queue c) by (rewrite Hq'; apply insert_due_perm).
  pose proof (Inv_store _ _ _ _ _ p' Hc Ha) as Hst'.
  destruct (held_ok _ _ _ _ _ Hc Ha) as [Hpok Hty].
  specialize (Hst' Hpok Hty). pose proof Hst' as [[[Hnd' Hdom' Hfr' Hnx' Hok' Hq''] _ _ _ _ _] _].
  eapply Inv_heap; [exact Hc|done| |done].
  assert (Hmid : pl_ptrs q' ++ X ≡ₚ queue c ++ a :: X).
  { rewrite Hperm. cbn. by rewrite Permutation_middle. }
  split; cbn.
  - by rewrite Hmid.
  - intros b. by rewrite (elem_of_Permutation_proper b _ _ Hmid), <-(Hdom' b).
  - exact Hfr'.
  - done.
  - exact Hok'.
  - rewrite Hperm. constructor; [|exact Hq''].
    exists p'. split; [apply lookup_insert_eq|]. split; [by eexists|done].
Qed.

Lemma RemovePacketFromQueue_Inv F w X c us (Q : option Z → CMQTTClient → Prop) :
  Inv w X c →
  (∀ a p c' l1 l2, Inv w (a :: X) c' → held (a :: X) c' a p → queueable p →
     SendPacket.m_usPacketIdentifier p = Some us →
     apart c' = apart c → heap c' = heap c → world c' = world c →
     queue c = l1 ++ a :: l2 → Forall (λ b, ident c b ≠ us) l1 → queue c' = l1 ++ l2 →
     Q (Some a) c') →
  (Forall (λ b, ident c b ≠ us) (queue c) → Q None c) →
  wp F (RemovePacketFromQueue us) Q c.
Proof using Type*.
  intros Hc HQ HN. pose proof Hc as [[[Hnd Hdom Hfr Hnx Hok Hq] _ _ _ Hd _] _].
  apply RemovePacketFromQueue_spec; [done| |done].
  intros l1 a l2 q' Ecq Hbef Hid Hq'.
  assert (Hmid : pl_ptrs q' ++ a :: X ≡ₚ queue c ++ X).
  { rewrite Hq', Ecq, <-!Permutation_middle. cbn. by rewrite Permutation_middle. }
  assert (Ha : in_heap queueable c a).
  { rewrite Forall_forall in Hq. apply Hq. rewrite Ecq. apply elem_of_app. right. apply elem_of_cons. by left. }
  destruct Ha as (p & Hp & Hqp).
  eapply (HQ a p); [| |exact Hqp| |done|done|done|exact Ecq|exact Hbef|exact Hq'].
  - eapply Inv_heap; [exact Hc|done| |].
    + split; cbn; [by rewrite Hmid| |done|done|done|].
      * intros b. by rewrite (elem_of_Permutation_proper b _ _ Hmid), <-(Hdom b).
      * rewrite Ecq in Hq. rewrite Hq'. apply Forall_app in Hq as [Hq1 Hq2].
        apply Forall_cons in Hq2 as [_ Hq2]. by apply Forall_app.
    + intros (_ & _ & Ee & _)%Hd. rewrite Ee in Ecq. by destruct l1.
  - split; [apply elem_of_cons; by left|done].
  - destruct Hqp as (_ & _ & [v Hv]). unfold ident in Hid. rewrite Hp in Hid. cbn in Hid.
    rewrite Hv in Hid |- *. cbn in Hid. by subst.
Qed.

(** ** The identifier store *)

Lemma Inv_stored w X c l' :
  Inv w X c → NoDup (pl_ptrs l') → Forall (λ us, 0 < us < 2^16) (pl_ptrs l') →
  (m_ConnectStatus c = MQTTStatusDisconnected → pl_ptrs l' = []) →
  Inv w X (set_m_PacketIdentifierStore l' c).
Proof using Type.
  intros [[Hh Hb Hs Hn Hd Hc] Hp] Hnd Hall Hdis. split; [split|]; try done.
  - by destruct Hh; split.
  - intros Es. destruct (Hd Es) as (? & ? & ? & ?). by split_and!; auto.
Qed.

(** ** The end of a connection *)

(** What the virtual functions promise: they keep the invariant, whatever the
    operation that calls them holds. *)
Record callbacks_ok (F : fault → Prop) (CB : Callbacks) : Prop := {
  cb_OnConnect w X b c : Inv w X c → wp F (OnConnect CB b) (λ _ c', Inv w X c') c;
  cb_OnDisconnect w X r c : Inv w X c → wp F (OnDisconnect CB r) (λ _ c', Inv w X c') c;
  cb_OnMessage w X t pl r c : Inv w X c → wp F (OnMessage CB t pl r) (λ _ c', Inv w X c') c;
  cb_OnLoop w X c : Inv w X c → wp F (OnLoop CB) (λ _ c', Inv w X c') c
}.

Lemma callbacks_ok_mono (F G : fault → Prop) (CB : Callbacks) :
  callbacks_ok F CB → (∀ e, F e → G e) → callbacks_ok G CB.
Proof using Type.
  intros [Hcon Hdis Hmsg Hloop] HFG. split; intros; (eapply wp_mono_fault; [|exact HFG]); auto.
Qed.

(** The state when [CloseConnection] calls [OnDisconnect]. *)
Definition closed X c c' : Prop :=
  Inv true X c' ∧ m_ConnectStatus c' = MQTTStatusDisconnected.

Lemma CloseConnection_spec F CB w X r c (Q : () → CMQTTClient → Prop) :
  Core w X c →
  (m_ConnectStatus c = MQTTStatusDisconnected → Q () c) →
  (∀ c', m_ConnectStatus c ≠ MQTTStatusDisconnected → closed X c c' →
     wp F (OnDisconnect CB r) Q c') →
  wp F (CloseConnection CB r) Q c.
Proof using Type*.
  intros Hc Hdis HQ. unfold CloseConnection. wp_steps.
  case_bool_decide as Es; [wp_steps; by apply Hdis|].
  pose proof Hc as [[Hnd Hdom Hfr Hnx Hok Hq] Hb Hs Hn Hd Hcc].
  wp_step. apply wp_env. intros [] u _. wp_steps.
  destruct (Hcc Es) as ([sock Hsock] & HbT & Hni & Hnu & _).
  apply CleanupQueue_spec.
  { cbn. by apply NoDup_app in Hnd as (? & _ & _). }
  { cbn. apply Forall_forall. intros a Ha. apply Hdom, elem_of_app. by left. }
  intros q' h' Hq' Hh'. cbn in Hh'. wp_step. apply CleanupPacketIdentifierStore_spec. intros l' Hl'.
  wp_steps. apply wp_assert_true; [apply bool_decide_eq_true_2; cbn; eauto|]. wp_step.
  unfold delete_socket. wp_steps. eapply wp_deref_Some; [exact Hsock|]. wp_step.
  apply wp_env. intros [] u' _. wp_steps.
  apply HQ; [done|]. split; [|done].
  assert (Hmem : ∀ b, b ∈ X → b ∉ queue c).
  { apply NoDup_app in Hnd as (_ & Hd' & _). intros b ? Hbq. by apply (Hd' b). }
  split; [split|]; cbn; try done.
  - split; cbn; rewrite ?Hq'; cbn.
    + by apply NoDup_app in Hnd as (_ & _ & ?).
    + intros b. rewrite Hh'. case_bool_decide as Hbq.
      * split; [by intros [? ?]|]. intros Hx. exfalso. by eapply Hmem.
      * rewrite Hdom, elem_of_app. naive_solver.
    + intros b. rewrite Hh'. case_bool_decide; [by intros [? ?]|apply Hfr].
    + done.
    + intros b p. rewrite Hh'. case_bool_decide; [done|apply Hok].
    + constructor.
  - unfold store_inv. cbn. rewrite Hl'. split; constructor.
Qed.

Context (F : fault → Prop) (CB : Callbacks).
Hypothesis HCB : callbacks_ok F CB.

Lemma CloseConnection_Inv w X r c :
  Core w X c → wp F (CloseConnection CB r) (λ _ c', Inv w X c') c.
Proof using Type*.
  intros Hc. eapply CloseConnection_spec; [exact Hc| |].
  - intros Es. split; [done|]. intros ?. congruence.
  - intros c' Es [Hc' _]. eapply (cb_OnDisconnect _ _ HCB). by apply Inv_weaken.
Qed.

(** ** Packets on the stack *)

Lemma send_local_spec w X c t n fill bs (Q : bool → CMQTTClient → Prop) :
  Inv w X c → 128 ≤ n < 128^3 → client_type t = true → appends fill bs →
  (∀ b c', Inv w X c' → steady c' = steady c →
     (b = true → m_ConnectStatus c ≠ MQTTStatusDisconnected) → Q b c') →
  wp F (send_local t n fill) Q c.
Proof using Type.
  intros Hc Hn Ht Hf HQ. unfold send_local. wp_step. apply make_packet_spec; [done|].
  intros bn p u _ (Hp & Et & Hm & Htr & Hfl & Hok). wp_step.
  destruct (wp_total _ _ _ (Hf p _ Hp)) as ([] & p1 & E & Hp1 & Hmeta).
  eapply wp_lift_Ok; [exact E|]. cbv beta iota. wp_step.
  eapply (SendPacket__spec F w X p1 (set_world u c)); [by eapply Inv_view| | |].
  - destruct Hok as (_ & Hok). injection Hmeta as E1 E2 E3 E4 _ _ _. unfold packet_ok.
    rewrite E2, E3, E4. by eauto.
  - injection Hmeta as E1 _ _ _ _ _ _. unfold SendPacket.GetType. congruence.
  - intros b p' c' Hc' Hr Hst Hb. wp_steps. apply HQ; [done| |done]. by rewrite Hst.
Qed.

Lemma new_packet_gen w X c t n fill (R : bool → CMQTTSendPacket → Prop) (Q : Z → CMQTTClient → Prop) :
  Inv w X c → 128 ≤ n < 128^3 → retransmitted t = true →
  (∀ b p, fresh t n b p → wp no_fault fill (λ _ p', packet_ok p' ∧
     SendPacket.m_Type p' = t ∧ R b p') p) →
  (∀ a p b c', Inv w (a :: X) c' → held (a :: X) c' a p → apart c' = apart c →
     queue c' = queue c → SendPacket.GetType p = t → R b p → Q a c') →
  wp F (new_packet t n fill) Q c.
Proof using Type.
  intros Hc Hn Ht Hf HQ. unfold new_packet. wp_step. apply make_packet_spec; [done|].
  intros b p u _ Hfr. wp_step.
  destruct (wp_total _ _ _ (Hf b p Hfr)) as ([] & p1 & E & Hok & Ety & HR).
  eapply wp_lift_Ok; [exact E|].
  eapply (alloc_spec F w X (set_world u c)); [by eapply Inv_view|done| |].
  - unfold SendPacket.GetType. by rewrite Ety.
  - intros a c' Hc' Ha Hap Hq _. by apply (HQ a p1 b c').
Qed.

(** A fresh packet that is filled by append operations. *)
Definition filled (t : TMQTTPacketType) (n flags : Z) (bs : list Z) (b : bool)
    (p : CMQTTSendPacket) : Prop :=
  repr p (append_spec n (if b then Some [] else None) bs) ∧
  SendPacket.m_nMaxPacketSize p = n ∧ SendPacket.m_Type p = t ∧
  (b = true → SendPacket.m_uchFlags p = flags) ∧ SendPacket.m_nSendTries p = MQTT_SEND_TRIES.

Lemma fresh_filled t n b p fill bs :
  fresh t n b p → appends fill bs →
  wp no_fault fill (λ _ p', packet_ok p' ∧ SendPacket.m_Type p' = t ∧
    filled t n (initial_flags t) bs b p') p.
Proof using Type.
  intros (Hp & Et & Hm & Htr & Hfl & Hok) Hf. eapply wp_mono; [by apply Hf|].
  intros [] p1 [Hp1 Hmeta]. injection Hmeta as E1 E2 E3 E4 _ _ _. rewrite Hm in Hp1.
  destruct Hok as (_ & Hok). unfold packet_ok, filled. rewrite E1, E2, E3, E4. split_and!; eauto; apply Hok.
Qed.

Lemma new_packet_spec w X c t n fill bs (Q : Z → CMQTTClient → Prop) :
  Inv w X c → 128 ≤ n < 128^3 → retransmitted t = true → appends fill bs →
  (∀ a p b c', Inv w (a :: X) c' → held (a :: X) c' a p → apart c' = apart c →
     queue c' = queue c → SendPacket.GetType p = t →
     filled t n (initial_flags t) bs b p → Q a c') →
  wp F (new_packet t n fill) Q c.
Proof using Type.
  intros Hc Hn Ht Hf HQ.
  eapply (new_packet_gen _ _ _ _ _ _ (filled t n (initial_flags t) bs)); try done.
  intros b p Hfr. by apply fresh_filled.
Qed.

(** ** The end of the operations that start a transaction *)

Lemma set_QoS_repr p us q content :
  repr p content → repr (SendPacket.SetPacketIdentifier us (SendPacket.SetQoS q p)) content.
Proof using Type. done. Qed.

Lemma send_and_schedule_Inv w X c a p q us :
  Inv w (a :: X) c → held (a :: X) c a p →
  wp F (send_and_schedule CB a q us) (λ _ c', Inv w X c') c.
Proof using Type*.
  intros Hc Ha. unfold send_and_schedule. wp_step. eapply SendPacket_held; [done|done|].
  intros b p1 c1 Hc1 Ha1 Hr Hst _ Hb. destruct b; cbn [negb].
  - wp_step. destruct (held_ok _ _ _ _ _ Hc1 Ha1) as [Hok Ht].
    eapply at_packet_spec; [exact Hc1|exact Ha1| | |reflexivity|]; [done|done|].
    intros c2 Hc2 Ha2 Hap2 Hq2 Hw2. wp_step.
    eapply at_packet_spec; [exact Hc2|exact Ha2| | |reflexivity|]; [done|done|].
    intros c3 Hc3 Ha3 Hap3 Hq3 Hw3.
    eapply schedule_spec; [exact Hc3|exact Ha3| |by eexists|by eexists|by auto].
    specialize (Hb eq_refl). unfold apart in Hap3, Hap2. unfold steady_heap in Hst. congruence.
  - wp_step. eapply delete_held; [exact Hc1|]. intros c2 Hc2 _ _ _.
    apply CloseConnection_Inv, Hc2.
Qed.
End inv.
