(* ===== verification/MqttClientPackets.v ===== *)
(** The evaluation of the packets a broker sends: what each branch of
    [CMQTTClient::Receiver] does with a packet that has arrived.

    The results are equations: a handler, run in a state in which its packet is
    at the front of the receive buffer, is the given continuation in the state
    in which the packet has been taken from the buffer. *)
From stdpp Require Import base numbers list gmap option strings.
From S2P Require Import Prelude.
From S2P Require Import Circle.
From S2P Require Import MqttSendPacket.
From S2P Require Import MqttSendSpec.
From S2P Require Import MqttReceivePacket.
From S2P Require Import MqttReceiveSpec.
From S2P Require Import MqttReadSpec.
From S2P Require Import MqttClient.
From S2P Require Import MqttQueueSpec.
Import Mqtt Client.
Import (hints) SendPacket ReceivePacket.

Section packets.
Context `{Target, Platform W, !PlatformOk W, PtrList, !PtrListOk}.
Implicit Types (c : CMQTTClient) (content rest : list Z).

(** A packet is complete at the front of the receive buffer, [rest] is what
    has been received behind it. *)
Definition arrived c (t : TMQTTPacketType) (fl : Z) content rest : Prop :=
  complete (m_ReceivePacket c) t fl content rest.

(** The packet has been taken, nothing else has changed. *)
Definition taken c rest c' : Prop :=
  ∃ rp, c' = set_m_ReceivePacket rp c ∧ buffered rp rest ∧ 0 ≤ ReceivePacket.m_nOutPtr rp.

Lemma taken_step c rp rest c' : taken (set_m_ReceivePacket rp c) rest c' → taken c rest c'.
Proof using Type. intros (rp' & -> & Hb). by exists rp'. Qed.

Lemma arrived_ok c t fl content rest :
  arrived c t fl content rest →
  ReceivePacket.header_ok (Some t) fl (Z.of_nat (length content)) = true ∧
  Forall is_byte content.
Proof using Type.
  intros (_ & _ & _ & Hok & _ & hdr & [[_ (_ & _ & Hb & _)] _] & _). split; [done|].
  by apply Forall_app in Hb as [_ [Hb _]%Forall_app].
Qed.

(** The types whose content is a packet identifier. *)
Definition is_ack (t : TMQTTPacketType) : bool :=
  match t with
  | MQTTPubAck | MQTTPubRec | MQTTPubRel | MQTTPubComp | MQTTUnsubAck => true
  | _ => false
  end.

Lemma two_bytes content : length content = 2%nat → Forall is_byte content →
  ∃ b1 b2, content = [b1; b2] ∧ is_byte b1 ∧ is_byte b2.
Proof using Type.
  intros Hl Hb. destruct content as [|b1 [|b2 [|]]]; try done.
  apply Forall_cons in Hb as [Hb1 Hb]. apply Forall_cons in Hb as [Hb2 _]. eauto.
Qed.

Lemma arrived_ack c t fl content rest :
  arrived c t fl content rest → is_ack t = true ∨ t = MQTTConnAck →
  ∃ b1 b2, content = [b1; b2] ∧ is_byte b1 ∧ is_byte b2.
Proof using Type.
  intros [Hok Hb]%arrived_ok Ht. apply two_bytes; [|done].
  unfold ReceivePacket.header_ok in Hok.
  destruct Ht as [Ht | ->]; [destruct t; try done|];
    apply negb_true_iff, orb_false_iff in Hok as [_ Hok];
    apply negb_false_iff, Z.eqb_eq in Hok; lia.
Qed.

Lemma rp_Complete c pre rest :
  reading (m_ReceivePacket c) pre [] rest →
  ∃ c', rp_op ReceivePacket.Complete c = Ok ((), c') ∧ taken c rest c'.
Proof using Type*.
  intros Hr. pose proof Hr as [(_ & Hin & _) _].
  destruct (wp_total _ _ _ (Complete_reading _ _ _ _ Hr)) as ([] & rp & E & Hb & Ho).
  exists (set_m_ReceivePacket rp c). unfold rp_op, zoom. rewrite E. split; [done|].
  exists rp. split_and!; [done|done|]. rewrite Ho, Hin. lia.
Qed.

Lemma take_identifier_run c t fl content rest :
  arrived c t fl content rest → is_ack t = true →
  ∃ us c', take_identifier c = Ok (us, c') ∧ content = be16 us ∧ is_u16 us ∧ taken c rest c'.
Proof using Type*.
  intros Ha Ht. destruct (arrived_ack _ _ _ _ _ Ha (or_introl Ht)) as (b1 & b2 & -> & Hb1 & Hb2).
  destruct Ha as (_ & _ & _ & _ & _ & hdr & Hr & _).
  destruct (wp_total _ _ _ (GetWord_read _ _ _ _ _ _ Hr)) as (v & rp & E & -> & _ & _ & _ & Hr').
  exists (b1 * 256 + b2).
  destruct (rp_Complete (set_m_ReceivePacket rp c) _ _ Hr') as (c' & Ec & Htk).
  exists c'. unfold_ints. split_and!; [|unfold be16; f_equal; [zdiv|f_equal; zdiv]|lia|lia|].
  - unfold take_identifier. erewrite bind_run; [|unfold rp_op, zoom; by rewrite E].
    by erewrite bind_run.
  - by eapply taken_step.
Qed.

Context (CB : Callbacks).

(** ** CONNACK *)

Definition connack_reason (uchReturnCode : Z) : TMQTTDisconnectReason :=
  reason_of_code (if uchReturnCode >? 5 then Z.of_nat (reason_code MQTTDisconnectUnknown)
                  else uchReturnCode).

Lemma HandleConnAck_run c fl content rest :
  arrived c MQTTConnAck fl content rest →
  ∃ f rc c', content = [f; rc] ∧ is_byte f ∧ is_byte rc ∧ taken c rest c' ∧
    HandleConnAck CB c =
      (if bool_decide (m_ConnectStatus c = MQTTStatusConnectPending)
       then if rc =? 0
            then OnConnect CB (Z.odd f) (set_m_ConnectStatus MQTTStatusConnected c')
            else CloseConnection CB (connack_reason rc) c'
       else CloseConnection CB MQTTDisconnectInvalidPacket c').
Proof using Type*.
  intros Ha. destruct (arrived_ack _ _ _ _ _ Ha (or_intror eq_refl)) as (f & rc & -> & Hf & Hrc).
  destruct Ha as (_ & _ & _ & _ & _ & hdr & Hr & _).
  destruct (wp_total _ _ _ (GetByte_read _ _ _ _ _ Hr)) as (v & rp & E & -> & _ & Hr1).
  destruct (wp_total _ _ _ (GetByte_read _ _ _ _ _ Hr1)) as (v & rp2 & E2 & -> & _ & Hr2).
  destruct (rp_Complete (set_m_ReceivePacket rp2 c) _ _ Hr2) as (c' & Ec & Htk).
  exists f, rc, c'. apply taken_step in Htk. split_and!; [done|done|done|done|].
  unfold HandleConnAck. erewrite bind_run; [|unfold rp_op, zoom; by rewrite E].
  erewrite bind_run; [|unfold rp_op, zoom; cbn; by rewrite E2].
  erewrite bind_run; [|exact Ec]. rewrite bind_unfold. cbn [get].
  destruct Htk as (rp' & -> & _). cbn [m_ConnectStatus set_m_ReceivePacket].
  case_bool_decide; cbn [negb]; [|done].
  destruct (Z.eqb_spec rc 0); [|done]. rewrite bind_unfold. cbn [modify].
  do 2 f_equal. unfold MQTT_CONNACK_FLAG_SP. change (Z.shiftl 1 0) with (Z.ones 1).
  rewrite Z.land_ones by done. change (2^1) with 2.
  rewrite Zmod_odd. by destruct (Z.odd f).
Qed.

(** ** PUBLISH *)

Inductive publish_content_read :=
  | PublishBadTopic
  | PublishShort
  | PublishBadIdentifier
  | PublishRead (topic payload : list Z) (us : Z).

(** The content of a PUBLISH packet: the topic, the identifier if the QoS is
    not 0, and the payload. *)
Definition read_publish (qos size : Z) content : publish_content_read :=
  match string_of content size with
  | None | Some ([], _) => PublishBadTopic
  | Some (s, todo) =>
      if qos >? 0 then
        match todo with
        | b1 :: b2 :: payload =>
            if b1 * 256 + b2 =? 0 then PublishBadIdentifier
            else PublishRead s payload (b1 * 256 + b2)
        | _ => PublishShort
        end
      else PublishRead s todo 0
  end.

Lemma read_publish_us qos size content topic payload us :
  Forall is_byte content → read_publish qos size content = PublishRead topic payload us →
  is_u16 us ∧ (0 < qos → us ≠ 0).
Proof using Type.
  intros Hb. unfold read_publish. destruct (string_of content size) as [[[|ch s] todo]|] eqn:Es; [done| |done].
  assert (Htodo : Forall is_byte todo).
  { unfold string_of in Es. destruct content as [|b1 [|b2 t]]; try done.
    destruct (_ && _); [|done]. injection Es as _ <-. apply Forall_drop.
    by apply Forall_cons in Hb as [_ [_ ?]%Forall_cons]. }
  rewrite Z.gtb_ltb. destruct (Z.ltb_spec 0 qos).
  - destruct todo as [|b1 [|b2 pl]]; try done. destruct (Z.eqb_spec (b1 * 256 + b2) 0); [done|].
    intros [= _ _ <-]. apply Forall_cons in Htodo as [H1' [H2' _]%Forall_cons].
    unfold_ints. split; [lia|done].
  - intros [= _ _ <-]. split; [done|lia].
Qed.

(** Only the two buffers have changed. *)
Definition read_buffers c c' : Prop :=
  ∃ rp tb tb', c' = set_m_pTopicBuffer (Some tb') (set_m_ReceivePacket rp c) ∧
    m_pTopicBuffer c = Some tb ∧ length tb' = length tb ∧
    (∃ bs, buffered rp bs) ∧ 0 ≤ ReceivePacket.m_nOutPtr rp.

(** A message is ready for [OnMessage]. *)
Definition ready c (topic : list Z) (i : Z) (payload rest : list Z) : Prop :=
  ∃ pre tb buf, reading (m_ReceivePacket c) pre [] rest ∧
    m_pTopicBuffer c = Some tb ∧ holds tb 0 (topic ++ [0]) ∧
    ReceivePacket.m_pBuffer (m_ReceivePacket c) = Some buf ∧
    rd_bytes buf i (length payload) = Ok payload.

Lemma deliver_run c topic i payload rest b :
  ready c topic i payload rest →
  deliver CB (Some i) (Z.of_nat (length payload)) b c = OnMessage CB (until_nul topic) payload b c.
Proof using Type.
  intros (pre & tb & buf & _ & Htb & Hh & Hbuf & Hrd). unfold deliver.
  rewrite bind_unfold. cbn [get]. rewrite bind_unfold, Htb. cbn [deref].
  erewrite bind_run; [|unfold lift_res; by erewrite c_string_holds].
  erewrite bind_run; [|done]. rewrite bind_unfold, Hbuf. cbn [deref].
  erewrite bind_run; [|unfold lift_res; by rewrite Nat2Z.id, Hrd]. done.
Qed.

Lemma string_of_length content size s todo :
  string_of content size = Some (s, todo) →
  Z.of_nat (length content) = 2 + Z.of_nat (length s) + Z.of_nat (length todo).
Proof using Type.
  destruct content as [|b1 [|b2 t]]; try done. unfold string_of.
  destruct (_ && _); [|done]. intros [= <- <-]. rewrite length_take, length_drop. cbn [length]. lia.
Qed.

Lemma reading_buffered rp pre todo rest :
  reading rp pre todo rest → (∃ bs, buffered rp bs) ∧ 0 ≤ ReceivePacket.m_nOutPtr rp.
Proof using Type. intros [Hb (Ho & _)]. split; [eauto|lia]. Qed.

(** Only the receive packet has changed. *)
Definition read_packet c c' : Prop :=
  ∃ rp, c' = set_m_ReceivePacket rp c ∧ (∃ bs, buffered rp bs) ∧
    0 ≤ ReceivePacket.m_nOutPtr rp.

(** After the topic, the rest of the content is [todo]. *)
Lemma publish_after_topic_run c qos bRetain topic content todo rest pre :
  reading (m_ReceivePacket c) pre todo rest →
  ReceivePacket.m_nRemainingLength (m_ReceivePacket c) = Z.of_nat (length content) →
  Z.of_nat (length content) = 2 + Z.of_nat (length topic) + Z.of_nat (length todo) →
  topic ≠ [] →
  (∃ tb, m_pTopicBuffer c = Some tb ∧ holds tb 0 (topic ++ [0])) →
  let run := publish_after_topic CB qos (Z.of_nat (length topic)) bRetain c in
  let delivers us payload := ∃ c' i, read_packet c c' ∧ ready c' topic i payload rest ∧
    run = publish_received CB qos us (Some i) (Z.of_nat (length payload)) bRetain c' in
  if qos >? 0 then
    match todo with
    | b1 :: b2 :: payload =>
        if b1 * 256 + b2 =? 0
        then ∃ c', read_packet c c' ∧ run = CloseConnection CB MQTTDisconnectInvalidPacket c'
        else delivers (b1 * 256 + b2) payload
    | _ => run = Fault AssertFailed
    end
  else delivers 0 todo.
Proof using Type*.
  intros Hr Hrem Hlc Hne (tb & Htb & Hh) run delivers.
  assert (Hlt : Z.of_nat (length content) < 2^28).
  { destruct Hr as [_ (_ & _ & _ & Hlt)]. by rewrite <-Hrem. }
  assert (Hn : usize (ReceivePacket.GetRemainingLength (m_ReceivePacket c) - (Z.of_nat (length topic) + 2))
               = Z.of_nat (length todo)).
  { unfold ReceivePacket.GetRemainingLength. rewrite Hrem, usize_id by lia. lia. }
  assert (Htl : Z.of_nat (length topic) =? 0 = false).
  { destruct topic; [done|]. apply Z.eqb_neq. cbn [length]. lia. }
  assert (Hdeliver : ∀ rp pre' payload us,
    reading rp pre' payload rest →
    run = (pPayload ← rp_op (ReceivePacket.GetData (Z.of_nat (length payload)));
           publish_received CB qos us pPayload (Z.of_nat (length payload)) bRetain)
            (set_m_ReceivePacket rp c) → delivers us payload).
  { intros rp pre' payload us Hr' ->.
    destruct (wp_total _ _ _ (GetData_read _ _ _ _ (Z.of_nat (length payload)) Hr' ltac:(lia)))
      as (r & rp' & E & -> & _ & (buf & Hbuf & Hrd) & Hr2).
    exists (set_m_ReceivePacket rp' c), (Z.of_nat (length pre')).
    rewrite Nat2Z.id, take_ge in Hrd, Hr2 by lia. rewrite drop_ge in Hr2 by lia.
    split_and!.
    - exists rp'. split; [done|]. by eapply reading_buffered.
    - exists (pre' ++ payload), tb, buf. by split_and!.
    - erewrite bind_run; [done|]. unfold rp_op, zoom. cbn. by rewrite E. }
  unfold run, publish_after_topic in *. rewrite Htl in *. rewrite bind_unfold in *. cbn [get] in *.
  cbv zeta in *. rewrite Hn in *. unfold publish_identifier, MQTT_QOS_AT_MOST_ONCE in *.
  destruct (qos >? 0).
  - destruct todo as [|b1 [|b2 payload]].
    1-2: rewrite bind_unfold, bind_unfold; unfold rp_op, zoom; by rewrite (GetWord_end _ _ _ _ Hr) by (cbn; lia).
    destruct (wp_total _ _ _ (GetWord_read _ _ _ _ _ _ Hr)) as (v & rp & E & -> & _ & _ & _ & Hr').
    assert (Hw : rp_op ReceivePacket.GetWord c = Ok (b1 * 256 + b2, set_m_ReceivePacket rp c)).
    { unfold rp_op, zoom. by rewrite E. }
    assert (Hl2 : Z.of_nat (length (b1 :: b2 :: payload)) <? 2 = false)
      by (apply Z.ltb_ge; cbn [length]; lia).
    assert (Hid : (us ← rp_op ReceivePacket.GetWord;
                   mret (us, negb ((us =? 0) || (Z.of_nat (length (b1 :: b2 :: payload)) <? 2)))) c
                  = Ok ((b1 * 256 + b2, negb (b1 * 256 + b2 =? 0)), set_m_ReceivePacket rp c)).
    { erewrite bind_run; [|exact Hw]. by rewrite Hl2, orb_false_r. }
    destruct (b1 * 256 + b2 =? 0) eqn:E0.
    + erewrite bind_run; [|exact Hid]. eexists. split; [|reflexivity].
      exists rp. split; [done|]. by eapply reading_buffered.
    + eapply (Hdeliver rp _ payload _ Hr'). erewrite bind_run; [|exact Hid]. cbv beta iota.
      cbn [negb]. by replace (Z.of_nat (length (b1 :: b2 :: payload)) - 2)
        with (Z.of_nat (length payload)) by (cbn [length]; lia).
  - eapply (Hdeliver (m_ReceivePacket c) _ todo 0 Hr). erewrite bind_run; [|done].
    cbn [negb]. by destruct c.
Qed.

Lemma HandlePublish_run c fl content rest tb :
  arrived c MQTTPublish fl content rest →
  m_pTopicBuffer c = Some tb → Z.of_nat (length tb) = m_nMaxTopicSize c + 1 →
  m_nMaxTopicSize c < 2^32 - 1 →
  let qos := ReceivePacket.flags_qos fl in
  match read_publish qos (m_nMaxTopicSize c + 1) content with
  | PublishBadTopic =>
      ∃ c', read_buffers c c' ∧ HandlePublish CB c = CloseConnection CB MQTTDisconnectNotSupported c'
  | PublishShort => HandlePublish CB c = Fault AssertFailed
  | PublishBadIdentifier =>
      ∃ c', read_buffers c c' ∧ HandlePublish CB c = CloseConnection CB MQTTDisconnectInvalidPacket c'
  | PublishRead topic payload us =>
      ∃ c' i, read_buffers c c' ∧ ready c' topic i payload rest ∧
        HandlePublish CB c =
          publish_received CB qos us (Some i) (Z.of_nat (length payload)) (Z.odd fl) c'
  end.
Proof using Type*.
  intros Ha Htb Hlen Hmax qos. pose proof (arrived_ok _ _ _ _ _ Ha) as [Hok Hcb].
  destruct Ha as (_ & Hfl & Hrem & _ & _ & hdr & Hr & _).
  assert (H2b : (2 ≤ length content)%nat).
  { cbn in Hok. apply negb_true_iff, orb_false_iff in Hok as [_ Hok].
    apply Z.ltb_ge in Hok. destruct (_ =? 0) in Hok; lia. }
  assert (Hret : negb (Z.land fl MQTT_FLAG_RETAIN =? 0) = Z.odd fl).
  { unfold MQTT_FLAG_RETAIN. change (Z.shiftl 1 0) with (Z.ones 1).
    rewrite Z.land_ones by done. change (2^1) with 2. rewrite Zmod_odd. by destruct (Z.odd fl). }
  assert (Hsize : m_nMaxTopicSize c + 1 ≤ Z.of_nat (length tb)) by lia.
  destruct (wp_total _ _ _ (GetString_read _ _ _ _ tb _ Hr H2b Hsize))
    as ([n tb'] & rp & E & Hl & Hf & Ho & Hs). cbn [fst snd] in *.
  assert (Hbuf : ∃ bs, buffered rp bs).
  { eexists. eapply buffered_frame; [apply Hr|exact Hf]. }
  set (c1 := set_m_pTopicBuffer (Some tb') (set_m_ReceivePacket rp c)).
  assert (Hrb : read_buffers c c1) by (exists rp, tb, tb'; by split_and!).
  assert (Hpre : HandlePublish CB c = publish_after_topic CB qos n (Z.odd fl) c1).
  { unfold HandlePublish. rewrite bind_unfold. cbn [get]. cbv zeta.
    rewrite bind_unfold, Htb. cbn [deref].
    erewrite bind_run; [|unfold rp_op, zoom; rewrite usize_id by lia; by rewrite E].
    cbv beta iota. erewrite bind_run; [|done]. unfold ReceivePacket.GetFlags. by rewrite Hfl, Hret. }
  rewrite Hpre. clear Hpre. unfold read_publish.
  destruct (string_of content (m_nMaxTopicSize c + 1)) as [[s todo]|] eqn:Es.
  2: { subst n. eauto. }
  destruct Hs as (-> & Hh & Hr1). pose proof (string_of_length _ _ _ _ Es) as Hlc.
  destruct s as [|ch s]; [eauto|]. set (topic := ch :: s) in *.
  assert (Hrem1 : ReceivePacket.m_nRemainingLength (m_ReceivePacket c1) = Z.of_nat (length content)).
  { cbn. injection Hf. congruence. }
  pose proof (publish_after_topic_run c1 qos (Z.odd fl) topic content todo rest _
    Hr1 Hrem1 Hlc ltac:(done) (ex_intro _ tb' (conj eq_refl Hh))) as Hrun. cbv zeta in Hrun.
  assert (Hrp : ∀ c', read_packet c1 c' → read_buffers c c').
  { intros c' (rp' & -> & Hb' & Ho'). exists rp', tb, tb'. by split_and!. }
  destruct (qos >? 0).
  - destruct todo as [|b1 [|b2 payload]]; [done..|]. destruct (b1 * 256 + b2 =? 0).
    + destruct Hrun as (c' & Hc' & ->). eauto.
    + destruct Hrun as (c' & i & Hc' & ?). exists c', i. auto.
  - destruct Hrun as (c' & i & Hc' & ?). exists c', i. auto.
Qed.

(** ** SUBACK and PINGRESP *)

(** Only the first return code of a SUBACK is read; further ones stay in the
    buffer, in front of the next packet. *)
Lemma HandleSubAck_run c fl content rest :
  arrived c MQTTSubAck fl content rest →
  ∃ us rc more c', content = be16 us ++ rc :: more ∧ is_u16 us ∧ taken c (more ++ rest) c' ∧
    HandleSubAck CB c =
      (if rc >? MQTT_QOS_EXACTLY_ONCE
       then CloseConnection CB MQTTDisconnectSubscribeError c'
       else acknowledged CB MQTT_QOS_AT_LEAST_ONCE us c').
Proof using Type*.
  intros Ha. pose proof (arrived_ok _ _ _ _ _ Ha) as [Hok Hb].
  assert (Hl : (3 ≤ length content)%nat).
  { cbn in Hok. apply negb_true_iff, orb_false_iff in Hok as [_ Hok%Z.ltb_ge]. lia. }
  destruct content as [|b1 [|b2 [|rc more]]]; cbn in Hl; try lia.
  apply Forall_cons in Hb as [Hb1 Hb]. apply Forall_cons in Hb as [Hb2 _].
  destruct Ha as (_ & _ & _ & _ & _ & hdr & Hr & _).
  destruct (wp_total _ _ _ (GetWord_read _ _ _ _ _ _ Hr)) as (v & rp & E & -> & _ & _ & _ & Hr1).
  destruct (wp_total _ _ _ (GetByte_read _ _ _ _ _ Hr1)) as (v & rp2 & E2 & -> & _ & Hr2).
  destruct (wp_total _ _ _ (Complete_reading _ _ _ _ Hr2)) as ([] & rp3 & E3 & Hb3 & Ho).
  exists (b1 * 256 + b2), rc, more, (set_m_ReceivePacket rp3 c).
  unfold_ints. split_and!; [|lia|lia| |].
  - unfold be16. cbn. f_equal; [zdiv|]. f_equal. zdiv.
  - exists rp3. split_and!; [done|done|]. rewrite Ho.
    destruct Hr2 as [(_ & -> & _) _]. lia.
  - unfold HandleSubAck. erewrite bind_run; [|unfold rp_op, zoom; by rewrite E].
    erewrite bind_run; [|unfold rp_op, zoom; cbn; by rewrite E2].
    erewrite bind_run; [|unfold rp_op, zoom; cbn; by rewrite E3]. by destruct (rc >? _).
Qed.

Lemma HandlePingResp_run c fl content rest :
  arrived c MQTTPingResp fl content rest →
  ∃ c', content = [] ∧ taken c rest c' ∧
    HandlePingResp c =
      (when (m_nKeepAliveSeconds c >? 0) (start_timer (m_nKeepAliveSeconds c * HZ)))
        (set_m_ConnectStatus MQTTStatusConnected c').
Proof using Type*.
  intros Ha. pose proof (arrived_ok _ _ _ _ _ Ha) as [Hok _].
  assert (content = []) as ->.
  { cbn in Hok. apply negb_true_iff, orb_false_iff in Hok as [_ Hok].
    apply negb_false_iff, Z.eqb_eq in Hok. apply length_zero_iff_nil. lia. }
  destruct Ha as (_ & _ & _ & _ & _ & hdr & Hr & _).
  destruct (rp_Complete c _ _ Hr) as (c' & E & Ht).
  exists c'. split_and!; [done|done|]. unfold HandlePingResp.
  erewrite bind_run; [|exact E]. erewrite bind_run; [|done]. erewrite bind_run; [|done].
  by destruct Ht as (rp & -> & _).
Qed.

(** ** Acknowledgements of what the client has sent *)

Lemma HandlePubAck_run c fl content rest :
  arrived c MQTTPubAck fl content rest →
  ∃ us c', content = be16 us ∧ is_u16 us ∧ taken c rest c' ∧
    HandlePubAck CB c = acknowledged CB MQTT_QOS_AT_LEAST_ONCE us c'.
Proof using Type*.
  intros Ha. destruct (take_identifier_run _ _ _ _ _ Ha eq_refl) as (us & c' & E & Hus & H16 & Ht).
  exists us, c'. split_and!; try done. unfold HandlePubAck. by erewrite bind_run.
Qed.

Lemma HandleUnsubAck_run c fl content rest :
  arrived c MQTTUnsubAck fl content rest →
  ∃ us c', content = be16 us ∧ is_u16 us ∧ taken c rest c' ∧
    HandleUnsubAck CB c = acknowledged CB MQTT_QOS_AT_LEAST_ONCE us c'.
Proof using Type*.
  intros Ha. destruct (take_identifier_run _ _ _ _ _ Ha eq_refl) as (us & c' & E & Hus & H16 & Ht).
  exists us, c'. split_and!; try done. unfold HandleUnsubAck. by erewrite bind_run.
Qed.

Lemma HandlePubComp_run c fl content rest :
  arrived c MQTTPubComp fl content rest →
  ∃ us c', content = be16 us ∧ is_u16 us ∧ taken c rest c' ∧
    HandlePubComp CB c = acknowledged CB MQTT_QOS_EXACTLY_ONCE us c'.
Proof using Type*.
  intros Ha. destruct (take_identifier_run _ _ _ _ _ Ha eq_refl) as (us & c' & E & Hus & H16 & Ht).
  exists us, c'. split_and!; try done. unfold HandlePubComp. by erewrite bind_run.
Qed.

Lemma HandlePubRec_run c fl content rest :
  arrived c MQTTPubRec fl content rest →
  ∃ us c', content = be16 us ∧ is_u16 us ∧ taken c rest c' ∧
    HandlePubRec CB c = pubrec_received CB us c'.
Proof using Type*.
  intros Ha. destruct (take_identifier_run _ _ _ _ _ Ha eq_refl) as (us & c' & E & Hus & H16 & Ht).
  exists us, c'. split_and!; try done. unfold HandlePubRec. by erewrite bind_run.
Qed.

Lemma HandlePubRel_run c fl content rest :
  arrived c MQTTPubRel fl content rest →
  ∃ us c', content = be16 us ∧ is_u16 us ∧ taken c rest c' ∧
    HandlePubRel CB c =
      (if us =? 0 then CloseConnection CB MQTTDisconnectInvalidPacket
       else
         b ← send_ack MQTTPubComp us;
         if negb b then CloseConnection CB MQTTDisconnectSendFailed
         else RemovePacketIdentifierFromStore us;; mret ()) c'.
Proof using Type*.
  intros Ha. destruct (take_identifier_run _ _ _ _ _ Ha eq_refl) as (us & c' & E & Hus & H16 & Ht).
  exists us, c'. split_and!; try done. unfold HandlePubRel. by erewrite bind_run.
Qed.
End packets.
