(* ===== verification/MqttClientSafety.v ===== *)
(** Every operation of [CMQTTClient] keeps its invariant.

    The virtual functions are arbitrary, as long as they keep the invariant
    themselves; and an operation ends in a fault only if a virtual function
    does, apart from the assertions of the receiver that a broker or a virtual
    function can provoke.  In particular no operation accesses memory outside
    of an object, reads a member that is not initialised, deletes a packet
    twice or loses one. *)
From stdpp Require Import base numbers list gmap option strings.
From S2P Require Import Prelude.
From S2P Require Import Circle.
From S2P Require Import MqttSendPacket.
From S2P Require Import MqttSendSpec.
From S2P Require Import MqttReceivePacket.
From S2P Require Import MqttReceiveSpec.
From S2P Require Import MqttReadSpec.
From S2P Require Import MqttClient.
From S2P Require Import MqttQueueSpec.
From S2P Require Import MqttClientInv.
From S2P Require Import MqttClientPackets.
Import Mqtt Client.
Import (hints) SendPacket ReceivePacket.

Section safety.
Context `{Target, Platform W, !PlatformOk W, PtrList, !PtrListOk}.
Context (bTopic bReceive : bool).
Implicit Types (c : CMQTTClient) (a : Z) (X : list Z) (w : bool).

Abbreviation Inv := (Inv bTopic bReceive).
Abbreviation queue c := (pl_ptrs (m_RetransmissionQueue c)).
Abbreviation stored c := (pl_ptrs (m_PacketIdentifierStore c)).

Lemma Inv_Core w X c : Inv w X c → Core bTopic bReceive w X c.
Proof using Type. by intros []. Qed.
Hint Resolve Inv_Core : circle.

(** ** The receive buffer *)

Lemma buffered_bReceive w X c rp bs :
  Inv w X c → m_ReceivePacket c = rp → buffered rp bs → bReceive = true.
Proof using Type.
  intros [[_ (_ & _ & _ & _ & Hr) _ _ _ _] _] <- (_ & _ & _ & _ & buf & Hb & _).
  destruct bReceive; [done|]. by rewrite Hr in Hb.
Qed.

Lemma Inv_buffers w X c rp tb :
  Inv w X c → bReceive = true → (∃ bs, buffered rp bs) → 0 ≤ ReceivePacket.m_nOutPtr rp →
  (tb = m_pTopicBuffer c ∨
   bTopic = true ∧ ∃ t, tb = Some t ∧ Z.of_nat (length t) = m_nMaxTopicSize c + 1) →
  Inv w X (set_m_pTopicBuffer tb (set_m_ReceivePacket rp c)).
Proof using Type.
  intros [[Hh (Hs1 & Hs2 & Ht & _ & _) Hs Hn Hd Hc] Hp] HbR Hrp Ho Htb.
  split; [split|]; try done.
  - by destruct Hh; split.
  - unfold buffer_inv. cbn. split_and!; try apply Hs1; try apply Hs2; [|done|by rewrite HbR].
    destruct Htb as [-> | (-> & t & -> & Hl)]; [done|]. eauto.
Qed.

Lemma Inv_rp w X c rp :
  Inv w X c → bReceive = true → (∃ bs, buffered rp bs) → 0 ≤ ReceivePacket.m_nOutPtr rp →
  Inv w X (set_m_ReceivePacket rp c).
Proof using Type.
  intros Hc HbR Hrp Ho. pose proof (Inv_buffers w X c rp (m_pTopicBuffer c) Hc HbR Hrp Ho) as Hi.
  by apply Hi; left.
Qed.

Lemma arrived_bReceive w X c t fl content rest :
  Inv w X c → arrived c t fl content rest → bReceive = true.
Proof using Type.
  intros Hc (_ & _ & _ & _ & _ & hdr & [Hb _] & _). by eapply buffered_bReceive.
Qed.

Lemma taken_Inv w X c t fl content rest rest' c' :
  Inv w X c → arrived c t fl content rest → taken c rest' c' → Inv w X c'.
Proof using Type.
  intros Hc Ha (rp & -> & Hb & Ho). apply Inv_rp; [done|by eapply arrived_bReceive|eauto|done].
Qed.

Lemma read_buffers_Inv w X c t fl content rest c' :
  Inv w X c → arrived c t fl content rest → read_buffers c c' → Inv w X c'.
Proof using Type.
  intros Hc Ha (rp & tb & tb' & -> & Htb & Hl & Hb & Ho).
  pose proof Hc as [[_ (_ & _ & Ht & _) _ _ _ _] _]. rewrite Htb in Ht.
  apply Inv_buffers; [done|by eapply arrived_bReceive|done|done|].
  right. destruct bTopic; [|done]. destruct Ht as (t0 & [= <-] & Ht).
  split; [done|]. exists tb'. by rewrite Hl.
Qed.

Context (F : fault → Prop) (CB : Callbacks).
Hypothesis HCB : callbacks_ok bTopic bReceive F CB.
Hypothesis F_assert : F AssertFailed.

Lemma rp_Complete_Inv w X c :
  Inv w X c → bReceive = true →
  wp F (rp_op ReceivePacket.Complete) (λ _ c', Inv w X c') c.
Proof using F_assert.
  intros Hc HbR. pose proof Hc as [[_ (_ & _ & _ & Ho & Hr) _ _ _ _] _].
  rewrite HbR in Hr. destruct Hr as [bs Hb]. unfold rp_op. apply wp_zoom.
  apply (wp_mono_fault (eq AssertFailed)); [|by intros ? <-].
  eapply wp_mono; [by eapply Complete_any|]. intros [] rp [Hb' Ho'].
  apply Inv_rp; [done..|]. rewrite Ho'. destruct Hb as (_ & -> & _). lia.
Qed.

(** ** Messages *)

Lemma ready_other c c' topic i payload rest :
  ready c topic i payload rest → m_ReceivePacket c' = m_ReceivePacket c →
  m_pTopicBuffer c' = m_pTopicBuffer c → ready c' topic i payload rest.
Proof using Type. unfold ready. by intros ? -> ->. Qed.

Lemma deliver_Inv w X c topic i payload rest b :
  Inv w X c → ready c topic i payload rest →
  wp F (deliver CB (Some i) (Z.of_nat (length payload)) b) (λ _ c', Inv w X c') c.
Proof using HCB.
  intros Hc Hr. unfold wp. rewrite (deliver_run CB c topic i payload rest b Hr).
  by apply (cb_OnMessage _ _ _ _ HCB).
Qed.

Lemma send_ack_spec w X c t us (Q : bool → CMQTTClient → Prop) :
  Inv w X c → client_type t = true → is_u16 us →
  (∀ b c', Inv w X c' → steady c' = steady c →
     (b = true → m_ConnectStatus c ≠ MQTTStatusDisconnected) → Q b c') →
  wp F (send_ack t us) Q c.
Proof using Type.
  intros Hc Ht Hus HQ. unfold send_ack, default_packet_size.
  by eapply send_local_spec; [..|exact HQ]; [exact Hc|lia|exact Ht|apply AppendWord_appends].
Qed.

Lemma publish_received_Inv w X c qos us topic i payload rest b :
  Inv w X c → bReceive = true → is_u16 us → (qos ≠ 0 → us ≠ 0) → ready c topic i payload rest →
  wp F (publish_received CB qos us (Some i) (Z.of_nat (length payload)) b) (λ _ c', Inv w X c') c.
Proof using Type*.
  intros Hc HbR Hus Hnz Hr. unfold publish_received.
  unfold MQTT_QOS_AT_MOST_ONCE, MQTT_QOS_AT_LEAST_ONCE, MQTT_QOS_EXACTLY_ONCE.
  assert (Hfin : ∀ c1, Inv w X c1 → ready c1 topic i payload rest →
    wp F (deliver CB (Some i) (Z.of_nat (length payload)) b;; rp_op ReceivePacket.Complete)
      (λ _ c', Inv w X c') c1).
  { intros c1 Hc1 Hr1. wp_step. eapply wp_mono; [by eapply deliver_Inv|].
    intros [] c2 Hc2. by apply rp_Complete_Inv. }
  assert (Hfail : ∀ c1, Inv w X c1 →
    wp F (rp_op ReceivePacket.Complete;; CloseConnection CB MQTTDisconnectSendFailed)
      (λ _ c', Inv w X c') c1).
  { intros c1 Hc1. wp_step. eapply wp_mono; [by apply rp_Complete_Inv|].
    intros [] c2 Hc2. eapply CloseConnection_Inv; eauto with circle. }
  destruct (Z.eqb_spec qos 0); [by apply Hfin|].
  destruct (Z.eqb_spec qos 1).
  { wp_step. apply (send_ack_spec w X); [done..|]. intros bs c1 Hc1 Hst _.
    assert (Hr1 : ready c1 topic i payload rest)
      by (eapply ready_other; [exact Hr| |]; unfold steady in Hst; congruence).
    destruct bs; cbn [negb]; auto. }
  destruct (Z.eqb_spec qos 2); [|by wp_steps].
  wp_step. apply (send_ack_spec w X); [done..|]. intros bs c1 Hc1 Hst Hcon.
  assert (Hr1 : ready c1 topic i payload rest)
    by (eapply ready_other; [exact Hr| |]; unfold steady in Hst; congruence).
  destruct bs; cbn [negb]; [|by apply Hfail].
  wp_step. apply IsPacketIdentifierInStore_spec. wp_step. apply wp_when.
  - rewrite negb_true_iff, bool_decide_eq_false. intros Hni. wp_step.
    apply InsertPacketIdentifierIntoStore_spec. intros l' Hl'.
    eapply wp_mono; [eapply (deliver_Inv w X); [|eapply ready_other; [exact Hr1|done..]]|].
    + pose proof Hc1 as [[_ _ [Hnd Hall] _ _ _] _].
      apply Inv_stored; [done|rewrite Hl'; by constructor| |].
      * rewrite Hl'. constructor; [|done]. unfold is_u16 in Hus. specialize (Hnz ltac:(done)). lia.
      * intros Ed. exfalso. apply (Hcon eq_refl). unfold steady in Hst. congruence.
    + intros [] c2 Hc2. by apply rp_Complete_Inv.
  - intros _. by apply rp_Complete_Inv.
Qed.

(** ** Acknowledgements *)

Lemma has_QoS_spec X c a p q (Q : bool → CMQTTClient → Prop) :
  held X c a p → queueable p →
  Q (bool_decide (SendPacket.m_uchQoS p = Some q)) c → wp F (has_QoS (Some a) q) Q c.
Proof using Type.
  intros Ha (_ & [v Hv] & _) HQ. unfold has_QoS. wp_step. eapply load_Ok; [apply Ha|].
  wp_step. eapply wp_lift_Ok; [unfold SendPacket.GetQoS; by rewrite Hv|]. wp_steps.
  rewrite Hv in HQ. destruct (Z.eqb_spec v q) as [->|Hne].
  - by rewrite bool_decide_eq_true_2 in HQ.
  - rewrite bool_decide_eq_false_2 in HQ; [done|congruence].
Qed.

Lemma acknowledged_Inv w X c q us :
  Inv w X c → wp F (acknowledged CB q us) (λ _ c', Inv w X c') c.
Proof using Type*.
  intros Hc. unfold acknowledged. wp_step.
  eapply RemovePacketFromQueue_Inv; [exact Hc| |].
  - intros a p c1 l1 l2 Hc1 Ha1 Hqp _ _ _ _ _ _ _. wp_step.
    eapply has_QoS_spec; [exact Ha1|exact Hqp|]. wp_step.
    apply wp_when; intros _.
    + eapply wp_mono; [eapply CloseConnection_Inv; eauto with circle|].
      intros [] c2 Hc2. by eapply delete_held.
    + by eapply delete_held.
  - intros _. wp_steps. unfold has_QoS. wp_steps. apply wp_when; intros _; [|by wp_steps].
    eapply wp_mono; [eapply CloseConnection_Inv; eauto with circle|]. intros [] c2 Hc2. by wp_steps.
Qed.

Lemma pubrec_received_Inv w X c us :
  Inv w X c → is_u16 us → wp F (pubrec_received CB us) (λ _ c', Inv w X c') c.
Proof using Type*.
  intros Hc Hus. unfold pubrec_received, default_packet_size. wp_step.
  eapply RemovePacketFromQueue_Inv; [exact Hc| |].
  - intros a p c1 l1 l2 Hc1 Ha1 Hqp _ _ _ _ _ _ _. wp_step.
    eapply has_QoS_spec; [exact Ha1|exact Hqp|]. wp_step.
    eapply delete_held; [exact Hc1|]. intros c2 Hc2 _ _ _.
    apply wp_if; intros _; [eapply CloseConnection_Inv; eauto with circle|]. wp_step.
    eapply new_packet_spec; [exact Hc2|lia|done|by apply AppendWord_appends|].
    intros a' p' b c3 Hc3 Ha3 _ _ _ _. by eapply send_and_schedule_Inv.
  - intros _. wp_steps. unfold has_QoS. wp_steps. unfold delete_packet. wp_steps. cbn [negb]. eapply CloseConnection_Inv; eauto with circle.
Qed.

(** ** The handlers *)

Lemma Inv_status_connected w X c :
  Inv w X c → m_ConnectStatus c ≠ MQTTStatusDisconnected →
  Inv w X (set_m_ConnectStatus MQTTStatusConnected c).
Proof using Type.
  intros [[Hh Hb Hs Hn Hd Hc] Hp] Hst. destruct (Hc Hst) as (Hsk & HbT & Hnx & _ & Ht).
  split; [split|]; try done.
  - by destruct Hh; split.
  - intros _. split_and!; try done. intros Htr. split; [by apply Ht|]. by left.
Qed.

Lemma start_timer_Inv w X c :
  Inv w X c → m_ConnectStatus c = MQTTStatusConnected → 0 < m_nKeepAliveSeconds c →
  wp F (start_timer (m_nKeepAliveSeconds c * HZ)) (λ _ c', Inv w X c') c.
Proof using Type.
  intros Hc Hst Hka. apply start_timer_spec. intros c' Hs _ _.
  eapply Inv_steady; [exact Hc|done|congruence|]. by intros _.
Qed.

Lemma wp_eq {A} (m : M CMQTTClient A) (m' : M CMQTTClient A) (Q : A → CMQTTClient → Prop) c c' :
  m c = m' c' → wp F m' Q c' → wp F m Q c.
Proof using Type. unfold wp. by intros ->. Qed.

Lemma HandleConnAck_Inv w X c fl content rest :
  Inv w X c → arrived c MQTTConnAck fl content rest →
  wp F (HandleConnAck CB) (λ _ c', Inv w X c') c.
Proof using Type*.
  intros Hc Ha. destruct (HandleConnAck_run CB _ _ _ _ Ha) as (f & rc & c' & _ & _ & _ & Ht & E).
  pose proof (taken_Inv _ _ _ _ _ _ _ _ _ Hc Ha Ht) as Hc'. unfold wp. rewrite E.
  case_bool_decide as Hst.
  - destruct (rc =? 0).
    + apply (cb_OnConnect _ _ _ _ HCB). apply Inv_status_connected; [done|].
      destruct Ht as (rp & -> & _). cbn. congruence.
    + apply (CloseConnection_Inv _ _ _ _ HCB); auto with circle.
  - apply (CloseConnection_Inv _ _ _ _ HCB); auto with circle.
Qed.

Lemma flags_qos_bound fl : 0 ≤ ReceivePacket.flags_qos fl < 4.
Proof using Type.
  unfold ReceivePacket.flags_qos, MQTT_FLAG_QOS__MASK, MQTT_FLAG_QOS__SHIFT.
  rewrite Z.shiftr_land. change (Z.shiftr (Z.shiftl 3 1) 1) with (Z.ones 2).
  rewrite Z.land_ones by done. by apply Z.mod_pos_bound.
Qed.

Lemma HandlePublish_Inv w X c fl content rest :
  Inv w X c → arrived c MQTTPublish fl content rest →
  m_ConnectStatus c ≠ MQTTStatusDisconnected →
  wp F (HandlePublish CB) (λ _ c', Inv w X c') c.
Proof using Type*.
  intros Hc Ha Hst. pose proof Hc as [[_ (Hmt & _ & Htb & _) _ _ _ Hcc] _].
  destruct (Hcc Hst) as (_ & HbT & _). rewrite HbT in Htb. destruct Htb as (tb & Htb & Hl).
  pose proof (arrived_bReceive _ _ _ _ _ _ _ Hc Ha) as HbR.
  pose proof (arrived_ok _ _ _ _ _ Ha) as [_ Hbytes].
  pose proof (HandlePublish_run CB _ _ _ _ _ Ha Htb Hl ltac:(lia)) as Hrun. cbv zeta in Hrun.
  unfold wp. destruct (read_publish _ _ content) as [| | |topic payload us] eqn:Er.
  - destruct Hrun as (c' & Hrb & ->).
    apply (CloseConnection_Inv _ _ _ _ HCB), Inv_Core. by eapply read_buffers_Inv.
  - by rewrite Hrun.
  - destruct Hrun as (c' & Hrb & ->).
    apply (CloseConnection_Inv _ _ _ _ HCB), Inv_Core. by eapply read_buffers_Inv.
  - destruct Hrun as (c' & i & Hrb & Hrd & ->).
    destruct (read_publish_us _ _ _ _ _ _ Hbytes Er) as [Hus Hnz].
    eapply publish_received_Inv; [by eapply read_buffers_Inv|done|done| |exact Hrd].
    intros Hq. apply Hnz. pose proof (flags_qos_bound fl). lia.
Qed.

Lemma HandlePubRel_Inv w X c fl content rest :
  Inv w X c → arrived c MQTTPubRel fl content rest →
  wp F (HandlePubRel CB) (λ _ c', Inv w X c') c.
Proof using Type*.
  intros Hc Ha. destruct (HandlePubRel_run CB _ _ _ _ Ha) as (us & c' & _ & Hus & Ht & E).
  pose proof (taken_Inv _ _ _ _ _ _ _ _ _ Hc Ha Ht) as Hc'.
  eapply wp_eq; [exact E|]. clear E.
  apply (wp_if (S:=CMQTTClient)); intros _; [eapply CloseConnection_Inv; eauto with circle|].
  wp_step. apply (send_ack_spec w X); [done..|]. intros b c1 Hc1 _ _.
  destruct b; cbn [negb]; [|eapply CloseConnection_Inv; eauto with circle].
  wp_step. apply RemovePacketIdentifierFromStore_spec; [|intros _; by wp_steps].
  intros l1 l2 l' Es Hni Hl'. wp_steps. pose proof Hc1 as [[_ _ [Hnd Hall] _ Hd _] _].
  rewrite Es in Hnd, Hall. apply Inv_stored; rewrite ?Hl'; [done| | |].
  - apply NoDup_app in Hnd as (Hn1 & Hd1 & [_ Hn2]%NoDup_cons). apply NoDup_app. split_and!; try done.
    intros x Hx Hx2. apply (Hd1 _ Hx), elem_of_cons. by right.
  - apply Forall_app in Hall as [Ha1 [_ Ha2]%Forall_cons]. by apply Forall_app.
  - intros (_ & _ & _ & Hs)%Hd. rewrite Es in Hs. by destruct l1.
Qed.

Lemma handle_packet_Inv w X c t fl content rest :
  Inv w X c → arrived c t fl content rest → m_ConnectStatus c ≠ MQTTStatusDisconnected →
  wp F (handle_packet CB) (λ _ c', Inv w X c') c.
Proof using Type*.
  intros Hc Ha Hst. unfold handle_packet. wp_step. wp_step.
  pose proof Ha as (Et & _). unfold ReceivePacket.GetType. rewrite Et.
  pose proof (arrived_ok _ _ _ _ _ Ha) as [Hok _].
  destruct t; cbn in Hok; try done.
  - by eapply HandleConnAck_Inv.
  - by eapply HandlePublish_Inv.
  - destruct (HandlePubAck_run CB _ _ _ _ Ha) as (us & c' & _ & Hus & Ht & E).
    eapply wp_eq; [exact E|]. by eapply acknowledged_Inv, taken_Inv.
  - destruct (HandlePubRec_run CB _ _ _ _ Ha) as (us & c' & _ & Hus & Ht & E).
    eapply wp_eq; [exact E|]. eapply pubrec_received_Inv; [by eapply taken_Inv|done].
  - by eapply HandlePubRel_Inv.
  - destruct (HandlePubComp_run CB _ _ _ _ Ha) as (us & c' & _ & Hus & Ht & E).
    eapply wp_eq; [exact E|]. by eapply acknowledged_Inv, taken_Inv.
  - destruct (HandleSubAck_run CB _ _ _ _ Ha) as (us & rc & more & c' & _ & Hus & Ht & E).
    pose proof (taken_Inv _ _ _ _ _ _ _ _ _ Hc Ha Ht) as Hc'.
    unfold wp. rewrite E. destruct (rc >? _).
    + apply (CloseConnection_Inv _ _ _ _ HCB); auto with circle.
    + by apply acknowledged_Inv.
  - destruct (HandleUnsubAck_run CB _ _ _ _ Ha) as (us & c' & _ & Hus & Ht & E).
    eapply wp_eq; [exact E|]. by eapply acknowledged_Inv, taken_Inv.
  - destruct (HandlePingResp_run CB _ _ _ _ Ha) as (c' & _ & Ht & E).
    pose proof (taken_Inv _ _ _ _ _ _ _ _ _ Hc Ha Ht) as Hc'.
    assert (Hs' : m_ConnectStatus c' ≠ MQTTStatusDisconnected) by (by destruct Ht as (rp & -> & _)).
    assert (Hk' : m_nKeepAliveSeconds c' = m_nKeepAliveSeconds c) by (by destruct Ht as (rp & -> & _)).
    eapply wp_eq; [exact E|]. rewrite <-Hk'. pose proof (Inv_status_connected _ _ _ Hc' Hs') as Hc2.
    apply wp_when; intros Hka; [|done].
    rewrite Z.gtb_ltb, Z.ltb_lt in Hka. by apply (start_timer_Inv w X _ Hc2).
Qed.

(** ** The receiver *)

Lemma receive_packet_spec w X c sock (Q : ReceivePacket.TMQTTReceiveStatus → CMQTTClient → Prop) :
  Inv w X c →
  (∀ st c', Inv w X c' → m_ConnectStatus c' = m_ConnectStatus c →
     st ≠ ReceivePacket.MQTTReceiveUnknown →
     (st = ReceivePacket.MQTTReceivePacketOK → ∃ t fl content rest, arrived c' t fl content rest) →
     Q st c') →
  wp F (receive_packet sock) Q c.
Proof using Type*.
  intros Hc HQ. unfold receive_packet. apply wp_zoom.
  pose proof Hc as [[_ (_ & _ & _ & Ho & Hr) _ _ _ _] _].
  assert (Hsame : set_m_ReceivePacket (m_ReceivePacket c) (set_world (world c) c) = c) by (by destruct c).
  assert (Hcase : (bReceive = true ∧ ∃ bs, buffered (m_ReceivePacket c) bs) ∨
                  ReceivePacket.m_pBuffer (m_ReceivePacket c) = None).
  { clear -Hr. destruct bReceive; auto. }
  clear Hr. destruct Hcase as [[HbR Hr] | Hr].
  2: { unfold ReceivePacket.Receive. wp_steps. rewrite Hr. wp_steps. rewrite Hsame. by apply HQ. }
  destruct Hr as [bs Hb]. apply wp_no_fault.
  eapply wp_mono; [eapply wp_conj; [by eapply Receive_received|by apply Receive_out]|].
  intros st [rp u]. unfold received. cbn [fst snd]. intros [Hrec Ho']. revert Hrec.
  destruct (_ >? _).
  { intros [-> [= -> ->]]. rewrite Hsame. by apply HQ. }
  destruct (CNetSocket_Receive _ _ _ _) as [[r data] u'] eqn:Er. intros [-> Hst].
  assert (Hinv : (∃ bs', buffered rp bs') → Inv w X (set_m_ReceivePacket rp (set_world u' c))).
  { intros Hb'. apply Inv_rp; [|done..]. by eapply Inv_view. }
  destruct (r <? 0).
  { destruct Hst as [-> Hb']. apply HQ; [eauto|done..]. }
  destruct Hst as [Hb' Hp]. unfold parsed in Hp. destruct (front_of _) as [| |t fl hdr rem].
  - subst st. apply HQ; [eauto|done..].
  - subst st. apply HQ; [eauto|done..].
  - destruct Hp as (-> & _ & Hcomp). apply HQ; [eauto|done|done|]. intros _. do 4 eexists. exact Hcomp.
Qed.

(** A round of the receiver that takes a packet, and at most [n] such rounds. *)
Definition next_packet c c' : Prop :=
  ∃ sock c1, m_pSocket c = Some sock ∧
    receive_packet sock c = Ok (ReceivePacket.MQTTReceivePacketOK, c1) ∧ handle_packet CB c1 = Ok ((), c').
Inductive fewer_packets : nat → CMQTTClient → Prop :=
  | fewer n c : (∀ c', next_packet c c' → fewer_packets n c') → fewer_packets (S n) c.

Lemma fewer_mono n m c : fewer_packets n c → (n ≤ m)%nat → fewer_packets m c.
Proof using Type.
  intros Hn. revert m. induction Hn as [n c _ IH]. intros [|m] Hm; [lia|]. constructor. intros c' Hc'.
  apply IH; [done|lia].
Qed.

Lemma next_packet_functional c c1 c2 : next_packet c c1 → next_packet c c2 → c1 = c2.
Proof using Type.
  intros (s1 & d1 & E1 & E2 & E3) (s2 & d2 & F1 & F2 & F3). rewrite E1 in F1. injection F1 as <-.
  rewrite E2 in F2. injection F2 as <-. rewrite E3 in F3. by injection F3.
Qed.

(** A broker that does not send for ever. *)
Lemma Acc_fewer c : Acc (λ c' c, next_packet c c') c → ∃ n, fewer_packets n c.
Proof using Type.
  induction 1 as [c _ IH]. assert ((∃ c', next_packet c c') ∨ ∀ c', ¬ next_packet c c') as [[c' Hc']|Hno].
  { destruct (m_pSocket c) as [sock|] eqn:Es; [|right; intros c' (? & ? & ? & _); congruence].
    destruct (receive_packet sock c) as [[st c1]|] eqn:Er; [|right; intros c' (? & ? & ? & ? & _); congruence].
    destruct (handle_packet CB c1) as [[[] c2]|] eqn:Eh.
    - destruct (decide (st = ReceivePacket.MQTTReceivePacketOK)) as [->|].
      + left. exists c2, sock, c1. done.
      + right. intros c' (? & ? & ? & ? & _). congruence.
    - right. intros c' (? & ? & ? & ? & ?). congruence. }
  - destruct (IH c' Hc') as [n Hn]. exists (S n). constructor. intros c2 Hc2.
    by rewrite (next_packet_functional _ _ _ Hc2 Hc').
  - exists 1%nat. constructor. intros c' Hc'. by destruct (Hno c').
Qed.

Lemma fewer_Acc n c : fewer_packets n c → Acc (λ c' c, next_packet c c') c.
Proof using Type. induction 1 as [n c _ IH]. constructor. exact IH. Qed.

Lemma Receiver_fewer n c x : Receiver CB n c = Ok x → fewer_packets n c.
Proof using Type.
  revert c. induction n as [|n IH]; intros c E; [done|]. constructor. intros c' (sock & c1 & Es & Er & Eh).
  apply IH. cbn [Receiver] in E. rewrite bind_unfold in E. cbn [get] in E. rewrite Es in E.
  by rewrite (bind_run _ _ _ _ _ Er), (bind_run _ _ _ _ _ Eh) in E.
Qed.

Lemma Receiver_Inv fuel w X c :
  F OutOfFuel ∨ fewer_packets fuel c → Inv w X c → wp F (Receiver CB fuel) (λ _ c', Inv w X c') c.
Proof using Type*.
  revert c. induction fuel as [|fuel IH]; intros c Hf Hc; cbn [Receiver].
  { apply wp_fail. destruct Hf as [|Hf]; [done|inversion Hf]. }
  wp_steps. destruct (m_pSocket c) as [sock|] eqn:Es; [|by wp_steps].
  assert (Hst : m_ConnectStatus c ≠ MQTTStatusDisconnected).
  { intros E. pose proof Hc as [[_ _ _ _ Hd _] _]. destruct (Hd E) as (E' & _). congruence. }
  wp_step. eapply wp_mono.
  { apply wp_with_run. apply (receive_packet_spec w X _ _ (λ st c', Inv w X c' ∧ m_ConnectStatus c' = m_ConnectStatus c ∧
     st ≠ ReceivePacket.MQTTReceiveUnknown ∧
     (st = ReceivePacket.MQTTReceivePacketOK → ∃ t fl content rest, arrived c' t fl content rest)) Hc). auto. }
  intros st c1 (Er & Hc1 & Hst1 & Hun & Hok).
  destruct st; try by (eapply CloseConnection_Inv; eauto with circle).
  - by wp_steps.
  - destruct (Hok eq_refl) as (t & fl & content & rest & Ha). wp_step.
    eapply wp_mono; [eapply wp_with_run, handle_packet_Inv; [done|exact Ha|congruence]|].
    intros [] c2 [Eh Hc2]. apply IH; [|done]. destruct Hf as [Hf|Hf]; [by left|right].
    inversion Hf as [? ? Hn]. apply Hn. by exists sock, c1.
  - done.
Qed.
End safety.
