(* ===== verification/MqttClientTask.v ===== *)
(** The rest of the client task: retransmission, keep alive, and the round of
    the loop of [CMQTTClient::Run]. *)
From stdpp Require Import base numbers list gmap option strings.
From S2P Require Import Prelude.
From S2P Require Import Circle.
From S2P Require Import MqttSendPacket.
From S2P Require Import MqttSendSpec.
From S2P Require Import MqttReceivePacket.
From S2P Require Import MqttReceiveSpec.
From S2P Require Import MqttReadSpec.
From S2P Require Import MqttClient.
From S2P Require Import MqttQueueSpec.
From S2P Require Import MqttClientInv.
From S2P Require Import MqttClientPackets.
From S2P Require Import MqttClientSafety.
Import Mqtt Client.
Import (hints) SendPacket ReceivePacket.

Section task.
Context `{Target, Platform W, !PlatformOk W, PtrList, !PtrListOk}.
Context (bTopic bReceive : bool) (F : fault → Prop) (CB : Callbacks).
Hypothesis HCB : callbacks_ok bTopic bReceive F CB.
Implicit Types (c : CMQTTClient) (a : Z) (X : list Z) (w : bool).

Abbreviation Inv := (Inv bTopic bReceive).
Abbreviation queue c := (pl_ptrs (m_RetransmissionQueue c)).

(** ** Retransmission *)

(** The tries the packets of the queue have left. *)
Definition tries c : nat := sum_list_with (tries_at c) (queue c).

Lemma lor_dup f : 0 ≤ f < 16 → 0 ≤ Z.lor f MQTT_FLAG_DUP < 16.
Proof using Type.
  intros Hf. assert (E : (0 <=? Z.lor f MQTT_FLAG_DUP) && (Z.lor f MQTT_FLAG_DUP <? 16) = true).
  { by apply (Z_range_forallb (λ f, (0 <=? Z.lor f MQTT_FLAG_DUP) && (Z.lor f MQTT_FLAG_DUP <? 16)) 0 16). }
  apply andb_true_iff in E as [?%Z.leb_le ?%Z.ltb_lt]. done.
Qed.

(** The DUP flag is set in a packet of the type PUBLISH. *)
Definition marked (p : CMQTTSendPacket) : CMQTTSendPacket :=
  if bool_decide (SendPacket.GetType p = MQTTPublish)
  then SendPacket.set_m_uchFlags (Z.lor (SendPacket.m_uchFlags p) MQTT_FLAG_DUP) p else p.

Lemma marked_ok p : packet_ok p → packet_ok (marked p).
Proof using Type.
  unfold marked. case_bool_decide; [|done]. intros ([content Hp] & Hm & Hf & Ht).
  split_and!; [by exists content|exact Hm|apply lor_dup, Hf..|apply Ht|apply Ht].
Qed.

Lemma marked_same p :
  SendPacket.GetType (marked p) = SendPacket.GetType p ∧
  SendPacket.m_nSendTries (marked p) = SendPacket.m_nSendTries p ∧
  SendPacket.m_nScheduledTime (marked p) = SendPacket.m_nScheduledTime p ∧
  SendPacket.m_uchQoS (marked p) = SendPacket.m_uchQoS p ∧
  SendPacket.m_usPacketIdentifier (marked p) = SendPacket.m_usPacketIdentifier p.
Proof using Type. unfold marked. by case_bool_decide. Qed.

Lemma mark_spec w X c a p (Q : () → CMQTTClient → Prop) :
  Inv w X c → held X c a p →
  (∀ c', Inv w X c' → held X c' a (marked p) → apart c' = apart c → queue c' = queue c →
     world c' = world c → m_RetransmissionQueue c' = m_RetransmissionQueue c →
     (∀ b, b ≠ a → heap c' !! b = heap c !! b) → Q () c') →
  wp F (when (bool_decide (SendPacket.GetType p = MQTTPublish))
          (at_packet a (SendPacket.SetFlags (Z.lor (SendPacket.GetFlags p) MQTT_FLAG_DUP)))) Q c.
Proof using Type.
  intros Hc Ha HQ. destruct (held_ok _ _ _ _ _ _ _ Hc Ha) as [Hok Ht].
  unfold marked in HQ. pose proof (marked_ok _ Hok) as Hok'. unfold marked in Hok'.
  case_bool_decide as Hty; cbn [when].
  - unfold at_packet. wp_step. eapply load_Ok; [apply Ha|]. wp_step.
    eapply wp_lift_Ok.
    { unfold SendPacket.SetFlags. rewrite bind_unfold. cbn [get].
      rewrite bind_unfold. unfold assert_. unfold SendPacket.GetType in Hty.
      rewrite bool_decide_eq_true_2 by done. rewrite bind_unfold.
      unfold SendPacket.GetFlags.
      destruct (Z.leb_spec (Z.lor (SendPacket.m_uchFlags p) MQTT_FLAG_DUP) 0x0F) as [|Hl]; [reflexivity|].
      pose proof (lor_dup (SendPacket.m_uchFlags p) ltac:(apply Hok)). lia. }
    eapply store_Ok; [apply Ha|]. apply HQ; try done.
    + eapply Inv_store; [done|exact Ha|exact Hok'|exact Ht].
    + split; [apply Ha|apply lookup_insert_eq].
    + intros b Hb. by apply lookup_insert_ne.
  - apply wp_ret, HQ; by destruct Ha.
Qed.

Lemma sum_tries_ext c c' l :
  (∀ a, a ∈ l → tries_at c' a = tries_at c a) →
  sum_list_with (tries_at c') l = sum_list_with (tries_at c) l.
Proof using Type.
  induction l as [|a l IH]; intros E; cbn; [done|].
  rewrite IH by (intros b Hb; apply E, elem_of_cons; by right).
  rewrite E by (apply elem_of_cons; by left). done.
Qed.

(** The sum of the tries decreases when a packet is sent. *)
Lemma tries_decrease X c c1 c3 c4 a p p3 t4 (pre post : list (pelem * Z)) :
  queue c = pre.*2 ++ a :: post.*2 → queue c1 = pre.*2 ++ post.*2 →
  heap c !! a = Some p → heap c4 = <[a:=SendPacket.SetScheduledTime t4 p3]> (heap c3) →
  queue c4 = insert_due (due c3) t4 a (queue c1) →
  (∀ x, x ≠ a → heap c3 !! x = heap c !! x) → heap_inv (a :: X) c1 →
  0 < SendPacket.m_nSendTries p → SendPacket.m_nSendTries p3 < SendPacket.m_nSendTries p →
  (tries c4 < tries c)%nat.
Proof using Type.
  intros Hq Hq1 Hp Hheap4 Hq4 Hoth Hinv Hpos Hlt.
  assert (Htries4 : tries c4 = (tries_at c4 a + sum_list_with (tries_at c) (queue c1))%nat).
  { unfold tries. rewrite Hq4, insert_due_perm. cbn. f_equal.
    apply sum_tries_ext. intros x Hx. unfold tries_at. rewrite Hheap4.
    assert (x ≠ a).
    { intros ->. pose proof (hi_nodup _ _ Hinv) as Hnd.
      apply NoDup_app in Hnd as (_ & Hd1 & _). apply (Hd1 a Hx), elem_of_cons. by left. }
    by rewrite lookup_insert_ne, Hoth by done. }
  assert (Htries : tries c = (tries_at c a + sum_list_with (tries_at c) (queue c1))%nat).
  { unfold tries. by rewrite Hq, Hq1, <-Permutation_middle. }
  assert (Hta : tries_at c a = Z.to_nat (SendPacket.m_nSendTries p)) by (unfold tries_at; by rewrite Hp).
  assert (Hta4 : tries_at c4 a = Z.to_nat (SendPacket.m_nSendTries p3)).
  { unfold tries_at. by rewrite Hheap4, lookup_insert_eq. }
  lia.
Qed.

(** The state after the first half of a round, with the packet taken out. *)
Lemma taken_out w X c pre post e a :
  Inv w X c → pl_view (m_RetransmissionQueue c) = pre ++ (e, a) :: post →
  let c1 := set_m_RetransmissionQueue (Remove (m_RetransmissionQueue c) e) c in
  queue c1 = pre.*2 ++ post.*2 ∧ Inv w (a :: X) c1.
Proof using Type* - HCB.
  intros Hc Hv c1. pose proof (ptrs_view _ _ _ _ _ Hv) as Hptrs.
  pose proof Hc as [[[Hnd Hdom Hfr Hnx Hok Hq] _ _ _ Hd _] _].
  assert (Hq1 : queue c1 = pre.*2 ++ post.*2).
  { unfold pl_ptrs, c1. cbn. by rewrite (Remove_view _ _ _ _ _ Hv), fmap_app. }
  split; [done|].
  assert (Hmid : queue c1 ++ a :: X ≡ₚ queue c ++ X).
  { rewrite Hq1, Hptrs, <-!Permutation_middle. cbn. by rewrite Permutation_middle. }
  eapply Inv_heap; [exact Hc|done| |].
  - split; [by rewrite Hmid| |exact Hfr|exact Hnx|exact Hok|].
    + intros b. by rewrite (elem_of_Permutation_proper b _ _ Hmid), <-(Hdom b).
    + rewrite Hq1. rewrite Forall_forall in Hq. apply Forall_forall. intros b Hb. apply Hq.
      rewrite Hptrs. rewrite elem_of_app in Hb |- *. rewrite elem_of_cons. tauto.
  - intros (_ & _ & Ee & _)%Hd. rewrite Ee in Hptrs. by destruct pre.*2.
Qed.

(** A round of the loop of [Sender]: it stops at a packet that is not due; a
    packet that cannot be sent is deleted and ends the connection; otherwise
    it is inserted again, with a try less. *)
Lemma sender_round fuel w X c nTicks pre post e a p t (Q : () → CMQTTClient → Prop) :
  Inv w X c → pl_view (m_RetransmissionQueue c) = pre ++ (e, a) :: post →
  heap c !! a = Some p → SendPacket.m_nScheduledTime p = Some t →
  (later t nTicks = true → Q () c) →
  (∀ c', later t nTicks = false → Inv w X c' → queue c' = pre.*2 ++ post.*2 →
     wp F (CloseConnection CB MQTTDisconnectSendFailed) Q c') →
  (∀ c', later t nTicks = false → Inv w X c' → 0 < SendPacket.m_nSendTries p →
     (tries c' < tries c)%nat →
     (∀ x, x ∈ post → x ∈ pl_view (m_RetransmissionQueue c')) →
     wp F (sender_loop CB fuel nTicks (head post.*1)) Q c') →
  wp F (sender_loop CB (S fuel) nTicks (Some e)) Q c.
Proof using Type* - HCB.
  intros Hc Hv Hp Ht Hstop Hfail Hgo. cbn [sender_loop]. wp_steps.
  rewrite (GetPtr_view _ _ _ _ _ Hv), (GetNext_view _ _ _ _ _ Hv).
  eapply load_Ok; [exact Hp|]. wp_step.
  eapply wp_lift_Ok; [unfold SendPacket.GetScheduledTime; by rewrite Ht|].
  apply wp_if; intros Hlate; [wp_steps; by apply Hstop|]. wp_steps.
  destruct (taken_out w X c pre post e a Hc Hv) as [Hq1 Hc1].
  set (c1 := set_m_RetransmissionQueue _ c) in *.
  assert (Hqp : queueable p).
  { pose proof Hc as [[[_ _ _ _ _ Hq] _ _ _ _ _] _]. rewrite Forall_forall in Hq.
    destruct (Hq a) as (p0 & Hp0 & Hqp); [|congruence].
    rewrite (ptrs_view _ _ _ _ _ Hv). apply elem_of_app. right. apply elem_of_cons. by left. }
  destruct Hqp as (_ & HQoS & Hid).
  assert (Ha1 : held (a :: X) c1 a p) by (split; [apply elem_of_cons; by left|done]).
  eapply mark_spec; [exact Hc1|exact Ha1|]. intros c2 Hc2 Ha2 Hap2 Hq2 _ Hrq2 Hoth2. wp_step.
  eapply SendPacket_held; [exact Hc2|exact Ha2|].
  intros b p3 c3 Hc3 Ha3 Hr Hst3 Hoth Hb.
  assert (Hrq3 : m_RetransmissionQueue c3 = m_RetransmissionQueue c1)
    by (unfold steady_heap in Hst3; congruence).
  destruct b; cbn [negb].
  2: { wp_step. eapply delete_held; [exact Hc3|]. intros c4 Hc4 _ Hq4 _.
       apply Hfail; [done|done|]. by rewrite Hq4, Hrq3. }
  wp_step. destruct (resent_same _ _ _ Hr) as (E1 & E2 & E3 & E4).
  destruct (marked_same p) as (M1 & M2 & M3 & M4 & M5).
  eapply schedule_spec; [exact Hc3|exact Ha3| |by rewrite E3, M4|by rewrite E4, M5|].
  { specialize (Hb eq_refl). unfold steady_heap in Hst3. congruence. }
  intros c4 t4 Hc4 Hap4 _ Hheap4 Hq4 Hsub.
  destruct Hr as [_ (k & Hmeta & Hk & _)]. destruct (Hk eq_refl) as [-> Hpos].
  injection Hmeta as _ _ _ Htr _ _ _. cbn in Htr. rewrite M2 in Hpos.
  apply Hgo; [done|done|done| |].
  - eapply (tries_decrease X c c1 c3 c4 a p p3 t4 pre post); try done.
    + by apply (ptrs_view _ _ _ _ _ Hv).
    + rewrite Hq4. by rewrite Hrq3.
    + intros x Hne. by rewrite Hoth, Hoth2.
    + apply Hc1.
    + rewrite M2 in Htr. lia.
  - intros x Hx. apply Hsub. rewrite Hrq3. unfold c1. cbn.
    rewrite (Remove_view _ _ _ _ _ Hv). apply elem_of_app. by right.
Qed.

(** The loop ends within its fuel, and keeps the invariant. *)
Lemma sender_loop_Inv fuel w X c nTicks (el : option pelem) :
  Inv w X c → (tries c < fuel)%nat →
  (∀ e, el = Some e → ∃ a, (e, a) ∈ pl_view (m_RetransmissionQueue c)) →
  wp F (sender_loop CB fuel nTicks el) (λ _ c', Inv w X c') c.
Proof using Type*.
  revert c el. induction fuel as [|fuel IH]; intros c el Hc Hfuel Hel; [lia|].
  destruct el as [e|]; [|by cbn; wp_steps].
  destruct (Hel e eq_refl) as (a & (pre & post & Hv)%list_elem_of_split).
  pose proof Hc as [[[_ _ _ _ _ Hq] _ _ _ _ _] _]. rewrite Forall_forall in Hq.
  destruct (Hq a) as (p & Hp & [t Ht] & _).
  { rewrite (ptrs_view _ _ _ _ _ Hv). apply elem_of_app. right. apply elem_of_cons. by left. }
  eapply (sender_round fuel w X); [exact Hc|exact Hv|exact Hp|exact Ht|done| |].
  - intros c' _ Hc' _. apply (CloseConnection_Inv _ _ _ _ HCB), Hc'.
  - intros c' _ Hc' _ Htr Hsub. apply IH; [done|lia|]. intros e' He'.
    destruct (view_head _ _ He') as (a' & post' & ->). exists a'.
    apply Hsub, elem_of_cons. by left.
Qed.

(** [Sender] keeps the invariant, and its fuel is enough. *)
Lemma Sender_Inv w X c : Inv w X c → wp F (Sender CB) (λ _ c', Inv w X c') c.
Proof using Type*.
  intros Hc. unfold Sender. wp_step. unfold GetTicks. apply (world_op_Inv bTopic bReceive F w X); [|done].
  intros t u _ _ _ Hc1. wp_steps. apply sender_loop_Inv; [done|unfold sender_fuel, tries; lia|].
  intros e He. rewrite GetFirst_view in He. destruct (view_head _ _ He) as (a & post & ->).
  exists a. apply elem_of_cons. by left.
Qed.

(** ** Keep alive *)

Lemma fresh_no_content t n b p : fresh t n b p → packet_ok p ∧ SendPacket.GetType p = t.
Proof using Type. by intros (_ & Ht & _ & _ & _ & Hok). Qed.

(** PINGREQ is sent, and the client waits for the answer. *)
Lemma send_ping_spec G w X c :
  Inv w X c → m_ConnectStatus c = MQTTStatusConnected → 0 < m_nKeepAliveSeconds c →
  m_bTimerRunning c = false →
  wp G (send_local MQTTPingReq default_packet_size (mret ())) (λ b c',
    Inv w X c' ∧ m_bTimerRunning c' = b ∧
    m_ConnectStatus c' = if b then MQTTStatusWaitForPingResp else MQTTStatusConnected) c.
Proof using Type.
  intros Hc Es Hka Htr. unfold send_local, default_packet_size. wp_step. apply make_packet_spec; [lia|].
  intros b p u' _ [Hok Hty]%fresh_no_content. wp_steps. eapply wp_lift_Ok; [reflexivity|].
  cbv beta iota. wp_step.
  eapply (SendPacket__ping bTopic bReceive G w X); [by eapply Inv_view|done|done|exact Es|done|done|].
  intros b' p' c3 Hc3 _ Hst Ht. by wp_steps.
Qed.

(** The state when the timer has elapsed and was stopped. *)
Lemma timer_stopped X c u :
  Inv true X c → m_bTimerRunning c = true →
  let c' := set_m_bTimerRunning false (set_world u c) in
  Core bTopic bReceive true X c' ∧ 0 < m_nKeepAliveSeconds c ∧
  (m_ConnectStatus c = MQTTStatusConnected ∧ Inv true X c' ∨
   m_ConnectStatus c = MQTTStatusWaitForPingResp).
Proof using Type.
  intros Hc Htr c'. pose proof Hc as [[Hh Hb Hs Hn Hd Hcc] Hp].
  assert (Hst : m_ConnectStatus c ≠ MQTTStatusDisconnected).
  { intros E. destruct (Hd E) as (_ & Ht & _). rewrite Ht in Htr; done. }
  destruct (Hcc Hst) as (Hsk & HbT & Hnx & Hnu & Ht). destruct (Ht Htr) as [Hka Hcon].
  assert (Hco : Core bTopic bReceive true X c').
  { split; try done. by destruct Hh; split. }
  split_and!; [done|done|]. destruct Hcon as [Es|Es]; [left|by right]. split; [done|].
  split; [done|]. intros E. cbn in E. congruence.
Qed.

Lemma KeepAliveHandler_Inv X c :
  Inv true X c → wp F (KeepAliveHandler CB) (λ _ c', Inv true X c') c.
Proof using Type*.
  intros Hc. unfold KeepAliveHandler. wp_steps.
  apply wp_if; intros Htr; [by wp_steps|]. apply negb_false_iff in Htr.
  wp_step. unfold GetTicks. apply (world_op_Inv bTopic bReceive F true X); [|done].
  intros t u _ _ _ Hc1. apply wp_if; intros Hel; [by wp_steps|]. wp_steps.
  destruct (timer_stopped X c u Hc Htr) as (Hco & Hka & [[Es Hc2]|Es]).
  - rewrite bool_decide_eq_true_2 by done. wp_step.
    eapply wp_mono; [by apply send_ping_spec|]. intros b c3 (Hc3 & _).
    destruct b; cbn [negb]; [by wp_steps|]. apply (CloseConnection_Inv _ _ _ _ HCB), Hc3.
  - rewrite bool_decide_eq_false_2 by congruence. wp_step.
    apply wp_assert_true; [by apply bool_decide_eq_true_2|].
    by apply (CloseConnection_Inv _ _ _ _ HCB).
Qed.

(** ** A round of the task *)

Lemma Run_round_Inv fuel w X c :
  F AssertFailed → F OutOfFuel ∨ fewer_packets CB fuel c →
  Inv w X c → wp F (Run_round CB fuel) (λ _ c', Inv w X c') c.
Proof using Type*.
  intros HFa HFf Hc. unfold Run_round. wp_steps.
  apply (wp_mono _ _ (λ _ c', Inv w X c')); [|intros [] c' Hc'; by eapply (cb_OnLoop _ _ _ _ HCB)].
  apply wp_if; intros Hst.
  - apply negb_true_iff, bool_decide_eq_false in Hst.
    apply (Inv_connected _ _ _ _ _ Hc) in Hst. wp_step.
    eapply wp_mono; [by eapply Receiver_Inv|]. intros [] c1 Hc1. wp_step.
    eapply wp_mono; [by apply Sender_Inv|]. intros [] c2 Hc2. wp_step.
    eapply wp_mono; [by apply KeepAliveHandler_Inv|]. intros [] c3 Hc3.
    apply (world_op_Inv bTopic bReceive F true X); [|done]. intros [] u _ _ _ Hc4.
    by apply Inv_weaken.
  - apply (world_op_Inv bTopic bReceive F w X); [|done]. by intros [] u _ _ _ Hc4.
Qed.
End task.
