(* ===== verification/MqttClientApi.v ===== *)
(** The functions an application calls: [Connect], [Disconnect], [Subscribe],
    [Unsubscribe] and [Publish] of [CMQTTClient], the content of the packets
    they send, and that they keep the invariant of the client. *)
From stdpp Require Import base numbers list gmap option strings.
From S2P Require Import Prelude.
From S2P Require Import Circle.
From S2P Require Import MqttSendPacket.
From S2P Require Import MqttSendSpec.
From S2P Require Import MqttReceivePacket.
From S2P Require Import MqttReceiveSpec.
From S2P Require Import MqttReadSpec.
From S2P Require Import MqttClient.
From S2P Require Import MqttQueueSpec.
From S2P Require Import MqttClientInv.
Import Mqtt Client.
Import (hints) SendPacket ReceivePacket.

(** * The content of the packets *)

(** A string on the wire: its length and its characters. *)
Definition str (s : list Z) : list Z := be16 (Z.of_nat (length s)) ++ s.

(** A C string whose length fits in 16 bits, and a payload. *)
Definition c_str (s : list Z) : Prop := Forall is_byte s ∧ Z.of_nat (length s) < 2^16.
Definition bytes (s : list Z) : Prop := Forall is_byte s ∧ fits_memory s.
Definition opt_str (o : option (list Z)) : Prop := match o with Some s => c_str s | None => True end.

#[export] Instance c_str_dec s : Decision (c_str s).
Proof. unfold c_str. apply _. Defined.
#[export] Instance bytes_dec s : Decision (bytes s).
Proof. unfold bytes, fits_memory. apply _. Defined.

(** The variable header and the payload of CONNECT (3.1.2, 3.1.3 of the MQTT
    specification). *)
Definition connect_bytes (id : list Z) (flags keep : Z) (will : option (list Z))
    (will_payload : list Z) (user password : option (list Z)) : list Z :=
  str (cstr "MQTT") ++ [MQTT_PROTOCOL_LEVEL] ++ [flags] ++ be16 keep ++ str id ++
  match will with
  | None => []
  | Some topic => str topic ++ str will_payload
  end ++
  match user with
  | None => []
  | Some u => str u ++ match password with None => [] | Some p => str p end
  end.

Definition publish_bytes (topic : list Z) (us : Z) (payload : list Z) : list Z :=
  str topic ++ be16 us ++ payload.

Section content.
Context `{Target}.

Lemma str_appends s : c_str s → appends (SendPacket.AppendString s) (str s).
Proof using Type.
  intros [Hb Hl]. apply AppendString_appends; [unfold fits_memory; lia|done|done].
Qed.

Lemma byte_appends v : is_byte v → appends (SendPacket.AppendByte v) [v].
Proof using Type. intros Hv. rewrite <-(u8_id v Hv) at 2. apply AppendByte_appends. Qed.

Lemma when_data_appends data :
  bytes data → appends (when (Z.of_nat (length data) >? 0) (SendPacket.AppendData data)) data.
Proof using Type.
  intros [Hb Hf]. destruct data as [|b data]; [apply appends_nil|].
  by apply (AppendData_appends (b :: data)).
Qed.

Lemma assert_appends (b : bool) m bs : b = true → appends m bs → appends (assert_ b;; m) bs.
Proof using Type. intros Hb Hm p content Hp. wp_step. apply wp_assert_true; [done|]. by apply Hm. Qed.

Lemma connect_content_appends id flags keep will will_payload user password :
  c_str id → is_byte flags → is_u16 keep → opt_str will → c_str will_payload →
  opt_str user → opt_str password →
  appends (connect_content id flags keep will will_payload user password)
    (connect_bytes id flags keep will will_payload user password).
Proof using Type.
  intros Hid Hfl Hk Hw Hwp Hu Hp. unfold connect_content, connect_bytes.
  apply appends_seq; [apply str_appends; by apply (bool_decide_unpack _)|].
  apply appends_seq; [by apply byte_appends|].
  apply appends_seq; [by apply byte_appends|].
  apply appends_seq; [by apply AppendWord_appends|].
  apply appends_seq; [by apply str_appends|].
  apply appends_seq.
  - destruct will as [topic|]; [|apply appends_nil].
    apply appends_seq; [by apply str_appends|]. destruct Hwp as [Hb Hl].
    apply assert_appends; [by apply Z.ltb_lt|].
    apply appends_seq; [apply AppendWord_appends; unfold is_u16; lia|].
    apply when_data_appends. split; [done|]. unfold fits_memory. lia.
  - destruct user as [u|]; [|apply appends_nil].
    apply appends_seq; [by apply str_appends|].
    destruct password; [by apply str_appends|apply appends_nil].
Qed.

Lemma subscribe_appends us topic qos :
  is_u16 us → c_str topic → is_byte qos →
  appends (SendPacket.AppendWord us;; SendPacket.AppendString topic;; SendPacket.AppendByte qos)
    (be16 us ++ str topic ++ [qos]).
Proof using Type.
  intros Hus Ht Hq. apply appends_seq; [by apply AppendWord_appends|].
  apply appends_seq; [by apply str_appends|by apply byte_appends].
Qed.

Lemma unsubscribe_appends us topic :
  is_u16 us → c_str topic →
  appends (SendPacket.AppendWord us;; SendPacket.AppendString topic) (be16 us ++ str topic).
Proof using Type.
  intros Hus Ht. apply appends_seq; [by apply AppendWord_appends|by apply str_appends].
Qed.

Lemma publish_appends us topic payload :
  is_u16 us → c_str topic → bytes payload →
  appends (SendPacket.AppendString topic;; SendPacket.AppendWord us;;
           when (Z.of_nat (length payload) >? 0) (SendPacket.AppendData payload))
    (publish_bytes topic us payload).
Proof using Type.
  intros Hus Ht Hp. apply appends_seq; [by apply str_appends|].
  apply appends_seq; [by apply AppendWord_appends|by apply when_data_appends].
Qed.
End content.

(** * The flags *)

(** The flags of PUBLISH (3.3.1): QoS in bits 1 and 2, RETAIN in bit 0. *)
Lemma publish_flags_value qos retain :
  0 ≤ qos ≤ 2 → publish_flags qos retain = 2 * qos + Z.b2z retain.
Proof.
  intros Hq. unfold publish_flags, MQTT_FLAG_QOS__SHIFT, MQTT_FLAG_RETAIN.
  rewrite Z.shiftl_mul_pow2 by lia. rewrite u8_id by (unfold is_u8; lia).
  destruct retain; cbn [Z.b2z]; [|lia].
  assert (qos = 0 ∨ qos = 1 ∨ qos = 2) as [-> | [-> | ->]] by lia; reflexivity.
Qed.

(** The flags of CONNECT (3.1.2.3), without the password flag when there is no
    user name. *)
Definition connect_flags_spec (clean : bool) (will : option Z) (retain user password : bool) : Z :=
  2 * Z.b2z clean +
  match will with Some qos => 4 + 8 * qos + 32 * Z.b2z retain | None => 0 end +
  64 * Z.b2z (user && password) + 128 * Z.b2z user.

Lemma connect_flags_value clean will qos retain user password :
  0 ≤ qos ≤ 2 →
  connect_flags clean will qos retain user password =
  connect_flags_spec clean (if will then Some qos else None) retain
    (bool_decide (is_Some user)) (bool_decide (is_Some password)).
Proof.
  intros Hq.
  assert (qos = 0 ∨ qos = 1 ∨ qos = 2) as [-> | [-> | ->]] by lia;
    destruct clean, will, retain, user, password; reflexivity.
Qed.

Lemma connect_flags_byte clean will qos retain user password :
  0 ≤ qos ≤ 2 → is_byte (connect_flags clean will qos retain user password).
Proof.
  intros Hq. rewrite connect_flags_value by done. unfold connect_flags_spec, is_byte, is_u8.
  destruct clean, will, retain, (bool_decide _), (bool_decide _); cbn; lia.
Qed.

(** * The operations *)

Section api.
Context `{Target, Platform W, !PlatformOk W, PtrList, !PtrListOk}.
Context (bTopic bReceive : bool) (F : fault → Prop) (CB : Callbacks).
Hypothesis HCB : callbacks_ok bTopic bReceive F CB.
Implicit Types (c : CMQTTClient) (a : Z) (X : list Z) (w : bool).

Abbreviation Inv := (Inv bTopic bReceive).

(** The successor of a packet identifier: 0 is left out. *)
Definition next_identifier (us : Z) : Z := if us =? 65535 then 1 else us + 1.

Lemma next_identifier_eq us :
  is_u16 us →
  (if u16 (us + 1) =? 0 then u16 (u16 (us + 1) + 1) else u16 (us + 1)) = next_identifier us.
Proof using Type.
  unfold next_identifier, is_u16. intros Hn. destruct (Z.eqb_spec us 65535) as [->|]; [reflexivity|].
  rewrite u16_id by (unfold is_u16; lia). destruct (Z.eqb_spec (us + 1) 0); [lia|done].
Qed.

Lemma next_identifier_range us : is_u16 us → 0 < next_identifier us < 2^16.
Proof using Type. unfold next_identifier, is_u16. intros Hn. destruct (Z.eqb_spec us 65535); lia. Qed.

Lemma NextPacketIdentifier_spec w X c (Q : Z → CMQTTClient → Prop) :
  Inv w X c →
  (∀ c', Inv w X c' →
     c' = set_m_usNextPacketIdentifier (next_identifier (m_usNextPacketIdentifier c)) c →
     Q (m_usNextPacketIdentifier c) c') →
  wp F NextPacketIdentifier Q c.
Proof using Type.
  intros Hc HQ. unfold NextPacketIdentifier. wp_steps.
  pose proof Hc as [[Hh Hb Hs Hn Hd Hcc] Hp]. set (us := m_usNextPacketIdentifier c) in *.
  rewrite (next_identifier_eq us Hn).  apply HQ; [|done].
  pose proof (next_identifier_range us Hn).
  split; [split|]; try done.
  - by destruct Hh; split.
  - unfold is_u16. cbn. lia.
  - intros Es. destruct (Hcc Es) as (? & ? & ? & ? & ?). cbn. split_and!; try done. cbn. lia.
Qed.

Lemma Inv_size w X c : Inv w X c → 128 ≤ m_nMaxPacketSize c < 128^3.
Proof using Type. by intros [[_ (_ & ? & _) _ _ _ _] _]. Qed.

Lemma Inv_next w X c : Inv w X c → is_u16 (m_usNextPacketIdentifier c).
Proof using Type. by intros [[] _]. Qed.

Lemma Subscribe_Inv w X c topic qos :
  Inv w X c → c_str topic → 0 ≤ qos ≤ 2 →
  wp F (Subscribe CB topic qos) (λ _ c', Inv w X c') c.
Proof using Type*.
  intros Hc Ht Hq. unfold Subscribe. wp_step.
  apply wp_assert_true; [apply Z.leb_le, Hq|]. wp_step.
  apply (NextPacketIdentifier_spec w X); [done|]. intros c1 Hc1 _. wp_steps.
  eapply (new_packet_spec bTopic bReceive F w X);
    [exact Hc1|by eapply Inv_size|done|apply subscribe_appends; [by eapply Inv_next|done|unfold_ints; lia]|].
  intros a p b c2 Hc2 Ha2 _ _ _ _. by eapply send_and_schedule_Inv.
Qed.

Lemma Unsubscribe_Inv w X c topic :
  Inv w X c → c_str topic → wp F (Unsubscribe CB topic) (λ _ c', Inv w X c') c.
Proof using Type*.
  intros Hc Ht. unfold Unsubscribe. wp_step.
  apply (NextPacketIdentifier_spec w X); [done|]. intros c1 Hc1 _. wp_steps.
  eapply (new_packet_spec bTopic bReceive F w X);
    [exact Hc1|by eapply Inv_size|done|apply unsubscribe_appends; [by eapply Inv_next|done]|].
  intros a p b c2 Hc2 Ha2 _ _ _ _. by eapply send_and_schedule_Inv.
Qed.

(** A PUBLISH packet is filled with its flags and its content. *)
Lemma publish_fresh n b p flags topic us payload :
  fresh MQTTPublish n b p → 0 ≤ flags < 16 → is_u16 us → c_str topic → bytes payload →
  wp no_fault (publish_content flags topic us payload)
    (λ _ p', packet_ok p' ∧ SendPacket.m_Type p' = MQTTPublish ∧
       filled MQTTPublish n flags (publish_bytes topic us payload) b p') p.
Proof using Type.
  intros (Hp & Et & Hm & Htr & _ & Hok) Hf Hus Hs Hpl. unfold publish_content. wp_step.
  unfold SendPacket.SetFlags. wp_steps.
  apply wp_assert_true; [by apply bool_decide_eq_true_2|]. wp_step.
  apply wp_assert_true; [apply Z.leb_le; lia|]. wp_step.
  eapply wp_mono; [by eapply publish_appends|].
  intros [] p1 [Hp1 Hmeta]. injection Hmeta as E1 E2 E3 E4 _ _ _. cbn in Hp1, E1, E2, E3, E4.
  rewrite Hm in Hp1. destruct Hok as (_ & Hok & _ & Htries). unfold packet_ok, filled.
  rewrite E1, E2, E3, E4. split_and!; try done; try apply Hf; try apply Htries. eauto.
Qed.

Lemma Publish_Inv w X c topic payload qos retain :
  Inv w X c → c_str topic → bytes payload → 0 ≤ qos ≤ 2 →
  wp F (Publish CB topic payload qos retain) (λ _ c', Inv w X c') c.
Proof using Type*.
  intros Hc Ht Hpl Hq. unfold Publish. wp_step.
  apply wp_assert_true; [apply Z.leb_le, Hq|]. wp_step.
  apply (NextPacketIdentifier_spec w X); [done|]. intros c1 Hc1 _. wp_steps.
  eapply (new_packet_gen bTopic bReceive F w X); [exact Hc1|by eapply Inv_size|done| |].
  { intros b p Hfr. apply (publish_fresh _ _ _ _ _ _ _ Hfr); [|by eapply Inv_next|done|done].
    rewrite publish_flags_value by done. destruct retain; cbn; lia. }
  intros a p b c2 Hc2 Ha2 _ _ _ _. apply wp_if; intros _; [by eapply send_and_schedule_Inv|].
  wp_step. eapply SendPacket_held; [done|done|]. intros b' p3 c3 Hc3 Ha3 _ _ _ _. wp_step.
  eapply delete_held; [exact Hc3|]. intros c4 Hc4 _ _ _.
  destruct b'; cbn [negb]; [by wp_steps|]. apply (CloseConnection_Inv _ _ _ _ HCB), Hc4.
Qed.

Lemma Disconnect_Inv w X c bForce :
  Inv w X c → wp F (Disconnect CB bForce) (λ _ c', Inv w X c') c.
Proof using Type*.
  intros Hc. unfold Disconnect, default_packet_size. wp_step. apply wp_when; intros _.
  - wp_step. eapply (send_local_spec bTopic bReceive F w X); [done|lia|done|apply appends_nil|].
    intros b c1 Hc1 _ _. wp_steps. apply (CloseConnection_Inv _ _ _ _ HCB), Hc1.
  - apply (CloseConnection_Inv _ _ _ _ HCB), Hc.
Qed.

(** ** Connect *)

Lemma client_identifier_spec o c (Q : list Z → CMQTTClient → Prop) :
  opt_str o →
  (∀ id u, c_str id → (∀ s, o = Some s → id = s) → Q id (set_world u c)) →
  wp F (client_identifier o) Q c.
Proof using Type*.
  intros Ho HQ. unfold client_identifier. destruct o as [s|].
  - wp_step. apply wp_when; intros _.
    + apply wp_env. intros [] u _. wp_steps. apply HQ; [done|]. by intros ? [= <-].
    + wp_steps. replace c with (set_world (world c) c) by by destruct c.
      apply HQ; [done|]. by intros ? [= <-].
  - wp_step. apply wp_env. intros o u _.
    destruct (default (0, 0) o) as [s0 s1]. wp_steps.
    destruct (CString_Format_serial s0 s1) as [Hb Hl]. apply HQ; [|done]. split; [done|lia].
Qed.

(** A disconnected client whose socket has been opened. *)
Definition opened w X c c' : Prop :=
  Inv w X c ∧ m_ConnectStatus c = MQTTStatusDisconnected ∧ bTopic = true ∧
  ∃ s ip u, c' = set_world u (set_m_pSocket (Some s) (set_m_IPServerString ip c)).

Lemma opened_delete w X c c' r :
  opened w X c c' →
  wp F (delete_socket;; OnDisconnect CB r) (λ _ c'', Inv w X c'') c'.
Proof using Type*.
  intros (Hc & Hst & HbT & s & ip & u & ->). wp_step. unfold delete_socket. wp_steps.
  eapply wp_deref_Some; [done|]. wp_step. apply wp_env. intros [] u' _. wp_steps.
  eapply (cb_OnDisconnect _ _ _ _ HCB). eapply Inv_view; [exact Hc|].
  pose proof Hc as [[_ _ _ _ Hd _] _]. destruct (Hd Hst) as (Hs & _).
  unfold view. cbn. by rewrite Hs.
Qed.

Lemma opened_world w X c c' u : opened w X c c' → opened w X c (set_world u c').
Proof using Type. intros (Hc & Hst & HbT & s & ip & u' & ->). split_and!; eauto. Qed.

(** The arguments of [Connect]. *)
Record connect_args_ok (id user password : option (list Z)) (keep : Z)
    (will : option (list Z)) (qos : Z) (will_payload : list Z) : Prop := {
  ca_id : opt_str id;
  ca_user : opt_str user;
  ca_password : opt_str password;
  ca_keep : is_u16 keep;
  ca_will : opt_str will;
  ca_qos : 0 ≤ qos ≤ 2;
  ca_payload : c_str will_payload
}.

(** The state in which CONNECT is sent. *)
Lemma opened_session w X c c' keep rp :
  opened w X c c' → 0 ≤ keep →
  ReceivePacket.Reset (m_ReceivePacket c') = Ok ((), rp) →
  Inv true X (set_m_ConnectStatus MQTTStatusConnectPending (set_m_ReceivePacket rp
    (set_m_usNextPacketIdentifier 1 (set_m_bTimerRunning false
      (set_m_nKeepAliveSeconds keep c'))))).
Proof using Type*.
  intros (Hc & Hst & HbT & s & ip & u & ->) Hk [= <-].
  pose proof Hc as [[Hh (Hs1 & Hs2 & Htb & Ho & Hr) Hs Hn Hd _] _].
  split; [split|]; try done.
  - by destruct Hh; split.
  - unfold buffer_inv. cbn. split_and!; try apply Hs1; try apply Hs2; [done|done|].
    destruct bReceive; [|done]. destruct Hr as [bs (Hsz & Hin & Hle & Hb & buf & Hbuf & Hl & Hh')].
    exists []. split_and!; cbn; try done; try apply Hsz; [lia|]. exists buf.
    split_and!; [done|done|by apply holds_nil].
Qed.

Lemma start_session_Inv w X c c' id user password keep clean will qos retain will_payload :
  opened w X c c' → connect_args_ok id user password keep will qos will_payload →
  wp F (start_session CB id user password keep clean will qos retain will_payload)
    (λ _ c'', Inv w X c'') c'.
Proof using Type*.
  intros Ho []. unfold start_session, rp_op, ReceivePacket.Reset. wp_steps.
  pose proof (opened_session _ _ _ _ keep _ Ho (proj1 ca_keep0) eq_refl) as Hc1.
  apply client_identifier_spec; [done|]. intros id' u Hid _. wp_step.
  apply wp_assert_true.
  { apply orb_true_iff. right. apply Z.leb_le. unfold MQTT_QOS_EXACTLY_ONCE. lia. }
  wp_steps.
  eapply (send_local_spec bTopic bReceive F true X); [eapply Inv_view; [exact Hc1|done]|exact (Inv_size _ _ _ Hc1)| |
    apply connect_content_appends; try done; by apply connect_flags_byte|]; [done|].
  intros b c2 Hc2 _ _. destruct b; cbn [negb].
  - wp_steps. by apply Inv_weaken.
  - eapply wp_mono; [apply (CloseConnection_Inv _ _ _ _ HCB true X), Hc2|].
    intros [] c3 Hc3. by apply Inv_weaken.
Qed.

Lemma Connect_Inv w X c ssl host port id user password keep clean will qos retain will_payload :
  Inv w X c → m_ConnectStatus c = MQTTStatusDisconnected →
  connect_args_ok id user password keep will qos will_payload →
  wp F (Connect CB ssl host port id user password keep clean will qos retain will_payload)
    (λ _ c', Inv w X c') c.
Proof using Type*.
  intros Hc Hst Hargs. unfold Connect. wp_steps.
  apply wp_assert_true; [by apply bool_decide_eq_true_2|].
  pose proof Hc as [[_ (_ & _ & Htb & _) _ _ Hd _] _]. destruct (Hd Hst) as (Hsk & _).
  destruct (m_pTopicBuffer c) as [tb|] eqn:Etb.
  2: { by apply (cb_OnDisconnect _ _ _ _ HCB). }
  assert (HbT : bTopic = true) by (clear -Htb; destruct bTopic; [done|congruence]).
  wp_step. apply (world_op_Inv bTopic bReceive F w X); [|done]. intros o u1 _ _ _ Hc1.
  destruct o as [ip|].
  2: { wp_step. apply (world_op_Inv bTopic bReceive F w X); [|done]. intros [] u2 _ _ _ Hc2.
       by apply (cb_OnDisconnect _ _ _ _ HCB). }
  wp_steps. apply wp_env. intros [] u2 _. wp_steps.
  apply wp_assert_true; [by apply bool_decide_eq_true_2|]. wp_step.
  set (c2 := set_world u2 _).
  assert (Hopen : ∀ s u, opened w X c (set_world u (set_m_pSocket (Some s) c2))).
  { intros s u. split_and!; try done. by eexists _, _, _. }
  assert (Hgo : ∀ c3, opened w X c c3 →
    wp F (c ← get; s ← deref (m_pSocket c);
          nResult ← world_op (CNetSocket_Connect s ip port);
          if negb (nResult =? 0) then
            log LogError "Cannot connect: %s (%d)" [ArgS host; ArgZ nResult];;
            delete_socket;;
            OnDisconnect CB MQTTDisconnectConnectFailed
          else start_session CB id user password keep clean will qos retain will_payload)
      (λ _ c', Inv w X c') c3).
  { intros c3 Ho3. pose proof Ho3 as (_ & _ & _ & s & ip' & u & ->). wp_steps.
    eapply wp_deref_Some; [done|]. wp_step. apply wp_env. intros n u3 _.
    apply (opened_world _ _ _ _ u3) in Ho3. apply wp_if; intros _.
    - wp_step. apply wp_env. intros [] u4 _. by eapply opened_delete, opened_world.
    - by eapply start_session_Inv. }
  assert (Hno : ∀ c3, opened w X c c3 →
    wp F (log LogError "SSL setup failed" [];; delete_socket;;
          OnDisconnect CB MQTTDisconnectSSLSetupFailed) (λ _ c', Inv w X c') c3).
  { intros c3 Ho3. wp_step. apply wp_env. intros [] u4 _. by eapply opened_delete, opened_world. }
  unfold open_socket. destruct ssl; cbn [negb].
  - wp_step. apply wp_env. intros s u3 _. wp_steps. apply wp_env. intros n u4 _.
    apply wp_if; intros _; [wp_steps; by eapply Hno, Hopen|].
    wp_step. apply wp_env. intros m u5 _. wp_steps.
    destruct (m =? 0); cbn [negb]; [by eapply Hgo, Hopen|by eapply Hno, Hopen].
  - wp_step. apply wp_env. intros s u3 _. wp_steps. cbn [negb]. by eapply Hgo, Hopen.
Qed.
End api.
