(* ===== verification/MqttClientLife.v ===== *)
(** The life of a [CMQTTClient] object: constructed, used by an application and
    run by its task in any order, as a step relation, with the invariant of all
    states that can be reached. *)
From stdpp Require Import base numbers list gmap option strings.
From S2P Require Import Prelude.
From S2P Require Import Circle.
From S2P Require Import MqttSendPacket.
From S2P Require Import MqttSendSpec.
From S2P Require Import MqttReceivePacket.
From S2P Require Import MqttReceiveSpec.
From S2P Require Import MqttReadSpec.
From S2P Require Import MqttClient.
From S2P Require Import MqttQueueSpec.
From S2P Require Import MqttClientInv.
From S2P Require Import MqttClientPackets.
From S2P Require Import MqttClientSafety.
From S2P Require Import MqttClientTask.
From S2P Require Import MqttClientApi.
Import Mqtt Client.
Import (hints) SendPacket ReceivePacket.

Section life.
Context `{Target, Platform W, !PlatformOk W, PtrList, !PtrListOk}.

(** A call of a public function. *)
Inductive request :=
  | RConnect (bUseSSL : bool) (pHost : list Z) (usPort : Z)
      (pClientIdentifier pUsername pPassword : option (list Z))
      (usKeepAliveSeconds : Z) (bCleanSession : bool) (pWillTopic : option (list Z))
      (uchWillQoS : Z) (bWillRetain : bool) (WillPayload : list Z)
  | RDisconnect (bForce : bool)
  | RSubscribe (pTopic : list Z) (uchQoS : Z)
  | RUnsubscribe (pTopic : list Z)
  | RPublish (pTopic Payload : list Z) (uchQoS : Z) (bRetain : bool).

Definition perform (CB : Callbacks) (r : request) : M CMQTTClient () :=
  match r with
  | RConnect ssl host port id user password keep clean will qos retain payload =>
      Connect CB ssl host port id user password keep clean will qos retain payload
  | RDisconnect force => Disconnect CB force
  | RSubscribe topic qos => Subscribe CB topic qos
  | RUnsubscribe topic => Unsubscribe CB topic
  | RPublish topic payload qos retain => Publish CB topic payload qos retain
  end.

(** What a caller has to observe: valid strings and QoS values, and
    [Connect] only while there is no connection. *)
Definition permitted (r : request) (c : CMQTTClient) : Prop :=
  match r with
  | RConnect _ _ _ id user password keep _ will qos _ payload =>
      m_ConnectStatus c = MQTTStatusDisconnected ∧
      connect_args_ok id user password keep will qos payload
  | RDisconnect _ => True
  | RSubscribe topic qos => c_str topic ∧ 0 ≤ qos ≤ 2
  | RUnsubscribe topic => c_str topic
  | RPublish topic payload qos _ => c_str topic ∧ bytes payload ∧ 0 ≤ qos ≤ 2
  end.

Lemma perform_Inv bTopic bReceive F CB w X c r :
  callbacks_ok bTopic bReceive F CB → Inv bTopic bReceive w X c → permitted r c →
  wp F (perform CB r) (λ _ c', Inv bTopic bReceive w X c') c.
Proof using Type*.
  intros HCB Hc Hr. destruct r; cbn [perform permitted] in *.
  - destruct Hr. by apply Connect_Inv.
  - by apply Disconnect_Inv.
  - destruct Hr. by apply Subscribe_Inv.
  - by apply Unsubscribe_Inv.
  - destruct Hr as (? & ? & ?). by apply Publish_Inv.
Qed.

(** The members the constructor leaves as they are. *)
Definition junk_ok (junk : CMQTTClient) : Prop :=
  is_u16 (m_usNextPacketIdentifier junk) ∧
  0 ≤ ReceivePacket.m_nOutPtr (m_ReceivePacket junk).

(** The sizes the constructor is given. *)
Definition sizes_ok (nMaxPacketSize nMaxPacketsQueued nMaxTopicSize : Z) : Prop :=
  128 ≤ nMaxPacketSize < 128^3 ∧ 1 ≤ nMaxPacketsQueued < 2^8 ∧ 0 ≤ nMaxTopicSize < 2^16.

Lemma construct_Inv bTopic bReceive np nq nt junk u :
  junk_ok junk → sizes_ok np nq nt →
  ∃ c, construct bTopic bReceive np nq nt junk u = Ok c ∧ Inv bTopic bReceive false [] c.
Proof using Type*.
  intros [Hj Ho] (Hnp & Hnq & Hnt). pose proof FRAME_BUFFER_SIZE_pos as HF.
  unfold construct, ReceivePacket.construct.
  destruct (Z.leb_spec 128 np); [|lia]. destruct (Z.leb_spec 1 nq); [|lia]. cbn [negb].
  eexists. split; [done|].
  assert (Hsize : usize (np * nq + FRAME_BUFFER_SIZE) = np * nq + FRAME_BUFFER_SIZE).
  { apply usize_id. nia. }
  assert (He : pl_ptrs pl_empty = []) by apply ptrs_empty.
  split; [split|]; try done; cbn.
  - split; cbn; rewrite ?He; cbn.
    + constructor.
    + intros a. rewrite lookup_empty. split; [by intros [? ?]|by intros ?%not_elem_of_nil].
    + intros a. rewrite lookup_empty. by intros [? ?].
    + done.
    + intros a p. by rewrite lookup_empty.
    + constructor.
  - unfold buffer_inv. cbn. split_and!; try lia.
    + destruct bTopic; [|done]. eexists. split; [done|]. unfold uninit.
      rewrite length_replicate, usize_id by lia. lia.
    + destruct bReceive; [|done]. exists []. rewrite Hsize. split_and!; cbn; try done; try nia.
      eexists. split_and!; [done| |by apply holds_nil].
      unfold uninit. rewrite length_replicate. nia.
  - unfold store_inv. cbn. rewrite He. split; constructor.
Qed.

(** ** Reachable states *)

Context (CB : Callbacks) (fuel : nat).

(** The application or the task makes a step. *)
Inductive step (c : CMQTTClient) : res (() * CMQTTClient) → Prop :=
  | step_request r : permitted r c → step c (perform CB r c)
  | step_round : step c (Run_round CB fuel c).

Inductive reachable (c0 : CMQTTClient) : CMQTTClient → Prop :=
  | reachable_start : reachable c0 c0
  | reachable_step c u c' : reachable c0 c → step c (Ok (u, c')) → reachable c0 c'.

Lemma step_Inv bTopic bReceive F w X c o :
  callbacks_ok bTopic bReceive F CB → F AssertFailed → F OutOfFuel →
  Inv bTopic bReceive w X c → step c o →
  match o with Ok (_, c') => Inv bTopic bReceive w X c' | Fault e => F e end.
Proof using Type*.
  intros HCB HFa HFf Hc [r Hr|]; [by eapply perform_Inv|eapply Run_round_Inv; eauto].
Qed.

Lemma reachable_Inv bTopic bReceive F w X c0 c :
  callbacks_ok bTopic bReceive F CB → F AssertFailed → F OutOfFuel →
  Inv bTopic bReceive w X c0 → reachable c0 c → Inv bTopic bReceive w X c.
Proof using Type*.
  intros HCB HFa HFf H0'. induction 1 as [|c u c' _ IH Hs]; [done|].
  by apply (step_Inv bTopic bReceive F w X c _ HCB HFa HFf IH Hs).
Qed.
End life.
