(* ===== verification/MqttDemo.v ===== *)
(** Concrete clients in the scripted world of [Circle.Script], for the
    evaluation of runs: a client with the virtual functions of the class
    itself, and one whose virtual functions record their calls. *)
From stdpp Require Import base numbers list gmap option strings.
From S2P Require Import Prelude.
From S2P Require Import Circle.
From S2P Require Import MqttSendPacket.
From S2P Require Import MqttSendSpec.
From S2P Require Import MqttReceivePacket.
From S2P Require Import MqttReceiveSpec.
From S2P Require Import MqttReadSpec.
From S2P Require Import MqttClient.
From S2P Require Import MqttQueueSpec.
From S2P Require Import MqttClientInv.
From S2P Require Import MqttClientPackets.
From S2P Require Import MqttClientSafety.
From S2P Require Import MqttClientTask.
From S2P Require Import MqttClientApi.
From S2P Require Import MqttClientLife.
Import Mqtt Client.
Import (hints) SendPacket ReceivePacket Script ListPtrList.

Module Demo.
#[export] Instance target : Target := aarch64.

Definition junk_packet : CMQTTReceivePacket :=
  ReceivePacket.mkReceivePacket 0 None 0 0 None 0 0 0.

Definition junk : CMQTTClient :=
  mkClient 0 0 None None MQTTStatusDisconnected [] 0 false 0 0 junk_packet pl_empty pl_empty
    ∅ 1 (Script.init []).

(** A client whose broker sends the given pieces. *)
Definition client (script : list (option (list Z))) : res CMQTTClient :=
  construct true true 128 2 16 junk (Script.init script).

(** Virtual functions that record their calls in the world. *)
Definition recorder : Callbacks :=
  mkCallbacks
    (λ b, world_op (Script.event "OnConnect" [Z.b2z b]))
    (λ r, world_op (Script.event "OnDisconnect" [Z.of_nat (reason_code r)]))
    (λ topic payload r, world_op (Script.event "OnMessage" (topic ++ payload)))
    (mret ()).

Definition connect (CB : Callbacks) : M CMQTTClient () :=
  Connect CB false (cstr "broker") 1883 (Some (cstr "id")) None None 60 true None 0 false [].

(** The client after it has connected and run the given rounds. *)
Fixpoint rounds (CB : Callbacks) (n : nat) : M CMQTTClient () :=
  match n with
  | O => mret ()
  | S n => Run_round CB 10;; rounds CB n
  end.

Definition run (CB : Callbacks) (script : list (option (list Z))) (m : M CMQTTClient ()) :
    res (() * CMQTTClient) :=
  match client script with
  | Ok c => m c
  | Fault e => Fault e
  end.

(** The value of a run that has succeeded. *)
Definition state_of (o : res (() * CMQTTClient)) : CMQTTClient :=
  match o with Ok (_, c) => c | Fault _ => junk end.

Definition connack : list Z := wire MQTTConnAck 0 [0; 0].

Lemma default_ok bTopic bReceive F : callbacks_ok bTopic bReceive F default_callbacks.
Proof. split; intros; by apply wp_ret. Qed.

Lemma recorder_ok bTopic bReceive F : callbacks_ok bTopic bReceive F recorder.
Proof.
  split; intros; cbn; [eapply Inv_view; [eassumption|done]..|by apply wp_ret].
Qed.

Lemma junk_good : junk_ok junk.
Proof. split; cbn; [split|]; lia. Qed.

Lemma sizes_good : sizes_ok 128 2 16.
Proof. unfold sizes_ok. lia. Qed.

Lemma client_Inv script :
  ∃ c, client script = Ok c ∧ Inv true true false [] c.
Proof. apply construct_Inv; [apply junk_good|apply sizes_good]. Qed.

Definition events_of (o : res (() * CMQTTClient)) : list (string * list Z) :=
  match o with Ok (_, c) => Script.events (world c) | Fault _ => [] end.

(** A client in whose receive buffer a packet has just arrived. *)
Definition packet_bytes (t : TMQTTPacketType) (fl : Z) (content : list Z) : list Z :=
  [packet_type_code t * 16 + fl; Z.of_nat (length content)] ++ content.

Definition with_packet (t : TMQTTPacketType) (fl : Z) (content : list Z) (c : CMQTTClient) :
    CMQTTClient :=
  set_m_ReceivePacket
    (ReceivePacket.mkReceivePacket 4096
       (Some ((Some <$> packet_bytes t fl content)
              ++ uninit (4096 - Z.of_nat (length (packet_bytes t fl content)))))
       (Z.of_nat (length (packet_bytes t fl content))) 2 (Some t) fl
       (Z.of_nat (length content)) 0) c.

Lemma packet_arrives t fl content c :
  ReceivePacket.header_ok (Some t) fl (Z.of_nat (length content)) = true →
  Forall is_byte (packet_bytes t fl content) → Z.of_nat (length content) < 128 →
  arrived (with_packet t fl content c) t fl content [].
Proof.
  intros Hok Hb Hl.
  assert (Hlp : length (packet_bytes t fl content) = (2 + length content)%nat) by done.
  split_and!; try done.
  exists [packet_type_code t * 16 + fl; Z.of_nat (length content)]. split; [|cbn; lia].
  split; [|cbn; lia]. rewrite app_nil_r. change (_ ++ content) with (packet_bytes t fl content).
  unfold with_packet. set (bs := packet_bytes t fl content) in *. cbn [m_ReceivePacket set_m_ReceivePacket].
  split_and!; cbn [ReceivePacket.m_nBufferSize ReceivePacket.m_nInPtr ReceivePacket.m_pBuffer];
    try done; try lia. eexists. split_and!; [done| |].
  - rewrite length_app, length_fmap. unfold uninit. rewrite length_replicate. lia.
  - split; [done|]. intros j b Hj. change (Z.to_nat 0 + j)%nat with j. rewrite lookup_app_l.
    + rewrite list_lookup_fmap. by rewrite Hj.
    + rewrite length_fmap. by apply lookup_lt_Some in Hj.
Qed.

(** A client that waits for CONNACK. *)
Definition pending : CMQTTClient :=
  state_of (run default_callbacks [] (connect default_callbacks)).

(** A client that is connected. *)
Definition connected : CMQTTClient := set_m_ConnectStatus MQTTStatusConnected pending.

Lemma pending_Inv : Inv true true false [] pending.
Proof.
  destruct (client_Inv []) as (c & E & Hc).
  assert (Hp : permitted (RConnect false (cstr "broker") 1883 (Some (cstr "id")) None None 60 true
    None 0 false []) c).
  { split; [by injection E as <-|]. split; cbn; try done; try by apply (bool_decide_unpack _). }
  destruct (wp_total _ _ _ (perform_Inv true true no_fault default_callbacks false [] c _
    (default_ok _ _ _) Hc Hp)) as ([] & c' & E' & Hc').
  assert (pending = c') as ->; [|done].
  unfold pending, run, connect. rewrite E. cbn [perform] in E'. by rewrite E'.
Qed.

Lemma connected_Inv : Inv true true false [] connected.
Proof. apply Inv_status_connected; [apply pending_Inv|by vm_compute]. Qed.

Example connects :
  events_of (run recorder [Some connack] (connect recorder;; rounds recorder 1))
  = [("OnConnect"%string, [0])].
Proof. vm_compute. reflexivity. Qed.
End Demo.
