(* ===== verification/MqttStreamProps.v ===== *)
(** The properties of the packet classes: what is sent, how it is recognised in
    the stream of the receiver, and what the getters return. *)
From stdpp Require Import base numbers list gmap option strings.
From S2P Require Import Prelude.
From S2P Require Import Circle.
From S2P Require Import MqttSendPacket.
From S2P Require Import MqttSendSpec.
From S2P Require Import MqttReceivePacket.
From S2P Require Import MqttReceiveSpec.
From S2P Require Import MqttReadSpec.
From S2P Require Import MqttClient.
From S2P Require Import MqttClientPackets.
From S2P Require Import MqttClientApi.
Import Mqtt Client.
Import (hints) Script.

(** A client's buffer that holds the stream [bs], for the witnesses. *)
Definition demo_buffer (bs : list Z) : CMQTTReceivePacket :=
  ReceivePacket.mkReceivePacket 4096
    (Some ((Some <$> bs) ++ uninit (4096 - Z.of_nat (length bs))))
    (Z.of_nat (length bs)) 0 None 0 0 0.

Lemma demo_buffered bs :
  Z.of_nat (length bs) ≤ 4096 → Forall is_byte bs →
  buffered (W := Script.t) (demo_buffer bs) bs.
Proof.
  intros Hl Hb. split_and!; cbn; try done. eexists. split_and!; [done| |].
  - rewrite length_app, length_fmap. unfold uninit. rewrite length_replicate. lia.
  - split; [done|]. intros j b Hj. change (Z.to_nat 0 + j)%nat with j. rewrite lookup_app_l.
    + rewrite list_lookup_fmap. by rewrite Hj.
    + rewrite length_fmap. by apply lookup_lt_Some in Hj.
Qed.

Section stream.
Context `{Target, Platform W, !PlatformOk W}.

(** A stream with a packet at its front is recognised as that packet, with
    its content and what follows it. *)
Lemma parse_wire rp t fl content rest :
  buffered rp (wire t fl content ++ rest) → 0 ≤ fl < 16 →
  Z.of_nat (length content) < 128 ^ 4 →
  ReceivePacket.header_ok (Some t) fl (Z.of_nat (length content)) = true →
  ∃ rp', ReceivePacket.parse rp = Ok (ReceivePacket.MQTTReceivePacketOK, rp') ∧
         complete rp' t fl content rest.
Proof using Type*.
  intros Hb Hfl Hc Hok.
  destruct (wp_total _ _ _ (parse_spec _ _ Hb)) as (st & rp' & E & _ & Hp).
  destruct (front_of_wire t fl content rest Hfl Hc Hok) as (Hf & Ht & Hd).
  unfold parsed in Hp. rewrite Hf in Hp. destruct Hp as (-> & _ & Hp).
  exists rp'. rewrite Nat2Z.id, Ht, Hd in Hp. done.
Qed.
(** The content of a PUBLISH packet is read back. *)
Lemma string_of_str s todo size :
  Z.of_nat (length s) < 2^16 → forallb is_ascii s = true → Z.of_nat (length s) + 1 ≤ size →
  string_of (str s ++ todo) size = Some (s, todo).
Proof using Type.
  intros Hl Ha Hs. unfold str, be16, string_of. cbn [app].
  replace (Z.of_nat (length s) / 256 * 256 + Z.of_nat (length s) mod 256)
    with (Z.of_nat (length s)) by zdiv.
  rewrite Nat2Z.id, take_app_length, drop_app_length, Ha, length_app.
  repeat (zcase; [|lia]). done.
Qed.

Lemma read_publish_bytes qos topic us payload size :
  c_str topic → topic ≠ [] → forallb is_ascii topic = true → Z.of_nat (length topic) + 1 ≤ size →
  0 < us < 2^16 → 1 ≤ qos →
  read_publish qos size (publish_bytes topic us payload) = PublishRead topic payload us.
Proof using Type.
  intros [_ Hl] Hne Ha Hs Hus Hq. unfold read_publish, publish_bytes.
  rewrite string_of_str by done. destruct topic as [|ch topic]; [done|].
  rewrite Z.gtb_ltb. destruct (Z.ltb_spec 0 qos); [|lia]. unfold be16. cbn [app].
  replace (us / 256 * 256 + us mod 256) with us by zdiv.
  by destruct (Z.eqb_spec us 0); [lia|].
Qed.
End stream.

(** C3: segmentation of the byte stream does not matter.  As long as the receive
    buffer holds a proper part of a packet, [Receive] waits for more; once the
    packet is there, with whatever bytes of the next ones behind it, it is
    recognised with its type, its flags, its content, and the rest is kept. *)
Theorem stream_segmentation `{Target, Platform W, !PlatformOk W} rp t fl content bs :
  0 ≤ fl < 16 → Z.of_nat (length content) < 128 ^ 4 →
  ReceivePacket.header_ok (Some t) fl (Z.of_nat (length content)) = true →
  buffered rp bs →
  (bs `prefix_of` wire t fl content → bs ≠ wire t fl content →
     ∃ rp', ReceivePacket.parse rp = Ok (ReceivePacket.MQTTReceiveContinue, rp') ∧ buffered rp' bs) ∧
  (∀ rest, bs = wire t fl content ++ rest →
     ∃ rp', ReceivePacket.parse rp = Ok (ReceivePacket.MQTTReceivePacketOK, rp') ∧
            complete rp' t fl content rest).
Proof.
  intros Hfl Hc Hok Hb. split.
  - intros Hpre Hne. destruct (wp_total _ _ _ (parse_spec _ _ Hb)) as (st & rp' & E & Hb' & Hp).
    exists rp'. unfold parsed in Hp. rewrite (front_of_prefix t fl content bs Hc Hpre Hne) in Hp.
    by subst st.
  - intros rest ->. by apply parse_wire.
Qed.

Lemma stream_segmentation_witness :
  (∃ rp', ReceivePacket.parse (H := aarch64) (demo_buffer [0x40; 2; 0])
     = Ok (ReceivePacket.MQTTReceiveContinue, rp') ∧ buffered rp' [0x40; 2; 0]) ∧
  ∃ rp', ReceivePacket.parse (H := aarch64) (demo_buffer [0x40; 2; 0; 7; 0xD0; 0])
     = Ok (ReceivePacket.MQTTReceivePacketOK, rp') ∧ complete rp' MQTTPubAck 0 [0; 7] [0xD0; 0].
Proof.
  split.
  - apply (stream_segmentation (H := aarch64) (W := Script.t) (demo_buffer [0x40; 2; 0])
      MQTTPubAck 0 [0; 7] [0x40; 2; 0]); try done.
    + by apply demo_buffered; [|apply (bool_decide_unpack _)].
    + by exists [7].
  - apply (stream_segmentation (H := aarch64) (W := Script.t) (demo_buffer [0x40; 2; 0; 7; 0xD0; 0])
      MQTTPubAck 0 [0; 7] [0x40; 2; 0; 7; 0xD0; 0]); try done.
    by apply demo_buffered; [|apply (bool_decide_unpack _)].
Defined.



(** C17: [Receive] never writes outside its buffer and never reads what was not
    received.  It refuses to read from the socket when less than a frame is
    left; otherwise the bytes of the socket are appended to the stream it
    holds, and the result says whether the reference parser finds no packet
    yet, an unacceptable one, or a complete one at the front. *)
Theorem receive_contract `{Target, Platform W, !PlatformOk W} sock rp w bs :
  buffered rp bs →
  ∃ st rp' w', ReceivePacket.Receive sock (rp, w) = Ok (st, (rp', w')) ∧
    if ReceivePacket.m_nBufferSize rp - FRAME_BUFFER_SIZE <? Z.of_nat (length bs)
    then st = ReceivePacket.MQTTReceiveNotEnoughMemory ∧ rp' = rp ∧ w' = w
    else
      let '((r, data), u) := CNetSocket_Receive sock FRAME_BUFFER_SIZE MSG_DONTWAIT w in
      w' = u ∧
      if r <? 0 then st = ReceivePacket.MQTTReceiveDisconnect ∧ buffered rp' bs
      else buffered rp' (bs ++ data) ∧
        match front_of (bs ++ data) with
        | FrontMore => st = ReceivePacket.MQTTReceiveContinue
        | FrontInvalid => st = ReceivePacket.MQTTReceivePacketInvalid
        | FrontPacket t fl hdr rem =>
            st = ReceivePacket.MQTTReceivePacketOK ∧
            complete rp' t fl (take (Z.to_nat rem) (drop hdr (bs ++ data)))
              (drop (hdr + Z.to_nat rem) (bs ++ data))
        end.
Proof.
  intros Hb. pose proof Hb as (_ & Hin & _).
  destruct (wp_total _ _ _ (Receive_received sock rp w bs Hb)) as (st & [rp' w'] & E & Hr).
  exists st, rp', w'. split; [done|]. unfold received in Hr. rewrite Z.gtb_ltb, Hin in Hr. cbn [fst snd] in Hr.
  destruct (_ <? _); [by destruct Hr as [-> [= -> ->]]|].
  destruct (CNetSocket_Receive _ _ _ _) as [[r data] u]. destruct Hr as [-> Hr]. split; [done|].
  destruct (r <? 0); [done|]. destruct Hr as [Hb' Hp]. split; [done|].
  unfold parsed in Hp. destruct (front_of _); [done|done|]. by destruct Hp as (-> & _ & Hp).
Qed.

Lemma receive_contract_witness :
  ∃ st rp' w',
    ReceivePacket.Receive (H := aarch64) (H0 := Script.platform) 0%nat (demo_buffer [0x40], Script.init [Some [2; 0; 7]])
      = Ok (st, (rp', w')) ∧ st = ReceivePacket.MQTTReceivePacketOK ∧ complete rp' MQTTPubAck 0 [0; 7] [].
Proof.
  destruct (receive_contract (H := aarch64) (H0 := Script.platform) 0%nat (demo_buffer [0x40])
    (Script.init [Some [2; 0; 7]]) [0x40]) as (st & rp' & w' & E & Hr).
  - by apply demo_buffered; [|apply (bool_decide_unpack _)].
  - exists st, rp', w'. split; [exact E|]. apply Hr.
Defined.

(** C37: [GetString] returns the string at the front of the content when it is
    there completely, fits with its terminating zero in the caller's buffer
    and has no character above 127; then the buffer holds the string and a
    zero, and the content continues behind it.  Otherwise the result is 0.  In
    no case is anything written outside of the caller's buffer. *)
Theorem GetString_contract `{Target, Platform W, !PlatformOk W} rp pre todo rest tb size :
  reading rp pre todo rest → (2 ≤ length todo)%nat → size ≤ Z.of_nat (length tb) →
  ∃ n tb' rp', ReceivePacket.GetString tb size rp = Ok ((n, tb'), rp') ∧
    length tb' = length tb ∧
    match string_of todo size with
    | Some (s, todo') => n = Z.of_nat (length s) ∧ c_string tb' = Ok (until_nul s) ∧
        reading rp' (pre ++ take 2 todo ++ s) todo' rest
    | None => n = 0
    end.
Proof.
  intros Hr H2b Hsize.
  destruct (wp_total _ _ _ (GetString_read rp pre todo rest tb size Hr H2b Hsize))
    as ([n tb'] & rp' & E & Hl & _ & _ & Hs). cbn [fst snd] in *.
  exists n, tb', rp'. split_and!; [done|done|].
  destruct (string_of todo size) as [[s todo']|]; [|done].
  destruct Hs as (-> & Hh & Hr'). split_and!; [done|by apply c_string_holds|done].
Qed.

(** A buffer whose packet is the content [c], for the witnesses. *)
Definition demo_reading (c : list Z) : CMQTTReceivePacket :=
  ReceivePacket.mkReceivePacket 4096
    (Some ((Some <$> c) ++ uninit (4096 - Z.of_nat (length c))))
    (Z.of_nat (length c)) 0 None 0 (Z.of_nat (length c)) 0.

Lemma demo_reads c :
  Z.of_nat (length c) ≤ 4096 → Forall is_byte c → reading (W := Script.t) (demo_reading c) [] c [].
Proof.
  intros Hl Hb. split; [|cbn; lia]. cbn [app]. rewrite app_nil_r.
  eapply (buffered_same (demo_buffer c)); [by apply demo_buffered|done..].
Qed.

Lemma GetString_contract_witness :
  ∃ n tb' rp', ReceivePacket.GetString (H := aarch64) (uninit 4) 4 (demo_reading [0; 2; 104; 105; 9])
      = Ok ((n, tb'), rp') ∧ length tb' = 4%nat ∧
    n = 2 ∧ c_string tb' = Ok [104; 105] ∧ reading rp' [0; 2; 104; 105] [9] [].
Proof.
  apply (GetString_contract (H := aarch64) (W := Script.t) (demo_reading [0; 2; 104; 105; 9]) []
    [0; 2; 104; 105; 9] [] (uninit 4) 4); [|cbn; lia|by vm_compute].
  apply demo_reads; [done|by apply (bool_decide_unpack _)].
Defined.

(** [Complete] drops exactly what was read from the stream: the bytes of the
    next packets that are in the buffer already stay, in order. *)
Theorem Complete_contract `{Target, Platform W, !PlatformOk W} rp bs k :
  buffered rp bs → ReceivePacket.m_nOutPtr rp = Z.of_nat k → (k ≤ length bs)%nat →
  ∃ rp', ReceivePacket.Complete rp = Ok ((), rp') ∧ buffered rp' (drop k bs).
Proof.
  intros Hb Ho Hk. destruct (wp_total _ _ _ (Complete_drops rp bs k Hb Ho Hk)) as ([] & rp' & E & Hb' & _).
  eauto.
Qed.

Lemma Complete_contract_witness :
  ∃ rp', ReceivePacket.Complete (demo_buffer [1; 2; 3]) = Ok ((), rp') ∧ buffered rp' [1; 2; 3].
Proof.
  apply (Complete_contract (H := aarch64) (W := Script.t) (demo_buffer [1; 2; 3]) [1; 2; 3] 0); [|done|cbn; lia].
  by apply demo_buffered; [|apply (bool_decide_unpack _)].
Defined.

(** The CONNECT packet of [Connect] has the layout of the MQTT
    specification: the protocol name and level, the flags (clean session, will,
    will QoS and retain, user name and password), the keep alive period, and
    the strings that are present, in order; and the fixed header in front of
    it.  It is in the error state, and not sent, when it does not fit. *)
Theorem connect_packet `{Target, Platform W, !PlatformOk W} n id keep will qos retain payload user password clean :
  128 ≤ n < 128^3 → c_str id → is_u16 keep → opt_str will → c_str payload → 0 ≤ qos ≤ 2 →
  opt_str user → opt_str password →
  let flags := connect_flags_spec clean (if will then Some qos else None) retain
                 (bool_decide (is_Some user)) (bool_decide (is_Some password)) in
  let content := connect_bytes id flags keep will payload user password in
  ∃ p p1,
    SendPacket.construct true MQTTConnect n = Ok p ∧
    connect_content id (connect_flags clean will qos retain user password) keep will payload user password p
      = Ok ((), p1) ∧
    if SendPacket.MAX_LENGTH_FIXED_HEADER + Z.of_nat (length content) <=? n
    then ∃ p2, SendPacket.finish p1 = Ok (p2, wire MQTTConnect 0 content)
    else ∀ sock w, SendPacket.Send sock (p1, w) = Ok (false, (p1, w)).
Proof.
  intros Hn Hid Hk Hw Hpl Hq Hu Hpw flags content.
  destruct (construct_repr true MQTTConnect n ltac:(lia)) as (p & Ep & Hp & Ht & Hm & _ & Hf & _).
  pose proof (connect_flags_byte clean will qos retain user password Hq) as Hfb.
  destruct (wp_total _ _ _ (connect_content_appends id _ keep will payload user password
    Hid Hfb Hk Hw Hpl Hu Hpw p (Some []) Hp)) as ([] & p1 & E1 & Hp1 & Hm1).
  rewrite connect_flags_value in Hp1 by done.
  injection Hm1 as M1 M2 M3 _ _ _ _. rewrite Hm in Hp1.
  exists p, p1. split_and!; [done|done|]. unfold append_spec in Hp1. cbn [mbind option_bind length app] in Hp1.
  rewrite Z.add_0_r in Hp1. fold flags content in Hp1.
  destruct (Z.leb_spec (SendPacket.MAX_LENGTH_FIXED_HEADER + Z.of_nat (length content)) n) as [Hl|Hl].
  - destruct (finish_wire p1 content Hp1) as (p2 & E2 & _).
    + unfold sendable, SendPacket.MAX_LENGTH_FIXED_HEADER in *. lia.
    + rewrite M3, Hf by done. cbn. lia.
    + exists p2. rewrite M1, M3, Ht, Hf in E2 by done. exact E2.
  - intros sock w. apply Send_error. by destruct Hp1.
Qed.

Lemma connect_packet_witness :
  ∃ p p1,
    SendPacket.construct true MQTTConnect 128 = Ok p ∧
    connect_content (H := aarch64) (cstr "id") (connect_flags true None 0 false (Some (cstr "u")) None) 60
      None [] (Some (cstr "u")) None p = Ok ((), p1) ∧
    ∃ p2, SendPacket.finish p1 = Ok (p2, [0x10; 17; 0; 4; 77; 81; 84; 84; 4; 0x82; 0; 60; 0; 2; 105; 100; 0; 1; 117]).
Proof.
  apply (connect_packet (H := aarch64) (W := Script.t) 128 (cstr "id") 60 None 0 false []
    (Some (cstr "u")) None true); try done; by apply (bool_decide_unpack _).
Defined.

(** The assertion of [Send] on the number of length bytes is one too strict.
    A packet whose length takes four bytes, which the packet size allows and
    for which the buffer reserves the room, ends the program. *)
Theorem Send_four_length_bytes `{Target, Platform W} sock p w content :
  repr p (Some content) → SendPacket.m_nSendTries p ≠ 0 →
  128 ^ 3 ≤ Z.of_nat (length content) < 128 ^ 4 →
  SendPacket.Send sock (p, w) = Fault AssertFailed.
Proof.
  intros Hp Ht Hc. pose proof Hp as (_ & He & _). unfold SendPacket.Send.
  rewrite bind_unfold. cbn [get]. rewrite He. destruct (Z.eqb_spec (SendPacket.m_nSendTries p) 0); [done|].
  rewrite bind_unfold. unfold lift_res. by erewrite finish_four_length_bytes.
Qed.

(** A packet with a content of [k] zeros. *)
Definition demo_packet (k : Z) : CMQTTSendPacket :=
  SendPacket.mkSendPacket MQTTPublish (k + 5) false
    (Some (uninit 5 ++ replicate (Z.to_nat k) (Some 0))) (k + 5) 0 5 None None None.

Lemma demo_packet_repr k :
  123 ≤ k < 2^31 - 5 → repr (demo_packet k) (Some (replicate (Z.to_nat k) 0)).
Proof.
  intros Hk. split; cbn [SendPacket.m_nMaxPacketSize SendPacket.m_bError SendPacket.m_nBufPtr SendPacket.m_pBuffer demo_packet]; [lia|]. unfold SendPacket.MAX_LENGTH_FIXED_HEADER.
  rewrite length_replicate. split_and!; [done|lia|lia| |].
  - apply Forall_replicate. unfold is_byte, is_u8. lia.
  - eexists. split_and!; [done| |].
    + rewrite length_app. unfold uninit. rewrite !length_replicate. lia.
    + split; [done|]. intros j b Hj. apply lookup_replicate in Hj as [-> Hj].
      rewrite lookup_app_r by (unfold uninit; rewrite length_replicate; lia).
      unfold uninit. rewrite length_replicate.
      replace (Z.to_nat 5 + j - Z.to_nat 5)%nat with j by lia. by apply lookup_replicate.
Qed.

Lemma Send_four_length_bytes_witness :
  SendPacket.Send (H := Script.platform) 0%nat (demo_packet (128^3), Script.init []) = Fault AssertFailed.
Proof.
  apply (Send_four_length_bytes (H := aarch64) (H0 := Script.platform) 0%nat _ _ (replicate (Z.to_nat (128^3)) 0)).
  - apply demo_packet_repr. lia.
  - done.
  - rewrite length_replicate. lia.
Defined.
