(* ===== verification/MqttClientProps.v ===== *)
(** The properties of [CMQTTClient]: safety of all runs, connection and keep
    alive, the retransmission queue, and the delivery of messages. *)
From stdpp Require Import base numbers list gmap option strings sorting.
From S2P Require Import Prelude.
From S2P Require Import Circle.
From S2P Require Import MqttSendPacket.
From S2P Require Import MqttSendSpec.
From S2P Require Import MqttReceivePacket.
From S2P Require Import MqttReceiveSpec.
From S2P Require Import MqttReadSpec.
From S2P Require Import MqttClient.
From S2P Require Import MqttQueueSpec.
From S2P Require Import MqttClientInv.
From S2P Require Import MqttClientPackets.
From S2P Require Import MqttClientSafety.
From S2P Require Import MqttClientTask.
From S2P Require Import MqttClientApi.
From S2P Require Import MqttClientLife.
From S2P Require Import MqttDemo.
From S2P Require Import MqttStreamProps.
Import Mqtt Client.
Import (hints) SendPacket ReceivePacket Script ListPtrList Demo.

Abbreviation queue c := (pl_ptrs (m_RetransmissionQueue c)).
Abbreviation stored c := (pl_ptrs (m_PacketIdentifierStore c)).

(** The faults the task can end in: an assertion of the receiver, or a number
    of packets that exceeds the fuel of the model. *)
Definition client_faults (e : fault) : Prop := e = AssertFailed ∨ e = OutOfFuel.





(** The CONNACK packet.  It is taken from the stream, and then decides: out
    of turn it ends the connection as an invalid packet; return code 0 makes
    the client connected, and [OnConnect] learns whether there is a session;
    the codes 1 to 5 end the connection with the reason of that number, and
    all others with the unknown reason. *)
Theorem connack_outcome `{Target, Platform W, !PlatformOk W, PtrList, !PtrListOk} CB c fl content rest :
  arrived c MQTTConnAck fl content rest →
  ∃ f rc c', content = [f; rc] ∧ taken c rest c' ∧
    handle_packet CB c =
      (if bool_decide (m_ConnectStatus c = MQTTStatusConnectPending)
       then if rc =? 0 then OnConnect CB (Z.odd f) (set_m_ConnectStatus MQTTStatusConnected c')
            else CloseConnection CB
                   (if rc <=? 5 then reason_of_code rc else MQTTDisconnectUnknown) c'
       else CloseConnection CB MQTTDisconnectInvalidPacket c').
Proof.
  intros Ha. destruct (HandleConnAck_run CB _ _ _ _ Ha) as (f & rc & c' & Hc & Hf & Hrc & Ht & E).
  exists f, rc, c'. split_and!; [done|done|]. unfold handle_packet.
  erewrite bind_run; [|done]. destruct Ha as (Et & _). unfold ReceivePacket.GetType. rewrite Et, E.
  unfold connack_reason. rewrite Z.gtb_ltb.
  destruct (Z.ltb_spec 5 rc), (Z.leb_spec rc 5); try lia; done.
Qed.

Lemma connack_outcome_witness :
  let c := Demo.with_packet MQTTConnAck 0 [1; 0] Demo.pending in
  ∃ f rc c', [1; 0] = [f; rc] ∧ taken c [] c' ∧
    handle_packet Demo.recorder c =
      (if bool_decide (m_ConnectStatus c = MQTTStatusConnectPending)
       then if rc =? 0 then OnConnect Demo.recorder (Z.odd f) (set_m_ConnectStatus MQTTStatusConnected c')
            else CloseConnection Demo.recorder
                   (if rc <=? 5 then reason_of_code rc else MQTTDisconnectUnknown) c'
       else CloseConnection Demo.recorder MQTTDisconnectInvalidPacket c').
Proof.
  apply connack_outcome with (fl := 0).
  apply Demo.packet_arrives; [done|by apply (bool_decide_unpack _)|done].
Defined.

(** C26: keep alive.  Until the timer has elapsed nothing happens.  When it
    elapses while the client is connected, PINGREQ is sent, and if that succeeds
    the client waits for the answer with the timer running again, otherwise the
    connection ends; when it elapses during this wait, the connection ends
    because the broker does not answer. *)
Theorem keep_alive `{Target, Platform W, !PlatformOk W, PtrList, !PtrListOk}
    CB bTopic bReceive X c :
  Inv bTopic bReceive true X c → m_bTimerRunning c = true →
  let '(t, u) := CTimer_GetTicks (world c) in
  let stopped := set_m_bTimerRunning false (set_world u c) in
  if s32 (m_nTimerElapsesAt c - t) <=? 0 then
    if bool_decide (m_ConnectStatus c = MQTTStatusConnected) then
      ∃ b c', send_local MQTTPingReq default_packet_size (mret ()) stopped = Ok (b, c') ∧
        m_bTimerRunning c' = b ∧
        m_ConnectStatus c' = (if b then MQTTStatusWaitForPingResp else MQTTStatusConnected) ∧
        KeepAliveHandler CB c =
          if b then Ok ((), c') else CloseConnection CB MQTTDisconnectSendFailed c'
    else
      m_ConnectStatus c = MQTTStatusWaitForPingResp ∧
      KeepAliveHandler CB c = CloseConnection CB MQTTDisconnectPingFailed stopped
  else KeepAliveHandler CB c = Ok ((), set_world u c).
Proof.
  intros Hc Htr. destruct (CTimer_GetTicks (world c)) as [t u] eqn:Et. cbv zeta.
  assert (Hk : KeepAliveHandler CB c =
    (if negb (s32 (m_nTimerElapsesAt c - t) <=? 0) then mret () else
       modify (set_m_bTimerRunning false);;
       if bool_decide (m_ConnectStatus c = MQTTStatusConnected) then
         b ← send_local MQTTPingReq default_packet_size (mret ());
         if negb b then CloseConnection CB MQTTDisconnectSendFailed else mret ()
       else
         assert_ (bool_decide (m_ConnectStatus c = MQTTStatusWaitForPingResp));;
         CloseConnection CB MQTTDisconnectPingFailed) (set_world u c)).
  { unfold KeepAliveHandler. rewrite bind_unfold. cbn [get]. rewrite Htr. cbn [negb].
    erewrite bind_run; [done|]. unfold GetTicks, world_op, env. by rewrite Et. }
  rewrite Hk. destruct (s32 _ <=? 0); cbn [negb]; [|done].
  destruct (timer_stopped bTopic bReceive X c u Hc Htr) as (_ & Hka & [[Es Hc2]|Es]).
  - rewrite bool_decide_eq_true_2 by done.
    destruct (wp_total _ _ _ (send_ping_spec bTopic bReceive no_fault true X _ Hc2 Es Hka eq_refl))
      as (b & c' & E & _ & Ht & Hs).
    exists b, c'. split_and!; [done|done|done|]. erewrite bind_run; [|done].
    erewrite bind_run; [|exact E]. by destruct b.
  - rewrite bool_decide_eq_false_2 by congruence. split; [done|].
    erewrite bind_run; [|done]. rewrite bind_unfold. unfold assert_. by rewrite bool_decide_eq_true_2.
Qed.

(** A connected client whose timer is about to elapse. *)
Definition demo_timer : CMQTTClient := Demo.state_of (start_timer 0 Demo.connected).

Lemma timer_started (c : CMQTTClient) :
  Inv true true true [] c → m_ConnectStatus c = MQTTStatusConnected → 0 < m_nKeepAliveSeconds c →
  ∃ c', start_timer 0 c = Ok ((), c') ∧ Inv true true true [] c' ∧ m_bTimerRunning c' = true.
Proof.
  intros Hc Hst Hka.
  assert (Hr : wp no_fault (start_timer 0) (λ _ c', Inv true true true [] c' ∧ m_bTimerRunning c' = true) c).
  { apply start_timer_spec. intros c' Hs Ht _. split; [|done].
    eapply Inv_steady; [exact Hc|exact Hs|congruence|done]. }
  destruct (wp_total _ _ _ Hr) as ([] & c' & E & Hc'). eauto.
Qed.

Lemma demo_timer_ok : Inv true true true [] demo_timer ∧ m_bTimerRunning demo_timer = true.
Proof.
  assert (Hst : m_ConnectStatus Demo.connected = MQTTStatusConnected) by done.
  assert (Hne : m_ConnectStatus Demo.connected ≠ MQTTStatusDisconnected) by by rewrite Hst.
  assert (Hka : 0 < m_nKeepAliveSeconds Demo.connected) by by vm_compute.
  destruct (timer_started Demo.connected (Inv_connected _ _ _ _ _ Demo.connected_Inv Hne) Hst Hka)
    as (c' & E & Hc'). unfold demo_timer. by rewrite E.
Qed.

Lemma keep_alive_witness :
  ∃ b c', send_local MQTTPingReq default_packet_size (mret ())
      (set_m_bTimerRunning false (set_world (world demo_timer) demo_timer)) = Ok (b, c') ∧
    m_bTimerRunning c' = b ∧
    m_ConnectStatus c' = (if b then MQTTStatusWaitForPingResp else MQTTStatusConnected) ∧
    KeepAliveHandler default_callbacks demo_timer =
      if b then Ok ((), c') else CloseConnection default_callbacks MQTTDisconnectSendFailed c'.
Proof.
  destruct demo_timer_ok as [Hc Htr].
  pose proof (keep_alive default_callbacks true true [] demo_timer Hc Htr) as Hk.
  assert (Et : CTimer_GetTicks (world demo_timer) = (0, world demo_timer)) by (vm_compute; reflexivity).
  assert (El : s32 (m_nTimerElapsesAt demo_timer - 0) <=? 0 = true) by (vm_compute; reflexivity).
  assert (Es : bool_decide (m_ConnectStatus demo_timer = MQTTStatusConnected) = true)
    by (vm_compute; reflexivity).
  rewrite Et in Hk. cbv zeta in Hk. rewrite El, Es in Hk. exact Hk.
Defined.

(** C25: the retransmission queue stays sorted.  On the wrapping tick counter,
    with all scheduled times within half of its range, [InsertPacketIntoQueue]
    puts a packet behind those that are due no later: the queue has one packet
    more, the order of the true times is kept, and no other scheduled time
    changes. *)
Theorem queue_sorted `{Target, Platform W, PtrList, !PtrListOk} c a p (time : Z → Z) base :
  heap c !! a = Some p → a ∉ queue c → Forall (in_heap queueable c) (queue c) →
  Forall (λ b, due c b = u32 (time b)) (queue c) →
  Forall (λ b, 0 ≤ time b - base < 2^31) (a :: queue c) →
  Sorted (λ x y, time x ≤ time y) (queue c) →
  ∃ c', InsertPacketIntoQueue a (u32 (time a)) c = Ok ((), c') ∧
    queue c' ≡ₚ a :: queue c ∧ Sorted (λ x y, time x ≤ time y) (queue c') ∧
    Forall (λ b, due c' b = u32 (time b)) (queue c').
Proof.
  intros Hp Ha Hq Hdue Hwin Hs.
  assert (Hr : wp no_fault (InsertPacketIntoQueue a (u32 (time a)))
    (λ _ c', queue c' ≡ₚ a :: queue c ∧ Sorted (λ x y, time x ≤ time y) (queue c') ∧
             Forall (λ b, due c' b = u32 (time b)) (queue c')) c).
  { eapply InsertPacketIntoQueue_spec; [done..|]. intros c' q' -> Hq' _.
    set (f := λ b, if decide (b = a) then u32 (time a) else due c b).
    assert (Hf : ∀ b, b ∈ queue c → due c b = f b).
    { intros b Hb. unfold f. rewrite decide_False; [done|by intros ->]. }
    assert (Hfa : f a = u32 (time a)) by (unfold f; by rewrite decide_True).
    rewrite (insert_due_ext _ f _ _ _ Hf), <-Hfa in Hq'. cbn [m_RetransmissionQueue set_m_RetransmissionQueue].
    rewrite Hq'. split_and!.
    - apply insert_due_perm.
    - apply (insert_due_sorted base time f); [|done]. apply Forall_cons in Hwin as [Hwa Hwin].
      constructor; [done|]. apply Forall_forall. intros b Hb. rewrite Forall_forall in Hwin, Hdue.
      split; [rewrite <-Hf by done; by apply Hdue|by apply Hwin].
    - rewrite insert_due_perm. rewrite Forall_forall in Hdue. constructor.
      + unfold due. cbn. by rewrite lookup_insert_eq.
      + apply Forall_forall. intros b Hb. rewrite <-(Hdue b Hb). unfold due. cbn.
        rewrite lookup_insert_ne; [done|by intros ->]. }
  destruct (wp_total _ _ _ Hr) as ([] & c' & E & Hc'). eauto.
Qed.

(** A client with two packets in the heap, of which the first is queued. *)
Definition demo_packet_at (t : Z) : CMQTTSendPacket :=
  SendPacket.mkSendPacket MQTTPublish 128 false (Some (uninit 128)) 5 2 5 (Some t) (Some 1) (Some 7).
Definition demo_queued : CMQTTClient :=
  set_m_RetransmissionQueue (InsertAfter pl_empty None 1)
    (set_heap {[ 1 := demo_packet_at 4294967290; 2 := demo_packet_at 0 ]} Demo.junk).

Lemma queue_sorted_witness :
  ∃ c', InsertPacketIntoQueue 2 (u32 4294967300) demo_queued = Ok ((), c') ∧
    queue c' ≡ₚ [2; 1] ∧
    Sorted (λ x y, (if x =? 1 then 4294967290 else 4294967300)
                 ≤ (if y =? 1 then 4294967290 else 4294967300)) (queue c') ∧
    Forall (λ b, due c' b = u32 (if b =? 1 then 4294967290 else 4294967300)) (queue c').
Proof.
  apply (queue_sorted demo_queued 2 (demo_packet_at 0) (λ b, if b =? 1 then 4294967290 else 4294967300) 4294967290).
  - done.
  - cbn. set_solver.
  - repeat constructor. exists (demo_packet_at 4294967290). repeat split; by eexists.
  - by repeat constructor.
  - repeat constructor; cbn; lia.
  - repeat constructor.
Defined.

(** [Sender] always returns: its loop takes a try from a packet in every
    round, and packets have finitely many.  The invariant is kept. *)
Theorem sender_returns `{Target, Platform W, !PlatformOk W, PtrList, !PtrListOk}
    CB bTopic bReceive w X c :
  callbacks_ok bTopic bReceive no_fault CB → Inv bTopic bReceive w X c →
  ∃ c', Sender CB c = Ok ((), c') ∧ Inv bTopic bReceive w X c'.
Proof.
  intros HCB Hc.
  destruct (wp_total _ _ _ (Sender_Inv bTopic bReceive no_fault CB HCB w X c Hc)) as ([] & c' & E & Hc').
  eauto.
Qed.

Lemma sender_returns_witness :
  ∃ c', Sender Demo.recorder Demo.connected = Ok ((), c') ∧ Inv true true false [] c'.
Proof.
  apply (sender_returns Demo.recorder true true false [] Demo.connected);
    [apply Demo.recorder_ok|apply Demo.connected_Inv].
Defined.

(** A packet is given up when its tries are used up: if it is the first of
    the queue and due, [Sender] deletes it and ends the connection. *)
Theorem sender_gives_up `{Target, Platform W, !PlatformOk W, PtrList, !PtrListOk}
    CB bTopic bReceive w c a l p t :
  Inv bTopic bReceive w [] c → queue c = a :: l → heap c !! a = Some p →
  SendPacket.m_nScheduledTime p = Some t → SendPacket.m_nSendTries p = 0 →
  later t (CTimer_GetTicks (world c)).1 = false →
  ∃ c', Sender CB c = CloseConnection CB MQTTDisconnectSendFailed c' ∧
    queue c' = l ∧ heap c' !! a = None ∧ Inv bTopic bReceive w [] c'.
Proof.
  intros Hc Hq Hp Ht Htr Hdue.
  assert (Hv : ∃ e post, pl_view (m_RetransmissionQueue c) = (e, a) :: post ∧ post.*2 = l).
  { unfold pl_ptrs in Hq. destruct (pl_view _) as [|[e b] post]; simplify_eq/=. eauto. }
  destruct Hv as (e & post & Hv & Hl).
  destruct (wp_tail (Sender CB) (CloseConnection CB MQTTDisconnectSendFailed)
    (λ c', queue c' = l ∧ Inv bTopic bReceive w [] c') c) as (c' & [Hq' Hc'] & E).
  { intros F Q HQ. unfold Sender. wp_step. apply wp_env. intros t0 u Et. rewrite Et in Hdue. cbn [fst] in Hdue.
    wp_steps. rewrite GetFirst_view. cbn [m_RetransmissionQueue set_world]. rewrite Hv. cbn [head fmap list_fmap fst].
    assert (Hc1 : Inv bTopic bReceive w [] (set_world u c)) by (by eapply Inv_view).
    eapply (sender_round bTopic bReceive F CB _ w [] _ _ []); [exact Hc1|exact Hv|exact Hp|exact Ht| | |].
    - by rewrite Hdue.
    - intros c' _ Hc' Hq'. apply HQ. split; [by rewrite Hq'|done].
    - intros c' _ _ Hpos. lia. }
  exists c'. split_and!; [done|done| |done].
  pose proof Hc as [[[Hnd _ _ _ _ _] _ _ _ _ _] _]. rewrite app_nil_r, Hq in Hnd.
  apply NoDup_cons in Hnd as [Hni _]. destruct (heap c' !! a) as [p'|] eqn:Ea; [|done].
  pose proof Hc' as [[[_ Hdom _ _ _ _] _ _ _ _ _] _].
  exfalso. apply Hni. rewrite <-Hq'. rewrite <-(app_nil_r (queue c')). apply Hdom. eauto.
Qed.

(** A connected client with one packet that has no tries left. *)
Definition exhausted : CMQTTSendPacket :=
  SendPacket.mkSendPacket MQTTPublish 128 false (Some (uninit 128)) 5 2 0 (Some 0) (Some 1) (Some 7).
Definition demo_exhausted : CMQTTClient :=
  set_m_RetransmissionQueue (InsertAfter pl_empty None 1)
    (set_heap {[ 1 := exhausted ]} (set_heap_next 2 Demo.connected)).

Lemma queued_Inv (c : CMQTTClient) p :
  Inv true true false [] c → m_ConnectStatus c = MQTTStatusConnected →
  packet_ok p → retransmitted (SendPacket.GetType p) = true → queueable p →
  Inv true true false [] (set_m_RetransmissionQueue (InsertAfter pl_empty None 1)
    (set_heap {[ 1 := p ]} (set_heap_next 2 c))).
Proof.
  intros Hc Hst Hok Ht Hq. eapply Inv_heap; [exact Hc|done| |by rewrite Hst].
  assert (Hone : ∀ a, is_Some (({[ 1 := p ]} : gmap Z CMQTTSendPacket) !! a) ↔ a = 1).
  { intros a. rewrite lookup_singleton_is_Some. split; by intros ->. }
  split; cbn.
  - repeat constructor. set_solver.
  - intros a. rewrite Hone. set_solver.
  - intros a ->%Hone. lia.
  - lia.
  - by intros a p' [<- <-]%lookup_singleton_Some.
  - repeat constructor. exists p. split; [apply lookup_singleton_eq|done].
Qed.

Lemma demo_exhausted_Inv : Inv true true false [] demo_exhausted.
Proof.
  apply queued_Inv; [apply Demo.connected_Inv|done| |done|by split_and!; eexists].
  split; [|split_and!; by vm_compute]. exists (Some []). split; [cbn; lia|].
  split_and!; try done. eexists. split_and!; [done|done|by apply holds_nil].
Qed.

Lemma sender_gives_up_witness :
  ∃ c', Sender Demo.recorder demo_exhausted
      = CloseConnection Demo.recorder MQTTDisconnectSendFailed c' ∧
    queue c' = [] ∧ heap c' !! 1 = None ∧ Inv true true false [] c'.
Proof.
  apply (sender_gives_up Demo.recorder true true false demo_exhausted 1 [] exhausted 0).
  - apply demo_exhausted_Inv.
  - reflexivity.
  - reflexivity.
  - reflexivity.
  - reflexivity.
  - vm_compute. reflexivity.
Defined.

(** The QoS of the packets an acknowledgement of this type ends. *)
Definition ack_QoS (t : TMQTTPacketType) : option Z :=
  match t with
  | MQTTPubAck | MQTTUnsubAck => Some MQTT_QOS_AT_LEAST_ONCE
  | MQTTPubComp => Some MQTT_QOS_EXACTLY_ONCE
  | _ => None
  end.

Lemma handle_ack `{Target, Platform W, !PlatformOk W, PtrList, !PtrListOk} CB c t fl content rest q :
  arrived c t fl content rest → ack_QoS t = Some q →
  ∃ us c', content = be16 us ∧ is_u16 us ∧ taken c rest c' ∧
    handle_packet CB c = acknowledged CB q us c'.
Proof.
  intros Ha Hq. pose proof Ha as (Et & _). unfold handle_packet.
  destruct t; try done; injection Hq as <-.
  - destruct (HandlePubAck_run CB _ _ _ _ Ha) as (us & c' & ? & ? & ? & E). exists us, c'.
    split_and!; try done. erewrite bind_run; [|done]. unfold ReceivePacket.GetType. by rewrite Et.
  - destruct (HandlePubComp_run CB _ _ _ _ Ha) as (us & c' & ? & ? & ? & E). exists us, c'.
    split_and!; try done. erewrite bind_run; [|done]. unfold ReceivePacket.GetType. by rewrite Et.
  - destruct (HandleUnsubAck_run CB _ _ _ _ Ha) as (us & c' & ? & ? & ? & E). exists us, c'.
    split_and!; try done. erewrite bind_run; [|done]. unfold ReceivePacket.GetType. by rewrite Et.
Qed.

(** A list is split in one way at the first element with a property. *)
Lemma first_split {A} (P : A → Prop) (l1 l2 k1 k2 : list A) a b :
  l1 ++ a :: l2 = k1 ++ b :: k2 → Forall (λ x, ¬ P x) l1 → Forall (λ x, ¬ P x) k1 → P a → P b →
  l1 = k1 ∧ a = b ∧ l2 = k2.
Proof.
  revert k1. induction l1 as [|x l1 IH]; intros [|y k1] E H1' H2' Ha Hb; simplify_eq/=; try done.
  - apply Forall_cons in H2' as [? _]. done.
  - apply Forall_cons in H1' as [? _]. done.
  - apply Forall_cons in H1' as [_ ?]. apply Forall_cons in H2' as [_ ?].
    destruct (IH k1) as (-> & -> & ->); done.
Qed.

(** PUBACK, UNSUBACK and PUBCOMP end exactly the transaction with their
    packet identifier.  The first queued packet with it is removed from the
    queue and from the heap, if it has the QoS the acknowledgement belongs to,
    and nothing else in the queue or the heap changes; if no packet has the
    identifier, the connection ends. *)
Theorem acknowledgement `{Target, Platform W, !PlatformOk W, PtrList, !PtrListOk}
    CB bTopic bReceive w c t fl content rest q :
  Inv bTopic bReceive w [] c → arrived c t fl content rest → ack_QoS t = Some q →
  ∃ us c', content = be16 us ∧ taken c rest c' ∧
    (∀ l1 a l2 p, queue c = l1 ++ a :: l2 → Forall (λ b, ident c b ≠ us) l1 →
       heap c !! a = Some p → SendPacket.m_usPacketIdentifier p = Some us →
       SendPacket.m_uchQoS p = Some q →
       ∃ c'', handle_packet CB c = Ok ((), c'') ∧ queue c'' = l1 ++ l2 ∧ heap c'' = delete a (heap c)) ∧
    (Forall (λ b, ident c b ≠ us) (queue c) →
       handle_packet CB c = CloseConnection CB MQTTDisconnectPacketIdentifier c').
Proof.
  intros Hc Ha Hq. destruct (handle_ack CB c t fl content rest q Ha Hq) as (us & c' & Hct & Hus & Ht & E).
  pose proof (taken_Inv _ _ _ _ _ _ _ _ _ _ _ Hc Ha Ht) as Hc'.
  assert (Hsame : queue c' = queue c ∧ heap c' = heap c) by (by destruct Ht as (rp & -> & _)).
  destruct Hsame as [Hsq Hsh].
  assert (Hid : ∀ b, ident c' b = ident c b) by (intros b; unfold ident; by rewrite Hsh).
  exists us, c'. split_and!; [done|done| |].
  - intros l1 a l2 p Hqu Hbef Hp Hpid HQoS.
    assert (Hr : wp no_fault (acknowledged CB q us)
      (λ _ c'', queue c'' = l1 ++ l2 ∧ heap c'' = delete a (heap c)) c').
    { unfold acknowledged. wp_step. eapply RemovePacketFromQueue_Inv; [exact Hc'| |].
      - intros a' p' c1 k1 k2 Hc1 Ha1 Hqp Hpid' _ Hh1 _ Hk Hkb Hq1.
        assert (l1 = k1 ∧ a = a' ∧ l2 = k2) as (<- & <- & <-).
        { apply (first_split (λ b, ident c b = us)).
          - congruence.
          - done.
          - eapply Forall_impl; [exact Hkb|]. intros b Hb Hib. apply Hb. by rewrite Hid.
          - unfold ident. rewrite Hp. cbn. by rewrite Hpid.
          - destruct Ha1 as [_ Ha1]. unfold ident. rewrite Hh1, Hsh in Ha1. rewrite Ha1. cbn. by rewrite Hpid'. }
        assert (p' = p) as -> by (destruct Ha1; congruence).
        wp_step. eapply has_QoS_spec; [exact Ha1|exact Hqp|].
        rewrite bool_decide_eq_true_2 by done. cbn [negb when]. wp_steps.
        destruct Ha1 as [_ Ha1]. eapply delete_packet_Ok; [exact Ha1|].
        split; [exact Hq1|]. cbn. by rewrite Hh1, Hsh.
      - intros Hno. exfalso. rewrite Hsq, Hqu in Hno. apply Forall_app in Hno as [_ [Hno _]%Forall_cons].
        apply Hno. rewrite Hid. unfold ident. rewrite Hp. cbn. by rewrite Hpid. }
    destruct (wp_total _ _ _ Hr) as ([] & c'' & E' & Hc''). exists c''. by rewrite E.
  - intros Hno. rewrite E.
    assert (Hr : wp no_fault (RemovePacketFromQueue us) (λ o s, o = None ∧ s = c') c').
    { eapply RemovePacketFromQueue_Inv; [exact Hc'| |done].
      intros a' p' c1 k1 k2 _ Ha1 _ Hpid' _ Hh1 _ Hk _ _. exfalso.
      rewrite <-Hsq, Hk in Hno. apply Forall_app in Hno as [_ [Hno _]%Forall_cons].
      apply Hno. destruct Ha1 as [_ Ha1]. unfold ident. rewrite Hh1, Hsh in Ha1. rewrite Ha1. cbn. by rewrite Hpid'. }
    destruct (wp_total _ _ _ Hr) as (o & s & Er & -> & ->).
    unfold acknowledged. erewrite bind_run; [|exact Er]. erewrite bind_run; [|done].
    cbn [negb when]. rewrite bind_unfold. by destruct (CloseConnection CB _ c') as [[[] ?]|].
Qed.

Lemma acknowledgement_witness :
  let c := Demo.with_packet MQTTPubAck 0 [0; 9] demo_exhausted in
  ∃ us c', [0; 9] = be16 us ∧ taken c [] c' ∧
    (Forall (λ b, ident c b ≠ us) (queue c) →
       handle_packet Demo.recorder c = CloseConnection Demo.recorder MQTTDisconnectPacketIdentifier c').
Proof.
  set (c := Demo.with_packet MQTTPubAck 0 [0; 9] demo_exhausted).
  assert (Ha : arrived c MQTTPubAck 0 [0; 9] [])
    by (apply Demo.packet_arrives; [done|by apply (bool_decide_unpack _)|done]).
  assert (Hc : Inv true true false [] c).
  { apply Inv_rp; [apply demo_exhausted_Inv|done| |done].
    destruct Ha as (_ & _ & _ & _ & _ & hdr & [Hb _] & _). eauto. }
  destruct (acknowledgement Demo.recorder true true false c MQTTPubAck 0 [0; 9] [] 1 Hc Ha eq_refl)
    as (us & c' & Hct & Ht & _ & Hno). exists us, c'. split; [exact Hct|]. split; [exact Ht|exact Hno].
Defined.

(** C24: a QoS 2 message is delivered exactly once.  A PUBLISH packet with QoS 2
    is answered with PUBREC.  If its identifier is in the store, it is a
    duplicate: no virtual function is called and the store stays.  Otherwise
    the identifier is stored first, and [OnMessage] is called with the topic,
    the payload and the retain flag of the packet.  When PUBREC cannot be sent,
    nothing is delivered and the connection ends. *)
Theorem qos2_delivery `{Target, Platform W, !PlatformOk W, PtrList, !PtrListOk}
    CB bTopic bReceive w X c fl content rest topic payload us :
  Inv bTopic bReceive w X c → arrived c MQTTPublish fl content rest →
  m_ConnectStatus c ≠ MQTTStatusDisconnected → ReceivePacket.flags_qos fl = 2 →
  read_publish 2 (m_nMaxTopicSize c + 1) content = PublishRead topic payload us →
  ∃ c1 b c2, read_buffers c c1 ∧ send_ack MQTTPubRec us c1 = Ok (b, c2) ∧
    if b then
      if decide (us ∈ stored c) then
        ∃ c3, handle_packet CB c = Ok ((), c3) ∧ taken c2 rest c3 ∧ stored c3 = stored c
      else
        ∃ c3, m_ReceivePacket c3 = m_ReceivePacket c2 ∧ stored c3 = us :: stored c ∧
          handle_packet CB c =
            (OnMessage CB (until_nul topic) payload (Z.odd fl);; rp_op ReceivePacket.Complete) c3
    else
      handle_packet CB c =
        (rp_op ReceivePacket.Complete;; CloseConnection CB MQTTDisconnectSendFailed) c2.
Proof.
  intros Hc Ha Hst Hq Hrd. pose proof Hc as [[_ (Hmt & _ & Htb & _) _ _ _ Hcc] _].
  destruct (Hcc Hst) as (_ & HbT & _). rewrite HbT in Htb. destruct Htb as (tb & Htb & Hl).
  pose proof (arrived_ok _ _ _ _ _ Ha) as [_ Hbytes].
  pose proof (HandlePublish_run CB _ _ _ _ _ Ha Htb Hl ltac:(lia)) as Hrun. cbv zeta in Hrun.
  rewrite Hq, Hrd in Hrun. destruct Hrun as (c1 & i & Hrb & Hready & Erun).
  destruct (read_publish_us _ _ _ _ _ _ Hbytes Hrd) as [Hus Hnz].
  assert (Hc1 : Inv bTopic bReceive w X c1) by (by eapply read_buffers_Inv).
  assert (Hs1 : stored c1 = stored c) by (by destruct Hrb as (rp & tb0 & tb' & -> & _)).
  assert (Hack : wp no_fault (send_ack MQTTPubRec us) (λ _ c2, steady c2 = steady c1) c1).
  { apply (send_ack_spec bTopic bReceive no_fault w X); [exact Hc1|done|done|]. by intros. }
  destruct (wp_total _ _ _ Hack) as (b & c2 & Eack & Hst2).
  assert (Hsame : m_ReceivePacket c2 = m_ReceivePacket c1 ∧ m_pTopicBuffer c2 = m_pTopicBuffer c1 ∧
                  stored c2 = stored c).
  { unfold steady in Hst2. injection Hst2 as _ _ Htb' _ _ _ _ Hrp' _ Hsto' _ _.
    by rewrite Hrp', Htb', Hsto'. }
  destruct Hsame as (Hrp2 & Htb2 & Hsto2).
  assert (Hready2 : ready c2 topic i payload rest) by (by eapply ready_other).
  exists c1, b, c2. split_and!; [done|done|].
  assert (Eh : handle_packet CB c =
    (if negb b then rp_op ReceivePacket.Complete;; CloseConnection CB MQTTDisconnectSendFailed
     else
       bStored ← IsPacketIdentifierInStore us;
       when (negb bStored)
         (InsertPacketIdentifierIntoStore us;;
          deliver CB (Some i) (Z.of_nat (length payload)) (Z.odd fl));;
       rp_op ReceivePacket.Complete) c2).
  { unfold handle_packet. erewrite bind_run; [|done]. pose proof Ha as (Et & _).
    unfold ReceivePacket.GetType. rewrite Et, Erun. unfold publish_received.
    cbn [Z.eqb Pos.eqb MQTT_QOS_AT_MOST_ONCE MQTT_QOS_AT_LEAST_ONCE MQTT_QOS_EXACTLY_ONCE].
    by erewrite bind_run. }
  rewrite Eh. clear Eh. destruct b; cbn [negb]; [|done].
  assert (Ein : IsPacketIdentifierInStore us c2 = Ok (bool_decide (us ∈ stored c), c2)).
  { unfold IsPacketIdentifierInStore, gets. by rewrite stored_find, Hsto2. }
  erewrite bind_run; [|exact Ein]. destruct (decide (us ∈ stored c)) as [Hin|Hni].
  - rewrite bool_decide_eq_true_2 by done. cbn [negb when]. erewrite bind_run; [|done].
    destruct Hready2 as (pre & _ & _ & Hr & _). destruct (rp_Complete c2 pre rest Hr) as (c3 & E3 & Ht3).
    exists c3. split_and!; [done|done|]. by destruct Ht3 as (rp & -> & _).
  - rewrite bool_decide_eq_false_2 by done. cbn [negb when].
    assert (Hins : wp no_fault (InsertPacketIdentifierIntoStore us)
      (λ _ c3, ∃ l', c3 = set_m_PacketIdentifierStore l' c2 ∧ pl_ptrs l' = us :: stored c) c2).
    { apply InsertPacketIdentifierIntoStore_spec. intros l' Hl'. exists l'. by rewrite Hl', Hsto2. }
    destruct (wp_total _ _ _ Hins) as ([] & c3 & E3 & l' & -> & Hl').
    exists (set_m_PacketIdentifierStore l' c2). split_and!; [done|done|].
    rewrite !bind_unfold, E3. erewrite deliver_run; [done|]. eapply ready_other; [exact Hready2|done..].
Qed.

Lemma qos2_delivery_witness :
  let c := Demo.with_packet MQTTPublish 4 [0; 1; 116; 0; 9; 55] Demo.connected in
  ∃ c1 b c2, read_buffers c c1 ∧ send_ack MQTTPubRec 9 c1 = Ok (b, c2).
Proof.
  set (c := Demo.with_packet MQTTPublish 4 [0; 1; 116; 0; 9; 55] Demo.connected).
  assert (Ha : arrived c MQTTPublish 4 [0; 1; 116; 0; 9; 55] [])
    by (apply Demo.packet_arrives; [done|by apply (bool_decide_unpack _)|done]).
  assert (Hc : Inv true true false [] c).
  { apply Inv_rp; [apply Demo.connected_Inv|done| |done].
    destruct Ha as (_ & _ & _ & _ & _ & hdr & [Hb _] & _). eauto. }
  destruct (qos2_delivery Demo.recorder true true false [] c 4 _ [] [116] [55] 9 Hc Ha)
    as (c1 & b & c2 & Hrb & E & _); [done|done|done|]. exists c1, b, c2. split; [exact Hrb|exact E].
Defined.

(** PUBREL ends the delivery of a QoS 2 message: it is answered with
    PUBCOMP, and then exactly its identifier leaves the store, so that the
    identifier can be used again.  Identifier 0 is invalid. *)
Theorem pubrel_releases `{Target, Platform W, !PlatformOk W, PtrList, !PtrListOk}
    CB bTopic bReceive w X c fl content rest :
  Inv bTopic bReceive w X c → arrived c MQTTPubRel fl content rest →
  ∃ us c1, content = be16 us ∧ taken c rest c1 ∧
    if us =? 0 then handle_packet CB c = CloseConnection CB MQTTDisconnectInvalidPacket c1
    else ∃ b c2, send_ack MQTTPubComp us c1 = Ok (b, c2) ∧
      if b then ∃ c3, handle_packet CB c = Ok ((), c3) ∧
                 ∀ x, x ∈ stored c3 ↔ x ∈ stored c ∧ x ≠ us
      else handle_packet CB c = CloseConnection CB MQTTDisconnectSendFailed c2.
Proof.
  intros Hc Ha. destruct (HandlePubRel_run CB _ _ _ _ Ha) as (us & c1 & Hct & Hus & Ht & E).
  assert (Eh : handle_packet CB c = HandlePubRel CB c).
  { unfold handle_packet. erewrite bind_run; [|done]. pose proof Ha as (Et & _).
    unfold ReceivePacket.GetType. by rewrite Et. }
  rewrite Eh, E. exists us, c1. split_and!; [done|done|].
  destruct (us =? 0); [done|].
  pose proof (taken_Inv _ _ _ _ _ _ _ _ _ _ _ Hc Ha Ht) as Hc1.
  assert (Hack : wp no_fault (send_ack MQTTPubComp us)
    (λ _ c2, Inv bTopic bReceive w X c2 ∧ steady c2 = steady c1) c1).
  { apply (send_ack_spec bTopic bReceive no_fault w X); [exact Hc1|done|done|]. by intros. }
  destruct (wp_total _ _ _ Hack) as (b & c2 & Eack & Hc2 & Hst2).
  exists b, c2. split; [done|]. erewrite bind_run; [|exact Eack]. destruct b; cbn [negb]; [|done].
  assert (Hsto : stored c2 = stored c).
  { unfold steady in Hst2. injection Hst2 as _ _ _ _ _ _ _ _ _ Hsto' _ _. rewrite Hsto'.
    by destruct Ht as (rp & -> & _). }
  assert (Hrem : wp no_fault (RemovePacketIdentifierFromStore us;; mret ())
    (λ _ c3, ∀ x, x ∈ stored c3 ↔ x ∈ stored c ∧ x ≠ us) c2).
  { wp_step. pose proof Hc2 as [[_ _ [Hnd _] _ _ _] _].
    apply RemovePacketIdentifierFromStore_spec.
    - intros l1 l2 l' Es Hni Hl'. wp_steps. intros x. cbn [m_PacketIdentifierStore set_m_PacketIdentifierStore].
      rewrite Hl', <-Hsto, Es. rewrite Es in Hnd.
      apply NoDup_app in Hnd as (_ & _ & [Hni2 _]%NoDup_cons).
      rewrite !elem_of_app, elem_of_cons. naive_solver.
    - intros Hni. wp_steps. intros x. rewrite <-Hsto. naive_solver. }
  destruct (wp_total _ _ _ Hrem) as ([] & c3 & E3 & Hc3). eauto.
Qed.

Lemma pubrel_releases_witness :
  let c := Demo.with_packet MQTTPubRel 2 [0; 9] Demo.connected in
  ∃ us c1, [0; 9] = be16 us ∧ taken c [] c1.
Proof.
  set (c := Demo.with_packet MQTTPubRel 2 [0; 9] Demo.connected).
  assert (Ha : arrived c MQTTPubRel 2 [0; 9] [])
    by (apply Demo.packet_arrives; [done|by apply (bool_decide_unpack _)|done]).
  assert (Hc : Inv true true false [] c).
  { apply Inv_rp; [apply Demo.connected_Inv|done| |done].
    destruct Ha as (_ & _ & _ & _ & _ & hdr & [Hb _] & _). eauto. }
  destruct (pubrel_releases Demo.recorder true true false [] c 2 _ [] Hc Ha) as (us & c1 & Hct & Ht & _).
  exists us, c1. split; [exact Hct|exact Ht].
Defined.

(** A broker can end the program with a malformed packet.  In a PUBLISH
    packet with QoS 1 or 2 whose topic leaves less than two bytes for the
    packet identifier, the identifier is read before its presence is checked,
    and an assertion fails. *)
Theorem short_publish_asserts `{Target, Platform W, !PlatformOk W, PtrList, !PtrListOk}
    CB bTopic bReceive w X c fl topic tail rest :
  Inv bTopic bReceive w X c → m_ConnectStatus c ≠ MQTTStatusDisconnected →
  arrived c MQTTPublish fl (str topic ++ tail) rest → 0 < ReceivePacket.flags_qos fl →
  topic ≠ [] → forallb is_ascii topic = true → Z.of_nat (length topic) < 2^16 →
  Z.of_nat (length topic) ≤ m_nMaxTopicSize c → (length tail < 2)%nat →
  handle_packet CB c = Fault AssertFailed.
Proof.
  intros Hc Hst Ha Hq Hne Hascii Hl16 Hlt Htail. pose proof Hc as [[_ (Hmt & _ & Htb & _) _ _ _ Hcc] _].
  destruct (Hcc Hst) as (_ & HbT & _). rewrite HbT in Htb. destruct Htb as (tb & Htb & Hl).
  pose proof (HandlePublish_run CB _ _ _ _ _ Ha Htb Hl ltac:(lia)) as Hrun. cbv zeta in Hrun.
  unfold read_publish in Hrun. rewrite string_of_str in Hrun; [|done|done|lia].
  destruct topic as [|ch topic]; [done|]. rewrite Z.gtb_ltb, (proj2 (Z.ltb_lt _ _) Hq) in Hrun.
  unfold handle_packet. erewrite bind_run; [|done]. pose proof Ha as (Et & _).
  unfold ReceivePacket.GetType. rewrite Et.
  destruct tail as [|b1 [|b2 tail]]; cbn in Htail; [exact Hrun|exact Hrun|lia].
Qed.

Lemma short_publish_asserts_witness :
  handle_packet Demo.recorder (Demo.with_packet MQTTPublish 2 [0; 3; 97; 98; 99] Demo.connected)
    = Fault AssertFailed.
Proof.
  set (c := Demo.with_packet MQTTPublish 2 [0; 3; 97; 98; 99] Demo.connected).
  assert (Ha : arrived c MQTTPublish 2 (str [97; 98; 99] ++ []) [])
    by (apply Demo.packet_arrives; [done|by apply (bool_decide_unpack _)|done]).
  assert (Hc : Inv true true false [] c).
  { apply Inv_rp; [apply Demo.connected_Inv|done| |done].
    destruct Ha as (_ & _ & _ & _ & _ & hdr & [Hb _] & _). eauto. }
  assert (Hst : m_ConnectStatus c = MQTTStatusConnected) by reflexivity.
  assert (Hmt : m_nMaxTopicSize c = 16) by (vm_compute; reflexivity).
  apply (short_publish_asserts Demo.recorder true true false [] c 2 [97; 98; 99] [] [] Hc);
    [by rewrite Hst|exact Ha|done|done|done|done|rewrite Hmt; cbn; lia|cbn; lia].
Defined.

(** The packet [Publish] sends with QoS 0 has a packet identifier, which
    the MQTT specification (2.3.1) excludes: whoever reads the packet by the
    specification, as this client's own receiver does, gets a message with two
    bytes more than were published. *)
Theorem qos0_publish_identifier `{Target, Platform W} n topic us payload retain size :
  128 ≤ n < 2^31 →
  SendPacket.MAX_LENGTH_FIXED_HEADER + Z.of_nat (length (publish_bytes topic us payload)) ≤ n →
  c_str topic → topic ≠ [] → forallb is_ascii topic = true → Z.of_nat (length topic) + 1 ≤ size →
  0 < us < 2^16 → bytes payload →
  ∃ p p1 content,
    SendPacket.construct true MQTTPublish n = Ok p ∧
    publish_content (publish_flags 0 retain) topic us payload p = Ok ((), p1) ∧
    repr p1 (Some content) ∧ read_publish 0 size content = PublishRead topic (be16 us ++ payload) 0.
Proof.
  intros Hn Hfit Ht Hne Ha Hs Hus Hpl.
  destruct (construct_repr true MQTTPublish n Hn) as (p & Ep & Hp & Ety & Hm & _).
  set (fl := publish_flags 0 retain).
  assert (Hfl : fl = Z.b2z retain) by (apply publish_flags_value; lia).
  destruct (wp_total _ _ _ (publish_appends us topic payload ltac:(unfold is_u16; lia) Ht Hpl
    (SendPacket.set_m_uchFlags fl p) (Some []) Hp)) as ([] & p1 & E1 & Hp1 & _).
  exists p, p1, (publish_bytes topic us payload). split_and!; [done| | |].
  - unfold publish_content, SendPacket.SetFlags. rewrite !bind_unfold. cbn [get].
    rewrite bind_unfold. unfold assert_. rewrite Ety, bool_decide_eq_true_2, bind_unfold by done.
    assert (Hfl15 : fl ≤ 15) by (rewrite Hfl; destruct retain; cbn; lia).
    destruct (Z.leb_spec fl 0x0F); [exact E1|lia].
  - revert Hp1. unfold append_spec. cbn [mbind option_bind length app].
    destruct (Z.leb_spec (SendPacket.MAX_LENGTH_FIXED_HEADER + Z.of_nat 0 + Z.of_nat (length (publish_bytes topic us payload)))
      (SendPacket.m_nMaxPacketSize (SendPacket.set_m_uchFlags fl p))) as [|Hl]; [done|].
    cbn [SendPacket.m_nMaxPacketSize SendPacket.set_m_uchFlags] in Hl. lia.
  - unfold read_publish, publish_bytes. rewrite string_of_str by (done || apply Ht).
    destruct topic as [|ch topic]; [done|]. by destruct (Z.gtb_spec 0 0).
Qed.

Lemma qos0_publish_identifier_witness :
  ∃ p p1 content,
    SendPacket.construct true MQTTPublish 128 = Ok p ∧
    publish_content (publish_flags 0 false) (cstr "t") 7 [1] p = Ok ((), p1) ∧
    repr p1 (Some content) ∧ read_publish 0 17 content = PublishRead (cstr "t") [0; 7; 1] 0.
Proof.
  apply (qos0_publish_identifier (H0 := Script.platform) 128 (cstr "t") 7 [1] false 17); try done;
    by apply (bool_decide_unpack _).
Defined.

(** PINGRESP is accepted in every state.  Before CONNACK has arrived it makes
    the client connected, without [OnConnect] being called: the same holds for
    all implementations of the virtual functions. *)
Theorem early_pingresp `{Target, Platform W, !PlatformOk W, PtrList, !PtrListOk} c fl content rest :
  arrived c MQTTPingResp fl content rest → m_ConnectStatus c = MQTTStatusConnectPending →
  ∃ c', IsConnected c = false ∧ IsConnected c' = true ∧ ∀ CB, handle_packet CB c = Ok ((), c').
Proof.
  intros Ha Hst. destruct (HandlePingResp_run default_callbacks _ _ _ _ Ha) as (c1 & _ & Ht & E).
  set (c2 := set_m_ConnectStatus MQTTStatusConnected c1) in *.
  assert (Hr : wp no_fault (when (m_nKeepAliveSeconds c >? 0) (start_timer (m_nKeepAliveSeconds c * HZ)))
    (λ _ c', m_ConnectStatus c' = MQTTStatusConnected) c2).
  { apply wp_when; intros _; [|done]. apply start_timer_spec. intros c' Hs _ _.
    unfold steady in Hs. by injection Hs as _ _ _ _ -> _ _ _ _ _ _ _. }
  destruct (wp_total _ _ _ Hr) as ([] & c' & E' & Hc'). rewrite E' in E.
  exists c'. unfold IsConnected. rewrite Hst, Hc'. split_and!; [done|done|].
  intros CB. unfold handle_packet. erewrite bind_run; [|done]. pose proof Ha as (Et & _).
  unfold ReceivePacket.GetType. by rewrite Et.
Qed.

Lemma early_pingresp_witness :
  ∃ c', IsConnected (Demo.with_packet MQTTPingResp 0 [] Demo.pending) = false ∧ IsConnected c' = true ∧
    ∀ CB, handle_packet CB (Demo.with_packet MQTTPingResp 0 [] Demo.pending) = Ok ((), c').
Proof.
  apply (early_pingresp _ 0 [] []); [|done].
  apply Demo.packet_arrives; [done|by apply (bool_decide_unpack _)|done].
Defined.

(** SUBACK.  The first return code decides: a failure ends the connection,
    otherwise the queued SUBSCRIBE packet with the identifier is looked for.
    Return codes behind the first are not taken from the stream, and will be
    read as the beginning of the next packet. *)
Theorem suback_outcome `{Target, Platform W, !PlatformOk W, PtrList, !PtrListOk} CB c fl content rest :
  arrived c MQTTSubAck fl content rest →
  ∃ us rc more c', content = be16 us ++ rc :: more ∧ taken c (more ++ rest) c' ∧
    handle_packet CB c =
      (if rc >? MQTT_QOS_EXACTLY_ONCE
       then CloseConnection CB MQTTDisconnectSubscribeError c'
       else acknowledged CB MQTT_QOS_AT_LEAST_ONCE us c').
Proof.
  intros Ha. destruct (HandleSubAck_run CB _ _ _ _ Ha) as (us & rc & more & c' & Hct & _ & Ht & E).
  exists us, rc, more, c'. split_and!; [done|done|]. unfold handle_packet. erewrite bind_run; [|done].
  pose proof Ha as (Et & _). unfold ReceivePacket.GetType. by rewrite Et.
Qed.

Lemma suback_outcome_witness :
  let c := Demo.with_packet MQTTSubAck 0 [0; 9; 1; 2] Demo.connected in
  ∃ us rc more c', [0; 9; 1; 2] = be16 us ++ rc :: more ∧ taken c (more ++ []) c' ∧
    handle_packet Demo.recorder c =
      (if rc >? MQTT_QOS_EXACTLY_ONCE
       then CloseConnection Demo.recorder MQTTDisconnectSubscribeError c'
       else acknowledged Demo.recorder MQTT_QOS_AT_LEAST_ONCE us c').
Proof.
  apply (suback_outcome _ _ 0). apply Demo.packet_arrives; [done|by apply (bool_decide_unpack _)|done].
Defined.
