(* ===== verification/HttpClient.v ===== *)
(** The HTTP client: the class [CHTTPClient] of [httpclient.cpp].

    [Request] is one large function.  It is cut here at the boundaries its own
    comments draw: the connection ([open_connection]), the text of the request
    ([request_text]), the loop over the received bytes ([receive_loop], with
    [step] for the [switch] on one of them), and the end ([finish]). *)
From stdpp Require Import base numbers list gmap option strings.
From S2P Require Import Prelude.
From S2P Require Import Libc.
From S2P Require Import Circle.
Import Libc.

Module Http.
Definition HTTP_PORT : Z := 80.
Definition HTTPS_PORT : Z := 443.
Definition HTTP_MAX_REQUEST_LINE : Z := 2048.

Inductive THTTPRequestMethod :=
  | HTTPRequestMethodGet
  | HTTPRequestMethodHead
  | HTTPRequestMethodPost
  | HTTPRequestMethodUnknown.

(** A [THTTPStatus] is its number: the client casts numbers it has read from
    the network to the type. *)
Definition HTTPOK : Z := 200.
Definition HTTPRequestTimeout : Z := 408.
Definition HTTPConnectionReset : Z := 550.
Definition HTTPInvalidResponseCode : Z := 551.
Definition HTTPInvalidChunkHeader : Z := 552.
Definition HTTPContentBufferTooSmall : Z := 553.
Definition HTTPInternalClientError : Z := 554.

Definition CR : Z := 13.
Definition LF : Z := 10.

(** * The received bytes *)

(** The local variables of [Request] the loop works on, and the caller's
    buffer: [pBuffer] is its content and [pBuffer_at] what the pointer has been
    advanced by. *)
Record locals := mkLocals {
  nState : Z;
  nLine : Z;
  nChar : Z;
  nLength : Z;
  bChunked : bool;
  ulBytes : Z;
  Line : list cell;
  pBuffer : list cell;
  pBuffer_at : Z
}.

Definition set_nState (x : Z) (l : locals) : locals :=
  mkLocals x (nLine l) (nChar l) (nLength l) (bChunked l) (ulBytes l) (Line l) (pBuffer l)
    (pBuffer_at l).
Definition set_nLine (x : Z) (l : locals) : locals :=
  mkLocals (nState l) x (nChar l) (nLength l) (bChunked l) (ulBytes l) (Line l) (pBuffer l)
    (pBuffer_at l).
Definition set_nChar (x : Z) (l : locals) : locals :=
  mkLocals (nState l) (nLine l) x (nLength l) (bChunked l) (ulBytes l) (Line l) (pBuffer l)
    (pBuffer_at l).
Definition set_bChunked (x : bool) (l : locals) : locals :=
  mkLocals (nState l) (nLine l) (nChar l) (nLength l) x (ulBytes l) (Line l) (pBuffer l)
    (pBuffer_at l).
Definition set_ulBytes (x : Z) (l : locals) : locals :=
  mkLocals (nState l) (nLine l) (nChar l) (nLength l) (bChunked l) x (Line l) (pBuffer l)
    (pBuffer_at l).
Definition set_Line (x : list cell) (l : locals) : locals :=
  mkLocals (nState l) (nLine l) (nChar l) (nLength l) (bChunked l) (ulBytes l) x (pBuffer l)
    (pBuffer_at l).
Definition set_output (buf : list cell) (at_ len : Z) (l : locals) : locals :=
  mkLocals (nState l) (nLine l) (nChar l) len (bChunked l) (ulBytes l) (Line l) buf at_.

(** The values at the start of the loop. *)
Definition init_locals (buf : list cell) : locals :=
  mkLocals 0 0 0 0 false 0 (uninit HTTP_MAX_REQUEST_LINE) buf 0.

(** What a byte does to the loop: it goes on, or [Request] deletes the socket
    and returns a status. *)
Inductive outcome :=
  | Continue
  | DeleteAndReturn (Status : Z).

Section parser.
Context `{Target}.

(** [if (nChar < sizeof Line-1) { Line[nChar++] = chChar; Line[nChar] = '\0'; }] *)
Definition accumulate (chChar : Z) : M locals () :=
  l ← get;
  when (nChar l <? HTTP_MAX_REQUEST_LINE - 1)
    (buf ← lift_res (wr (Line l) (nChar l) chChar);
     let nChar' := u32 (nChar l + 1) in
     buf ← lift_res (wr buf nChar' 0);
     put (set_nChar nChar' (set_Line buf l))).

(** [*pBuffer++ = chChar; nLength++;], unless the buffer is full. *)
Definition copy_char (pLength : option Z) (chChar : Z) : M locals outcome :=
  assert_ (bool_decide (is_Some pLength));;
  n ← deref pLength;
  l ← get;
  if nLength l >=? n then mret (DeleteAndReturn HTTPContentBufferTooSmall)
  else
    buf ← lift_res (wr (pBuffer l) (pBuffer_at l) chChar);
    modify (set_output buf (pBuffer_at l + 1) (u32 (nLength l + 1)));;
    mret Continue.

(** The status of a response that is not "HTTP/1.x 200": [pToken] is the last
    token that was looked for. *)
Definition bad_status (buf : list cell) (pToken : option Z) : res Z :=
  match pToken with
  | None => Fault NullDeref
  | Some p =>
      s ← string_at buf p;
      let '(ulStatus, pEnd) := strtoul s 10 in
      mret (if bool_decide (pEnd = []) then u32 ulStatus else HTTPInvalidResponseCode)
  end.

(** The first line; the result is the status to return, if any. *)
Definition first_line (buf : list cell) : res (list cell * option Z) :=
  let bad buf pToken := st ← bad_status buf pToken; mret (buf, Some st) in
  '(pToken, buf, pSave) ← strtok_r buf (Some 0) (cstr "/") None;
  match pToken with
  | None => bad buf None
  | Some p =>
      s ← string_at buf p;
      if negb (streq s (cstr "HTTP")) then bad buf (Some p)
      else
        '(pToken, buf, pSave) ← strtok_r buf None (cstr " ") pSave;
        match pToken with
        | None => bad buf None
        | Some _ =>
            '(pToken, buf, pSave) ← strtok_r buf None (cstr " ") pSave;
            match pToken with
            | None => bad buf None
            | Some p =>
                s ← string_at buf p;
                if negb (streq s (cstr "200")) then bad buf (Some p) else mret (buf, None)
            end
        end
  end.

(** Another line of the header; the result says whether it announces the
    chunked transfer encoding. *)
Definition option_line (buf : list cell) : res (list cell * bool) :=
  '(pToken, buf, pSave) ← strtok_r buf (Some 0) (cstr ": ") None;
  match pToken with
  | None => mret (buf, false)
  | Some p =>
      s ← string_at buf p;
      if negb (strcaseeq s (cstr "Transfer-Encoding")) then mret (buf, false)
      else
        '(pToken, buf, pSave) ← strtok_r buf None (cstr " ") pSave;
        match pToken with
        | None => mret (buf, false)
        | Some p => s ← string_at buf p; mret (buf, strcaseeq s (cstr "chunked"))
        end
  end.

(** [case 0]: the header of the response. *)
Definition step_header (chChar : Z) : M locals outcome :=
  if chChar =? CR then mret Continue
  else if chChar =? LF then
    l ← get;
    if nChar l =? 0 then
      put (set_nChar 0 (set_nState (if bChunked l then 2 else 1) l));;
      mret Continue
    else
      modify (set_nLine (u32 (nLine l + 1)));;
      o ← (if nLine l =? 0 then
             '(buf, o) ← lift_res (first_line (Line l));
             modify (set_Line buf);;
             mret o
           else
             '(buf, b) ← lift_res (option_line (Line l));
             modify (set_Line buf);;
             when b (modify (set_bChunked true));;
             mret None);
      match o with
      | Some st => mret (DeleteAndReturn st)
      | None => modify (set_nChar 0);; mret Continue
      end
  else accumulate chChar;; mret Continue.

(** [case 2]: the header of a chunk. *)
Definition step_chunk_header (chChar : Z) : M locals outcome :=
  if chChar =? CR then mret Continue
  else if chChar =? LF then
    l ← get;
    s ← lift_res (string_at (Line l) 0);
    let '(ul, pEnd) := strtoul s 16 in
    modify (set_ulBytes ul);;
    if negb (bool_decide (pEnd = [])) then mret (DeleteAndReturn HTTPInvalidChunkHeader)
    else modify (set_nState (if negb (ul =? 0) then 3 else 5));; mret Continue
  else accumulate chChar;; mret Continue.

(** [case 3]: the data of a chunk. *)
Definition step_chunk_data (pLength : option Z) (chChar : Z) : M locals outcome :=
  o ← copy_char pLength chChar;
  match o with
  | DeleteAndReturn st => mret (DeleteAndReturn st)
  | Continue =>
      l ← get;
      let ul := usize (ulBytes l - 1) in
      modify (set_ulBytes ul);;
      when (ul =? 0) (modify (set_nState 4));;
      mret Continue
  end.

(** [case 4]: the trailer of a chunk. *)
Definition step_chunk_trailer (chChar : Z) : M locals outcome :=
  if chChar =? CR then mret Continue
  else if negb (chChar =? LF) then mret (DeleteAndReturn HTTPInvalidChunkHeader)
  else modify (λ l, set_nState 2 (set_nChar 0 l));; mret Continue.

(** The [switch] on the state. *)
Definition step (pLength : option Z) (chChar : Z) : M locals outcome :=
  l ← get;
  if nState l =? 0 then step_header chChar
  else if nState l =? 1 then copy_char pLength chChar
  else if nState l =? 2 then step_chunk_header chChar
  else if nState l =? 3 then step_chunk_data pLength chChar
  else if nState l =? 4 then step_chunk_trailer chChar
  else mret Continue.

(** The [for] loop over the bytes of one [Receive]. *)
Fixpoint chars (pLength : option Z) (bs : list Z) : M locals outcome :=
  match bs with
  | [] => mret Continue
  | b :: bs =>
      o ← step pLength b;
      match o with
      | Continue => chars pLength bs
      | DeleteAndReturn st => mret (DeleteAndReturn st)
      end
  end.
End parser.

(** * The client *)
Section http.
Context `{Target, Platform W}.

(** [m_pTLSSupport] says whether the pointer is not null; [m_ServerName] is
    the content of the string, which is empty for a null pointer. *)
Record CHTTPClient := mkHTTPClient {
  m_pTLSSupport : bool;
  m_ServerIP : IPAddr;
  m_ServerPort : Z;
  m_ServerName : list Z;
  m_bUseSSL : bool;
  m_pSocket : option Sock
}.

(** A running call of [Request]: the client, the locals, [*pLength] and the
    world. *)
Record call := mkCall {
  client : CHTTPClient;
  loc : locals;
  pLength : option Z;
  world : W
}.
Definition set_client (x : CHTTPClient) (c : call) : call :=
  mkCall x (loc c) (pLength c) (world c).
Definition set_loc (x : locals) (c : call) : call :=
  mkCall (client c) x (pLength c) (world c).
Definition set_pLength (x : option Z) (c : call) : call :=
  mkCall (client c) (loc c) x (world c).
Definition set_world (x : W) (c : call) : call :=
  mkCall (client c) (loc c) (pLength c) x.

Abbreviation C := (M call).

Definition world_op {A} (f : W → A * W) : C A := env world set_world f.

Definition construct (pTLSSupport : bool) (rServerIP : IPAddr) (nServerPort : Z)
    (pServerName : option (list Z)) (bUseSSL : bool) : CHTTPClient :=
  mkHTTPClient pTLSSupport rServerIP nServerPort (default [] pServerName) bUseSSL None.

Definition set_socket (s : option Sock) : C () :=
  modify (λ c, let h := client c in
    set_client (mkHTTPClient (m_pTLSSupport h) (m_ServerIP h) (m_ServerPort h) (m_ServerName h)
                  (m_bUseSSL h) s) c).

(** [delete m_pSocket; m_pSocket = 0;]; deleting the null pointer does
    nothing. *)
Definition delete_socket : C () :=
  c ← get;
  match m_pSocket (client c) with
  | None => mret ()
  | Some s => world_op (CNetSocket_delete s)
  end;;
  set_socket None.

(** The destructor. *)
Definition destruct_client : C () :=
  delete_socket;;
  modify (λ c, let h := client c in
    set_client (mkHTTPClient false (m_ServerIP h) (m_ServerPort h) (m_ServerName h)
                  (m_bUseSSL h) (m_pSocket h)) c).

(** The socket of the request, connected; the result is the status to return
    when this fails. *)
Definition open_connection : C (option Z) :=
  c ← get;
  let h := client c in
  assert_ (m_pTLSSupport h);;
  assert_ (bool_decide (m_pSocket h = None));;
  o ← (if negb (m_bUseSSL h) then
         s ← world_op new_CSocket;
         set_socket (Some s);;
         mret None
       else
         s ← world_op new_CTLSSimpleClientSocket;
         set_socket (Some s);;
         n ← world_op (TLS_AddCertificatePath s (cstr "/"));
         if n <? 0 then delete_socket;; mret (Some HTTPInternalClientError)
         else
           assert_ (Z.of_nat (length (m_ServerName h)) >? 0);;
           n ← world_op (TLS_Setup s (m_ServerName h));
           if negb (n =? 0) then delete_socket;; mret (Some HTTPInternalClientError)
           else mret None);
  match o with
  | Some st => mret (Some st)
  | None =>
      c ← get;
      s ← deref (m_pSocket (client c));
      n ← world_op (CNetSocket_Connect s (m_ServerIP h) (m_ServerPort h));
      if n <? 0 then delete_socket;; mret (Some HTTPRequestTimeout) else mret None
  end.

Definition method_name (Method : THTTPRequestMethod) : option (list Z) :=
  match Method with
  | HTTPRequestMethodGet => Some (cstr "GET")
  | HTTPRequestMethodPost => Some (cstr "POST")
  | _ => None
  end.

(** The ends of the lines below. *)
Definition CRLF : list Z := [CR; LF].

(** The text of the request.  A [CString] is its characters, and [Append]
    appends them. *)
Definition request_text (pMethod pPath ServerName : list Z) (pFormData : option (list Z)) :
    list Z :=
  let Request := CString_Format "%s %s HTTP/1.1\r\n" [ArgS pMethod; ArgS pPath] in
  let Request :=
    if Z.of_nat (length ServerName) >? 0
    then Request ++ cstr "Host: " ++ ServerName ++ CRLF else Request in
  let Request := Request ++ cstr "User-Agent: CHTTPClient/0.10 (Circle)" ++ CRLF in
  let Request := Request ++ cstr "Connection: close" ++ CRLF in
  let Request :=
    match pFormData with
    | None => Request
    | Some data =>
        Request ++ cstr "Content-Type: application/x-www-form-urlencoded" ++ CRLF
        ++ CString_Format "Content-Length: %u\r\n" [ArgZ (u32 (Z.of_nat (length data)))]
    end in
  let Request := Request ++ CRLF in
  match pFormData with
  | None => Request
  | Some data => Request ++ data
  end.

(** The request is sent; the result is the status to return when this fails. *)
Definition send_request (Method : THTTPRequestMethod) (pPath pFormData : option (list Z)) :
    C (option Z) :=
  assert_ (bool_decide (is_Some (method_name Method)));;
  pMethod ← deref (method_name Method);
  assert_ (bool_decide (is_Some pPath));;
  path ← deref pPath;
  c ← get;
  s ← deref (m_pSocket (client c));
  n ← world_op (CNetSocket_Send s (request_text pMethod path (m_ServerName (client c)) pFormData) 0);
  if n <? 0 then delete_socket;; mret (Some HTTPConnectionReset) else mret None.

(** The loop over the results of [Receive]. *)
Fixpoint receive_loop (fuel : nat) : C (option Z) :=
  match fuel with
  | O => fail OutOfFuel
  | S fuel =>
      c ← get;
      if nState (loc c) <? 5 then
        s ← deref (m_pSocket (client c));
        '(nResult, Buffer) ← world_op (CNetSocket_Receive s FRAME_BUFFER_SIZE 0);
        if nResult >? 0 then
          o ← zoom loc set_loc (chars (pLength c) Buffer);
          match o with
          | DeleteAndReturn st => delete_socket;; mret (Some st)
          | Continue => receive_loop fuel
          end
        else mret None
      else mret None
  end.

(** The end of [Request]. *)
Definition finish : C Z :=
  c ← get;
  if (nState (loc c) <? 5) && negb (nState (loc c) =? 1) then
    delete_socket;;
    mret HTTPConnectionReset
  else
    delete_socket;;
    assert_ (bool_decide (is_Some (pLength c)));;
    n ← deref (pLength c);
    assert_ (nLength (loc c) <=? n);;
    modify (set_pLength (Some (nLength (loc c))));;
    mret HTTPOK.

(** Everything before the receive loop: the status to return, if any. *)
Definition start (Method : THTTPRequestMethod) (pPath pFormData : option (list Z)) :
    C (option Z) :=
  o ← open_connection;
  match o with
  | Some st => mret (Some st)
  | None => send_request Method pPath pFormData
  end.

(** The receive loop and what follows it. *)
Definition response (fuel : nat) : C Z :=
  o ← receive_loop fuel;
  match o with
  | Some st => mret st
  | None => finish
  end.

Definition Request (fuel : nat) (Method : THTTPRequestMethod) (pPath : option (list Z))
    (pFormData : option (list Z)) : C Z :=
  o ← start Method pPath pFormData;
  match o with
  | Some st => mret st
  | None =>
      modify (λ c, set_loc (init_locals (pBuffer (loc c))) c);;
      response fuel
  end.

Definition Get (fuel : nat) (pPath : option (list Z)) : C Z :=
  Request fuel HTTPRequestMethodGet pPath None.

Definition Post (fuel : nat) (pPath pFormData : option (list Z)) : C Z :=
  assert_ (bool_decide (is_Some pFormData));;
  Request fuel HTTPRequestMethodPost pPath pFormData.

(** A call of [Get] or [Post] with a buffer and [*pLength] of the caller. *)
Definition call_of (h : CHTTPClient) (buf : list cell) (n : option Z) (w : W) : call :=
  mkCall h (init_locals buf) n w.
End http.
End Http.
