(* ===== verification/HttpSpec.v ===== *)
(** How the parts of [CHTTPClient::Request] behave: the lines of the header on
    the string they hold, the body on the bytes of the response, and the
    receive loop on the sequence of results the socket delivers. *)
From stdpp Require Import base numbers list gmap option strings.
From S2P Require Import Prelude.
From S2P Require Import Libc.
From S2P Require Import Circle.
From S2P Require Import HttpClient.
Import Libc Http.

(** * What the lines of the header mean *)

(** What the first line says: [StatusOK] is "HTTP/1.x 200"; [StatusNull] is a
    line with too few tokens. *)
Inductive status_line :=
  | StatusOK
  | StatusOther (Status : Z)
  | StatusNull.

Section meaning.
Context `{Target}.

Definition status_number (t : list Z) : Z :=
  let '(v, rest) := strtoul t 10 in
  if bool_decide (rest = []) then u32 v else HTTPInvalidResponseCode.

Definition status_of (s : list Z) : status_line :=
  match token (cstr "/") s with
  | None => StatusNull
  | Some (_, t, r) =>
      if negb (streq t (cstr "HTTP")) then StatusOther (status_number t)
      else match token (cstr " ") r with
           | None => StatusNull
           | Some (_, _, r) =>
               match token (cstr " ") r with
               | None => StatusNull
               | Some (_, t, _) =>
                   if negb (streq t (cstr "200")) then StatusOther (status_number t) else StatusOK
               end
           end
  end.

Definition announces_chunked (s : list Z) : bool :=
  match token (cstr ": ") s with
  | None => false
  | Some (_, t, r) =>
      strcaseeq t (cstr "Transfer-Encoding") &&
      match token (cstr " ") r with
      | None => false
      | Some (_, t, _) => strcaseeq t (cstr "chunked")
      end
  end.

(** There is some C string at the start of the array. *)
Definition has_string (buf : list cell) : Prop := ∃ s, holds_str buf 0 s.

(** A token that ends inside the string leaves a string at its start. *)
Lemma has_string_cut buf buf' s j :
  holds_str buf 0 s → (∀ i, i ≠ j → buf' !! i = buf !! i) →
  ((j < length s)%nat → rd buf' (Z.of_nat j) = Ok 0) → length s ≠ j → has_string buf'.
Proof using Type.
  intros Hs Hf Hr Hj. destruct (decide (j < length s)%nat).
  - exists (take j s). eapply holds_str_cut; [done|lia| |by apply Hr].
    intros i Hi. apply Hf. lia.
  - exists s. destruct Hs as [[Hi Hh] Hz]. split; [|done]. split; [done|].
    intros i b Hb. rewrite <-(Hh i b Hb). apply Hf.
    apply lookup_lt_Some in Hb. rewrite length_app in Hb. cbn in Hb. lia.
Qed.

(** The same for the three ways [strtok_r] can leave the array. *)
Lemma strtok_has_string buf buf' s delim save p str pre tok rest save' :
  has_string buf → length buf' = length buf →
  (∀ j, j ≠ Z.to_nat (p + Z.of_nat (length pre) + Z.of_nat (length tok)) → buf' !! j = buf !! j) →
  token delim str = Some (pre, tok, rest) → holds_str buf p str →
  strtok_r buf s delim save = Ok (Some (p + Z.of_nat (length pre)), buf', save') →
  holds_str buf' (p + Z.of_nat (length pre)) tok → has_string buf'.
Proof using Type.
  intros (t & Ht) Hl Hf _ Hstr _ Htok. set (e := p + Z.of_nat (length pre) + Z.of_nat (length tok)) in *.
  pose proof (holds_str_length _ _ _ Hstr) as [Hp _].
  assert (Hr : rd buf' e = Ok 0).
  { destruct Htok as [Htok _]. apply holds_app in Htok as [_ Htok].
    apply holds_cons in Htok as [Htok _]. exact Htok. }
  assert (He : 0 ≤ e) by lia.
  destruct (decide (length t = Z.to_nat e)) as [E|E].
  - exists t. destruct Ht as [[Hi Hh] Hz]. split; [|done]. apply holds_app. split.
    + split; [done|]. intros i b Hb. rewrite <-(Hh i b).
      * apply Hf. apply lookup_lt_Some in Hb. lia.
      * by apply lookup_app_l_Some.
    + apply holds_cons. split; [|apply holds_nil; lia]. rewrite E. cbn. by rewrite Z2Nat.id by done.
  - eapply has_string_cut; [done|exact Hf| |done]. intros _. by rewrite Z2Nat.id by done.
Qed.

(** The shape in which a call of [strtok_r] is used below. *)
Lemma strtok_step buf s delim save p str :
  (match s with Some p => Some p | None => save end) = Some p →
  is_delim delim 0 = false → has_string buf → holds_str buf p str →
  match token delim str with
  | None => strtok_r buf s delim save = Ok (None, buf, None)
  | Some (_, tok, rest) =>
      ∃ q buf' save', strtok_r buf s delim save = Ok (Some q, buf', save') ∧
        holds_str buf' q tok ∧ length buf' = length buf ∧ has_string buf' ∧
        match save' with None => rest = [] | Some r => holds_str buf' r rest end
  end.
Proof using Type.
  intros Hp H0 Hb Hs. pose proof (strtok_r_spec buf s delim save p str Hp H0 Hs) as Hspec.
  destruct (token delim str) as [[[pre tok] rest]|] eqn:Et; [|done].
  destruct Hspec as (buf' & save' & E & Ht & Hl & Hf & Hsave).
  exists (p + Z.of_nat (length pre)), buf', save'. split_and!; try done.
  - by eapply strtok_has_string.
  - destruct save'; [done|]. by destruct Hsave.
Qed.

(** The next token, when [save] may have come to the end of the string. *)
Lemma strtok_next buf delim save rest :
  is_delim delim 0 = false → has_string buf →
  match save with None => rest = [] | Some r => holds_str buf r rest end →
  match token delim rest with
  | None => strtok_r buf None delim save = Ok (None, buf, None)
  | Some (_, tok, rest) =>
      ∃ q buf' save', strtok_r buf None delim save = Ok (Some q, buf', save') ∧
        holds_str buf' q tok ∧ length buf' = length buf ∧ has_string buf' ∧
        match save' with None => rest = [] | Some r => holds_str buf' r rest end
  end.
Proof using Type.
  intros H0 Hb Hs. destruct save as [r|]; [by apply (strtok_step buf None delim (Some r) r)|].
  by subst rest.
Qed.

Lemma bad_status_holds buf p t :
  holds_str buf p t → bad_status buf (Some p) = Ok (status_number t).
Proof using Type.
  intros Ht. unfold bad_status. rewrite (string_at_holds _ _ _ Ht). cbn.
  unfold status_number. by destruct (strtoul t 10).
Qed.

#[local] Ltac res_step :=
  cbn -[bad_status strtok_r string_at cstr strtoul token streq strcaseeq].

(** [first_line] does what the string says. *)
Lemma first_line_spec buf s :
  holds_str buf 0 s →
  match status_of s with
  | StatusOK => ∃ buf', first_line buf = Ok (buf', None) ∧ length buf' = length buf ∧ has_string buf'
  | StatusOther st => ∃ buf', first_line buf = Ok (buf', Some st) ∧ length buf' = length buf
  | StatusNull => first_line buf = Fault NullDeref
  end.
Proof using Type.
  intros Hs. unfold status_of, first_line.
  pose proof (strtok_step buf (Some 0) (cstr "/") None 0 s eq_refl eq_refl (ex_intro _ s Hs) Hs) as Hk.
  destruct (token (cstr "/") s) as [[[? t] r]|]; [|rewrite Hk; by res_step].
  destruct Hk as (q & b1 & sv & -> & Ht & L1 & Hb1 & Hr). res_step.
  rewrite (string_at_holds _ _ _ Ht). res_step.
  destruct (streq t (cstr "HTTP")); cbn [negb].
  2: { rewrite (bad_status_holds _ _ _ Ht). res_step. eauto. }
  pose proof (strtok_next b1 (cstr " ") sv r eq_refl Hb1 Hr) as Hk.
  destruct (token (cstr " ") r) as [[[? t2] r2]|]; [|rewrite Hk; by res_step].
  destruct Hk as (q2 & b2 & sv2 & -> & Ht2 & L2 & Hb2 & Hr2). res_step.
  pose proof (strtok_next b2 (cstr " ") sv2 r2 eq_refl Hb2 Hr2) as Hk.
  destruct (token (cstr " ") r2) as [[[? t3] r3]|]; [|rewrite Hk; by res_step].
  destruct Hk as (q3 & b3 & sv3 & -> & Ht3 & L3 & Hb3 & _). res_step.
  rewrite (string_at_holds _ _ _ Ht3). res_step.
  destruct (streq t3 (cstr "200")); cbn [negb].
  - exists b3. split_and!; [done|congruence|done].
  - rewrite (bad_status_holds _ _ _ Ht3). res_step. exists b3. split; [done|congruence].
Qed.

Lemma option_line_spec buf s :
  holds_str buf 0 s →
  ∃ buf', option_line buf = Ok (buf', announces_chunked s) ∧ length buf' = length buf ∧
    has_string buf'.
Proof using Type.
  intros Hs. assert (Hb : has_string buf) by by exists s. unfold announces_chunked, option_line.
  pose proof (strtok_step buf (Some 0) (cstr ": ") None 0 s eq_refl eq_refl Hb Hs) as Hk.
  destruct (token (cstr ": ") s) as [[[? t] r]|]; [|rewrite Hk; res_step; eauto].
  destruct Hk as (q & b1 & sv & -> & Ht & L1 & Hb1 & Hr). res_step.
  rewrite (string_at_holds _ _ _ Ht). res_step.
  destruct (strcaseeq t _); cbn [negb andb]; [|eauto].
  pose proof (strtok_next b1 (cstr " ") sv r eq_refl Hb1 Hr) as Hk.
  destruct (token (cstr " ") r) as [[[? t2] r2]|]; [|rewrite Hk; res_step; eauto].
  destruct Hk as (q2 & b2 & sv2 & -> & Ht2 & L2 & Hb2 & Hr2). res_step.
  rewrite (string_at_holds _ _ _ Ht2). res_step. eexists. split_and!; [done|congruence|done].
Qed.

(** * The loop over the bytes *)

Lemma chars_app n bs1 bs2 l :
  chars n (bs1 ++ bs2) l =
  match chars n bs1 l with
  | Ok (Continue, l') => chars n bs2 l'
  | r => r
  end.
Proof using Type.
  revert l. induction bs1 as [|b bs1 IH]; intros l; [done|]. cbn [app chars].
  rewrite !bind_unfold. destruct (step n b l) as [[[|st] l']|e]; [apply IH|done|done].
Qed.

(** The end of the stream has been seen. *)
Lemma chars_done n bs l : 5 ≤ nState l → chars n bs l = Ok (Continue, l).
Proof using Type.
  intros Hl. induction bs as [|b bs IH]; [done|]. cbn [chars]. unfold step.
  rewrite bind_unfold, bind_unfold. cbn [get].
  repeat match goal with |- context [nState l =? ?n] => destruct (Z.eqb_spec (nState l) n); [lia|] end.
  exact IH.
Qed.

Lemma chars_run n bs l l' : chars n bs l = Ok (Continue, l') → ∀ bs2,
  chars n (bs ++ bs2) l = chars n bs2 l'.
Proof using Type. intros E bs2. by rewrite chars_app, E. Qed.
End meaning.

(** * The receive loop *)

Section loop.
Context `{Target, Platform W}.

(** [delivers s w bss w']: in the world [w] the next calls of [Receive] on the
    socket [s] have the results [bss], and then comes the end of the stream or
    an error. *)
Inductive delivers (s : Sock) : W → list (list Z) → W → Prop :=
  | delivers_end w r bs w' :
      CNetSocket_Receive s FRAME_BUFFER_SIZE 0 w = ((r, bs), w') → r ≤ 0 → delivers s w [] w'
  | delivers_more w r bs bss w' w'' :
      CNetSocket_Receive s FRAME_BUFFER_SIZE 0 w = ((r, bs), w') → 0 < r →
      delivers s w' bss w'' → delivers s w (bs :: bss) w''.

Definition closed (c : call) (w : W) (c' : call) : Prop :=
  m_pSocket (client c') = None ∧ pLength c' = pLength c ∧
  ∃ s, m_pSocket (client c) = Some s ∧ world c' = (CNetSocket_delete s w).2.

Lemma delete_socket_run (c : call) s :
  m_pSocket (client c) = Some s →
  ∃ c', delete_socket c = Ok ((), c') ∧ closed c (world c) c' ∧ loc c' = loc c.
Proof using Type.
  intros Hs. unfold delete_socket. rewrite bind_unfold. cbn. rewrite Hs.
  unfold world_op, env. rewrite bind_unfold.
  destruct (CNetSocket_delete s (world c)) as [[] w] eqn:E.
  eexists. split; [done|]. split; [|done]. split_and!; [done|done|].
  exists s. by rewrite E.
Qed.

(** One round of the loop. *)
Lemma receive_loop_round fuel c s r bs w' :
  nState (loc c) < 5 → m_pSocket (client c) = Some s →
  CNetSocket_Receive s FRAME_BUFFER_SIZE 0 (world c) = ((r, bs), w') →
  receive_loop (S fuel) c =
    if r >? 0 then
      match chars (pLength c) bs (loc c) with
      | Fault e => Fault e
      | Ok (Continue, l) => receive_loop fuel (set_loc l (set_world w' c))
      | Ok (DeleteAndReturn st, l) =>
          (delete_socket;; mret (Some st)) (set_loc l (set_world w' c))
      end
    else Ok (None, set_world w' c).
Proof using Type.
  intros Hn Hs E. cbn [receive_loop]. erewrite bind_run by done.
  destruct (Z.ltb_spec (nState (loc c)) 5); [|lia].
  rewrite (bind_run _ _ c s c) by (by rewrite Hs).
  erewrite bind_run by (unfold world_op, env; by rewrite E). cbv beta iota.
  destruct (r >? 0); [|done]. rewrite bind_unfold. unfold zoom. cbn [loc set_world].
  by destruct (chars (pLength c) bs (loc c)) as [[[|st] l]|e].
Qed.

(** The loop sees the bytes the socket delivers as one sequence, however they
    are cut into pieces, and ends after at most as many calls as there are
    pieces. *)
Lemma receive_loop_delivers s c bss w' fuel :
  delivers s (world c) bss w' → m_pSocket (client c) = Some s → nState (loc c) < 5 →
  (length bss < fuel)%nat →
  match chars (pLength c) (concat bss) (loc c) with
  | Fault e => receive_loop fuel c = Fault e
  | Ok (Continue, l) =>
      ∃ w, receive_loop fuel c = Ok (None, set_loc l (set_world w c))
  | Ok (DeleteAndReturn st, l) =>
      ∃ c' w, receive_loop fuel c = Ok (Some st, c') ∧ closed c w c' ∧ loc c' = l
  end.
Proof using Type.
  intros Hd. remember (world c) as w0 eqn:Ew. revert c fuel Ew.
  induction Hd as [w r bs w1 E Hr|w r bs bss w1 w2 E Hr Hd IH]; intros c [|fuel] Ew Hs Hn Hf;
    try (cbn in Hf; lia); subst w; rewrite (receive_loop_round _ _ _ _ _ _ Hn Hs E).
  - destruct (Z.gtb_spec r 0); [lia|]. exists w1. by destruct c.
  - destruct (Z.gtb_spec r 0); [|lia]. cbn [concat length] in *. rewrite chars_app.
    destruct (chars (pLength c) bs (loc c)) as [[[|st] l]|e]; [|..|done].
    + destruct (decide (nState l < 5)) as [Hl|Hl].
      * specialize (IH (set_loc l (set_world w1 c)) fuel eq_refl Hs Hl ltac:(lia)).
        cbn [pLength set_loc set_world loc] in IH.
        destruct (chars (pLength c) (concat bss) l) as [[[|st] l']|e]; [|exact IH|exact IH].
        destruct IH as (w & ->). by exists w.
      * rewrite (chars_done _ _ l) by lia. destruct fuel as [|fuel]; [lia|].
        cbn [receive_loop]. erewrite bind_run by done. cbn [loc set_loc set_world].
        destruct (Z.ltb_spec (nState l) 5); [lia|]. exists w1. done.
    + destruct (delete_socket_run (set_loc l (set_world w1 c)) s Hs) as (c' & E' & Hc & Hl).
      erewrite bind_run by exact E'. exists c', w1. split_and!; [done|exact Hc|exact Hl].
Qed.
End loop.

(** * The whole call as a function of the bytes of the response *)

Section interpret.
Context `{Target}.

(** The status, the buffer of the caller and [*pLength] after the client has
    read the bytes [bs], followed by the end of the stream. *)
Definition interpret (n : option Z) (buf : list cell) (bs : list Z) :
    res (Z * list cell * option Z) :=
  match chars n bs (init_locals buf) with
  | Fault e => Fault e
  | Ok (DeleteAndReturn st, l) => Ok (st, pBuffer l, n)
  | Ok (Continue, l) =>
      if (nState l <? 5) && negb (nState l =? 1) then Ok (HTTPConnectionReset, pBuffer l, n)
      else match n with
           | None => Fault AssertFailed
           | Some k => if nLength l <=? k then Ok (HTTPOK, pBuffer l, Some (nLength l))
                       else Fault AssertFailed
           end
  end.

Context `{Platform W}.

Lemma response_interpret s c bss w' fuel :
  delivers s (world c) bss w' → m_pSocket (client c) = Some s →
  (length bss < fuel)%nat → loc c = init_locals (pBuffer (loc c)) →
  match interpret (pLength c) (pBuffer (loc c)) (concat bss) with
  | Fault e => response fuel c = Fault e
  | Ok (st, buf, n) =>
      ∃ c' w, response fuel c = Ok (st, c') ∧ pBuffer (loc c') = buf ∧ pLength c' = n ∧
        m_pSocket (client c') = None ∧ world c' = (CNetSocket_delete s w).2
  end.
Proof using Type.
  intros Hd Hs Hf Hi. unfold interpret, response.
  pose proof (receive_loop_delivers s c bss w' fuel Hd Hs) as Hl.
  rewrite Hi in Hl at 1. specialize (Hl eq_refl Hf). rewrite Hi in Hl.
  destruct (chars (pLength c) (concat bss) (init_locals (pBuffer (loc c)))) as [[[|st] l]|e].
  - destruct Hl as (w & E). rewrite (bind_run _ _ _ _ _ E). cbv iota. unfold finish.
    rewrite bind_unfold. cbn [get loc set_loc set_world].
    destruct (delete_socket_run (set_loc l (set_world w c)) s Hs) as (c' & E' & Hc & Hc').
    destruct Hc as (Hn & Hp & s' & Hs' & Hw). cbn in Hs', Hp, Hw, Hc'. rewrite Hs in Hs'.
    injection Hs' as <-.
    destruct ((nState l <? 5) && negb (nState l =? 1)).
    + rewrite (bind_run _ _ _ _ _ E'). exists c', w. split_and!; try done. by rewrite Hc'.
    + rewrite (bind_run _ _ _ _ _ E'). rewrite bind_unfold. cbn [pLength set_loc set_world].
      destruct (pLength c) as [k|]; [|done].
      destruct (nLength l <=? k) eqn:Ek; unfold assert_;
        rewrite bool_decide_true, bind_unfold by eauto; cbn [deref];
        rewrite !bind_unfold, Ek; [|done].
      exists (set_pLength (Some (nLength l)) c'), w. split_and!; try done. cbn. by rewrite Hc'.
  - destruct Hl as (c' & w & E & (Hn & Hp & s' & Hs' & Hw) & Hc'). rewrite (bind_run _ _ _ _ _ E).
    rewrite Hs in Hs'. injection Hs' as <-. exists c', w. split_and!; try done. by rewrite Hc'.
  - by rewrite bind_unfold, Hl.
Qed.
End interpret.
