(* ===== verification/HttpParse.v ===== *)
(** What the byte loop of [CHTTPClient::Request] makes of a response: its
    lines, its body and its chunks, one after the other. *)
From stdpp Require Import base numbers list gmap option strings.
From S2P Require Import Prelude.
From S2P Require Import Libc.
From S2P Require Import Circle.
From S2P Require Import HttpClient.
From S2P Require Import HttpSpec.
Import Libc Http.

(** * The parts of a response *)

(** A line the client can read: not empty, not longer than its line buffer,
    and without control characters that have a meaning of their own. *)
Definition plain (s : list Z) : Prop :=
  Forall (λ c, c ≠ 0 ∧ c ≠ CR ∧ c ≠ LF) s ∧ s ≠ [] ∧ Z.of_nat (length s) < HTTP_MAX_REQUEST_LINE.

Definition line (s : list Z) : list Z := s ++ CRLF.

(** A header: the first line, the options and the empty line. *)
Definition header (first : list Z) (options : list (list Z)) : list Z :=
  line first ++ concat (line <$> options) ++ CRLF.

(** A chunk: the line with its size, and its data. *)
Definition chunk (c : list Z * list Z) : list Z := line c.1 ++ line c.2.

(** The buffer of the caller after the bytes [out] have been written to it. *)
Definition written (buf : list cell) (out : list Z) : list cell :=
  (Some <$> out) ++ drop (length out) buf.

#[global] Instance plain_dec s : Decision (plain s).
Proof. unfold plain. apply _. Defined.

Lemma written_length buf out :
  (length out ≤ length buf)%nat → length (written buf out) = length buf.
Proof. intros. unfold written. rewrite length_app, length_fmap, length_drop. lia. Qed.

Lemma written_snoc buf out b :
  Z.of_nat (length out) < Z.of_nat (length buf) →
  wr (written buf out) (Z.of_nat (length out)) b = Ok (written buf (out ++ [b])).
Proof.
  intros Hl. unfold wr. rewrite wr_cell_Ok by (rewrite written_length; lia).
  f_equal. unfold written. rewrite Nat2Z.id, fmap_app, length_app. cbn.
  rewrite insert_app_r_alt by (rewrite length_fmap; lia).
  rewrite length_fmap, Nat.sub_diag, <-app_assoc. f_equal.
  destruct (drop (length out) buf) as [|x d] eqn:E.
  - apply (f_equal length) in E. rewrite length_drop in E. cbn in E. lia.
  - cbn. f_equal. rewrite <-drop_drop, E. done.
Qed.

Lemma holds_until buf s : holds buf 0 (s ++ [0]) → holds_str buf 0 (until_nul s).
Proof.
  intros Hh. split.
  - destruct Hh as [Hi Hh]. split; [done|]. intros j b Hj. apply Hh.
    clear Hh. revert j Hj. induction s as [|c s IH]; intros j Hj; [done|]. cbn in Hj.
    destruct (Z.eqb_spec c 0) as [->|Hc].
    + destruct j; [done|]. done.
    + destruct j; [done|]. by apply IH.
  - clear Hh. induction s as [|c s IH]; [constructor|]. cbn.
    destruct (Z.eqb_spec c 0); constructor; done.
Qed.

Section parse.
Context `{Target}.

Lemma chars_cons n b bs l l' :
  step n b l = Ok (Continue, l') → chars n (b :: bs) l = chars n bs l'.
Proof using Type. intros Es. cbn [chars]. by rewrite (bind_run _ _ _ _ _ Es). Qed.

Lemma chars_stop n b bs l st l' :
  step n b l = Ok (DeleteAndReturn st, l') → chars n (b :: bs) l = Ok (DeleteAndReturn st, l').
Proof using Type. intros Es. cbn [chars]. by rewrite (bind_run _ _ _ _ _ Es). Qed.

(** * Text *)

(** A line is being read: [pre] are the characters so far. *)
Definition reading (l : locals) (pre : list Z) : Prop :=
  nChar l = Z.of_nat (length pre) ∧ Z.of_nat (length (Line l)) = HTTP_MAX_REQUEST_LINE ∧
  (pre ≠ [] → holds (Line l) 0 (pre ++ [0])).

Lemma accumulate_spec l pre c :
  reading l pre → Z.of_nat (length pre) < HTTP_MAX_REQUEST_LINE - 1 →
  ∃ buf, accumulate c l = Ok ((), set_nChar (Z.of_nat (length (pre ++ [c]))) (set_Line buf l)) ∧
    reading (set_nChar (Z.of_nat (length (pre ++ [c]))) (set_Line buf l)) (pre ++ [c]).
Proof using Type.
  intros (Hn & Hl & Hh) Hp. unfold HTTP_MAX_REQUEST_LINE in *. unfold accumulate.
  erewrite bind_run by done. unfold when, HTTP_MAX_REQUEST_LINE.
  destruct (Z.ltb_spec (nChar l) (2048 - 1)); [|lia].
  destruct (wr_bytes_Ok (Line l) (Z.of_nat (length pre)) [c; 0]) as (buf & E & L & Hb & Hf);
    [lia|cbn; lia|]. cbn [wr_bytes] in E. rewrite Hn.
  destruct (wr (Line l) (Z.of_nat (length pre)) c) as [b1|] eqn:E1; [|done].
  erewrite bind_run by (unfold lift_res; done). cbv beta zeta.
  rewrite u32_id by (unfold is_u32; lia).
  destruct (wr b1 (Z.of_nat (length pre) + 1) 0) as [b2|] eqn:E2; [|done]. injection E as ->.
  erewrite bind_run by done.
  rewrite length_app. cbn [length].
  replace (Z.of_nat (length pre) + 1) with (Z.of_nat (length pre + 1)) by lia.
  exists buf. split; [done|]. split_and!.
  - cbn. by rewrite length_app.
  - unfold HTTP_MAX_REQUEST_LINE. cbn. lia.
  - intros _. cbn. rewrite <-app_assoc. apply holds_app. split; [|done].
    destruct (decide (pre = [])) as [->|Hne]; [by apply holds_nil|].
    apply holds_frame with (Line l).
    + by apply Hh, holds_app in Hne as [? _].
    + intros j Hj. apply Hf. lia.
Qed.

Lemma step_text n l c :
  nState l = 0 ∨ nState l = 2 → c ≠ CR → c ≠ LF →
  step n c l = (accumulate c;; mret Continue) l.
Proof using Type.
  intros Hs Hc1 Hc2. unfold step. erewrite bind_run by done.
  destruct Hs as [-> | ->]; cbn; unfold step_header, step_chunk_header;
    destruct (Z.eqb_spec c CR), (Z.eqb_spec c LF); try done.
Qed.

Lemma text_run n s l pre :
  nState l = 0 ∨ nState l = 2 → reading l pre →
  Forall (λ c, c ≠ 0 ∧ c ≠ CR ∧ c ≠ LF) s →
  Z.of_nat (length (pre ++ s)) < HTTP_MAX_REQUEST_LINE →
  ∃ buf, let l' := set_nChar (Z.of_nat (length (pre ++ s))) (set_Line buf l) in
    chars n s l = Ok (Continue, l') ∧ reading l' (pre ++ s).
Proof using Type.
  intros Hst Hr Hs. revert l pre Hst Hr. induction Hs as [|c s (Hc & Hcr & Hlf) Hs IH];
    intros l pre Hst Hr Hlen.
  - exists (Line l). rewrite app_nil_r. destruct Hr as (Hn & Hl & Hh). rewrite <-Hn. cbn.
    destruct l; done.
  - rewrite length_app in Hlen. cbn in Hlen.
    destruct (accumulate_spec l pre c Hr) as (buf & E & Hr'); [lia|].
    destruct (IH (set_nChar (Z.of_nat (length (pre ++ [c]))) (set_Line buf l)) _ Hst Hr') as (buf' & E' & Hr''); [rewrite !length_app; cbn; lia|].
    exists buf'. rewrite <-app_assoc in *. cbn [app] in *. split; [|done].
    assert (Es : step n c l =
      Ok (Continue, set_nChar (Z.of_nat (length (pre ++ [c]))) (set_Line buf l))).
    { rewrite step_text by done. by rewrite (bind_run _ _ _ _ _ E). }
    by rewrite (chars_cons _ _ _ _ _ Es).
Qed.

(** A whole line in a state that reads lines. *)
Lemma line_text_run n s l :
  nState l = 0 ∨ nState l = 2 → nChar l = 0 →
  Z.of_nat (length (Line l)) = HTTP_MAX_REQUEST_LINE → plain s →
  ∃ buf, chars n s l = Ok (Continue, set_nChar (Z.of_nat (length s)) (set_Line buf l)) ∧
    length buf = length (Line l) ∧ holds_str buf 0 s.
Proof using Type.
  intros Hst Hn Hl (Hs & Hne & Hlen).
  destruct (text_run n s l [] Hst) as (buf & E & Hr); [done|done|done|].
  exists buf. split; [done|]. destruct Hr as (_ & Hl' & Hh). cbn in Hl'. split; [lia|].
  split; [by apply Hh|]. eapply Forall_impl; [exact Hs|]. by intros c (? & _).
Qed.

Lemma chars_CRLF n l :
  nState l = 0 ∨ nState l = 2 → chars n CRLF l = chars n [LF] l.
Proof using Type.
  intros Hs. unfold CRLF. apply chars_cons.
  unfold step. rewrite bind_unfold. cbn [get]. destruct Hs as [-> | ->]; done.
Qed.

(** What a line end does in each of the states. *)
#[local] Ltac run_step :=
  cbv [step step_header step_chunk_header step_chunk_trailer mbind M_bind mret M_ret get put modify
       when lift_res]; cbn -[first_line option_line string_at strtoul u32 Z.eqb];
  change (LF =? CR) with false; change (LF =? LF) with true; cbv iota.

Lemma step_first_line n l :
  nState l = 0 → nChar l ≠ 0 → nLine l = 0 →
  step n LF l =
  match first_line (Line l) with
  | Fault e => Fault e
  | Ok (buf, Some st) => Ok (DeleteAndReturn st, set_Line buf (set_nLine 1 l))
  | Ok (buf, None) => Ok (Continue, set_nChar 0 (set_Line buf (set_nLine 1 l)))
  end.
Proof using Type.
  destruct l; cbn -[first_line step]. intros -> Hn ->. run_step. apply Z.eqb_neq in Hn. cbn -[first_line Z.eqb].
  change (0 =? 0) with true. cbv iota. cbn -[first_line Z.eqb]. rewrite Hn.
  change (0 =? 0) with true. cbv iota. by destruct (first_line _) as [[b [st|]]|].
Qed.

Lemma step_option_line n l :
  nState l = 0 → nChar l ≠ 0 → nLine l ≠ 0 →
  step n LF l =
  match option_line (Line l) with
  | Fault e => Fault e
  | Ok (buf, b) =>
      Ok (Continue, set_nChar 0 ((if b then set_bChunked true else id)
                                   (set_Line buf (set_nLine (u32 (nLine l + 1)) l))))
  end.
Proof using Type.
  destruct l; cbn -[option_line step]. intros -> Hn Hl. run_step. apply Z.eqb_neq in Hn, Hl.
  change (0 =? 0) with true. cbv iota. cbn -[option_line u32 Z.eqb]. rewrite Hn, Hl.
  by destruct (option_line _) as [[b []]|].
Qed.

Lemma step_end_header n l :
  nState l = 0 → nChar l = 0 →
  step n LF l = Ok (Continue, set_nChar 0 (set_nState (if bChunked l then 2 else 1) l)).
Proof using Type. destruct l; cbn. by intros -> ->. Qed.

Lemma step_size_line n l :
  nState l = 2 →
  step n LF l =
  match string_at (Line l) 0 with
  | Fault e => Fault e
  | Ok s =>
      let '(v, rest) := strtoul s 16 in
      if bool_decide (rest = []) then
        Ok (Continue, set_nState (if negb (v =? 0) then 3 else 5) (set_ulBytes v l))
      else Ok (DeleteAndReturn HTTPInvalidChunkHeader, set_ulBytes v l)
  end.
Proof using Type.
  destruct l; cbn -[string_at strtoul step]. intros ->. run_step. change (2 =? 0) with false. change (2 =? 1) with false.
  change (2 =? 2) with true. cbv iota. cbn -[string_at strtoul Z.eqb].
  destruct (string_at _ 0) as [s|]; [|done]. destruct (strtoul s 16) as [v rest].
  by destruct (bool_decide (rest = [])).
Qed.

(** * The header *)

(** The locals between two lines of the header. *)
Definition in_header (k : Z) (ck : bool) (buf : list cell) (l : locals) : Prop :=
  nState l = 0 ∧ nLine l = k ∧ nChar l = 0 ∧ nLength l = 0 ∧ bChunked l = ck ∧
  Z.of_nat (length (Line l)) = HTTP_MAX_REQUEST_LINE ∧ pBuffer l = buf ∧ pBuffer_at l = 0.

Lemma first_line_run n s buf l :
  in_header 0 false buf l → plain s →
  match status_of s with
  | StatusOK => ∃ l', chars n (line s) l = Ok (Continue, l') ∧ in_header 1 false buf l' ∧
                  has_string (Line l')
  | StatusOther st => ∃ l', chars n (line s) l = Ok (DeleteAndReturn st, l') ∧ pBuffer l' = buf
  | StatusNull => chars n (line s) l = Fault NullDeref
  end.
Proof using Type.
  intros (Hst & Hk & Hn & Hln & Hck & Hl & Hb & Hat) Hs.
  destruct (line_text_run n s l) as (b1 & E & L1 & Hh); [auto..|].
  unfold line. rewrite (chars_run _ _ _ _ E), chars_CRLF by (by left).
  destruct Hs as (_ & Hne & _).
  assert (Hz : Z.of_nat (length s) ≠ 0) by by destruct s.
  pose proof (step_first_line n (set_nChar (Z.of_nat (length s)) (set_Line b1 l)) Hst Hz Hk) as Es.
  cbn [Line set_nChar set_Line] in Es. pose proof (first_line_spec b1 s Hh) as Hf.
  destruct (status_of s).
  - destruct Hf as (b2 & Eb & L2 & Hs2). rewrite Eb in Es. rewrite (chars_cons _ _ _ _ _ Es).
    eexists. split; [done|]. split; [|done]. split_and!; cbn; try done. lia.
  - destruct Hf as (b2 & Eb & L2). rewrite Eb in Es. rewrite (chars_stop _ _ _ _ _ _ Es).
    eexists. by split.
  - rewrite Hf in Es. cbn [chars]. by rewrite bind_unfold, Es.
Qed.

Lemma option_line_run n s k ck buf l :
  0 < k < 2^32 - 1 → in_header k ck buf l → plain s →
  ∃ l', chars n (line s) l = Ok (Continue, l') ∧
    in_header (k + 1) (ck || announces_chunked s) buf l' ∧ has_string (Line l').
Proof using Type.
  intros Hk32 (Hst & Hk & Hn & Hln & Hck & Hl & Hb & Hat) Hs.
  destruct (line_text_run n s l) as (b1 & E & L1 & Hh); [auto..|].
  unfold line. rewrite (chars_run _ _ _ _ E), chars_CRLF by (by left).
  destruct Hs as (_ & Hne & _).
  assert (Hz : Z.of_nat (length s) ≠ 0) by by destruct s.
  destruct (option_line_spec b1 s Hh) as (b2 & Eo & L2 & Hs2).
  pose proof (step_option_line n (set_nChar (Z.of_nat (length s)) (set_Line b1 l)) Hst Hz) as Es.
  cbn [Line nLine set_nChar set_Line] in Es. specialize (Es ltac:(lia)). rewrite Eo in Es.
  rewrite (chars_cons _ _ _ _ _ Es). clear Es.
  assert (Hu : u32 (nLine l + 1) = k + 1) by (rewrite Hk; apply u32_id; unfold is_u32; lia).
  destruct (announces_chunked s); cbn; eexists; (split; [done|]); (split; [|done]);
    split_and!; cbn; try done; try lia.
  by rewrite orb_false_r.
Qed.

Lemma options_run n options k ck buf l :
  0 < k → k + Z.of_nat (length options) < 2^32 → in_header k ck buf l → has_string (Line l) →
  Forall plain options →
  ∃ l', chars n (concat (line <$> options)) l = Ok (Continue, l') ∧
    in_header (k + Z.of_nat (length options)) (ck || existsb announces_chunked options) buf l' ∧
    has_string (Line l').
Proof using Type.
  intros Hk Hlt Hl Hst Ho. revert k ck l Hk Hlt Hl Hst.
  induction Ho as [|s options Hs Ho IH]; intros k ck l Hk Hlt Hl Hst; cbn [fmap list_fmap concat].
  - exists l. rewrite orb_false_r, Z.add_0_r. done.
  - cbn [length] in *. destruct (option_line_run n s k ck buf l) as (l1 & E1 & Hl1 & Hs1); [lia|done..|].
    destruct (IH (k + 1) _ l1 ltac:(lia) ltac:(lia) Hl1 Hs1) as (l2 & E2 & Hl2 & Hs2).
    exists l2. rewrite (chars_run _ _ _ _ E1). split; [done|]. split; [|done].
    cbn [existsb]. rewrite orb_assoc.
    by replace (k + Z.of_nat (S (length options))) with (k + 1 + Z.of_nat (length options)) by lia.
Qed.

(** The locals while the content is read, of which [out] has been stored. *)
Definition in_body (st : Z) (buf : list cell) (out : list Z) (l : locals) : Prop :=
  nState l = st ∧ pBuffer l = written buf out ∧ nLength l = Z.of_nat (length out) ∧
  pBuffer_at l = Z.of_nat (length out) ∧
  Z.of_nat (length (Line l)) = HTTP_MAX_REQUEST_LINE.

Lemma header_run n first options buf :
  plain first → status_of first = StatusOK → Forall plain options →
  Z.of_nat (length options) < 2^32 - 1 →
  ∃ l, chars n (header first options) (init_locals buf) = Ok (Continue, l) ∧
    in_body (if existsb announces_chunked options then 2 else 1) buf [] l ∧ nChar l = 0.
Proof using Type.
  intros Hf Hok Ho Hlen. unfold header.
  pose proof (first_line_run n first buf (init_locals buf) ltac:(done) Hf) as H1. rewrite Hok in H1.
  destruct H1 as (l1 & E1 & Hl1 & Hs1).
  destruct (options_run n options 1 false buf l1) as (l2 & E2 & Hl2 & Hs2); [lia|lia|done..|].
  rewrite (chars_run _ _ _ _ E1), (chars_run _ _ _ _ E2).
  destruct Hl2 as (Hst & Hk & Hn & Hln & Hck & Hl & Hb & Hat). rewrite chars_CRLF by (by left).
  rewrite (chars_cons _ _ _ _ _ (step_end_header n l2 Hst Hn)). rewrite Hck.
  eexists. split; [done|]. by split_and!.
Qed.

(** * The content *)

Lemma copy_char_run n b buf out st l :
  in_body st buf out l → Z.of_nat (length out) < n → n ≤ Z.of_nat (length buf) → n < 2^32 →
  ∃ l', copy_char (Some n) b l = Ok (Continue, l') ∧ in_body st buf (out ++ [b]) l' ∧
    ulBytes l' = ulBytes l.
Proof using Type.
  intros (Hst & Hb & Hl & Hat & Hrest) Hn Hbuf H32. unfold copy_char.
  erewrite bind_run by done. erewrite bind_run by done. erewrite bind_run by done.
  rewrite Hl, Z.geb_leb. destruct (Z.leb_spec n (Z.of_nat (length out))); [lia|].
  rewrite Hb, Hat. rewrite bind_unfold. rewrite written_snoc by lia. cbn [lift_res].
  eexists. split; [done|]. split; [|done].
  split_and!; cbn; try done; rewrite length_app; cbn;
    rewrite ?u32_id by (unfold is_u32; lia); try lia; apply Hrest.
Qed.

Lemma copy_char_full n b buf out st l :
  in_body st buf out l → Z.of_nat (length out) = n →
  copy_char (Some n) b l = Ok (DeleteAndReturn HTTPContentBufferTooSmall, l).
Proof using Type.
  intros (Hst & Hb & Hl & Hat & Hrest) Hn. unfold copy_char.
  erewrite bind_run by done. erewrite bind_run by done. erewrite bind_run by done.
  rewrite Hl, Z.geb_leb. by destruct (Z.leb_spec n (Z.of_nat (length out))); [|lia].
Qed.

Lemma step_body n b l : nState l = 1 → step n b l = copy_char n b l.
Proof using Type. intros Hs. unfold step. rewrite bind_unfold. cbn [get]. by rewrite Hs. Qed.

(** The content of a response that is not chunked. *)
Lemma body_run n bs buf out l :
  in_body 1 buf out l → Z.of_nat (length out) ≤ n → n ≤ Z.of_nat (length buf) → n < 2^32 →
  (Z.of_nat (length (out ++ bs)) ≤ n →
    ∃ l', chars (Some n) bs l = Ok (Continue, l') ∧ in_body 1 buf (out ++ bs) l') ∧
  (n < Z.of_nat (length (out ++ bs)) →
    ∃ l', chars (Some n) bs l = Ok (DeleteAndReturn HTTPContentBufferTooSmall, l') ∧
      pBuffer l' = written buf (take (Z.to_nat n) (out ++ bs))).
Proof using Type.
  intros Hl Ho Hn H32. revert out l Hl Ho. induction bs as [|b bs IH]; intros out l Hl Ho.
  - rewrite app_nil_r. split; [by eauto|lia].
  - destruct (decide (Z.of_nat (length out) = n)) as [E|E].
    + split; [rewrite length_app; cbn; lia|]. intros _. exists l. split.
      * assert (Es : step (Some n) b l = Ok (DeleteAndReturn HTTPContentBufferTooSmall, l)).
        { rewrite step_body by apply Hl. by apply (copy_char_full _ _ buf out 1). }
        by apply chars_stop.
      * destruct Hl as (_ & -> & _). rewrite take_app_le by lia. by rewrite take_ge by lia.
    + destruct (copy_char_run n b buf out 1 l Hl) as (l1 & E1 & Hl1 & _); [lia|lia|lia|].
      assert (Es : step (Some n) b l = Ok (Continue, l1)).
      { by rewrite step_body by apply Hl. }
      specialize (IH (out ++ [b]) l1 Hl1 ltac:(rewrite length_app; cbn; lia)).
      rewrite <-app_assoc in IH. cbn [app] in IH. rewrite (chars_cons _ _ _ _ _ Es). exact IH.
Qed.

Lemma step_data n b l :
  nState l = 3 → step n b l = step_chunk_data n b l.
Proof using Type. intros Hs. unfold step. rewrite bind_unfold. cbn [get]. by rewrite Hs. Qed.

(** The data of a chunk. *)
Lemma data_run n bs buf out l :
  in_body 3 buf out l → ulBytes l = Z.of_nat (length bs) → Z.of_nat (length bs) < 2^32 → bs ≠ [] →
  Z.of_nat (length out) ≤ n → n ≤ Z.of_nat (length buf) → n < 2^32 →
  (Z.of_nat (length (out ++ bs)) ≤ n →
    ∃ l', chars (Some n) bs l = Ok (Continue, l') ∧ in_body 4 buf (out ++ bs) l') ∧
  (n < Z.of_nat (length (out ++ bs)) →
    ∃ l', chars (Some n) bs l = Ok (DeleteAndReturn HTTPContentBufferTooSmall, l') ∧
      pBuffer l' = written buf (take (Z.to_nat n) (out ++ bs))).
Proof using Type.
  intros Hl Hu Hlen Hne Ho Hn H32. revert out l Hl Hu Ho Hne.
  induction bs as [|b bs IH]; intros out l Hl Hu Ho Hne; [done|]. clear Hne.
  pose proof Hl as (Hst & _). cbn [length] in *.
  destruct (decide (Z.of_nat (length out) = n)) as [E|E].
  - split; [rewrite length_app; cbn; lia|]. intros _. exists l. split.
    + assert (Es : step (Some n) b l = Ok (DeleteAndReturn HTTPContentBufferTooSmall, l)).
      { rewrite step_data by done. unfold step_chunk_data.
        by rewrite (bind_run _ _ _ _ _ (copy_char_full n b buf out 3 l Hl E)). }
      by apply chars_stop.
    + destruct Hl as (_ & -> & _). rewrite take_app_le by lia. by rewrite take_ge by lia.
  - destruct (copy_char_run n b buf out 3 l Hl) as (l1 & E1 & Hl1 & Hu1); [lia|lia|lia|].
    assert (Hus : usize (ulBytes l1 - 1) = Z.of_nat (length bs)).
    { rewrite Hu1, Hu, usize_id by lia. lia. }
    assert (Es : step (Some n) b l =
      Ok (Continue, (if Z.of_nat (length bs) =? 0 then set_nState 4 else id)
                      (set_ulBytes (Z.of_nat (length bs)) l1))).
    { rewrite step_data by done. unfold step_chunk_data. rewrite (bind_run _ _ _ _ _ E1).
      cbv iota. rewrite bind_unfold. cbn [get]. rewrite Hus, bind_unfold. cbn [modify].
      unfold when. by destruct (Z.of_nat (length bs) =? 0). }
    destruct Hl1 as (Hs1 & Hb1 & Hn1 & Ha1 & HL1).
    rewrite (chars_cons _ _ _ _ _ Es). destruct bs as [|b' bs].
    + split; [|rewrite length_app; cbn; lia]. intros _. eexists. split; [done|]. by split_and!.
    + destruct (Z.eqb_spec (Z.of_nat (length (b' :: bs))) 0); [done|].
      specialize (IH ltac:(lia) (out ++ [b]) (set_ulBytes (Z.of_nat (length (b' :: bs))) l1)
        ltac:(by split_and!) eq_refl ltac:(rewrite length_app; cbn; lia) ltac:(done)).
      rewrite <-app_assoc in IH. exact IH.
Qed.

(** The line with the size of a chunk. *)
Lemma size_line_run n sz v buf out l :
  in_body 2 buf out l → nChar l = 0 → plain sz → strtoul sz 16 = (v, []) →
  ∃ l', chars n (line sz) l = Ok (Continue, l') ∧
    in_body (if negb (v =? 0) then 3 else 5) buf out l' ∧ ulBytes l' = v.
Proof using Type.
  intros (Hst & Hb & Hl & Hat & HL) Hc Hsz Hv.
  destruct (line_text_run n sz l) as (b1 & E & L1 & Hh); [auto..|].
  unfold line. rewrite (chars_run _ _ _ _ E), chars_CRLF by (by right).
  pose proof (step_size_line n (set_nChar (Z.of_nat (length sz)) (set_Line b1 l)) Hst) as Es.
  cbn [Line set_nChar set_Line] in Es. rewrite (string_at_holds _ _ _ Hh), Hv in Es.
  cbn [bool_decide decide] in Es. rewrite (chars_cons _ _ _ _ _ Es).
  eexists. split; [done|]. split; [|done]. split_and!; try done. cbn. lia.
Qed.

Lemma trailer_run n buf out l :
  in_body 4 buf out l →
  ∃ l', chars n CRLF l = Ok (Continue, l') ∧ in_body 2 buf out l' ∧ nChar l' = 0.
Proof using Type.
  intros (Hst & Hb & Hl & Hat & HL). exists (set_nState 2 (set_nChar 0 l)).
  split; [|by split_and!]. destruct l; cbn in Hst. by subst.
Qed.

(** Well-formed chunks: the size lines give the lengths of the data. *)
Definition chunk_ok (c : list Z * list Z) : Prop :=
  plain c.1 ∧ strtoul c.1 16 = (Z.of_nat (length c.2), []) ∧ c.2 ≠ [] ∧
  Z.of_nat (length c.2) < 2^32.

Lemma chunks_run n cs buf out l :
  in_body 2 buf out l → nChar l = 0 → Forall chunk_ok cs →
  Z.of_nat (length out) ≤ n → n ≤ Z.of_nat (length buf) → n < 2^32 →
  (Z.of_nat (length (out ++ concat cs.*2)) ≤ n →
    ∃ l', chars (Some n) (concat (chunk <$> cs)) l = Ok (Continue, l') ∧
      in_body 2 buf (out ++ concat cs.*2) l' ∧ nChar l' = 0) ∧
  (n < Z.of_nat (length (out ++ concat cs.*2)) → ∀ rest,
    ∃ l', chars (Some n) (concat (chunk <$> cs) ++ rest) l
          = Ok (DeleteAndReturn HTTPContentBufferTooSmall, l') ∧
      pBuffer l' = written buf (take (Z.to_nat n) (out ++ concat cs.*2))).
Proof using Type.
  intros Hl Hc Hcs Ho Hn H32. revert out l Hl Hc Ho.
  induction Hcs as [|[sz d] cs (Hp & Hv & Hne & Hd) Hcs IH]; intros out l Hl Hc Ho;
    cbn [fmap list_fmap concat].
  - rewrite app_nil_r. split; [by eauto|lia].
  - cbn [fst snd] in *.
    destruct (size_line_run (Some n) sz _ buf out l Hl Hc Hp Hv) as (l1 & E1 & Hl1 & Hu1).
    assert ((Z.of_nat (length d) =? 0) = false) as Hz by (destruct d; [done|by apply Z.eqb_neq]).
    rewrite Hz in Hl1. cbn [negb] in Hl1.
    destruct (data_run n d buf out l1 Hl1 Hu1 Hd Hne Ho Hn H32) as [Hfit Hfull].
    change (chunk (sz, d)) with (line sz ++ (d ++ CRLF)).
    rewrite <-(app_assoc (line sz)), <-(app_assoc d).
    split; intros Hlen.
    + destruct Hfit as (l2 & E2 & Hl2); [rewrite !length_app in *; lia|].
      destruct (trailer_run (Some n) _ _ _ Hl2) as (l3 & E3 & Hl3 & Hc3).
      destruct (IH _ _ Hl3 Hc3) as [[l4 (E4 & Hl4 & Hc4)] _]; [rewrite !length_app in *; lia|by rewrite <-app_assoc|].
      exists l4. rewrite (chars_run _ _ _ _ E1), (chars_run _ _ _ _ E2), (chars_run _ _ _ _ E3).
      by rewrite app_assoc.
    + intros rest. rewrite <-(app_assoc (line sz)), <-(app_assoc d), <-(app_assoc CRLF).
      rewrite (chars_run _ _ _ _ E1).
      destruct (decide (n < Z.of_nat (length (out ++ d)))) as [Hov|Hov].
      * destruct (Hfull Hov) as (l2 & E2 & Hb2). exists l2. rewrite chars_app, E2.
        split; [done|]. rewrite Hb2. f_equal. rewrite (app_assoc out).
        rewrite (take_app_le (out ++ d)) by lia. done.
      * destruct Hfit as (l2 & E2 & Hl2); [lia|].
        destruct (trailer_run (Some n) _ _ _ Hl2) as (l3 & E3 & Hl3 & Hc3).
        destruct (IH _ _ Hl3 Hc3) as [_ Hfull']; [lia|].
        rewrite <-app_assoc in Hfull'. destruct (Hfull' Hlen rest) as (l4 & E4 & Hb4).
        exists l4. by rewrite (chars_run _ _ _ _ E2), (chars_run _ _ _ _ E3).
Qed.
(** A response whose content is not chunked. *)
Lemma content_interpret n buf first options body :
  0 ≤ n < 2^32 → n ≤ Z.of_nat (length buf) →
  plain first → status_of first = StatusOK →
  Forall plain options → Z.of_nat (length options) < 2^32 - 1 →
  existsb announces_chunked options = false →
  interpret (Some n) buf (header first options ++ body) =
  if Z.of_nat (length body) <=? n
  then Ok (HTTPOK, written buf body, Some (Z.of_nat (length body)))
  else Ok (HTTPContentBufferTooSmall, written buf (take (Z.to_nat n) body), Some n).
Proof using Type.
  intros Hn Hb Hf Hs Ho Hlo Hck.
  destruct (header_run (Some n) first options buf Hf Hs Ho Hlo) as (l & E & Hl & _).
  rewrite Hck in Hl. unfold interpret. rewrite (chars_run _ _ _ _ E).
  destruct (body_run n body buf [] l Hl) as [Hfit Hfull]; [cbn; lia|lia|lia|]. cbn [app] in *.
  destruct (Z.leb_spec (Z.of_nat (length body)) n).
  - destruct (Hfit ltac:(lia)) as (l' & -> & (Hst & Hbuf & Hlen & _)). rewrite Hst, Hbuf, Hlen.
    cbn. by destruct (Z.leb_spec (Z.of_nat (length body)) n); [|lia].
  - destruct (Hfull ltac:(lia)) as (l' & -> & ->). done.
Qed.
End parse.
