(* ===== verification/HttpSafety.v ===== *)
(** Whatever the server sends: the client stays within its line buffer and the
    caller's buffer, and gives its socket back. *)
From stdpp Require Import base numbers list gmap option strings.
From S2P Require Import Prelude.
From S2P Require Import Libc.
From S2P Require Import Circle.
From S2P Require Import HttpClient.
From S2P Require Import HttpSpec.
From S2P Require Import HttpParse.
Import Libc Http.

Section parser.
Context `{Target}.
Variables (n : Z) (buf : list cell).
Hypothesis n_range : 0 ≤ n < 2^32.
Hypothesis n_buf : n ≤ Z.of_nat (length buf).

(** The line buffer holds what has been read of the line, and a string wherever
    the code is going to read one. *)
Definition line_ok (l : locals) : Prop :=
  (∃ pre, reading l pre ∧ Z.of_nat (length pre) < HTTP_MAX_REQUEST_LINE) ∧
  (bChunked l = true ∨ 2 ≤ nState l ≤ 4 → has_string (Line l)).

(** The caller's buffer has been written up to [nLength], which is at most the
    [*pLength] of the caller. *)
Definition output_ok (l : locals) : Prop :=
  pBuffer_at l = nLength l ∧ 0 ≤ nLength l ≤ n ∧ length (pBuffer l) = length buf ∧
  drop (Z.to_nat n) (pBuffer l) = drop (Z.to_nat n) buf.

Definition locals_ok (l : locals) : Prop := line_ok l ∧ output_ok l.

Lemma init_locals_ok : locals_ok (init_locals buf).
Proof using n_range.
  split; [split|].
  - exists []. split; [|done]. split_and!; [done| |done].
    cbn [Line init_locals]. unfold uninit. by rewrite length_replicate.
  - intros [?|?]; [done|]. cbn in *. lia.
  - split_and!; cbn; try done; lia.
Qed.

Lemma reading_string l pre : reading l pre → pre ≠ [] → has_string (Line l).
Proof using Type. intros (_ & _ & Hh) Hne. eexists. apply holds_until. by apply Hh. Qed.

Lemma accumulate_ok c l :
  nState l = 0 ∨ nState l = 2 → locals_ok l → wp (eq NullDeref) (accumulate c) (λ _ l', locals_ok l') l.
Proof using Type.
  intros Hst ((( pre & Hr & Hp) & Hs) & Ho).
  destruct (decide (Z.of_nat (length pre) < HTTP_MAX_REQUEST_LINE - 1)) as [Hlt|Hge].
  - destruct (accumulate_spec l pre c Hr Hlt) as (b & E & Hr'). unfold wp. rewrite E.
    split; [split|].
    + exists (pre ++ [c]). split; [done|]. rewrite length_app. cbn. lia.
    + intros _. apply (reading_string _ _ Hr'). by destruct pre.
    + exact Ho.
  - unfold accumulate. wp_steps. destruct Hr as (Hn & Hr).
    replace (nChar l <? HTTP_MAX_REQUEST_LINE - 1) with false; [|symmetry; apply Z.ltb_ge; lia].
    cbn. split; [split|]; [by exists pre|done|done].
Qed.

(** Resetting the line keeps what the array holds. *)
Lemma line_ok_reset l l' :
  nChar l' = 0 → length (Line l') = length (Line l) → line_ok l →
  (bChunked l' = true ∨ 2 ≤ nState l' ≤ 4 → has_string (Line l')) → line_ok l'.
Proof using Type.
  clear n_range n_buf. intros Hn Hl ((pre & (_ & HL & _) & _) & _) Hs. split; [|done].
  exists []. split; [|done]. split_and!; [done|lia|done].
Qed.

(** After a byte: the line matters only when the loop goes on. *)
Definition after_byte (o : outcome) (l : locals) : Prop :=
  output_ok l ∧ (o = Continue → line_ok l).

Lemma line_end_ok l :
  nState l = 0 → locals_ok l → wp (eq NullDeref) (step (Some n) LF) after_byte l.
Proof using Type.
  intros Hst (Hl & Ho). unfold wp. destruct (decide (nChar l = 0)) as [Hc|Hc].
  { rewrite step_end_header by done. split; [exact Ho|intros _].
    apply (line_ok_reset l); [done|done|done|]. intros Hor. apply Hl. left.
    destruct (bChunked l) eqn:E; [done|]. cbn in Hor. rewrite E in Hor. destruct Hor; [done|lia]. }
  assert (Hstr : has_string (Line l)).
  { destruct Hl as ((pre & Hr & _) & _). apply (reading_string _ _ Hr).
    intros ->. destruct Hr as [Hr _]. done. }
  destruct Hstr as (s & Hs). destruct (decide (nLine l = 0)) as [H0|H0].
  - rewrite step_first_line by done. pose proof (first_line_spec _ _ Hs) as Hf.
    destruct (status_of s).
    + destruct Hf as (b & -> & Lb & Hb). split; [exact Ho|intros _].
      by apply (line_ok_reset l).
    + destruct Hf as (b & -> & Lb). by split; [exact Ho|].
    + by rewrite Hf.
  - rewrite step_option_line by done. destruct (option_line_spec _ _ Hs) as (b & -> & Lb & Hb).
    destruct (announces_chunked s); (split; [exact Ho|intros _]);
      by apply (line_ok_reset l).
Qed.

Lemma size_line_ok l :
  nState l = 2 → locals_ok l → wp (eq NullDeref) (step (Some n) LF) after_byte l.
Proof using Type.
  intros Hst (Hl & Ho). unfold wp. rewrite step_size_line by done.
  destruct Hl as ((pre & Hr & Hp) & Hs). assert (Hs2 : has_string (Line l)) by (apply Hs; lia).
  destruct Hs2 as (s & Hstr). rewrite (string_at_holds _ _ _ Hstr).
  destruct (strtoul s 16) as [v rest]. destruct (bool_decide (rest = [])); [|by split].
  split; [exact Ho|intros _]. split; [by exists pre|]. intros _. by exists s.
Qed.

Lemma copy_char_ok b l :
  output_ok l → wp (eq NullDeref) (copy_char (Some n) b)
    (λ o l', output_ok l' ∧ nState l' = nState l ∧ Line l' = Line l ∧ nChar l' = nChar l ∧
             bChunked l' = bChunked l) l.
Proof using n_range n_buf.
  intros (Hat & Hn & Hlen & Hd). unfold copy_char.
  wp_step. apply wp_assert_true; [by apply bool_decide_eq_true|].
  wp_step. eapply wp_deref_Some; [done|]. cbv beta. wp_steps.
  rewrite Z.geb_leb. destruct (Z.leb_spec n (nLength l)); [by wp_step|].
  wp_step. unfold wr. eapply wp_lift_Ok; [apply wr_cell_Ok; lia|]. cbv beta. wp_steps.
  split; [|done]. split_and!; cbn; try lia.
  - rewrite u32_id; unfold is_u32; lia.
  - rewrite u32_id; unfold is_u32; lia.
  - rewrite u32_id; unfold is_u32; lia.
  - by rewrite length_insert.
  - rewrite drop_insert_lt by lia. done.
Qed.

(** One byte of the response. *)
Lemma step_ok b l :
  locals_ok l → wp (eq NullDeref) (step (Some n) b) after_byte l.
Proof using n_range n_buf.
  intros Hok. pose proof Hok as (Hl & Ho).
  destruct (decide (nState l = 0 ∨ nState l = 2)) as [Ht|Ht].
  - destruct (decide (b = CR)) as [->|Hcr].
    { unfold wp, step. rewrite bind_unfold. cbn [get].
      destruct Ht as [-> | ->]; by split. }
    destruct (decide (b = LF)) as [->|Hlf].
    { destruct Ht; [by apply line_end_ok|by apply size_line_ok]. }
    unfold wp. rewrite step_text by done. change (wp (eq NullDeref) (accumulate b;; mret Continue) after_byte l).
    wp_step. eapply wp_mono; [by apply accumulate_ok|]. intros _ l' (? & ?). wp_step. by split.
  - unfold step. wp_steps.
    destruct (Z.eqb_spec (nState l) 0); [lia|]. destruct (Z.eqb_spec (nState l) 1) as [E1|E1].
    { eapply wp_mono; [by apply copy_char_ok|].
      intros o l' (Ho' & Es & El & Ec & Eb). split; [done|intros _].
      destruct Hl as ((pre & (Hn & HL & Hh) & Hp) & Hs). split.
      - exists pre. split; [|done]. split_and!; [congruence|congruence|by rewrite El].
      - rewrite El, Es, Eb. done. }
    destruct (Z.eqb_spec (nState l) 2); [lia|]. destruct (Z.eqb_spec (nState l) 3) as [E3|E3].
    { unfold step_chunk_data. wp_step. eapply wp_mono; [by apply copy_char_ok|].
      intros o l' (Ho' & Es & El & Ec & Eb). destruct o; [|by wp_step; split].
      assert (Hl' : line_ok l').
      { destruct Hl as ((pre & (Hn & HL & Hh) & Hp) & Hs). split.
        - exists pre. split; [|done]. split_and!; [congruence|congruence|by rewrite El].
        - rewrite El, Es, Eb. done. }
      assert (Hs3 : has_string (Line l')) by (rewrite El; apply Hl; lia).
      wp_steps. apply wp_when; intros _; wp_steps; (split; [exact Ho'|intros _]);
        (split; [apply Hl'|done]). }
    destruct (Z.eqb_spec (nState l) 4) as [E4|E4]; [|by wp_step].
    unfold step_chunk_trailer. destruct (b =? CR); [by wp_step|].
    destruct (negb (b =? LF)); [by wp_step; split|]. wp_steps. split; [exact Ho|intros _].
    apply (line_ok_reset l); [done|done|done|]. intros _. apply Hl. lia.
Qed.

Lemma chars_ok bs l : locals_ok l → wp (eq NullDeref) (chars (Some n) bs) after_byte l.
Proof using n_range n_buf.
  revert l. induction bs as [|b bs IH]; intros l Hok; cbn [chars].
  - wp_step. by split; [apply Hok|intros _; apply Hok].
  - wp_step. eapply wp_mono; [by apply step_ok|]. intros [|st] l' (Ho & Hl).
    + apply IH. split; [by apply Hl|done].
    + wp_step. by split.
Qed.
End parser.

(** * The whole request *)
Section request.
Context `{Target, Platform W}.
Variables (n : Z) (buf : list cell).
Hypothesis n_range : 0 ≤ n < 2^32.
Hypothesis n_buf : n ≤ Z.of_nat (length buf).

(** The loops may run as long as the server sends; apart from that the only
    fault is the null pointer of a first line with too few tokens. *)
Definition request_faults (e : fault) : Prop := e = NullDeref ∨ e = OutOfFuel.

(** Between two calls: no socket is open. *)
Definition call_done (c : call) : Prop :=
  m_pSocket (client c) = None ∧ length (pBuffer (loc c)) = length buf ∧
  drop (Z.to_nat n) (pBuffer (loc c)) = drop (Z.to_nat n) buf ∧
  ∃ n', pLength c = Some n' ∧ 0 ≤ n' ≤ n.

(** In a call: the socket is open. *)
Definition call_open (c : call) : Prop :=
  is_Some (m_pSocket (client c)) ∧ pLength c = Some n.

Lemma delete_socket_wp F (Q : () → call → Prop) c :
  (∀ c', m_pSocket (client c') = None → loc c' = loc c → pLength c' = pLength c → Q () c') →
  wp F delete_socket Q c.
Proof using Type.
  intros HQ. unfold delete_socket. wp_step. wp_step.
  assert (Hset : ∀ c', loc c' = loc c → pLength c' = pLength c → wp F (set_socket None) Q c').
  { intros c' Hl Hp. unfold set_socket. wp_step. by apply HQ. }
  destruct (m_pSocket (client c)) as [s|].
  - wp_step. unfold world_op. apply wp_env. intros [] w _. by apply Hset.
  - wp_step. wp_step. by apply Hset.
Qed.

Lemma delete_and_return {A} (c : call) (v : A) (Q : A → call → Prop) :
  pLength c = Some n → output_ok n buf (loc c) →
  (∀ c', call_done c' → Q v c') → wp request_faults (delete_socket;; mret v) Q c.
Proof using n_range.
  intros Hp (_ & _ & Hlen & Hd) HQ. wp_step. apply delete_socket_wp. intros c' Hs Hl Hp'.
  wp_step. apply HQ. split_and!; rewrite ?Hl; try done. exists n. split; [congruence|lia].
Qed.

Lemma receive_loop_ok fuel c :
  call_open c → locals_ok n buf (loc c) →
  wp request_faults (receive_loop fuel)
    (λ o c', match o with
             | Some _ => call_done c'
             | None => call_open c' ∧ locals_ok n buf (loc c')
             end) c.
Proof using n_range n_buf.
  revert c. induction fuel as [|fuel IH]; intros c (Hs & Hp) Hok; cbn [receive_loop].
  { apply wp_fail. by right. }
  wp_step. wp_step. apply wp_if; intros _; [|by wp_step].
  destruct Hs as [s Hs]. wp_step. eapply wp_deref_Some; [exact Hs|]. cbv beta.
  wp_step. unfold world_op. apply wp_env. intros [r bs] w _.
  apply wp_if; intros _; [|by wp_step; split; [split; [exists s|]|]].
  wp_step. wp_step. rewrite Hp. cbn [loc set_world].
  eapply wp_mono_fault; [eapply wp_mono; [by apply chars_ok|]|intros e <-; by left].
  intros [|st] l' (Ho & Hl).
  - apply IH; [split; [by exists s|done]|]. split; [by apply Hl|done].
  - eapply delete_and_return; [done|done|]. auto.
Qed.

Lemma finish_ok c :
  call_open c → locals_ok n buf (loc c) → wp request_faults finish (λ _ c', call_done c') c.
Proof using n_range.
  intros (Hs & Hp) (_ & Hout). pose proof Hout as (Hat & Hn & Hlen & Hd). unfold finish. wp_step. wp_step.
  apply wp_if; intros _; [by eapply delete_and_return|].
  wp_step. apply delete_socket_wp. intros c' Hs' Hl' Hp'. rewrite Hp.
  wp_step. apply wp_assert_true; [by apply bool_decide_eq_true|].
  wp_step. eapply wp_deref_Some; [done|]. cbv beta.
  wp_step. apply wp_assert_true; [apply Z.leb_le; lia|].
  wp_steps. split_and!; cbn; rewrite ?Hl'; try done. exists (nLength (loc c)). split; [done|lia].
Qed.

Lemma response_ok fuel c :
  call_open c → locals_ok n buf (loc c) →
  wp request_faults (response fuel) (λ _ c', call_done c') c.
Proof using n_range n_buf.
  intros Hc Hl. unfold response. wp_step. eapply wp_mono; [by apply receive_loop_ok|].
  intros [st|] c' Hc'; [by wp_step|]. destruct Hc'. by apply finish_ok.
Qed.

(** The start of a request leaves the buffer alone, and closes the socket when
    it fails. *)
Definition started (o : option Z) (c c' : call) : Prop :=
  loc c' = loc c ∧ pLength c' = pLength c ∧
  match o with
  | Some _ => m_pSocket (client c') = None
  | None => is_Some (m_pSocket (client c'))
  end.

(** What the code assumes of its caller. *)
Definition may_request (Method : THTTPRequestMethod) (pPath : option (list Z)) (c : call) : Prop :=
  m_pTLSSupport (client c) = true ∧ m_pSocket (client c) = None ∧
  is_Some (method_name Method) ∧ is_Some pPath ∧
  (m_bUseSSL (client c) = true → m_ServerName (client c) ≠ []).

Lemma open_connection_ok Method pPath c :
  may_request Method pPath c →
  wp no_fault open_connection (λ o c', started o c c') c.
Proof using Type.
  intros (Ht & Hs & _ & _ & Hn). unfold open_connection. wp_step. wp_step.
  wp_step. apply wp_assert_true; [done|]. wp_step. apply wp_assert_true; [by apply bool_decide_eq_true|].
  wp_step.
  apply (wp_mono _ _ (λ o c', started o c c')).
  - apply wp_if; intros Hssl.
    + wp_step. apply wp_env. intros s w _. wp_step. unfold set_socket. wp_step. wp_step.
      by split_and!.
    + wp_step. apply wp_env. intros s w _. wp_step. unfold set_socket. wp_step.
      wp_step. apply wp_env. intros r w2 _. cbv beta. cbn [set_world client loc pLength set_client].
      apply wp_if; intros _.
      { wp_step. apply delete_socket_wp. intros c' Hs' Hl' Hp'. wp_step. by split_and!. }
      apply negb_false_iff in Hssl. wp_step. apply wp_assert_true.
      { specialize (Hn Hssl). destruct (m_ServerName (client c)); [done|]. by apply Z.gtb_lt. }
      wp_step. apply wp_env. intros r2 w3 _. apply wp_if; intros _.
      { wp_step. apply delete_socket_wp. intros c' Hs' Hl' Hp'. wp_step. by split_and!. }
      wp_step. by split_and!.
  - intros [st|] c1 (Hl1 & Hp1 & Hs1); [by wp_step|]. wp_step. wp_step. destruct Hs1 as [s Hs1].
    wp_step. eapply wp_deref_Some; [done|]. cbv beta. wp_step. apply wp_env. intros r w _.
    apply wp_if; intros _.
    + wp_step. apply delete_socket_wp. intros c' Hs' Hl' Hp'. wp_step.
      split_and!; [by rewrite Hl'|by rewrite Hp'|done].
    + wp_step. by split_and!.
Qed.

Lemma start_ok Method pPath pFormData c :
  may_request Method pPath c →
  wp no_fault (start Method pPath pFormData) (λ o c', started o c c') c.
Proof using Type.
  intros Hm. unfold start. wp_step. eapply wp_mono; [by eapply open_connection_ok|].
  intros [st|] c1 (Hl1 & Hp1 & Hs1); [by wp_step|]. destruct Hm as (_ & _ & [m Hmn] & [p ->] & _).
  unfold send_request. wp_step. apply wp_assert_true; [by rewrite Hmn; apply bool_decide_eq_true|].
  wp_step. eapply wp_deref_Some; [exact Hmn|]. cbv beta.
  wp_step. apply wp_assert_true; [by apply bool_decide_eq_true|].
  wp_step. eapply wp_deref_Some; [done|]. cbv beta. wp_step. wp_step. destruct Hs1 as [s Hs1].
  wp_step. eapply wp_deref_Some; [done|]. cbv beta. wp_step. apply wp_env. intros r w _.
  apply wp_if; intros _.
  - wp_step. apply delete_socket_wp. intros c' Hs' Hl' Hp'. wp_step.
    split_and!; [by rewrite Hl'|by rewrite Hp'|done].
  - wp_step. by split_and!.
Qed.

Lemma Request_ok fuel Method pPath pFormData c :
  may_request Method pPath c → pLength c = Some n → pBuffer (loc c) = buf →
  wp request_faults (Request fuel Method pPath pFormData) (λ _ c', call_done c') c.
Proof using n_range n_buf.
  intros Hm Hp Hb. unfold Request. wp_step. apply wp_no_fault. eapply wp_mono; [by eapply start_ok|].
  intros [st|] c1 (Hl1 & Hp1 & Hs1).
  - wp_step. split_and!; [done|by rewrite Hl1, Hb|by rewrite Hl1, Hb|].
    exists n. split; [congruence|lia].
  - wp_step. wp_step. apply response_ok.
    + split; [exact Hs1|]. cbn. congruence.
    + cbn [loc set_loc]. rewrite Hl1, Hb. by apply init_locals_ok.
Qed.
End request.

(** A request as a function of the bytes of the response. *)
Lemma Request_interpret `{Target, Platform W} fuel Method pPath pFormData c c1 s bss w' :
  may_request Method pPath c →
  start Method pPath pFormData c = Ok (None, c1) → m_pSocket (client c1) = Some s →
  delivers s (world c1) bss w' → (length bss < fuel)%nat →
  match interpret (pLength c) (pBuffer (loc c)) (concat bss) with
  | Fault e => Request fuel Method pPath pFormData c = Fault e
  | Ok (st, buf, n) =>
      ∃ c' w, Request fuel Method pPath pFormData c = Ok (st, c') ∧
        pBuffer (loc c') = buf ∧ pLength c' = n ∧ m_pSocket (client c') = None ∧
        world c' = (CNetSocket_delete s w).2
  end.
Proof.
  intros Hm E Hs Hd Hf.
  pose proof (wp_Ok _ _ _ _ _ _ (start_ok Method pPath pFormData c Hm) E) as (Hl & Hp & _).
  pose proof (response_interpret s (set_loc (init_locals (pBuffer (loc c1))) c1) bss w' fuel
    Hd Hs Hf eq_refl) as Hr.
  cbn [pLength loc set_loc pBuffer init_locals] in Hr. rewrite Hl, Hp in Hr.
  unfold Request. rewrite (bind_run _ _ _ _ _ E), bind_unfold. cbn [modify]. rewrite Hl.
  exact Hr.
Qed.

(** The server sends at least as many pieces as there is fuel. *)
Definition sends_on `{Target, Platform W} (fuel : nat) Method pPath pFormData (c : call) : Prop :=
  ∃ c1 s, start Method pPath pFormData c = Ok (None, c1) ∧ m_pSocket (client c1) = Some s ∧
    ∀ bss w', delivers s (world c1) bss w' → (fuel ≤ length bss)%nat.

(** Only then is the fuel of the loop used up. *)
Lemma out_of_fuel `{Target, Platform W} n buf fuel Method pPath pFormData c :
  0 ≤ n < 2^32 → n ≤ Z.of_nat (length buf) →
  may_request Method pPath c → pLength c = Some n → pBuffer (loc c) = buf →
  Request fuel Method pPath pFormData c = Fault OutOfFuel → sends_on fuel Method pPath pFormData c.
Proof.
  intros Hn Hb Hm Hp Hbuf E.
  destruct (wp_total _ _ _ (start_ok Method pPath pFormData c Hm)) as (o & c1 & E1 & Hl1 & Hp1 & Hs1).
  destruct o as [st|]; [unfold Request in E; by rewrite (bind_run _ _ _ _ _ E1) in E|].
  destruct Hs1 as [s Hs1]. exists c1, s. split; [done|]. split; [done|]. intros bss w' Hd.
  destruct (Nat.le_gt_cases fuel (length bss)) as [|Hf]; [done|].
  pose proof (Request_interpret fuel _ _ _ _ _ _ _ _ Hm E1 Hs1 Hd Hf) as Hi. rewrite E, Hp, Hbuf in Hi.
  unfold interpret in Hi.
  pose proof (chars_ok n buf Hn Hb (concat bss) (init_locals buf) (init_locals_ok n buf Hn)) as Hc.
  unfold wp in Hc. destruct (chars (Some n) (concat bss) (init_locals buf)) as [[[|st] l]|e].
  - destruct ((nState l <? 5) && _); [by destruct Hi as (? & ? & ? & _)|].
    destruct (nLength l <=? n); [by destruct Hi as (? & ? & ? & _)|done].
  - by destruct Hi as (? & ? & ? & _).
  - by subst.
Qed.
