(* ===== verification/HttpProps.v ===== *)
(** The properties of the HTTP client, with their witnesses. *)
From stdpp Require Import base numbers list gmap option strings.
From S2P Require Import Prelude.
From S2P Require Import Libc.
From S2P Require Import Circle.
From S2P Require Import HttpClient.
From S2P Require Import HttpSpec.
From S2P Require Import HttpParse.
From S2P Require Import HttpSafety.
Import Libc Http.
Import (hints) Script.

(** * Concrete requests *)
Module HttpDemo.
#[export] Instance target : Target := aarch64.

Definition text (s : string) : list Z := cstr s.
Definition ok_line : list Z := text "HTTP/1.1 200 OK".
Definition options : list (list Z) := [text "Server: demo"; text "Content-Length: 5"].
Definition chunked_options : list (list Z) := [text "Server: demo"; text "Transfer-Encoding: chunked"].

(** A call of a client without TLS, with a buffer of ten bytes. *)
Definition request (script : list (option (list Z))) : call :=
  call_of (construct true [10; 0; 0; 1] 80 (Some (text "demo")) false) (uninit 10) (Some 10)
    (Script.init script).

Definition after_start (script : list (option (list Z))) : call :=
  match start HTTPRequestMethodGet (Some (text "/")) None (request script) with
  | Ok (_, c) => c
  | Fault _ => request script
  end.

Definition pieces : list (list Z) :=
  [text "HTTP/1.1 "; text "200 OK" ++ [13]; [10; 13]; [10] ++ text "hel"; text "lo"].

Lemma plain_if s : bool_decide (plain s) = true → plain s.
Proof. apply bool_decide_eq_true. Qed.

Lemma request_allowed script :
  may_request HTTPRequestMethodGet (Some (text "/")) (request script).
Proof. by split_and!. Qed.
End HttpDemo.
Import HttpDemo.

(** * Properties *)

(** C2: the result of a request is a function of the bytes the server sends:
    if the connection can be opened, [Request] ends after at most one call of
    [Receive] more than there are pieces, with the status, the content and the
    length [interpret] computes from their concatenation, however the bytes are
    cut into pieces, and the socket is deleted; if [interpret] faults, so does
    [Request]. *)
Theorem http_segmentation `{Target, Platform W} fuel Method pPath pFormData c c1 s bss w' :
  may_request Method pPath c →
  start Method pPath pFormData c = Ok (None, c1) → m_pSocket (client c1) = Some s →
  delivers s (world c1) bss w' → (length bss < fuel)%nat →
  match interpret (pLength c) (pBuffer (loc c)) (concat bss) with
  | Fault e => Request fuel Method pPath pFormData c = Fault e
  | Ok (st, buf, n) =>
      ∃ c' w, Request fuel Method pPath pFormData c = Ok (st, c') ∧
        pBuffer (loc c') = buf ∧ pLength c' = n ∧ m_pSocket (client c') = None ∧
        world c' = (CNetSocket_delete s w).2
  end.
Proof.
  apply Request_interpret.
Qed.

Lemma http_segmentation_witness :
  interpret (Some 10) (uninit 10) (concat pieces)
    = Ok (200, written (uninit 10) (text "hello"), Some 5) ∧
  match interpret (Some 10) (uninit 10) (concat pieces) with
  | Fault e => Request 10 HTTPRequestMethodGet (Some (text "/")) None (request (Some <$> pieces)) = Fault e
  | Ok (st, buf, n) =>
      ∃ c' w, Request 10 HTTPRequestMethodGet (Some (text "/")) None (request (Some <$> pieces))
        = Ok (st, c') ∧ pBuffer (loc c') = buf ∧ pLength c' = n ∧ m_pSocket (client c') = None ∧
        world c' = (@CNetSocket_delete Script.t Script.platform 0%nat w).2
  end.
Proof.
  split; [vm_compute; reflexivity|].
  apply (http_segmentation 10 HTTPRequestMethodGet (Some (text "/")) None
    (request (Some <$> pieces)) (after_start (Some <$> pieces)) 0%nat pieces
    (world (after_start []))).
  - apply request_allowed.
  - reflexivity.
  - reflexivity.
  - repeat (eapply delivers_more; [vm_compute; reflexivity|lia|]).
    eapply delivers_end; [vm_compute; reflexivity|lia].
  - cbn. lia.
Defined.



(** C27: the content of a response that is not chunked: after a header whose
    first line is "HTTP/1.x 200", the client returns [HTTPOK] with exactly the
    bytes that follow and their number, and [HTTPContentBufferTooSmall] if they
    do not fit. *)
Theorem http_content `{Target} n buf first options body :
  0 ≤ n < 2^32 → n ≤ Z.of_nat (length buf) →
  plain first → status_of first = StatusOK →
  Forall plain options → Z.of_nat (length options) < 2^32 - 1 →
  existsb announces_chunked options = false →
  interpret (Some n) buf (header first options ++ body) =
  if Z.of_nat (length body) <=? n
  then Ok (HTTPOK, written buf body, Some (Z.of_nat (length body)))
  else Ok (HTTPContentBufferTooSmall, written buf (take (Z.to_nat n) body), Some n).
Proof.
  apply content_interpret.
Qed.

Lemma http_content_witness :
  interpret (Some 10) (uninit 10) (header ok_line options ++ text "hello")
  = Ok (HTTPOK, written (uninit 10) (text "hello"), Some 5).
Proof.
  apply (http_content 10 (uninit 10) ok_line options (text "hello")).
  - lia.
  - by vm_compute.
  - by apply (bool_decide_unpack _); vm_compute.
  - by vm_compute.
  - repeat constructor; by apply (bool_decide_unpack _); vm_compute.
  - by vm_compute.
  - by vm_compute.
Defined.

(** C28: the content of a chunked response: the client returns the data of the
    chunks, joined, and ignores what follows the chunk of length 0; if the data
    do not fit, it returns [HTTPContentBufferTooSmall] with the buffer full. *)
Theorem http_chunked `{Target} n buf first options cs last rest :
  0 ≤ n < 2^32 → n ≤ Z.of_nat (length buf) →
  plain first → status_of first = StatusOK →
  Forall plain options → Z.of_nat (length options) < 2^32 - 1 →
  existsb announces_chunked options = true →
  Forall chunk_ok cs → plain last → strtoul last 16 = (0, []) →
  interpret (Some n) buf (header first options ++ concat (chunk <$> cs) ++ line last ++ rest) =
  let content := concat cs.*2 in
  if Z.of_nat (length content) <=? n
  then Ok (HTTPOK, written buf content, Some (Z.of_nat (length content)))
  else Ok (HTTPContentBufferTooSmall, written buf (take (Z.to_nat n) content), Some n).
Proof.
  intros Hn Hb Hf Hs Ho Hlo Hck Hcs Hlast H0. cbv zeta.
  destruct (header_run (Some n) first options buf Hf Hs Ho Hlo) as (l & E & Hl & Hc).
  rewrite Hck in Hl. unfold interpret. rewrite (chars_run _ _ _ _ E).
  destruct (chunks_run n cs buf [] l Hl Hc Hcs) as [Hfit Hfull]; [cbn; lia|lia|lia|].
  cbn [app] in *. destruct (Z.leb_spec (Z.of_nat (length (concat cs.*2))) n).
  - destruct (Hfit ltac:(lia)) as (l1 & E1 & Hl1 & Hc1). rewrite (chars_run _ _ _ _ E1).
    destruct (size_line_run (Some n) last 0 _ _ _ Hl1 Hc1 Hlast H0)
      as (l2 & E2 & (Hst & Hbuf & Hlen & _) & _).
    rewrite (chars_run _ _ _ _ E2), chars_done by (by rewrite Hst). rewrite Hst, Hbuf, Hlen.
    cbn. by destruct (Z.leb_spec (Z.of_nat (length (concat cs.*2))) n); [|lia].
  - destruct (Hfull ltac:(lia) (line last ++ rest)) as (l' & -> & ->). done.
Qed.

Lemma http_chunked_witness :
  interpret (Some 10) (uninit 10)
    (header ok_line chunked_options
     ++ concat (chunk <$> [(text "3", text "abc"); (text "02", text "de")])
     ++ line (text "0") ++ CRLF)
  = Ok (HTTPOK, written (uninit 10) (text "abcde"), Some 5).
Proof.
  apply (http_chunked 10 (uninit 10) ok_line chunked_options
    [(text "3", text "abc"); (text "02", text "de")] (text "0") CRLF).
  - lia.
  - by vm_compute.
  - by apply (bool_decide_unpack _); vm_compute.
  - by vm_compute.
  - repeat constructor; by apply (bool_decide_unpack _); vm_compute.
  - by vm_compute.
  - by vm_compute.
  - repeat constructor; by apply (bool_decide_unpack _); vm_compute.
  - by apply (bool_decide_unpack _); vm_compute.
  - by vm_compute.
Defined.

(** A first line that is not "HTTP/1.x 200": the client returns the number
    of the status ([HTTPInvalidResponseCode] if it is not one) and touches
    neither the buffer nor [*pLength]; a line with too few tokens makes it
    convert a null pointer.  A status that is written differently but has the
    value 200 is therefore reported as [HTTPOK] with no content read. *)
Theorem http_first_line `{Target} n buf first rest :
  plain first →
  match status_of first with
  | StatusOK => True
  | StatusOther st => interpret n buf (line first ++ rest) = Ok (st, buf, n)
  | StatusNull => interpret n buf (line first ++ rest) = Fault NullDeref
  end.
Proof.
  intros Hf. pose proof (first_line_run n first buf (init_locals buf) ltac:(done) Hf) as Hr.
  unfold interpret. rewrite chars_app. destruct (status_of first); [done|..].
  - destruct Hr as (l & -> & Hb). by rewrite Hb.
  - by rewrite Hr.
Qed.

Lemma http_first_line_witness :
  (interpret (Some 10) (uninit 10) (line (text "HTTP/1.1 404 Not found") ++ text "x")
   = Ok (404, uninit 10, Some 10)) ∧
  (interpret (Some 10) (uninit 10) (line (text "HTTP/1.1 0200 OK") ++ text "x")
   = Ok (HTTPOK, uninit 10, Some 10)) ∧
  interpret (Some 10) (uninit 10) (line (text "HTTP/1.1") ++ text "x") = Fault NullDeref.
Proof.
  split_and!.
  - pose proof (http_first_line (Some 10) (uninit 10) (text "HTTP/1.1 404 Not found") (text "x")
      (plain_if (text "HTTP/1.1 404 Not found") ltac:(vm_compute; reflexivity))) as P.
    replace (status_of (text "HTTP/1.1 404 Not found")) with (StatusOther 404) in P by (vm_compute; reflexivity). exact P.
  - pose proof (http_first_line (Some 10) (uninit 10) (text "HTTP/1.1 0200 OK") (text "x")
      (plain_if (text "HTTP/1.1 0200 OK") ltac:(vm_compute; reflexivity))) as P.
    replace (status_of (text "HTTP/1.1 0200 OK")) with (StatusOther HTTPOK) in P by (vm_compute; reflexivity). exact P.
  - pose proof (http_first_line (Some 10) (uninit 10) (text "HTTP/1.1") (text "x")
      (plain_if (text "HTTP/1.1") ltac:(vm_compute; reflexivity))) as P.
    replace (status_of (text "HTTP/1.1")) with (StatusNull) in P by (vm_compute; reflexivity). exact P.
Defined.

(** An empty line at the start: the client takes what follows for the
    content of a successful response, without having seen a status. *)
Theorem http_no_status `{Target} n buf body :
  0 ≤ n < 2^32 → n ≤ Z.of_nat (length buf) → Z.of_nat (length body) ≤ n →
  interpret (Some n) buf (CRLF ++ body)
  = Ok (HTTPOK, written buf body, Some (Z.of_nat (length body))).
Proof.
  intros Hn Hb Hl. unfold interpret.
  rewrite chars_app, chars_CRLF by (by left).
  rewrite (chars_cons _ _ _ _ _ (step_end_header (Some n) (init_locals buf) eq_refl eq_refl)).
  cbn [chars mret M_ret].
  destruct (body_run n body buf [] (set_nChar 0 (set_nState 1 (init_locals buf))))
    as [(l' & E & (Hst & Hbuf & Hlen & _)) _]; [by split_and!|cbn; lia|lia|lia|cbn; lia|].
  cbn [bChunked init_locals]. rewrite E, Hst, Hbuf, Hlen. cbn.
  by destruct (Z.leb_spec (Z.of_nat (length body)) n); [|lia].
Qed.

Lemma http_no_status_witness :
  interpret (Some 10) (uninit 10) (CRLF ++ text "abc")
  = Ok (HTTPOK, written (uninit 10) (text "abc"), Some 3).
Proof. by apply (http_no_status 10 (uninit 10) (text "abc")). Defined.
