(* ===== verification/Sched.v ===== *)
(** The parts of Circle's scheduler the threading layer of libc++ relies on,
    and programs that block.

    [CSemaphore], [CTimer] and the scheduler belong to Circle, whose sources are
    not part of the repository: the semaphore is a type class with its
    operations and laws.  The scheduler is cooperative: a task runs until it
    blocks, so that a program is a sequence of atomic steps cut by the calls
    that can block. *)
From stdpp Require Import base numbers list option.
From S2P Require Import Prelude.

(** * Semaphores *)

Class Semaphore := {
  CSemaphore : Type;
  (** Zero-initialised storage. *)
  CSemaphore_zero : CSemaphore;
  Up : CSemaphore → CSemaphore;
  TryDown : CSemaphore → bool * CSemaphore;
  sem_value : CSemaphore → Z
}.

Class SemaphoreOk `{Semaphore} := {
  zero_value : sem_value CSemaphore_zero = 0;
  value_nonneg s : 0 ≤ sem_value s;
  Up_value s : sem_value (Up s) = sem_value s + 1;
  TryDown_spec s :
    if sem_value s >? 0 then (TryDown s).1 = true ∧ sem_value (TryDown s).2 = sem_value s - 1
    else TryDown s = (false, s)
}.

Lemma TryDown_positive `{Semaphore, !SemaphoreOk} s :
  0 < sem_value s → ∃ s', TryDown s = (true, s') ∧ sem_value s' = sem_value s - 1.
Proof.
  intros Hs. pose proof (TryDown_spec s) as Ht. destruct (Z.gtb_spec (sem_value s) 0); [|lia].
  destruct (TryDown s) as [b s']. cbn in Ht. destruct Ht as [-> ?]. eauto.
Qed.

Lemma TryDown_zero `{Semaphore, !SemaphoreOk} s : sem_value s = 0 → TryDown s = (false, s).
Proof.
  intros Hs. pose proof (TryDown_spec s) as Ht. by destruct (Z.gtb_spec (sem_value s) 0); [lia|].
Qed.

Lemma TryDown_true `{Semaphore, !SemaphoreOk} s s' :
  TryDown s = (true, s') → 0 < sem_value s ∧ sem_value s' = sem_value s - 1.
Proof.
  intros E. pose proof (TryDown_spec s) as Ht. destruct (Z.gtb_spec (sem_value s) 0).
  - rewrite E in Ht. cbn in Ht. split; [lia|apply Ht].
  - congruence.
Qed.

(** Counting semaphores are an instance. *)
Module CountingSemaphore.
#[export] Instance ops : Semaphore := {|
  CSemaphore := nat;
  CSemaphore_zero := 0%nat;
  Up := S;
  TryDown n := match n with O => (false, O) | S n => (true, n) end;
  sem_value := Z.of_nat
|}.
#[export] Instance laws : SemaphoreOk.
Proof. split; cbn; try lia. intros [|n]; cbn; [done|]. split; [done|lia]. Qed.
End CountingSemaphore.

(** * Programs that block

    [W] names the semaphores a program can block on.  [Atomic] is a step that
    does not block; [Down] is [CSemaphore::Down] and [DownWithTimeout] the call
    with a number of microseconds, whose result says whether the time ran out. *)
Section prog.
Context {S W : Type}.

Inductive prog (A : Type) : Type :=
  | Ret (a : A)
  | Atomic (f : S → S * prog A)
  | Down (w : W) (k : prog A)
  | DownWithTimeout (w : W) (us : Z) (k : bool → prog A).

Arguments Ret {A} _.
Arguments Atomic {A} _.
Arguments Down {A} _ _.
Arguments DownWithTimeout {A} _ _ _.

Fixpoint prog_bind {A B} (p : prog A) (f : A → prog B) : prog B :=
  match p with
  | Ret a => f a
  | Atomic g => Atomic (λ s, let '(s', p') := g s in (s', prog_bind p' f))
  | Down w k => Down w (prog_bind k f)
  | DownWithTimeout w us k => DownWithTimeout w us (λ b, prog_bind (k b) f)
  end.

#[export] Instance prog_mret : MRet prog := @Ret.
#[export] Instance prog_mbind : MBind prog := λ A B f p, prog_bind p f.

Definition read {A} (f : S → A) : prog A := Atomic (λ s, (s, Ret (f s))).
Definition write (f : S → S) : prog () := Atomic (λ s, (f s, Ret ())).
Definition act {A} (f : S → A * S) : prog A := Atomic (λ s, let '(a, s') := f s in (s', Ret a)).
Definition sem_down (w : W) : prog () := Down w (Ret ()).
Definition sem_down_timeout (w : W) (us : Z) : prog bool := DownWithTimeout w us Ret.

(** What a task does until it returns or blocks.  [try] is the attempt of the
    semaphore; a task that blocks keeps its continuation, which is told whether
    the time ran out. *)
Inductive stop (A : Type) : Type :=
  | Returned (a : A)
  | BlockedOn (w : W) (us : option Z) (k : bool → prog A).
Arguments Returned {A} _.
Arguments BlockedOn {A} _ _ _.

Context (try : W → S → option S).

Fixpoint run {A} (p : prog A) (s : S) : S * stop A :=
  match p with
  | Ret a => (s, Returned a)
  | Atomic f => let '(s', p') := f s in run p' s'
  | Down w k => match try w s with
                | Some s' => run k s'
                | None => (s, BlockedOn w None (λ _, k))
                end
  | DownWithTimeout w us k => match try w s with
                              | Some s' => run (k false) s'
                              | None => (s, BlockedOn w (Some us) k)
                              end
  end.
End prog.

Arguments prog : clear implicits.
Arguments Ret {S W A} _.
Arguments Atomic {S W A} _.
Arguments Down {S W A} _ _.
Arguments DownWithTimeout {S W A} _ _ _.
Arguments stop : clear implicits.
Arguments Returned {S W A} _.
Arguments BlockedOn {S W A} _ _ _.

(** * Counting tasks *)

(** How many tasks of a list satisfy [p]. *)
Definition tally {T} (p : T → bool) (l : list T) : Z := Z.of_nat (length (filter (λ t, p t = true) l)).

Lemma tally_cons {T} (p : T → bool) t l : tally p (t :: l) = Z.b2z (p t) + tally p l.
Proof.
  unfold tally. rewrite filter_cons. destruct (p t) eqn:E.
  - rewrite decide_True by done. cbn [length]. cbn [Z.b2z]. lia.
  - rewrite decide_False by done. done.
Qed.

Lemma tally_nonneg {T} (p : T → bool) l : 0 ≤ tally p l.
Proof. unfold tally. lia. Qed.

Lemma tally_length {T} (p : T → bool) l : tally p l ≤ Z.of_nat (length l).
Proof. unfold tally. pose proof (length_filter (λ t, p t = true) l). lia. Qed.

Lemma tally_insert {T} (p : T → bool) l i t t' :
  l !! i = Some t → tally p (<[i := t']> l) = tally p l - Z.b2z (p t) + Z.b2z (p t').
Proof.
  revert i. induction l as [|x l IH]; intros [|i] Hi; try done; cbn in Hi.
  - simplify_eq. cbn [insert list_insert]. rewrite !tally_cons. lia.
  - change (<[S i := t']> (x :: l)) with (x :: <[i := t']> l). rewrite !tally_cons, (IH i Hi). lia.
Qed.

Lemma tally_pos {T} (p : T → bool) l i t : l !! i = Some t → p t = true → 0 < tally p l.
Proof.
  intros Hi Ht. revert i Hi. induction l as [|x l IH]; intros [|i] Hi; try done; cbn in Hi;
    rewrite tally_cons; pose proof (tally_nonneg p l).
  - simplify_eq. rewrite Ht. cbn. lia.
  - specialize (IH i Hi). destruct (p x); cbn; lia.
Qed.

Lemma tally_exists {T} (p : T → bool) l : 0 < tally p l → ∃ i t, l !! i = Some t ∧ p t = true.
Proof.
  induction l as [|x l IH]; [done|]. rewrite tally_cons. destruct (p x) eqn:E.
  - intros _. by exists 0%nat, x.
  - intros Hl. destruct IH as (i & t & Hi & Ht); [cbn in Hl; lia|]. by exists (S i), t.
Qed.

Lemma tally_two {T} (p : T → bool) l i j t u :
  i ≠ j → l !! i = Some t → l !! j = Some u → p t = true → p u = true → 2 ≤ tally p l.
Proof.
  intros Hij Hi Hj Ht Hu. revert i j Hij Hi Hj.
  induction l as [|x l IH]; intros [|i] [|j] Hij Hi Hj; try done; cbn in Hi, Hj; rewrite tally_cons.
  - simplify_eq. rewrite Ht. pose proof (tally_pos p l j u Hj Hu). cbn. lia.
  - simplify_eq. rewrite Hu. pose proof (tally_pos p l i t Hi Ht). cbn. lia.
  - assert (2 ≤ tally p l) by (eapply IH; [|done..]; congruence). destruct (p x); cbn; lia.
Qed.
