(* ===== verification/LibcxxSync.v ===== *)
(** The mutex and the condition variable of the libc++ threading layer:
    [mutex_impl.h], [mutex.cpp] and [condvar.cpp] of [libs/libcxx-threading].

    The functions work on the objects they are given pointers to: a mutex and a
    condition variable, which make up the state [shared]. *)
From stdpp Require Import base numbers list option relations.
From S2P Require Import Prelude.
From S2P Require Import Sched.

Module Sync.
(** [int] and [long long] arithmetic. *)
Definition s64 (x : Z) : Z :=
  let y := x mod 2^64 in if y <? 2^63 then y else y - 2^64.

Definition ETIMEDOUT : Z := 116.

Section sync.
Context `{Semaphore}.

(** [NonRecursiveMutexImpl]. *)
Record NonRecursiveMutexImpl := mkMutex {
  m_locked : bool;
  m_waiters : Z;
  m_sem : CSemaphore
}.

(** [CondvarImpl]. *)
Record CondvarImpl := mkCondvar {
  sem : CSemaphore;
  waiters : Z
}.

(** [_LIBCPP_MUTEX_INITIALIZER] and [_LIBCPP_CONDVAR_INITIALIZER] leave the
    storage zero. *)
Definition mutex_init : NonRecursiveMutexImpl := mkMutex false 0 CSemaphore_zero.
Definition condvar_init : CondvarImpl := mkCondvar CSemaphore_zero 0.

Record shared := mkShared {
  mutex : NonRecursiveMutexImpl;
  condvar : CondvarImpl
}.

(** The semaphores a task can block on. *)
Inductive which := MutexSem | CondvarSem.

Definition set_m_locked (x : bool) (s : shared) : shared :=
  mkShared (mkMutex x (m_waiters (mutex s)) (m_sem (mutex s))) (condvar s).
Definition set_m_waiters (x : Z) (s : shared) : shared :=
  mkShared (mkMutex (m_locked (mutex s)) x (m_sem (mutex s))) (condvar s).
Definition set_m_sem (x : CSemaphore) (s : shared) : shared :=
  mkShared (mkMutex (m_locked (mutex s)) (m_waiters (mutex s)) x) (condvar s).
Definition set_sem (x : CSemaphore) (s : shared) : shared :=
  mkShared (mutex s) (mkCondvar x (waiters (condvar s))).
Definition set_waiters (x : Z) (s : shared) : shared :=
  mkShared (mutex s) (mkCondvar (sem (condvar s)) x).

(** An attempt to take a semaphore. *)
Definition try_sem (w : which) (s : shared) : option shared :=
  match w with
  | MutexSem => let '(b, x) := TryDown (m_sem (mutex s)) in if b then Some (set_m_sem x s) else None
  | CondvarSem => let '(b, x) := TryDown (sem (condvar s)) in if b then Some (set_sem x s) else None
  end.

Abbreviation P := (prog shared which).

Definition m_sem_Up : P () := write (λ s, set_m_sem (Up (m_sem (mutex s))) s).
Definition sem_Up : P () := write (λ s, set_sem (Up (sem (condvar s))) s).
Definition sem_TryDown : P bool :=
  act (λ s, let '(b, x) := TryDown (sem (condvar s)) in (b, set_sem x s)).

(** * [NonRecursiveMutexImpl] *)

Definition Acquire : P () :=
  locked ← read (λ s, m_locked (mutex s));
  if negb locked then write (set_m_locked true)
  else
    write (λ s, set_m_waiters (s32 (m_waiters (mutex s) + 1)) s);;
    sem_down MutexSem.

Definition TryAcquire : P bool :=
  locked ← read (λ s, m_locked (mutex s));
  if negb locked then write (set_m_locked true);; mret true
  else mret false.

Definition Release : P () :=
  n ← read (λ s, m_waiters (mutex s));
  if n >? 0 then
    write (λ s, set_m_waiters (m_waiters (mutex s) - 1) s);;
    m_sem_Up
  else write (set_m_locked false).

(** * [mutex.cpp] *)

Definition __libcpp_mutex_lock : P Z := Acquire;; mret 0.
Definition __libcpp_mutex_trylock : P bool := TryAcquire.
Definition __libcpp_mutex_unlock : P Z := Release;; mret 0.

(** * [condvar.cpp] *)

Definition __libcpp_condvar_signal : P Z :=
  n ← read (λ s, waiters (condvar s));
  (if n >? 0 then
     write (λ s, set_waiters (waiters (condvar s) - 1) s);;
     sem_Up
   else mret ());;
  mret 0.

(** [for (int i = 0; i < n; ++i) sem.Up ();] *)
Fixpoint up_times (n : nat) : P () :=
  match n with
  | O => mret ()
  | S n => sem_Up;; up_times n
  end.

Definition __libcpp_condvar_broadcast : P Z :=
  n ← read (λ s, waiters (condvar s));
  write (set_waiters 0);;
  up_times (Z.to_nat n);;
  mret 0.

Definition __libcpp_condvar_wait : P Z :=
  write (λ s, set_waiters (s32 (waiters (condvar s) + 1)) s);;
  Release;;
  sem_down CondvarSem;;
  Acquire;;
  mret 0.

(** The time until an absolute time, in microseconds; [now] is the result of
    [GetUniversalTime], in seconds and microseconds. *)
Definition timespec_diff_us (tv_sec tv_nsec : Z) (now : Z * Z) : Z :=
  let '(now_sec, now_us) := now in
  let abs_us := s64 (s64 (s64 tv_sec * 1000000) + Z.quot (s64 tv_nsec) 1000) in
  let now_total_us := s64 (s64 (s64 now_sec * 1000000) + s64 now_us) in
  let delta := s64 (abs_us - now_total_us) in
  if delta >? 0 then delta else 0.

(** Whether the time has really run out: a signal may have come after the
    scheduler woke the task. *)
Definition timed_out_really : P bool :=
  sem_TryDown ≫= λ b : bool,
  if b then mret false
  else write (λ s, set_waiters (waiters (condvar s) - 1) s);; mret true.

(** What follows the return of [DownWithTimeout]. *)
Definition timedwait_woken (timed_out : bool) : P Z :=
  (if timed_out then timed_out_really else mret false) ≫= λ timed_out : bool,
  Acquire;;
  mret (if timed_out then ETIMEDOUT else 0).

Definition __libcpp_condvar_timedwait (tv_sec tv_nsec : Z) (now : Z * Z) : P Z :=
  let delta_us := timespec_diff_us tv_sec tv_nsec now in
  write (λ s, set_waiters (s32 (waiters (condvar s) + 1)) s);;
  Release;;
  timed_out ← sem_down_timeout CondvarSem (u32 (if delta_us <? 0 then 0 else delta_us));
  timedwait_woken timed_out.

(** * Tasks that use them

    A task is between two calls, with the mutex held or not; or it is blocked
    in a call on a semaphore; or the scheduler has woken it because the time of
    [DownWithTimeout] ran out, and it has not run yet. *)
Inductive call :=
  | CLock
  | CTryLock
  | CUnlock
  | CSignal
  | CBroadcast
  | CWait
  | CTimedwait (tv_sec tv_nsec : Z) (now : Z * Z).

Definition body (c : call) : P Z :=
  match c with
  | CLock => __libcpp_mutex_lock
  | CTryLock => b ← __libcpp_mutex_trylock; mret (Z.b2z b)
  | CUnlock => __libcpp_mutex_unlock
  | CSignal => __libcpp_condvar_signal
  | CBroadcast => __libcpp_condvar_broadcast
  | CWait => __libcpp_condvar_wait
  | CTimedwait s n now => __libcpp_condvar_timedwait s n now
  end.

(** The calls a correct program makes: it locks a mutex it does not hold, and
    unlocks or waits with one it holds. *)
Definition allowed (held : bool) (c : call) : bool :=
  match c with
  | CLock | CTryLock => negb held
  | CUnlock | CWait | CTimedwait _ _ _ => held
  | CSignal | CBroadcast => true
  end.

(** Whether the task holds the mutex after a call that has returned [r]. *)
Definition held_after (c : call) (held : bool) (r : Z) : bool :=
  match c with
  | CLock | CWait | CTimedwait _ _ _ => true
  | CTryLock => negb (r =? 0)
  | CUnlock => false
  | CSignal | CBroadcast => held
  end.

Inductive task :=
  | Idle (held : bool)
  | Waiting (c : call) (w : which) (us : option Z) (k : bool → P Z)
  | Expired (c : call) (k : bool → P Z).

Definition task_after (c : call) (held : bool) (st : stop shared which Z) : task :=
  match st with
  | Returned r => Idle (held_after c held r)
  | BlockedOn w us k => Waiting c w us k
  end.

Definition exec (p : P Z) (s : shared) : shared * stop shared which Z := run try_sem p s.

(** The steps of the system. *)
Inductive step : shared * list task → shared * list task → Prop :=
  | step_call s l i held c s' st :
      l !! i = Some (Idle held) → allowed held c = true →
      exec (body c) s = (s', st) →
      step (s, l) (s', <[i := task_after c held st]> l)
  | step_resume s l i c w us k s1 s' st :
      l !! i = Some (Waiting c w us k) → try_sem w s = Some s1 →
      exec (k false) s1 = (s', st) →
      step (s, l) (s', <[i := task_after c true st]> l)
  | step_expire s l i c w us k :
      l !! i = Some (Waiting c w (Some us) k) →
      step (s, l) (s, <[i := Expired c k]> l)
  | step_expired s l i c k s' st :
      l !! i = Some (Expired c k) → exec (k true) s = (s', st) →
      step (s, l) (s', <[i := task_after c true st]> l).

(** [n] tasks, none of which holds the mutex. *)
Definition initial (n : nat) : shared * list task :=
  (mkShared mutex_init condvar_init, replicate n (Idle false)).

Definition reachable (n : nat) (sys : shared * list task) : Prop := rtc step (initial n) sys.

(** The classes of tasks the counters count. *)
Definition holds_mutex (t : task) : bool := match t with Idle true => true | _ => false end.
Definition waits_mutex (t : task) : bool := match t with Waiting _ MutexSem _ _ => true | _ => false end.
Definition waits_condvar (t : task) : bool :=
  match t with Waiting _ CondvarSem _ _ | Expired _ _ => true | _ => false end.
End sync.
End Sync.
