(* ===== verification/LibcxxSyncInv.v ===== *)
(** The invariant of the tasks that share a mutex and a condition variable:
    the counters of the two objects agree with the tasks that are blocked, and
    the mutex is held, or handed over, at most once. *)
From stdpp Require Import base numbers list option relations.
From S2P Require Import Prelude.
From S2P Require Import Sched.
From S2P Require Import LibcxxSync.
Import Sync.

Section inv.
Context `{Sem : Semaphore, SemOk : !SemaphoreOk}.

Lemma s32_succ x : 0 ≤ x → x + 1 < 2^31 → s32 (x + 1) = x + 1.
Proof using Type. intros. apply s32_small. lia. Qed.

(** * What the functions do *)

(** [Release], as a function on the state. *)
Definition released (s : shared) : shared :=
  if m_waiters (mutex s) >? 0
  then set_m_sem (Up (m_sem (mutex s))) (set_m_waiters (m_waiters (mutex s) - 1) s)
  else set_m_locked false s.

Lemma run_Release {A} (f : () → prog shared which A) s :
  run try_sem (Release ≫= f) s = run try_sem (f ()) (released s).
Proof using Type.
  unfold Release, released. cbn. destruct (m_waiters (mutex s) >? 0); reflexivity.
Qed.

(** [Acquire] and the return of [r]. *)
Definition relock (r : Z) : prog shared which Z := Acquire;; mret r.

Lemma run_relock r s :
  run try_sem (relock r) s =
  if negb (m_locked (mutex s)) then (set_m_locked true s, Returned r)
  else
    let s1 := set_m_waiters (s32 (m_waiters (mutex s) + 1)) s in
    match try_sem MutexSem s1 with
    | Some s2 => (s2, Returned r)
    | None => (s1, BlockedOn MutexSem None (λ _, Ret r))
    end.
Proof using Type.
  unfold relock, Acquire. cbn. destruct (m_locked (mutex s)); cbn; [|done].
  by destruct (TryDown (m_sem (mutex s))) as [[] x].
Qed.

Lemma run_signal s :
  run try_sem __libcpp_condvar_signal s =
  (if waiters (condvar s) >? 0
   then set_sem (Up (sem (condvar s))) (set_waiters (waiters (condvar s) - 1) s) else s, Returned 0).
Proof using Type.
  unfold __libcpp_condvar_signal. cbn. by destruct (waiters (condvar s) >? 0).
Qed.

Lemma run_wait s :
  run try_sem __libcpp_condvar_wait s =
  let s1 := released (set_waiters (s32 (waiters (condvar s) + 1)) s) in
  match try_sem CondvarSem s1 with
  | Some s2 => run try_sem (relock 0) s2
  | None => (s1, BlockedOn CondvarSem None (λ _, relock 0))
  end.
Proof using Type.
  unfold __libcpp_condvar_wait. cbn [mbind prog_mbind prog_bind write run]. 
  change (prog_bind Release ?f) with (Release ≫= f). rewrite run_Release. cbn [sem_down prog_bind].
  done.
Qed.

Lemma run_timedwait sec nsec now s :
  run try_sem (__libcpp_condvar_timedwait sec nsec now) s =
  let s1 := released (set_waiters (s32 (waiters (condvar s) + 1)) s) in
  let us := timespec_diff_us sec nsec now in
  match try_sem CondvarSem s1 with
  | Some s2 => run try_sem (timedwait_woken false) s2
  | None => (s1, BlockedOn CondvarSem (Some (u32 (if us <? 0 then 0 else us))) timedwait_woken)
  end.
Proof using Type.
  unfold __libcpp_condvar_timedwait. cbn [mbind prog_mbind prog_bind write run].
  change (prog_bind Release ?f) with (Release ≫= f). rewrite run_Release.
  cbn [sem_down_timeout prog_bind]. done.
Qed.

Lemma run_woken b s :
  run try_sem (timedwait_woken b) s =
  if b then
    let '(taken, x) := TryDown (sem (condvar s)) in
    if taken then run try_sem (relock 0) (set_sem x s)
    else run try_sem (relock ETIMEDOUT) (set_waiters (waiters (condvar s) - 1) (set_sem x s))
  else run try_sem (relock 0) s.
Proof using Type.
  destruct b; [|done]. unfold timedwait_woken, timed_out_really. cbn.
  destruct (TryDown (sem (condvar s))) as [[] x]; done.
Qed.

Lemma run_up_times {A} n (f : () → prog shared which A) s :
  ∃ x, sem_value x = sem_value (sem (condvar s)) + Z.of_nat n ∧
    run try_sem (up_times n ≫= f) s = run try_sem (f ()) (set_sem x s).
Proof using SemOk.
  revert s. induction n as [|n IH]; intros s.
  - exists (sem (condvar s)). split; [lia|]. by destruct s as [? []].
  - destruct (IH (set_sem (Up (sem (condvar s))) s)) as (x & Hx & E). exists x. split.
    + rewrite Hx. cbn. rewrite Up_value. lia.
    + exact E.
Qed.

Lemma run_broadcast s :
  ∃ x, sem_value x = sem_value (sem (condvar s)) + Z.of_nat (Z.to_nat (waiters (condvar s))) ∧
    run try_sem __libcpp_condvar_broadcast s = (set_sem x (set_waiters 0 s), Returned 0).
Proof using SemOk.
  unfold __libcpp_condvar_broadcast. cbn [mbind prog_mbind prog_bind read write run].
  destruct (run_up_times (Z.to_nat (waiters (condvar s))) (λ _, mret 0) (set_waiters 0 s))
    as (x & Hx & E).
  exists x. split; [exact Hx|]. exact E.
Qed.

(** * The invariant *)

(** [h] tasks hold the mutex and [m] are blocked on it. *)
Definition mutex_ok (s : shared) (h m : Z) : Prop :=
  let x := mutex s in
  0 ≤ m_waiters x ∧ m = m_waiters x + sem_value (m_sem x) ∧ 0 ≤ h ∧
  if m_locked x then h + sem_value (m_sem x) = 1
  else h = 0 ∧ sem_value (m_sem x) = 0 ∧ m_waiters x = 0.

(** [c] tasks are blocked on the condition variable. *)
Definition condvar_ok (s : shared) (c : Z) : Prop :=
  let x := condvar s in 0 ≤ waiters x ∧ c = waiters x + sem_value (sem x).

(** A call that returns with the mutex held. *)
Definition relocks (cl : call) : Prop := ∀ held r, held_after cl held r = true.

(** The continuation of a blocked task. *)
Definition task_ok (t : task) : Prop :=
  match t with
  | Idle _ => True
  | Waiting c MutexSem us k =>
      us = None ∧ (∃ r, k false = Ret r) ∧ relocks c
  | Waiting c CondvarSem us k =>
      relocks c ∧
      match us with
      | None => k false = relock 0
      | Some _ => k = timedwait_woken
      end
  | Expired c k => relocks c ∧ k = timedwait_woken
  end.

Definition inv (sys : shared * list task) : Prop :=
  let '(s, l) := sys in
  Z.of_nat (length l) < 2^31 ∧
  mutex_ok s (tally holds_mutex l) (tally waits_mutex l) ∧
  condvar_ok s (tally waits_condvar l) ∧
  Forall task_ok l.

Lemma mutex_ok_condvar s s' h m : mutex s' = mutex s → mutex_ok s h m → mutex_ok s' h m.
Proof using Type. unfold mutex_ok. by intros ->. Qed.
Lemma condvar_ok_mutex s s' c : condvar s' = condvar s → condvar_ok s c → condvar_ok s' c.
Proof using Type. unfold condvar_ok. by intros ->. Qed.

Lemma released_ok s h m :
  mutex_ok s h m → 1 ≤ h → mutex_ok (released s) (h - 1) m ∧ condvar (released s) = condvar s.
Proof using SemOk.
  intros (Hw & Hm & Hh & Hl) H1. pose proof (value_nonneg (m_sem (mutex s))) as Hv.
  unfold released, mutex_ok. destruct (Z.gtb_spec (m_waiters (mutex s)) 0); cbn; split; try done.
  - rewrite Up_value. destruct (m_locked (mutex s)); [|lia]. repeat split; lia.
  - destruct (m_locked (mutex s)); [|lia]. repeat split; lia.
Qed.

(** What a call leaves behind: the mutex is held by one more task, or one more
    task is blocked on it. *)
Definition locked_or_waits (s0 : shared) (h m : Z) (o : shared * stop shared which Z) : Prop :=
  condvar o.1 = condvar s0 ∧
  match o.2 with
  | Returned r => mutex_ok o.1 (h + 1) m
  | BlockedOn w us k =>
      w = MutexSem ∧ us = None ∧ (∃ r, k false = Ret r) ∧ mutex_ok o.1 h (m + 1)
  end.

Lemma relock_ok r s h m :
  mutex_ok s h m → m + 1 < 2^31 → locked_or_waits s h m (run try_sem (relock r) s).
Proof using SemOk.
  intros (Hw & Hm & Hh & Hl) Hb. rewrite run_relock.
  pose proof (value_nonneg (m_sem (mutex s))) as Hv.
  destruct (m_locked (mutex s)) eqn:El; cbn [negb].
  - rewrite s32_succ by lia. cbn [try_sem mutex set_m_waiters m_sem].
    destruct (decide (sem_value (m_sem (mutex s)) = 0)) as [E|E].
    + rewrite TryDown_zero by done. split; [done|]. split_and!; try done; [by eexists|].
      unfold mutex_ok. cbn. rewrite El. repeat split; lia.
    + destruct (TryDown_positive (m_sem (mutex s))) as (x & -> & Hx); [lia|].
      split; [done|]. unfold mutex_ok. cbn. rewrite El. repeat split; lia.
  - split; [done|]. unfold mutex_ok. cbn. repeat split; lia.
Qed.

(** * Every step keeps the invariant *)

(** The state after a call or a resumption, next to [h], [m] and [c] other
    tasks that hold the mutex, wait for it, and wait for a signal. *)
Definition outcome_ok (cl : call) (held : bool) (h m c : Z) (o : shared * stop shared which Z) : Prop :=
  let t := task_after cl held o.2 in
  mutex_ok o.1 (h + Z.b2z (holds_mutex t)) (m + Z.b2z (waits_mutex t)) ∧
  condvar_ok o.1 (c + Z.b2z (waits_condvar t)) ∧ task_ok t.

Lemma relock_outcome cl held r s h m c :
  relocks cl → mutex_ok s h m → condvar_ok s c → m + 1 < 2^31 →
  outcome_ok cl held h m c (run try_sem (relock r) s).
Proof using SemOk.
  intros Hcl Hm Hc Hb. destruct (relock_ok r s h m Hm Hb) as [Hcv Ho].
  destruct (run try_sem (relock r) s) as [s' [r'|w us k]]; cbn in Hcv, Ho; unfold outcome_ok; cbn.
  - rewrite Hcl. cbn. rewrite !Z.add_0_r. split_and!; [done| |done].
    by apply (condvar_ok_mutex s).
  - destruct Ho as (-> & -> & Hk & Hm'). cbn. rewrite !Z.add_0_r. split_and!; [done| |done|done|done].
    by apply (condvar_ok_mutex s).
Qed.

Lemma woken_outcome cl held b s h m c :
  relocks cl → mutex_ok s h m → condvar_ok s (c + Z.b2z b) → 0 ≤ c → m + 1 < 2^31 →
  outcome_ok cl held h m c (run try_sem (timedwait_woken b) s).
Proof using SemOk.
  intros Hcl Hm Hc H0 Hb. rewrite run_woken. destruct b; cbn [Z.b2z] in Hc.
  2: { rewrite Z.add_0_r in Hc. by apply relock_outcome. }
  destruct Hc as (Hw & Hc). pose proof (value_nonneg (sem (condvar s))).
  destruct (decide (sem_value (sem (condvar s)) = 0)) as [E|E].
  - rewrite TryDown_zero by done. apply relock_outcome; [done| | |done].
    + by apply (mutex_ok_condvar s).
    + unfold condvar_ok. cbn. lia.
  - destruct (TryDown_positive (sem (condvar s))) as (x & -> & Hx); [lia|].
    apply relock_outcome; [done| | |done].
    + by apply (mutex_ok_condvar s).
    + unfold condvar_ok. cbn. lia.
Qed.

(** The waiting functions up to the point where they block. *)
Lemma wait_begins s h m c :
  mutex_ok s (h + 1) m → condvar_ok s c → 0 ≤ h → c + 1 < 2^31 →
  let s1 := released (set_waiters (s32 (waiters (condvar s) + 1)) s) in
  mutex_ok s1 h m ∧ condvar_ok s1 (c + 1).
Proof using SemOk.
  intros Hm (Hw & Hc) Hh Hb. pose proof (value_nonneg (sem (condvar s))).
  rewrite s32_succ by lia. cbv zeta.
  destruct (released_ok (set_waiters (waiters (condvar s) + 1) s) (h + 1) m) as [Hm1 Hc1]; [|lia|].
  { by apply (mutex_ok_condvar s). }
  split; [by replace h with (h + 1 - 1) by lia|].
  apply (condvar_ok_mutex (set_waiters (waiters (condvar s) + 1) s)); [done|].
  unfold condvar_ok. cbn. lia.
Qed.

Lemma try_condvar s s' c :
  try_sem CondvarSem s = Some s' → condvar_ok s (c + 1) → condvar_ok s' c ∧ mutex s' = mutex s.
Proof using SemOk.
  cbn. destruct (TryDown (sem (condvar s))) as [[] x] eqn:E; [|done]. intros [= <-] (Hw & Hc).
  apply TryDown_true in E as [Hv Hx]. unfold condvar_ok. cbn. split; [lia|done].
Qed.

Lemma try_mutex s s' h m :
  try_sem MutexSem s = Some s' → mutex_ok s h (m + 1) →
  mutex_ok s' (h + 1) m ∧ condvar s' = condvar s.
Proof using SemOk.
  cbn. destruct (TryDown (m_sem (mutex s))) as [[] x] eqn:E; [|done]. intros [= <-] (Hw & Hm & Hh & Hl).
  apply TryDown_true in E as [Hv Hx]. unfold mutex_ok. cbn.
  destruct (m_locked (mutex s)); (split; [|done]); repeat split; lia.
Qed.

(** The calls. *)
Lemma call_outcome cl held s h m c :
  allowed held cl = true → mutex_ok s (h + Z.b2z held) m → condvar_ok s c → 0 ≤ h →
  m + 1 < 2^31 → c + 1 < 2^31 → outcome_ok cl held h m c (exec (body cl) s).
Proof using SemOk.
  intros Ha Hm Hc Hh Hm31 Hc31. unfold exec.
  destruct cl as [| | | | | |sec nsec now]; cbn [body allowed] in *; try apply negb_true_iff in Ha;
    subst; cbn [Z.b2z] in *; rewrite ?Z.add_0_r in Hm.
  - by apply relock_outcome.
  - destruct Hm as (Hw & Hm & _ & Hl). unfold outcome_ok, mutex_ok. cbn.
    destruct (m_locked (mutex s)) eqn:El; cbn; rewrite ?El; (split; [|split; [|done]]).
    + repeat split; lia.
    + by rewrite Z.add_0_r.
    + repeat split; lia.
    + by rewrite Z.add_0_r.
  - unfold __libcpp_mutex_unlock. rewrite run_Release.
    destruct (released_ok s (h + 1) m Hm) as [Hm1 Hc1]; [lia|]. unfold outcome_ok. cbn.
    rewrite !Z.add_0_r. split_and!; [by replace h with (h + 1 - 1) by lia| |done].
    by apply (condvar_ok_mutex s).
  - rewrite run_signal. unfold outcome_ok. cbn. destruct Hc as (Hw & Hc).
    assert (Hh' : Z.b2z (match held with true => true | false => false end) = Z.b2z held) by by destruct held.
    rewrite Hh', !Z.add_0_r. destruct (Z.gtb_spec (waiters (condvar s)) 0).
    + split_and!; [by apply (mutex_ok_condvar s)| |done]. unfold condvar_ok. cbn. rewrite Up_value. lia.
    + by split_and!.
  - destruct (run_broadcast s) as (x & Hx & ->). unfold outcome_ok. cbn. destruct Hc as (Hw & Hc).
    assert (Hh' : Z.b2z (match held with true => true | false => false end) = Z.b2z held) by by destruct held.
    rewrite Hh', !Z.add_0_r. split_and!; [by apply (mutex_ok_condvar s)| |done].
    unfold condvar_ok. cbn. lia.
  - rewrite run_wait. destruct (wait_begins s h m c Hm Hc Hh Hc31) as [Hm1 Hc1].
    set (s1 := released _) in *. cbv zeta. destruct (try_sem CondvarSem s1) as [s2|] eqn:E.
    + destruct (try_condvar _ _ _ E Hc1) as [Hc2 Hm2]. apply relock_outcome; try done.
      by apply (mutex_ok_condvar s1).
    + unfold outcome_ok. cbn. rewrite !Z.add_0_r. by split_and!.
  - rewrite run_timedwait. destruct (wait_begins s h m c Hm Hc Hh Hc31) as [Hm1 Hc1].
    set (s1 := released _) in *. cbv zeta. destruct (try_sem CondvarSem s1) as [s2|] eqn:E.
    + destruct (try_condvar _ _ _ E Hc1) as [Hc2 Hm2]. apply relock_outcome; try done.
      by apply (mutex_ok_condvar s1).
    + unfold outcome_ok. cbn -[u32]. rewrite !Z.add_0_r. by split_and!.
Qed.

Lemma inv_update s l s' st i t cl held :
  inv (s, l) → l !! i = Some t →
  outcome_ok cl held (tally holds_mutex l - Z.b2z (holds_mutex t))
    (tally waits_mutex l - Z.b2z (waits_mutex t)) (tally waits_condvar l - Z.b2z (waits_condvar t)) (s', st) →
  inv (s', <[i := task_after cl held st]> l).
Proof using Type.
  intros (Hlen & _ & _ & Hall) Hi (Hm & Hc & Ht). cbn [fst snd] in *.
  split_and!; [by rewrite length_insert| | |by apply Forall_insert];
    by rewrite !(tally_insert _ _ _ _ _ Hi).
Qed.

(** The counters stay below the number of tasks. *)
Lemma tally_lt {T} (p : T → bool) l i t :
  l !! i = Some t → p t = false → tally p l < Z.of_nat (length l).
Proof using Type.
  intros Hi Hp. pose proof (tally_length p (<[i := t]> l)) as Hl.
  revert i Hi Hl. induction l as [|x l IH]; intros [|i] Hi _; try done; cbn in Hi; rewrite tally_cons; cbn [length].
  - simplify_eq. rewrite Hp. pose proof (tally_length p l). cbn. lia.
  - assert (tally p l < Z.of_nat (length l)) by (eapply IH; [done|apply tally_length]).
    destruct (p x); cbn; lia.
Qed.

Lemma step_inv sys sys' : inv sys → step sys sys' → inv sys'.
Proof using SemOk.
  intros Hinv Hstep. destruct Hstep as [s l i held c s' st Hi Ha E|s l i c w us k s1 s' st Hi Et E
    |s l i c w us k Hi|s l i c k s' st Hi E]; pose proof Hinv as (Hlen & Hm & Hc & Hall);
    pose proof (Forall_lookup_1 _ _ _ _ Hall Hi) as Ht.
  - eapply inv_update; [done|done|]. rewrite <-E.
    pose proof (tally_lt waits_mutex l i _ Hi eq_refl). pose proof (tally_lt waits_condvar l i _ Hi eq_refl).
    assert (Hh : holds_mutex (Idle held) = held) by by destruct held.
    cbn [waits_mutex waits_condvar Z.b2z] in *. rewrite Hh, !Z.sub_0_r.
    assert (0 ≤ tally holds_mutex l - Z.b2z held).
    { destruct held; cbn [Z.b2z]; [|pose proof (tally_nonneg holds_mutex l); lia].
      pose proof (tally_pos holds_mutex l i _ Hi eq_refl). lia. }
    apply call_outcome; [done| |done|done|lia|lia].
    by replace (tally holds_mutex l - Z.b2z held + Z.b2z held) with (tally holds_mutex l) by lia.
  - eapply inv_update; [done|done|]. rewrite <-E. unfold exec. destruct w.
    + destruct Ht as (-> & (r & Hk) & Hcl). rewrite Hk. cbn [run].
      cbn [holds_mutex waits_mutex waits_condvar Z.b2z].
      destruct (try_mutex s s1 (tally holds_mutex l) (tally waits_mutex l - 1) Et) as [Hm1 Hc1].
      { by replace (tally waits_mutex l - 1 + 1) with (tally waits_mutex l) by lia. }
      unfold outcome_ok. cbn. rewrite Hcl. cbn. rewrite !Z.add_0_r, !Z.sub_0_r.
      split_and!; [done| |done]. by apply (condvar_ok_mutex s).
    + destruct Ht as (Hcl & Hk). pose proof (tally_lt waits_mutex l i _ Hi eq_refl).
      pose proof (tally_pos waits_condvar l i _ Hi eq_refl).
      cbn [holds_mutex waits_mutex waits_condvar Z.b2z] in *.
      destruct (try_condvar s s1 (tally waits_condvar l - 1) Et) as [Hc1 Hm1].
      { by replace (tally waits_condvar l - 1 + 1) with (tally waits_condvar l) by lia. }
      rewrite !Z.sub_0_r.
      apply (mutex_ok_condvar s s1) in Hm; [|done]. destruct us as [us|].
      * subst k. apply woken_outcome; [done|done| |lia|lia]. cbn [Z.b2z]. by rewrite Z.add_0_r.
      * rewrite Hk. apply relock_outcome; [done..|lia].
  - split_and!; [by rewrite length_insert| | |].
    + rewrite !(tally_insert _ _ _ _ _ Hi). destruct w; [by destruct Ht as [? _]|].
      cbn. by rewrite !Z.sub_0_r, !Z.add_0_r.
    + rewrite !(tally_insert _ _ _ _ _ Hi). destruct w; [by destruct Ht as [? _]|].
      cbn. by rewrite Z.sub_add.
    + apply Forall_insert; [done|]. destruct w; [by destruct Ht as [? _]|]. exact Ht.
  - eapply inv_update; [done|done|]. rewrite <-E. unfold exec. destruct Ht as (Hcl & ->).
    pose proof (tally_lt waits_mutex l i _ Hi eq_refl). pose proof (tally_pos waits_condvar l i _ Hi eq_refl).
    cbn [holds_mutex waits_mutex waits_condvar Z.b2z] in *. rewrite !Z.sub_0_r.
   
    apply woken_outcome; [done|done| |lia|lia]. cbn [Z.b2z]. by rewrite Z.sub_add.
Qed.

Lemma initial_inv n : Z.of_nat n < 2^31 → inv (initial n).
Proof using SemOk.
  intros Hn. assert (Hz : ∀ p : task → bool, p (Idle false) = false → tally p (replicate n (Idle false)) = 0).
  { intros p Hp. clear Hn. induction n as [|n IH]; [done|]. cbn [replicate]. rewrite tally_cons, Hp, IH. done. }
  split_and!; [by rewrite length_replicate| | |].
  - rewrite !Hz by done. unfold mutex_ok. cbn. rewrite zero_value. repeat split; lia.
  - rewrite !Hz by done. unfold condvar_ok. cbn. rewrite zero_value. lia.
  - by apply Forall_replicate.
Qed.

Lemma reachable_inv n sys : Z.of_nat n < 2^31 → reachable n sys → inv sys.
Proof using SemOk.
  intros Hn Hr. pose proof (initial_inv n Hn) as Hi. unfold reachable in Hr.
  revert Hi. induction Hr as [sys|sys1 sys2 sys3 Hs _ IH]; [done|].
  intros Hi. apply IH. by eapply step_inv.
Qed.
End inv.
