(* ===== verification/LibcxxSyncProps.v ===== *)
(** The properties of the mutex and the condition variable of the libc++
    threading layer, with their witnesses. *)
From stdpp Require Import base numbers list option relations.
From S2P Require Import Prelude.
From S2P Require Import Sched.
From S2P Require Import LibcxxSync.
From S2P Require Import LibcxxSyncInv.
Import Sync.
Import (hints) CountingSemaphore.

(** * Concrete systems *)
Module SyncDemo.
Abbreviation sys := (@shared CountingSemaphore.ops * list (@task CountingSemaphore.ops))%type.

(** The system after a call of the task [i]. *)
Definition do_call (i : nat) (c : call) (x : sys) : sys :=
  match x.2 !! i with
  | Some (Idle held) =>
      let '(s', st) := exec (body c) x.1 in (s', <[i := task_after c held st]> x.2)
  | _ => x
  end.

Definition can_call (i : nat) (c : call) (x : sys) : bool :=
  match x.2 !! i with Some (Idle held) => allowed held c | _ => false end.

(** The calls of a list, one after the other. *)
Fixpoint do_calls (cs : list (nat * call)) (x : sys) : sys :=
  match cs with [] => x | (i, c) :: cs => do_calls cs (do_call i c x) end.
Fixpoint can_calls (cs : list (nat * call)) (x : sys) : bool :=
  match cs with [] => true | (i, c) :: cs => can_call i c x && can_calls cs (do_call i c x) end.

Lemma do_calls_reachable n cs x :
  reachable n x → can_calls cs x = true → reachable n (do_calls cs x).
Proof.
  revert x. induction cs as [|[i c] cs IH]; intros x Hx Hc; [done|]. cbn in *.
  apply andb_prop in Hc as [Hc Hcs]. apply IH; [|done]. eapply rtc_r; [exact Hx|].
  unfold can_call, do_call in *. destruct x as [s l]. cbn in *.
  destruct (l !! i) as [[held| |]|] eqn:Hi; try done.
  destruct (exec (body c) s) as [s' st] eqn:E. by eapply step_call.
Qed.

Lemma calls_reachable n cs :
  can_calls cs (initial n) = true → reachable n (do_calls cs (initial n)).
Proof. intros Hc. apply do_calls_reachable; [|done]. apply rtc_refl. Qed.

(** Task 0 holds the mutex and task 1 waits for it. *)
Definition contended : sys := do_calls [(0%nat, CLock); (1%nat, CLock)] (initial 3).
(** Task 0 has handed the mutex over to task 1. *)
Definition handed_over : sys := do_calls [(0%nat, CUnlock)] contended.
(** Task 0 waits for a signal, and task 1 holds the mutex. *)
Definition one_waits : sys := do_calls [(0%nat, CLock); (0%nat, CWait); (1%nat, CLock)] (initial 3).

Lemma contended_reachable : reachable 3 contended.
Proof. by apply calls_reachable. Qed.
Lemma handed_over_reachable : reachable 3 handed_over.
Proof. apply do_calls_reachable; [apply contended_reachable|done]. Qed.
Lemma one_waits_reachable : reachable 3 one_waits.
Proof. by apply calls_reachable. Qed.
End SyncDemo.
Import SyncDemo.

(** * Properties *)

(** C4: mutual exclusion: whatever the tasks call, and however their blocked
    calls are resumed and time out, at most one of them holds the mutex. *)
Theorem mutex_exclusion `{Sem : Semaphore, !SemaphoreOk} n s l i j :
  Z.of_nat n < 2^31 → reachable n (s, l) →
  l !! i = Some (Idle true) → l !! j = Some (Idle true) → i = j.
Proof.
  intros Hn Hr Hi Hj. destruct (reachable_inv n _ Hn Hr) as (_ & (_ & _ & _ & Hl) & _).
  destruct (decide (i = j)) as [|Hij]; [done|].
  pose proof (tally_two holds_mutex l i j _ _ Hij Hi Hj eq_refl eq_refl).
  pose proof (value_nonneg (m_sem (mutex s))). destruct (m_locked (mutex s)); lia.
Qed.

Lemma mutex_exclusion_witness :
  reachable 3 contended ∧ contended.2 !! 0%nat = Some (Idle true) ∧ 0%nat = 0%nat.
Proof.
  split; [apply contended_reachable|]. split; [done|].
  apply (mutex_exclusion 3 contended.1 contended.2 0 0); try done.
  apply contended_reachable.
Defined.

(** C33: no unlock is lost: as long as a task is blocked in a call that takes
    the mutex and no task holds it, the blocked task can go on, and then holds
    the mutex. *)
Theorem mutex_handover `{Sem : Semaphore, !SemaphoreOk} n s l i c us k :
  Z.of_nat n < 2^31 → reachable n (s, l) →
  l !! i = Some (Waiting c MutexSem us k) → (∀ j, l !! j ≠ Some (Idle true)) →
  ∃ s', step (s, l) (s', <[i := Idle true]> l).
Proof.
  intros Hn Hr Hi Hno. destruct (reachable_inv n _ Hn Hr) as (_ & (Hw & Hm & Hh & Hl) & _ & Hall).
  destruct (Forall_lookup_1 _ _ _ _ Hall Hi) as (_ & (r & Hk) & Hcl).
  assert (H0 : tally holds_mutex l = 0).
  { destruct (decide (0 < tally holds_mutex l)) as [Hp|]; [|lia].
    apply tally_exists in Hp as (j & [[]| |] & Hj & Ht); try done. by destruct (Hno j). }
  pose proof (tally_pos waits_mutex l i _ Hi eq_refl).
  destruct (TryDown_positive (m_sem (mutex s))) as (x & Ex & _).
  { destruct (m_locked (mutex s)); lia. }
  exists (set_m_sem x s).
  rewrite <-(Hcl true r). change (Idle (held_after c true r)) with (task_after c true (Returned r)).
  eapply step_resume; [exact Hi| |]; [by cbn; rewrite Ex|]. by rewrite Hk.
Qed.

Lemma mutex_handover_witness :
  reachable 3 handed_over ∧ ∃ s', step handed_over (s', <[1%nat := Idle true]> handed_over.2).
Proof.
  split; [apply handed_over_reachable|].
  eapply (mutex_handover 3 handed_over.1 handed_over.2 1); [done|apply handed_over_reachable|done|].
  intros [|[|[|]]]; done.
Defined.

(** C16: signals are counted: in every reachable state the semaphore of the
    condition variable holds at most as many signals as there are tasks in
    [wait] or [timedwait].  [signal] adds one exactly if some of them has none
    yet; [broadcast] makes them as many as there are tasks, so that each of
    them can go on. *)
Theorem condvar_signals `{Sem : Semaphore, !SemaphoreOk} n s l :
  Z.of_nat n < 2^31 → reachable n (s, l) →
  let value x := sem_value (sem (condvar x)) in
  let waiting := tally waits_condvar l in
  0 ≤ waiters (condvar s) ∧ value s + waiters (condvar s) = waiting ∧
  (∃ s', exec __libcpp_condvar_signal s = (s', Returned 0) ∧ mutex s' = mutex s ∧
     value s' = if value s <? waiting then value s + 1 else value s) ∧
  ∃ s', exec __libcpp_condvar_broadcast s = (s', Returned 0) ∧ mutex s' = mutex s ∧
    value s' = waiting ∧
    ∀ i c us k, l !! i = Some (Waiting c CondvarSem us k) → is_Some (try_sem CondvarSem s').
Proof.
  intros Hn Hr value waiting. destruct (reachable_inv n _ Hn Hr) as (_ & _ & (Hw & Hc) & _).
  subst value waiting. cbv beta. split_and!; [done|lia|..].
  - unfold exec. rewrite run_signal. eexists. split; [done|].
    destruct (Z.gtb_spec (waiters (condvar s)) 0), (Z.ltb_spec (sem_value (sem (condvar s)))
      (tally waits_condvar l)); try lia; split; try done. cbn. apply Up_value.
  - destruct (run_broadcast s) as (x & Hx & E). unfold exec. rewrite E. eexists.
    split; [done|]. split; [done|]. cbn. split; [lia|]. intros i c us k Hi.
    pose proof (tally_pos waits_condvar l i _ Hi eq_refl).
    destruct (TryDown_positive x) as (y & -> & _); [lia|]. by eexists.
Qed.

Lemma condvar_signals_witness :
  tally waits_condvar one_waits.2 = 1 ∧
  let s := one_waits.1 in
  let value x := sem_value (sem (condvar x)) in
  let waiting := tally waits_condvar one_waits.2 in
  0 ≤ waiters (condvar s) ∧ value s + waiters (condvar s) = waiting ∧
  (∃ s', exec __libcpp_condvar_signal s = (s', Returned 0) ∧ mutex s' = mutex s ∧
     value s' = if value s <? waiting then value s + 1 else value s) ∧
  ∃ s', exec __libcpp_condvar_broadcast s = (s', Returned 0) ∧ mutex s' = mutex s ∧
    value s' = waiting ∧
    ∀ i c us k, one_waits.2 !! i = Some (Waiting c CondvarSem us k) → is_Some (try_sem CondvarSem s').
Proof.
  split; [done|]. apply (condvar_signals 3 one_waits.1 one_waits.2); [done|].
  apply one_waits_reachable.
Defined.

(** A wait whose time has run out: if a signal has come in the meantime,
    it is taken, and the call returns 0 with the count of waiters unchanged;
    otherwise the task is no longer counted, and the call returns
    [ETIMEDOUT].  In both cases the call goes on with taking the mutex. *)
Theorem timedwait_expired `{Sem : Semaphore, !SemaphoreOk} n s l i c k :
  Z.of_nat n < 2^31 → reachable n (s, l) → l !! i = Some (Expired c k) →
  exists s1 r,
    exec (k true) s = exec (Acquire;; mret r) s1 ∧ mutex s1 = mutex s ∧
    sem_value (sem (condvar s1)) + waiters (condvar s1) = tally waits_condvar l - 1 ∧
    if sem_value (sem (condvar s)) >? 0
    then r = 0 ∧ waiters (condvar s1) = waiters (condvar s)
    else r = ETIMEDOUT ∧ waiters (condvar s1) = waiters (condvar s) - 1 ∧
         0 ≤ waiters (condvar s1).
Proof.
  intros Hn Hr Hi. destruct (reachable_inv n _ Hn Hr) as (_ & _ & (Hw & Hc) & Hall).
  destruct (Forall_lookup_1 _ _ _ _ Hall Hi) as (_ & ->).
  pose proof (tally_pos waits_condvar l i _ Hi eq_refl).
  unfold exec. rewrite run_woken. destruct (Z.gtb_spec (sem_value (sem (condvar s))) 0).
  - destruct (TryDown_positive (sem (condvar s))) as (x & -> & Hx); [done|].
    exists (set_sem x s), 0. split_and!; [done|done|cbn; lia|done..].
  - pose proof (value_nonneg (sem (condvar s))). rewrite TryDown_zero by lia.
    exists (set_waiters (waiters (condvar s) - 1) (set_sem (sem (condvar s)) s)), ETIMEDOUT.
    split_and!; cbn; try done; lia.
Qed.

(** Task 0's time runs out, with and without a signal before it runs. *)
Definition expired : sys :=
  let x := do_calls [(0%nat, CLock); (0%nat, CTimedwait 2 0 (1, 0))] (initial 3) in
  (x.1, <[0%nat := Expired (CTimedwait 2 0 (1, 0)) timedwait_woken]> x.2).

Lemma expired_reachable : reachable 3 expired.
Proof.
  eapply rtc_r; [apply (calls_reachable 3 [(0%nat, CLock); (0%nat, CTimedwait 2 0 (1, 0))]); done|].
  by eapply step_expire.
Qed.

Lemma timedwait_expired_witness :
  exists s1 r,
    exec (timedwait_woken true) expired.1 = exec (Acquire;; mret r) s1 ∧ mutex s1 = mutex expired.1 ∧
    sem_value (sem (condvar s1)) + waiters (condvar s1) = tally waits_condvar expired.2 - 1 ∧
    if sem_value (sem (condvar expired.1)) >? 0
    then r = 0 ∧ waiters (condvar s1) = waiters (condvar expired.1)
    else r = ETIMEDOUT ∧ waiters (condvar s1) = waiters (condvar expired.1) - 1 ∧
         0 ≤ waiters (condvar s1).
Proof.
  apply (timedwait_expired 3 expired.1 expired.2 0 (CTimedwait 2 0 (1, 0))); try done.
  apply expired_reachable.
Defined.

(** A signal can go to a task that waits later: if a task [i] is blocked
    in [wait] and no signal is pending, and another task that holds the mutex
    signals and then waits itself, its wait takes the signal and returns, or
    goes on to take the mutex, while [i] stays blocked with no signal left. *)
Theorem signal_overtaken `{Sem : Semaphore, !SemaphoreOk} n s l i c us k j :
  Z.of_nat n < 2^31 → reachable n (s, l) →
  l !! i = Some (Waiting c CondvarSem us k) → l !! j = Some (Idle true) →
  sem_value (sem (condvar s)) = 0 →
  ∃ s1 s2 st,
    step (s, l) (s1, <[j := Idle true]> l) ∧
    step (s1, <[j := Idle true]> l) (s2, <[j := task_after CWait true st]> l) ∧
    match st with Returned _ => True | BlockedOn w _ _ => w = MutexSem end ∧
    <[j := task_after CWait true st]> l !! i = Some (Waiting c CondvarSem us k) ∧
    try_sem CondvarSem s2 = None.
Proof.
  intros Hn Hr Hi Hj Hv. pose proof (reachable_inv n _ Hn Hr) as (Hlen & Hm & (Hw & Hc) & Hall).
  pose proof (tally_pos waits_condvar l i _ Hi eq_refl).
  pose proof (tally_lt waits_condvar l j _ Hj eq_refl).
  assert (Hij : i ≠ j) by congruence.
  set (s1 := set_sem (Up (sem (condvar s))) (set_waiters (waiters (condvar s) - 1) s)).
  assert (E1 : exec __libcpp_condvar_signal s = (s1, Returned 0)).
  { unfold exec. rewrite run_signal. by destruct (Z.gtb_spec (waiters (condvar s)) 0); [|lia]. }
  destruct (TryDown_positive (Up (sem (condvar s)))) as (x & Ex & Hx); [rewrite Up_value; lia|].
  assert (Hrel : ∀ t, condvar (released t) = condvar t).
  { intros t. unfold released. by destruct (m_waiters (mutex t) >? 0). }
  destruct (exec __libcpp_condvar_wait s1) as [s2 st] eqn:E2. exists s1, s2, st.
  assert (H2 : condvar s2 = mkCondvar x (waiters (condvar s)) ∧
    match st with Returned _ => True | BlockedOn w _ _ => w = MutexSem end).
  { unfold exec in E2. rewrite run_wait in E2. cbv zeta in E2. cbn [try_sem] in E2.
    rewrite Hrel in E2. cbn [condvar sem set_waiters set_sem s1] in E2. rewrite Ex in E2.
    match type of E2 with run _ (relock 0) ?t = _ =>
      pose proof (relock_ok 0 t (tally holds_mutex l - 1) (tally waits_mutex l)) as Ho end.
    rewrite E2 in Ho. cbn [waiters] in Ho.
    assert (Hsucc : s32 (waiters (condvar s) - 1 + 1) = waiters (condvar s)).
    { rewrite s32_small; lia. }
    destruct Ho as [Hcv Ho].
    - pose proof (tally_pos holds_mutex l j _ Hj eq_refl).
      eapply mutex_ok_condvar; [|apply released_ok; [|lia]]; [done|].
      by eapply mutex_ok_condvar; [|exact Hm].
    - pose proof (tally_lt waits_mutex l j _ Hj eq_refl). lia.
    - cbn [fst snd] in *. split; [|by destruct st; [|destruct Ho]].
      rewrite Hcv. cbn. rewrite Hrel. cbn. by rewrite Hsucc. }
  destruct H2 as [H2 Hst]. split_and!.
  - change (Idle true) with (task_after CSignal true (Returned 0 : stop shared which Z)).
    by eapply step_call.
  - rewrite <-(list_insert_insert_eq l j (task_after CWait true st) (Idle true)). eapply step_call; [|done|exact E2].
    apply list_lookup_insert_eq. by eapply lookup_lt_Some.
  - done.
  - by rewrite list_lookup_insert_ne.
  - cbn. rewrite H2. cbn. rewrite TryDown_zero; [done|]. rewrite Hx, Up_value. lia.
Qed.

Lemma signal_overtaken_witness :
  ∃ s1 s2 st,
    step one_waits (s1, <[1%nat := Idle true]> one_waits.2) ∧
    step (s1, <[1%nat := Idle true]> one_waits.2)
         (s2, <[1%nat := task_after CWait true st]> one_waits.2) ∧
    match st with Returned _ => True | BlockedOn w _ _ => w = MutexSem end ∧
    <[1%nat := task_after CWait true st]> one_waits.2 !! 0%nat
      = Some (Waiting CWait CondvarSem None (λ _, relock 0)) ∧
    try_sem CondvarSem s2 = None.
Proof.
  apply (signal_overtaken 3 one_waits.1 one_waits.2 0 CWait None (λ _, relock 0) 1); try done.
  apply one_waits_reachable.
Defined.

(** The time of a timed wait: as long as the times are in the range of
    [long long], the microseconds until the given time are computed exactly
    (and 0 if it has passed); but [DownWithTimeout] gets them modulo [2^32], so
    that a wait of more than about 71 minutes expires too early. *)
Theorem timedwait_microseconds `{Sem : Semaphore} tv_sec tv_nsec now_sec now_us s :
  0 ≤ tv_sec < 2^40 → 0 ≤ tv_nsec < 10^9 → 0 ≤ now_sec < 2^32 → 0 ≤ now_us < 10^6 →
  let us := Z.max 0 ((tv_sec - now_sec) * 10^6 + tv_nsec / 1000 - now_us) in
  timespec_diff_us tv_sec tv_nsec (now_sec, now_us) = us ∧
  ∀ s' w o k, exec (__libcpp_condvar_timedwait tv_sec tv_nsec (now_sec, now_us)) s
              = (s', BlockedOn w (Some o) k) →
    o = us mod 2^32 ∧ (2^32 ≤ us → o < us).
Proof.
  intros Hs Hn Hns Hnu us.
  assert (H64 : ∀ x, -2^63 ≤ x < 2^63 → s64 x = x).
  { intros x Hx. unfold s64. destruct (decide (0 ≤ x)).
    - rewrite Z.mod_small by lia. destruct (Z.ltb_spec x (2^63)); lia.
    - replace (x mod 2^64) with (x + 2^64) by (apply Z.mod_unique with (-1); lia).
      destruct (Z.ltb_spec (x + 2^64) (2^63)); lia. }
  assert (Hdiff : timespec_diff_us tv_sec tv_nsec (now_sec, now_us) = us).
  { assert (0 ≤ tv_nsec / 1000 < 10^6) by zdiv.
    unfold timespec_diff_us. rewrite (H64 tv_nsec), Z.quot_div_nonneg by lia.
    rewrite (H64 tv_sec), (H64 now_sec), (H64 now_us) by lia.
    rewrite (H64 (tv_sec * 1000000)), (H64 (now_sec * 1000000)) by lia.
    rewrite (H64 (tv_sec * 1000000 + _)), (H64 (now_sec * 1000000 + _)) by lia.
    rewrite H64 by lia. subst us.
    destruct (Z.gtb_spec (tv_sec * 1000000 + tv_nsec / 1000 - (now_sec * 1000000 + now_us)) 0); lia. }
  split; [done|]. intros s' w o k E. unfold exec in E. rewrite run_timedwait in E. cbv zeta in E.
  rewrite Hdiff in E.
  assert (Ho : o = us mod 2^32).
  { destruct (try_sem CondvarSem _); [|injection E as _ _ <- _].
    - unfold timedwait_woken in E. cbn -[u32] in E. destruct (negb _); cbn in E; [done|].
      by destruct (TryDown _) as [[] ?].
    - destruct (Z.ltb_spec us 0); [lia|done]. }
  split; [done|]. intros Hbig. pose proof (Z.mod_pos_bound us (2^32)). lia.
Qed.

(** A wait of two hours: 2905032704 microseconds instead of 7200000000. *)
Lemma timedwait_microseconds_witness :
  timespec_diff_us 8200 0 (1000, 0) = 7200 * 10^6 ∧
  ∀ s' w o k, exec (__libcpp_condvar_timedwait 8200 0 (1000, 0))
                (do_calls [(0%nat, CLock)] (initial 1)).1 = (s', BlockedOn w (Some o) k) →
    o = (7200 * 10^6) mod 2^32 ∧ (2^32 ≤ 7200 * 10^6 → o < 7200 * 10^6).
Proof. by apply (timedwait_microseconds 8200 0 1000 0 _). Defined.
