(* ===== verification/LibcxxRecursive.v ===== *)
(** The recursive mutex of the libc++ threading layer and the functions that
    end the life of a mutex or a condition variable: the rest of [mutex.cpp] and
    [condvar.cpp] of [libs/libcxx-threading].

    A recursive mutex is a [CMutex] of Circle, constructed in the storage of the
    object; its functions forward to it. *)
From stdpp Require Import base numbers list option relations.
From S2P Require Import Prelude.
From S2P Require Import Sched.
From S2P Require Import LibcxxSync.

(** Circle's [CMutex].  Its operations are called by a task, which is named by
    a number here; [Acquire] waits until it can take the mutex. *)
Class RecursiveMutex := {
  CMutex : Type;
  CMutex_construct : CMutex;
  CMutex_destruct : CMutex → CMutex;
  CMutex_TryAcquire (task : nat) : CMutex → bool * CMutex;
  CMutex_Release (task : nat) : CMutex → CMutex;
  (** Who owns it, and how often it has to be released. *)
  owner : CMutex → option (nat * nat)
}.

(** The mutex is recursive: its owner takes it again, and has to release it as
    often. *)
Class RecursiveMutexOk `{RecursiveMutex} := {
  construct_owner : owner CMutex_construct = None;
  TryAcquire_free t m : owner m = None →
    ∃ m', CMutex_TryAcquire t m = (true, m') ∧ owner m' = Some (t, 1%nat);
  TryAcquire_again t n m : owner m = Some (t, n) →
    ∃ m', CMutex_TryAcquire t m = (true, m') ∧ owner m' = Some (t, S n);
  TryAcquire_taken t u n m : owner m = Some (u, n) → u ≠ t → CMutex_TryAcquire t m = (false, m);
  Release_owner t n m : owner m = Some (t, S n) →
    owner (CMutex_Release t m) = if decide (n = 0%nat) then None else Some (t, n)
}.

(** The destructor of [CSemaphore]. *)
Class SemaphoreEnd `{Semaphore} := { CSemaphore_destruct : CSemaphore → CSemaphore }.

(** * The end of a mutex and of a condition variable

    The destructors of the structures destroy their semaphores. *)
Module SyncEnd.
Import Sync.
Section ends.
Context `{SemaphoreEnd}.
Abbreviation P := (prog shared which).

Definition __libcpp_mutex_destroy : P Z :=
  write (λ s, set_m_sem (CSemaphore_destruct (m_sem (mutex s))) s);; mret 0.
Definition __libcpp_condvar_destroy : P Z :=
  write (λ s, set_sem (CSemaphore_destruct (sem (condvar s))) s);; mret 0.
End ends.
End SyncEnd.

(** * The recursive mutex *)
Module Recursive.
Section recursive.
Context `{RecursiveMutex}.

(** The state is the object in the storage; a task blocks on it under its own
    name. *)
Abbreviation P := (prog CMutex nat).

Definition try_acquire (task : nat) (m : CMutex) : option CMutex :=
  let '(b, m) := CMutex_TryAcquire task m in if b then Some m else None.

Definition __libcpp_recursive_mutex_init : P Z := write (λ _, CMutex_construct);; mret 0.
Definition __libcpp_recursive_mutex_lock (task : nat) : P Z := sem_down task;; mret 0.
Definition __libcpp_recursive_mutex_trylock (task : nat) : P bool := act (CMutex_TryAcquire task).
Definition __libcpp_recursive_mutex_unlock (task : nat) : P Z := write (CMutex_Release task);; mret 0.
Definition __libcpp_recursive_mutex_destroy : P Z := write CMutex_destruct;; mret 0.

(** ** Tasks that use it

    A task is between two calls, holding the mutex a number of times, or it is
    blocked in [lock]. *)
Inductive call := RLock | RTryLock | RUnlock.
Inductive task := RIdle (depth : nat) | RBlocked (k : bool → P Z).

Definition body (c : call) (i : nat) : P Z :=
  match c with
  | RLock => __libcpp_recursive_mutex_lock i
  | RTryLock => b ← __libcpp_recursive_mutex_trylock i; mret (Z.b2z b)
  | RUnlock => __libcpp_recursive_mutex_unlock i
  end.

(** A correct program unlocks only what it has locked. *)
Definition allowed (c : call) (depth : nat) : bool :=
  match c with RLock | RTryLock => true | RUnlock => (0 <? depth)%nat end.
Definition depth_after (c : call) (depth : nat) (r : Z) : nat :=
  match c with
  | RLock => S depth
  | RTryLock => if r =? 0 then depth else S depth
  | RUnlock => pred depth
  end.

Definition exec (p : P Z) (m : CMutex) : CMutex * stop CMutex nat Z := run try_acquire p m.

Definition task_after (c : call) (depth : nat) (st : stop CMutex nat Z) : task :=
  match st with
  | Returned r => RIdle (depth_after c depth r)
  | BlockedOn _ _ k => RBlocked k
  end.

Inductive step : CMutex * list task → CMutex * list task → Prop :=
  | rstep_call m l i n c m' st :
      l !! i = Some (RIdle n) → allowed c n = true → exec (body c i) m = (m', st) →
      step (m, l) (m', <[i := task_after c n st]> l)
  | rstep_resume m l i k m1 m' st :
      l !! i = Some (RBlocked k) → try_acquire i m = Some m1 → exec (k false) m1 = (m', st) →
      step (m, l) (m', <[i := task_after RLock 0 st]> l).

(** [n] tasks, and the mutex after its initialisation, whatever was in the
    storage. *)
Definition initial (n : nat) (junk : CMutex) : CMutex * list task :=
  ((exec __libcpp_recursive_mutex_init junk).1, replicate n (RIdle 0)).

Definition depth (t : task) : nat := match t with RIdle n => n | RBlocked _ => 0 end.

(** ** The invariant *)
Section laws.
Context `{!RecursiveMutexOk}.

(** The mutex knows its owner and the depth; every other task holds nothing,
    and a blocked task continues with the return of [lock]. *)
Definition owns (m : CMutex) (i : nat) : nat :=
  match owner m with Some (u, n) => if decide (u = i) then n else 0%nat | None => 0%nat end.
Definition blocked_ok (t : task) : Prop :=
  match t with RIdle _ => True | RBlocked k => k false = Ret 0 end.
Record inv (s : CMutex * list task) : Prop := {
  inv_depth i t : s.2 !! i = Some t → depth t = owns s.1 i ∧ blocked_ok t;
  inv_owner u n : owner s.1 = Some (u, n) → n ≠ 0%nat
}.

Lemma owns_taken m i n : owner m = Some (i, n) → owns m i = n.
Proof using Type. intros E. unfold owns. by rewrite E, decide_True. Qed.

Lemma owns_other m i j n : owner m = Some (i, n) → j ≠ i → owns m j = 0%nat.
Proof using Type. intros E Hj. unfold owns. rewrite E, decide_False; [done|congruence]. Qed.

(** An attempt that succeeds makes the task one level deeper and changes no
    other. *)
Lemma TryAcquire_cases i m :
  (∃ m', CMutex_TryAcquire i m = (true, m') ∧ owner m' = Some (i, S (owns m i)) ∧
    (∀ j, j ≠ i → owns m j = 0%nat)) ∨
  (CMutex_TryAcquire i m = (false, m) ∧ ∃ u n, owner m = Some (u, n) ∧ u ≠ i).
Proof.
  destruct (owner m) as [[u n]|] eqn:E.
  - destruct (decide (u = i)) as [->|Hu].
    + destruct (TryAcquire_again i n m E) as (m' & -> & E'). left. exists m'.
      rewrite (owns_taken _ _ _ E). split_and!; [done|done|]. intros j Hj. by eapply owns_other.
    + right. split; [by eapply TryAcquire_taken|eauto].
  - destruct (TryAcquire_free i m E) as (m' & -> & E'). left. exists m'. unfold owns. by rewrite E.
Qed.

Lemma recursive_inv_update m l i t m' t' :
  inv (m, l) → l !! i = Some t → depth t' = owns m' i → blocked_ok t' →
  (∀ j, j ≠ i → owns m' j = owns m j) → (∀ u n, owner m' = Some (u, n) → n ≠ 0%nat) →
  inv (m', <[i := t']> l).
Proof using Type.
  intros [Hd _] Hi Hd' Hb Ho Hn. split; [|exact Hn]. intros j tj Hj. cbn in *.
  destruct (decide (j = i)) as [->|Hne].
  - rewrite list_lookup_insert_eq in Hj by (by eapply lookup_lt_Some). by simplify_eq.
  - rewrite list_lookup_insert_ne in Hj by done. rewrite Ho by done. by apply Hd.
Qed.

Lemma inv_acquired m l i t m' n :
  inv (m, l) → l !! i = Some t → owner m' = Some (i, S (owns m i)) →
  (∀ j, j ≠ i → owns m j = 0%nat) → n = S (owns m i) → inv (m', <[i := RIdle n]> l).
Proof using Type.
  intros Hi Ht E Ho ->. eapply recursive_inv_update; [done..| | | |].
  - by rewrite (owns_taken _ _ _ E).
  - done.
  - intros j Hj. rewrite Ho by done. by eapply owns_other.
  - intros u n. rewrite E. by intros [= _ <-].
Qed.

Lemma recursive_step_inv s s' : inv s → step s s' → inv s'.
Proof.
  intros Hi Hs. destruct Hs as [m l i n c m' st Hl Ha E|m l i k m1 m' st Hl Et E].
  - pose proof (inv_depth _ Hi i _ Hl) as [Hd _]. cbn in Hd.
    pose proof (TryAcquire_cases i m) as Hc. destruct c; cbn in E; unfold try_acquire in E.
    + destruct Hc as [(m1 & E1 & Ho & Hoth)|(E1 & u & k & Ho & Hu)]; rewrite E1 in E; simplify_eq/=.
      * eapply inv_acquired; done.
      * assert (owns m' i = 0%nat) as Hz by (by eapply owns_other).
        eapply recursive_inv_update; [done..| | | |]; [done|done|done|apply (inv_owner _ Hi)].
    + destruct Hc as [(m1 & E1 & Ho & Hoth)|(E1 & u & k & Ho & Hu)]; rewrite E1 in E; simplify_eq/=.
      * eapply inv_acquired; done.
      * eapply recursive_inv_update; [done..| | | |]; [done|done|done|apply (inv_owner _ Hi)].
    + injection E as <- <-. cbn. apply Nat.ltb_lt in Ha. unfold owns in Hd.
      destruct (owner m) as [[u k]|] eqn:Ho; [|lia]. destruct (decide (u = i)) as [->|]; [|lia]. subst k.
      destruct n as [|n]; [lia|]. pose proof (Release_owner i n m Ho) as Hr.
      eapply recursive_inv_update; [done..| | | |]; [|done| |].
      * unfold owns. rewrite Hr. by destruct (decide (n = 0%nat)) as [->|]; [|rewrite decide_True].
      * intros j Hj. rewrite (owns_other m i j (S n) Ho Hj). unfold owns. rewrite Hr.
        destruct (decide (n = 0%nat)); [done|]. rewrite decide_False; [done|congruence].
      * intros u k. rewrite Hr. destruct (decide (n = 0%nat)); [done|]. by intros [= _ <-].
  - pose proof (inv_depth _ Hi i _ Hl) as [Hd Hk]. cbn in Hd, Hk. rewrite Hk in E. cbn in E. simplify_eq.
    unfold try_acquire in Et. destruct (TryAcquire_cases i m) as [(m1 & E1 & Ho & Hoth)|(E1 & _)];
      rewrite E1 in Et; [|done]. injection Et as <-. eapply inv_acquired; [done..|]. by rewrite <-Hd.
Qed.

(** A blocked task goes on only when it can take the mutex. *)
Lemma blocked_step s s' i k n :
  step s s' → s.2 !! i = Some (RBlocked k) → s'.2 !! i = Some (RIdle n) →
  ∃ m1, try_acquire i s.1 = Some m1.
Proof using Type.
  intros Hs Hk Hn. destruct Hs as [m l j d c m' st Hl Ha E|m l j k' m1 m' st Hl Et E]; cbn in *.
  - destruct (decide (j = i)) as [->|Hj]; [congruence|].
    rewrite list_lookup_insert_ne in Hn by done. congruence.
  - destruct (decide (j = i)) as [->|Hj]; [eauto|].
    rewrite list_lookup_insert_ne in Hn by done. congruence.
Qed.

Lemma recursive_initial_inv n junk : inv (initial n junk).
Proof.
  split; cbn.
  - intros i t [-> _]%lookup_replicate_1. unfold owns. by rewrite construct_owner.
  - intros u k. by rewrite construct_owner.
Qed.
End laws.
End recursive.
End Recursive.
Import Recursive.

(** The recursive mutex works as one: in every state that tasks reach which
    unlock only what they have locked, at most one of them holds it, and the
    mutex knows how often; the holder can lock it again at once; and a task that
    waits goes on exactly when nobody holds it. *)
Theorem recursive_mutex `{RecursiveMutex, !RecursiveMutexOk} n junk m l :
  rtc step (initial n junk) (m, l) →
  (∀ i j t u, l !! i = Some t → l !! j = Some u → depth t ≠ 0%nat → depth u ≠ 0%nat → i = j) ∧
  (∀ i d, l !! i = Some (RIdle (S d)) →
    ∃ m', exec (__libcpp_recursive_mutex_lock i) m = (m', Returned 0) ∧
      step (m, l) (m', <[i := RIdle (S (S d))]> l)) ∧
  (∀ i k, l !! i = Some (RBlocked k) →
    (owner m = None ↔ ∃ m', step (m, l) (m', <[i := RIdle 1]> l))).
Proof.
  intros Hr.
  assert (inv (m, l)) as Hi.
  { pose proof (recursive_initial_inv n junk) as Hz. revert Hz.
    induction Hr as [s|s1 s2 s3 Hs _ IH]; [done|]. intros Hs1. apply IH. by eapply recursive_step_inv. }
  split_and!.
  - intros i j t u Ht Hu. destruct (inv_depth _ Hi i t Ht) as [-> _].
    destruct (inv_depth _ Hi j u Hu) as [-> _]. unfold owns. cbn.
    destruct (owner m) as [[w k]|]; [|done].
    destruct (decide (w = i)), (decide (w = j)); congruence.
  - intros i d Hd. destruct (inv_depth _ Hi i _ Hd) as [Ho _]. cbn in Ho.
    destruct (TryAcquire_cases i m) as [(m' & E & _)|(_ & u & k & Hk & Hu)].
    + exists m'. assert (exec (__libcpp_recursive_mutex_lock i) m = (m', Returned 0)) as Ee
        by (cbn; unfold try_acquire; by rewrite E).
      split; [exact Ee|]. by apply (rstep_call m l i (S d) RLock m' (Returned 0)).
    + by rewrite (owns_other m u i k Hk) in Ho by done.
  - intros i k Hk. destruct (inv_depth _ Hi i _ Hk) as [Ho Hb]. cbn in Ho, Hb. split.
    + intros En. destruct (TryAcquire_free i m En) as (m' & E & _). exists m'.
      eapply (rstep_resume m l i k m' m' (Returned 0)); [done|unfold try_acquire; by rewrite E|by rewrite Hb].
    + intros [m' Hs]. destruct (owner m) as [[u d]|] eqn:E; [|done]. exfalso.
      assert (u ≠ i) as Hu.
      { intros ->. rewrite (owns_taken m i d E) in Ho. by apply (inv_owner _ Hi i d E). }
      pose proof (TryAcquire_taken i u d m E Hu) as Et.
      destruct (blocked_step _ _ i k 1 Hs Hk) as [m1 Et'].
      { cbn. apply list_lookup_insert_eq. by eapply lookup_lt_Some. }
      unfold try_acquire in Et'. cbn in Et'. by rewrite Et in Et'.
Qed.

(** A mutex that counts, for concrete runs. *)
Module RecursiveDemo.
#[export] Instance counting : RecursiveMutex := {|
  CMutex := option (nat * nat);
  CMutex_construct := None;
  CMutex_destruct m := m;
  CMutex_TryAcquire t m :=
    match m with
    | None => (true, Some (t, 1%nat))
    | Some (u, n) => if decide (u = t) then (true, Some (t, S n)) else (false, m)
    end;
  CMutex_Release t m :=
    match m with Some (u, S (S n)) => Some (u, S n) | _ => None end;
  owner m := m
|}.
#[export] Instance counting_ok : RecursiveMutexOk.
Proof.
  split; cbn.
  - done.
  - intros t m ->. eauto.
  - intros t n m ->. rewrite decide_True by done. eauto.
  - intros t u n m -> Hu. by rewrite decide_False.
  - intros t [|n] m ->; done.
Qed.
End RecursiveDemo.
Import RecursiveDemo.

(** Two tasks: the first locks twice, so that the second blocks. *)
Definition held (n : nat) : CMutex := Some (0%nat, n).
Definition locking : bool → prog CMutex nat Z := λ _, Ret 0.

Lemma two_tasks : rtc step (initial 2 (held 0)) (held 2, [RIdle 2; RBlocked locking]).
Proof.
  eapply rtc_l; [by apply (rstep_call _ _ 0 0 RLock (held 1) (Returned 0))|].
  eapply rtc_l; [by apply (rstep_call _ _ 0 1 RLock (held 2) (Returned 0))|].
  eapply rtc_l; [by eapply (rstep_call _ _ 1 0 RLock (held 2) (BlockedOn 1%nat None locking))|].
  apply rtc_refl.
Qed.

Lemma recursive_mutex_witness :
  ∃ m', exec (__libcpp_recursive_mutex_lock 0) (held 2) = (m', Returned 0).
Proof.
  destruct (recursive_mutex 2 (held 0) _ _ two_tasks) as (_ & Hl & _).
  destruct (Hl 0%nat 1%nat) as (m' & E & _); [done|]. by exists m'.
Defined.
