(* ===== verification/LibcxxThread.v ===== *)
(** Threads, thread-local storage and one-time initialisation of the libc++
    threading layer: [thread.cpp] of [libs/libcxx-threading].

    The objects the functions allocate with [new] are in maps from addresses;
    an access to an object that is not there is a fault.  The addresses of
    objects that have been deleted are not used again.  Circle's scheduler is
    represented by the current task and by the order in which the operations of
    the tasks happen. *)
From stdpp Require Import base numbers list gmap option relations.
From S2P Require Import Prelude.
From S2P Require Import Sched.

Module Thread.
Definition MAX_TLS_KEYS : Z := 32.
Definition PTHREAD_DESTRUCTOR_ITERATIONS : nat := 4.

(** A function pointer of type [void ( * ) (void * )]: a function of the
    program, or [cxa_thread_atexit_dtor]. *)
Inductive dtor :=
  | UserDtor (f : Z)
  | cxa_dtor.

(** [tls_block] is the address of the hardware TLS block. *)
Record TaskTLSData := mkTLS {
  tls_block : Z;
  kv : list Z
}.

(** A null task pointer is 0. *)
Record JoinHandle := mkHandle {
  task : Z;
  id : Z;
  detached : bool;
  joined : bool
}.

Record CLibCXXTask := mkTask {
  m_func : Z;
  m_arg : Z;
  m_handle : Z
}.

Record CXAThreadAtexitNode := mkNode {
  node_dtor : Z;
  obj : Z;
  dso_symbol : Z;
  next : Z
}.

(** The sections of the program the linker places: the image of [.tdata] and
    the span up to the end of [.tbss]. *)
Class LinkLayout := {
  tdata : list Z;
  tls_span : Z;
  tls_span_ok : Z.of_nat (length tdata) ≤ tls_span
}.

(** Arrays, with the accesses that are out of bounds. *)
Definition arr_get {A} (l : list A) (k : Z) : res A :=
  if k <? 0 then Fault BadAccess
  else match l !! Z.to_nat k with Some x => Ok x | None => Fault BadAccess end.
Definition arr_set {A} (l : list A) (k : Z) (x : A) : res (list A) :=
  if (k <? 0) || (Z.of_nat (length l) <=? k) then Fault BadAccess else Ok (<[Z.to_nat k := x]> l).

Section thread.
Context `{Target, LinkLayout} {W : Type}.

(** [TLS_TCB_SIZE]. *)
Definition TLS_TCB_SIZE : Z := if size_bits =? 64 then 16 else 8.

(** The objects, the static variables of the file, the task data, the current
    task, the thread pointer register, and the state of the rest of the
    program. *)
Record threads := mkThreads {
  handles : gmap Z JoinHandle;
  tasks : gmap Z CLibCXXTask;
  blocks : gmap Z (list Z);
  user_data : gmap Z TaskTLSData;
  next_addr : Z;
  s_initialized : bool;
  current : Z;
  tpidr : Z;
  s_destructors : list (option dtor);
  s_next_key : Z;
  nodes : gmap Z CXAThreadAtexitNode;
  s_cxa_thread_atexit_key : Z;
  s_cxa_thread_atexit_flag : Z;
  world : W
}.

Definition set_handles (x : gmap Z JoinHandle) (s : threads) : threads :=
  mkThreads x (tasks s) (blocks s) (user_data s) (next_addr s) (s_initialized s) (current
    s) (tpidr s) (s_destructors s) (s_next_key s) (nodes s) (s_cxa_thread_atexit_key s)
    (s_cxa_thread_atexit_flag s) (world s).
Definition set_tasks (x : gmap Z CLibCXXTask) (s : threads) : threads :=
  mkThreads (handles s) x (blocks s) (user_data s) (next_addr s) (s_initialized s)
    (current s) (tpidr s) (s_destructors s) (s_next_key s) (nodes s)
    (s_cxa_thread_atexit_key s) (s_cxa_thread_atexit_flag s) (world s).
Definition set_blocks (x : gmap Z (list Z)) (s : threads) : threads :=
  mkThreads (handles s) (tasks s) x (user_data s) (next_addr s) (s_initialized s) (current
    s) (tpidr s) (s_destructors s) (s_next_key s) (nodes s) (s_cxa_thread_atexit_key s)
    (s_cxa_thread_atexit_flag s) (world s).
Definition set_user_data (x : gmap Z TaskTLSData) (s : threads) : threads :=
  mkThreads (handles s) (tasks s) (blocks s) x (next_addr s) (s_initialized s) (current s)
    (tpidr s) (s_destructors s) (s_next_key s) (nodes s) (s_cxa_thread_atexit_key s)
    (s_cxa_thread_atexit_flag s) (world s).
Definition set_next_addr (x : Z) (s : threads) : threads :=
  mkThreads (handles s) (tasks s) (blocks s) (user_data s) x (s_initialized s) (current s)
    (tpidr s) (s_destructors s) (s_next_key s) (nodes s) (s_cxa_thread_atexit_key s)
    (s_cxa_thread_atexit_flag s) (world s).
Definition set_s_initialized (x : bool) (s : threads) : threads :=
  mkThreads (handles s) (tasks s) (blocks s) (user_data s) (next_addr s) x (current s)
    (tpidr s) (s_destructors s) (s_next_key s) (nodes s) (s_cxa_thread_atexit_key s)
    (s_cxa_thread_atexit_flag s) (world s).
Definition set_current (x : Z) (s : threads) : threads :=
  mkThreads (handles s) (tasks s) (blocks s) (user_data s) (next_addr s) (s_initialized s)
    x (tpidr s) (s_destructors s) (s_next_key s) (nodes s) (s_cxa_thread_atexit_key s)
    (s_cxa_thread_atexit_flag s) (world s).
Definition set_tpidr (x : Z) (s : threads) : threads :=
  mkThreads (handles s) (tasks s) (blocks s) (user_data s) (next_addr s) (s_initialized s)
    (current s) x (s_destructors s) (s_next_key s) (nodes s) (s_cxa_thread_atexit_key s)
    (s_cxa_thread_atexit_flag s) (world s).
Definition set_s_destructors (x : list (option dtor)) (s : threads) : threads :=
  mkThreads (handles s) (tasks s) (blocks s) (user_data s) (next_addr s) (s_initialized s)
    (current s) (tpidr s) x (s_next_key s) (nodes s) (s_cxa_thread_atexit_key s)
    (s_cxa_thread_atexit_flag s) (world s).
Definition set_s_next_key (x : Z) (s : threads) : threads :=
  mkThreads (handles s) (tasks s) (blocks s) (user_data s) (next_addr s) (s_initialized s)
    (current s) (tpidr s) (s_destructors s) x (nodes s) (s_cxa_thread_atexit_key s)
    (s_cxa_thread_atexit_flag s) (world s).
Definition set_nodes (x : gmap Z CXAThreadAtexitNode) (s : threads) : threads :=
  mkThreads (handles s) (tasks s) (blocks s) (user_data s) (next_addr s) (s_initialized s)
    (current s) (tpidr s) (s_destructors s) (s_next_key s) x (s_cxa_thread_atexit_key s)
    (s_cxa_thread_atexit_flag s) (world s).
Definition set_s_cxa_thread_atexit_key (x : Z) (s : threads) : threads :=
  mkThreads (handles s) (tasks s) (blocks s) (user_data s) (next_addr s) (s_initialized s)
    (current s) (tpidr s) (s_destructors s) (s_next_key s) (nodes s) x
    (s_cxa_thread_atexit_flag s) (world s).
Definition set_s_cxa_thread_atexit_flag (x : Z) (s : threads) : threads :=
  mkThreads (handles s) (tasks s) (blocks s) (user_data s) (next_addr s) (s_initialized s)
    (current s) (tpidr s) (s_destructors s) (s_next_key s) (nodes s)
    (s_cxa_thread_atexit_key s) x (world s).
Definition set_world (x : W) (s : threads) : threads :=
  mkThreads (handles s) (tasks s) (blocks s) (user_data s) (next_addr s) (s_initialized s)
    (current s) (tpidr s) (s_destructors s) (s_next_key s) (nodes s)
    (s_cxa_thread_atexit_key s) (s_cxa_thread_atexit_flag s) x.

Abbreviation T := (M threads).

(** The functions of the program, called through a pointer with an argument. *)
Context (user_call : Z → Z → T ()).

Definition fresh : T Z :=
  s ← get;
  put (set_next_addr (next_addr s + 1) s);;
  mret (next_addr s).

(** An access through a pointer. *)
Definition at_ptr {A} (m : gmap Z A) (p : Z) : T A :=
  if p =? 0 then fail NullDeref
  else match m !! p with Some x => mret x | None => fail BadAccess end.

Definition load_handle (h : Z) : T JoinHandle := s ← get; at_ptr (handles s) h.
Definition store_handle (h : Z) (x : JoinHandle) : T () :=
  _ ← load_handle h; modify (λ s, set_handles (<[h := x]> (handles s)) s).
Definition delete_handle (h : Z) : T () :=
  _ ← load_handle h; modify (λ s, set_handles (delete h (handles s)) s).

(** * Tasks *)

Definition alloc_tls_block : T Z :=
  let total := usize (TLS_TCB_SIZE + tls_span) in
  let zeros := replicate (Z.to_nat total) (Some 0) in
  block ← (if Z.of_nat (length tdata) >? 0 then lift_res (wr_bytes zeros TLS_TCB_SIZE tdata)
           else mret zeros);
  p ← fresh;
  modify (λ s, set_blocks (<[p := default 0 <$> block]> (blocks s)) s);;
  mret p.

(** [new TaskTLSData{}] with its block, as the user data of the task [t]. *)
Definition new_tls (t : Z) : T Z :=
  b ← alloc_tls_block;
  modify (λ s, set_user_data
    (<[t := mkTLS b (replicate (Z.to_nat MAX_TLS_KEYS) 0)]> (user_data s)) s);;
  mret b.

(** The constructor of [CLibCXXTask]. *)
Definition construct_task (func arg handle : Z) : T Z :=
  t ← fresh;
  modify (λ s, set_tasks (<[t := mkTask func arg handle]> (tasks s)) s);;
  _ ← new_tls t;
  mret t.

(** Its destructor, which the scheduler calls for a task that has ended. *)
Definition destruct_task (t : Z) : T () :=
  s ← get;
  p ← at_ptr (tasks s) t;
  h ← load_handle (m_handle p);
  store_handle (m_handle p) (mkHandle 0 (id h) (detached h) (joined h));;
  h ← load_handle (m_handle p);
  when (detached h || joined h) (delete_handle (m_handle p));;
  modify (λ s, set_tasks (delete t (tasks s)) s).

Definition __libcpp_thread_create (func arg : Z) : T Z :=
  s ← get;
  when (negb (s_initialized s))
    (modify (set_s_initialized true);;
     b ← new_tls (current s);
     modify (set_tpidr b));;
  h ← fresh;
  modify (λ s, set_handles (<[h := mkHandle 0 0 false false]> (handles s)) s);;
  t ← construct_task func arg h;
  x ← load_handle h;
  store_handle h (mkHandle t (id x) (detached x) (joined x));;
  x ← load_handle h;
  store_handle h (mkHandle (task x) t (detached x) (joined x));;
  mret h.

Definition __libcpp_thread_get_current_id : T Z := gets current.
Definition __libcpp_thread_get_id (opaque : Z) : T Z := h ← load_handle opaque; mret (id h).

(** [__libcpp_thread_join] up to the call of [WaitForTermination]; the result
    is the task to wait for, if any.  After the wait the function only clears
    [__opaque]. *)
Definition __libcpp_thread_join (opaque : Z) : T (option Z) :=
  h ← load_handle opaque;
  if task h =? 0 then delete_handle opaque;; mret None
  else
    store_handle opaque (mkHandle (task h) (id h) (detached h) true);;
    h ← load_handle opaque;
    mret (Some (task h)).

Definition __libcpp_thread_detach (opaque : Z) : T () :=
  h ← load_handle opaque;
  store_handle opaque (mkHandle (task h) (id h) true (joined h));;
  h ← load_handle opaque;
  when (task h =? 0) (delete_handle opaque).

(** [__libcpp_thread_sleep_for]: [Some us] is [usSleep (us)], [None] is
    [Yield ()]. *)
Definition __libcpp_thread_sleep_for (ns : Z) : option Z :=
  let us := Z.quot ns 1000 in if us >? 0 then Some (u32 us) else None.

(** * Thread-local storage *)

Definition __libcpp_tls_create (at_exit : option dtor) : T Z :=
  s ← get;
  let k := s_next_key s in
  modify (set_s_next_key (u32 (k + 1)));;
  d ← lift_res (arr_set (s_destructors s) k at_exit);
  modify (set_s_destructors d);;
  mret k.

(** [kv] of a task. *)
Definition get_kv (t : Z) (k : Z) : T Z :=
  s ← get;
  tls ← deref (user_data s !! t);
  lift_res (arr_get (kv tls) k).
Definition set_kv (t : Z) (k v : Z) : T () :=
  s ← get;
  tls ← deref (user_data s !! t);
  l ← lift_res (arr_set (kv tls) k v);
  modify (set_user_data (<[t := mkTLS (tls_block tls) l]> (user_data s))).

Definition __libcpp_tls_get (key : Z) : T Z :=
  s ← get;
  if bool_decide (is_Some (user_data s !! current s)) then get_kv (current s) key else mret 0.
Definition __libcpp_tls_set (key p : Z) : T () :=
  s ← get;
  when (bool_decide (is_Some (user_data s !! current s))) (set_kv (current s) key p).

(** * Destructors of thread-local objects *)

(** The loop of [cxa_thread_atexit_dtor]. *)
Fixpoint cxa_thread_atexit_dtor (fuel : nat) (node : Z) : T () :=
  match fuel with
  | O => fail OutOfFuel
  | S fuel =>
      if node =? 0 then mret ()
      else
        s ← get;
        n ← at_ptr (nodes s) node;
        user_call (node_dtor n) (obj n);;
        s ← get;
        n ← at_ptr (nodes s) node;
        modify (λ s, set_nodes (delete node (nodes s)) s);;
        cxa_thread_atexit_dtor fuel (next n)
  end.

Definition call_dtor (fuel : nat) (d : dtor) (v : Z) : T () :=
  match d with
  | UserDtor f => user_call f v
  | cxa_dtor => cxa_thread_atexit_dtor fuel v
  end.

(** [execute_once] of a routine that does not yield; the routine's result says
    whether it returned ([false]: it threw an exception).  A flag of 1 would make
    the task wait for another one. *)
Definition execute_once_at (read_flag : threads → Z) (write_flag : Z → threads → threads)
    (init_routine : T bool) : T bool :=
  s ← get;
  if read_flag s =? 2 then mret true
  else if read_flag s =? 0 then
    modify (write_flag 1);;
    ok ← init_routine;
    if negb ok then modify (write_flag 0);; mret false
    else modify (write_flag 2);; mret true
  else fail OutOfFuel.

Definition cxa_thread_atexit_init : T bool :=
  k ← __libcpp_tls_create (Some cxa_dtor);
  modify (set_s_cxa_thread_atexit_key k);;
  mret true.

(** [bNew] says whether the allocation of the node succeeds. *)
Definition __cxa_thread_atexit (bNew : bool) (d o dso : Z) : T Z :=
  _ ← execute_once_at s_cxa_thread_atexit_flag set_s_cxa_thread_atexit_flag cxa_thread_atexit_init;
  if negb bNew then mret (-1)
  else
    node ← fresh;
    modify (λ s, set_nodes (<[node := mkNode d o dso 0]> (nodes s)) s);;
    s ← get;
    head ← __libcpp_tls_get (s_cxa_thread_atexit_key s);
    s ← get;
    n ← at_ptr (nodes s) node;
    modify (λ s, set_nodes (<[node := mkNode (node_dtor n) (obj n) (dso_symbol n) head]> (nodes s)) s);;
    s ← get;
    __libcpp_tls_set (s_cxa_thread_atexit_key s) node;;
    mret 0.

(** * [CLibCXXTask::Run] *)

(** The inner loop over the keys; the result is [destructors_called]. *)
Fixpoint destructor_keys (fuel : nat) (t : Z) (k : Z) (called : bool) : T bool :=
  match fuel with
  | O => fail OutOfFuel
  | S fuel =>
      s ← get;
      if negb (k <? s_next_key s) then mret called
      else
        v ← get_kv t k;
        called ← (if v =? 0 then mret called
                  else
                    s ← get;
                    o ← lift_res (arr_get (s_destructors s) k);
                    match o with
                    | None => mret called
                    | Some d =>
                        set_kv t k 0;;
                        call_dtor fuel d v;;
                        mret true
                    end);
        destructor_keys fuel t (u32 (k + 1)) called
  end.

(** The outer loop. *)
Fixpoint destructor_rounds (fuel : nat) (i : nat) (t : Z) : T () :=
  match i with
  | O => mret ()
  | S i =>
      destructor_keys fuel t 0 false ≫= λ called : bool,
      if called then destructor_rounds fuel i t else mret ()
  end.

Definition Run (fuel : nat) (t : Z) : T () :=
  s ← get;
  p ← at_ptr (tasks s) t;
  let tls := user_data s !! t in
  match tls with Some x => modify (set_tpidr (tls_block x)) | None => mret () end;;
  user_call (m_func p) (m_arg p);;
  match tls with
  | None => mret ()
  | Some _ =>
      destructor_rounds fuel PTHREAD_DESTRUCTOR_ITERATIONS t;;
      s ← get;
      x ← deref (user_data s !! t);
      _ ← at_ptr (blocks s) (tls_block x);
      modify (λ s, set_blocks (delete (tls_block x) (blocks s)) s);;
      modify (λ s, set_user_data (delete t (user_data s)) s)
  end.
End thread.

(** * One-time initialisation with several tasks *)

(** Where a caller of [__libcpp_execute_once] is: at the start of the outer
    loop, in the routine, in the inner loop that waits for another task, or
    behind the call. *)
Inductive caller :=
  | AtTop
  | InRoutine
  | Spinning
  | HasReturned
  | HasThrown.

(** One iteration of the outer loop up to the routine or the first [Yield]. *)
Definition once_top (flag : Z) : Z * caller :=
  if flag =? 2 then (flag, HasReturned)
  else if flag =? 0 then (1, InRoutine)
  else (flag, Spinning).

(** The routine returns or throws. *)
Definition once_routine_end (threw : bool) (flag : Z) : Z * caller :=
  if threw then (0, HasThrown) else (2, HasReturned).

(** The test of the inner loop after a [Yield]. *)
Definition once_spin (flag : Z) : Z * caller :=
  if flag =? 1 then (flag, Spinning) else (flag, AtTop).

(** The steps of some tasks; [done] counts the calls of the routine that have
    returned. *)
Record once_state := mkOnce {
  flag : Z;
  done : nat;
  callers : list caller
}.

Inductive once_step : once_state → once_state → Prop :=
  | once_enter s i f c :
      callers s !! i = Some AtTop → once_top (flag s) = (f, c) →
      once_step s (mkOnce f (done s) (<[i := c]> (callers s)))
  | once_end s i threw f c :
      callers s !! i = Some InRoutine → once_routine_end threw (flag s) = (f, c) →
      once_step s (mkOnce f (if threw then done s else S (done s)) (<[i := c]> (callers s)))
  | once_wait s i f c :
      callers s !! i = Some Spinning → once_spin (flag s) = (f, c) →
      once_step s (mkOnce f (done s) (<[i := c]> (callers s))).

Definition once_initial (n : nat) : once_state := mkOnce 0 0 (replicate n AtTop).
Definition once_reachable (n : nat) (s : once_state) : Prop := rtc once_step (once_initial n) s.
End Thread.
