(* ===== verification/LibcxxThreadSpec.v ===== *)
(** The lifetime of the objects of a thread: the invariant of the join handles
    and the tasks, which the operations of [LibcxxThread] keep. *)
From stdpp Require Import base numbers list gmap option relations.
From S2P Require Import Prelude.
From S2P Require Import Sched.
From S2P Require Import LibcxxThread.
Import Thread.

Section handles.
Context `{Target, LinkLayout} {W : Type}.
Implicit Types s : @threads W.

(** The TLS block of the program fits into memory. *)
Definition tls_fits : Prop := TLS_TCB_SIZE + tls_span < 2^size_bits.

(** A [std::thread] object: without a thread, joinable, or blocked in [join]. *)
Inductive thread_object :=
  | NoThread
  | Joinable (opaque : Z)
  | Joining (t : Z).

(** What happens to the objects and the tasks.  [life_other] is whatever else
    the program does: it does not touch the handles and the task objects. *)
Inductive life_step : @threads W * list thread_object → @threads W * list thread_object → Prop :=
  | life_create s v i func arg h s' :
      v !! i = Some NoThread → __libcpp_thread_create func arg s = Ok (h, s') →
      life_step (s, v) (s', <[i := Joinable h]> v)
  | life_join s v i h o s' :
      v !! i = Some (Joinable h) → __libcpp_thread_join h s = Ok (o, s') →
      life_step (s, v) (s', <[i := match o with Some t => Joining t | None => NoThread end]> v)
  | life_joined s v i t :
      v !! i = Some (Joining t) → tasks s !! t = None → life_step (s, v) (s, <[i := NoThread]> v)
  | life_detach s v i h s' :
      v !! i = Some (Joinable h) → __libcpp_thread_detach h s = Ok ((), s') →
      life_step (s, v) (s', <[i := NoThread]> v)
  | life_end s v t s' :
      is_Some (tasks s !! t) → destruct_task t s = Ok ((), s') → life_step (s, v) (s', v)
  | life_other s v s' :
      handles s' = handles s → tasks s' = tasks s → next_addr s ≤ next_addr s' →
      life_step (s, v) (s', v).

(** The program at its start. *)
Definition life_start (s : @threads W) (v : list thread_object) : Prop :=
  handles s = ∅ ∧ tasks s = ∅ ∧ 0 < next_addr s ∧ Forall (λ x, x = NoThread) v.

Definition life_reachable (sys : @threads W * list thread_object) : Prop :=
  ∃ s v, life_start s v ∧ rtc life_step (s, v) sys.

(** The invariant: a handle belongs to a [std::thread] object, or to its task
    once it has been joined or detached. *)
Record life_inv (s : @threads W) (v : list thread_object) : Prop := {
  next_pos : 0 < next_addr s;
  handle_addr h x : handles s !! h = Some x → 0 < h < next_addr s;
  task_addr t p : tasks s !! t = Some p → 0 < t < next_addr s;
  task_handle t p : tasks s !! t = Some p → ∃ x, handles s !! m_handle p = Some x ∧ task x = t;
  handle_task h x : handles s !! h = Some x → task x ≠ 0 →
    ∃ p, tasks s !! task x = Some p ∧ m_handle p = h;
  joinable_handle i h : v !! i = Some (Joinable h) →
    ∃ x, handles s !! h = Some x ∧ detached x = false ∧ joined x = false;
  joinable_inj i j h : v !! i = Some (Joinable h) → v !! j = Some (Joinable h) → i = j;
  handle_owned h x : handles s !! h = Some x →
    (∃ i, v !! i = Some (Joinable h)) ∨ (task x ≠ 0 ∧ detached x || joined x = true)
}.

Lemma life_start_inv s v : life_start s v → life_inv s v.
Proof using Type.
  intros (Hh & Ht & Hn & Hv). rewrite Forall_lookup in Hv.
  assert (Hno : ∀ i h, v !! i ≠ Some (Joinable h)) by (intros i h Hi; by specialize (Hv _ _ Hi)).
  split; [done|..].
  1-4, 7: by intros ??; rewrite ?Hh, ?Ht, lookup_empty.
  - intros i h Hi. by destruct (Hno i h).
  - intros i j h Hi. by destruct (Hno i h).
Qed.

(** A handle that is not joined or detached, and whose task is still there or
    not, after the object has given it up. *)
Definition surrender (h : Z) (x : JoinHandle) (s s' : @threads W) : Prop :=
  tasks s' = tasks s ∧ next_addr s' = next_addr s ∧
  handles s' = if task x =? 0 then delete h (handles s) else <[h := x]> (handles s).

Lemma surrender_inv s s' v i h x y o :
  life_inv s v → v !! i = Some (Joinable h) → handles s !! h = Some x →
  task y = task x → detached y || joined y = true → (∀ k, o ≠ Joinable k) →
  surrender h y s s' → life_inv s' (<[i := o]> v).
Proof using Type.
  intros Hinv Hi Hx Hty Hy Ho (Ht' & Hn' & Hh').
  assert (Hv : ∀ j k, <[i := o]> v !! j = Some (Joinable k) → j ≠ i ∧ v !! j = Some (Joinable k)).
  { intros j k Hj. apply list_lookup_insert_Some in Hj as [(-> & Heq & _)|[? ?]]; [|done]. by destruct (Ho k). }
  assert (Hold : ∀ k z, handles s' !! k = Some z →
    ∃ z0, handles s !! k = Some z0 ∧ task z = task z0 ∧ (k ≠ h → z = z0) ∧ (k = h → task y ≠ 0 ∧ z = y)).
  { intros k z. rewrite Hh'. destruct (Z.eqb_spec (task y) 0).
    - intros [? ?]%lookup_delete_Some. exists z. by split_and!.
    - intros [[<- <-]|[? ?]]%lookup_insert_Some; [exists x|exists z]; by split_and!. }
  assert (Hnew : ∀ k z, handles s !! k = Some z → k ≠ h → handles s' !! k = Some z).
  { intros k z Hk Hne. rewrite Hh'. destruct (task y =? 0); [by rewrite lookup_delete_ne|by rewrite lookup_insert_ne]. }
  split; rewrite ?Ht', ?Hn'.
  - apply Hinv.
  - intros k z Hk. destruct (Hold k z Hk) as (z0 & Hz0 & _). by apply (handle_addr s v Hinv k z0).
  - apply Hinv.
  - intros t p Hp. destruct (task_handle s v Hinv t p Hp) as (z & Hz & Hzt).
    destruct (decide (m_handle p = h)) as [E0|Hne]; [|by eauto].
    rewrite E0 in *. rewrite Hx in Hz. injection Hz as <-. exists y. rewrite Hh', Hty.
    destruct (Z.eqb_spec (task x) 0) as [E|]; [|by rewrite lookup_insert_eq].
    pose proof (task_addr s v Hinv t p Hp). lia.
  - intros k z Hk Hz. destruct (Hold k z Hk) as (z0 & Hz0 & Etask & _). rewrite Etask in Hz |- *.
    by apply (handle_task s v Hinv k z0).
  - intros j k Hj. destruct (Hv j k Hj) as [Hji Hj']. destruct (joinable_handle s v Hinv j k Hj') as (z & Hz & Hd).
    exists z. split; [|done]. apply Hnew; [done|]. intros ->. by destruct Hji; eapply (joinable_inj s v Hinv).
  - intros j k q Hj Hk. destruct (Hv j q Hj) as [_ Hj'], (Hv k q Hk) as [_ Hk'].
    by eapply (joinable_inj s v Hinv).
  - intros k z Hk. destruct (Hold k z Hk) as (z0 & Hz0 & Etask & Hne & Heq).
    destruct (decide (k = h)) as [->|Hkh].
    + right. destruct (Heq eq_refl) as [? ->]. done.
    + rewrite (Hne Hkh). destruct (handle_owned s v Hinv k z0 Hz0) as [[j Hj]|Hown]; [left|by right].
      exists j. rewrite list_lookup_insert_ne; [done|]. intros ->. congruence.
Qed.

Lemma at_ptr_run {A} (m : gmap Z A) p x s : m !! p = Some x → 0 < p → at_ptr m p s = Ok (x, s).
Proof using Type. intros Hp Hpos. unfold at_ptr. destruct (Z.eqb_spec p 0); [lia|]. by rewrite Hp. Qed.

Lemma load_handle_run h x s : handles s !! h = Some x → 0 < h → load_handle h s = Ok (x, s).
Proof using Type. intros. unfold load_handle. rewrite bind_unfold. cbn [get]. by apply at_ptr_run. Qed.

Lemma store_handle_run h x y s :
  handles s !! h = Some x → 0 < h →
  store_handle h y s = Ok ((), set_handles (<[h := y]> (handles s)) s).
Proof using Type.
  intros Hh Hp. unfold store_handle. by rewrite (bind_run _ _ _ _ _ (load_handle_run h x s Hh Hp)).
Qed.

Lemma delete_handle_run h x s :
  handles s !! h = Some x → 0 < h →
  delete_handle h s = Ok ((), set_handles (delete h (handles s)) s).
Proof using Type.
  intros Hh Hp. unfold delete_handle. by rewrite (bind_run _ _ _ _ _ (load_handle_run h x s Hh Hp)).
Qed.

(** * The operations *)

Lemma join_run h x s :
  handles s !! h = Some x → 0 < h → detached x = false → joined x = false →
  ∃ s', __libcpp_thread_join h s = Ok ((if task x =? 0 then None else Some (task x)), s') ∧
    surrender h (mkHandle (task x) (id x) (detached x) true) s s'.
Proof using Type.
  intros Hh Hp Hd Hj. unfold __libcpp_thread_join.
  rewrite (bind_run _ _ _ _ _ (load_handle_run h x s Hh Hp)). unfold surrender. cbn [task].
  destruct (Z.eqb_spec (task x) 0).
  - rewrite (bind_run _ _ _ _ _ (delete_handle_run h x s Hh Hp)). eexists. split; [done|]. by split_and!.
  - rewrite (bind_run _ _ _ _ _ (store_handle_run h x _ s Hh Hp)).
    erewrite bind_run by (apply load_handle_run; [apply lookup_insert_eq|done]).
    eexists. split; [done|]. by split_and!.
Qed.

Lemma detach_run h x s :
  handles s !! h = Some x → 0 < h → detached x = false → joined x = false →
  ∃ s', __libcpp_thread_detach h s = Ok ((), s') ∧
    surrender h (mkHandle (task x) (id x) true (joined x)) s s'.
Proof using Type.
  intros Hh Hp Hd Hj. unfold __libcpp_thread_detach.
  rewrite (bind_run _ _ _ _ _ (load_handle_run h x s Hh Hp)).
  rewrite (bind_run _ _ _ _ _ (store_handle_run h x _ s Hh Hp)).
  erewrite bind_run by (apply load_handle_run; [apply lookup_insert_eq|done]).
  unfold surrender. cbn [task]. unfold when. destruct (Z.eqb_spec (task x) 0).
  - erewrite delete_handle_run; [|apply lookup_insert_eq|done]. eexists. split; [done|].
    cbn. by rewrite delete_insert_eq.
  - eexists. split; [done|]. by split_and!.
Qed.

(** The destructor of a task: the handle goes with it, or is left to the
    [std::thread] object with a null task. *)
Lemma destruct_task_run t p x s :
  tasks s !! t = Some p → 0 < t → handles s !! m_handle p = Some x → 0 < m_handle p →
  ∃ s', destruct_task t s = Ok ((), s') ∧ tasks s' = delete t (tasks s) ∧ next_addr s' = next_addr s ∧
    handles s' = if detached x || joined x then delete (m_handle p) (handles s)
                 else <[m_handle p := mkHandle 0 (id x) (detached x) (joined x)]> (handles s).
Proof using Type.
  intros Ht Htp Hh Hp. unfold destruct_task. erewrite bind_run by done.
  rewrite (bind_run _ _ _ _ _ (at_ptr_run _ _ _ s Ht Htp)).
  rewrite (bind_run _ _ _ _ _ (load_handle_run _ x s Hh Hp)).
  rewrite (bind_run _ _ _ _ _ (store_handle_run _ x _ s Hh Hp)).
  erewrite bind_run by (apply load_handle_run; [apply lookup_insert_eq|done]).
  cbn [detached joined]. unfold when. destruct (detached x || joined x).
  - erewrite bind_run by (eapply delete_handle_run; [apply lookup_insert_eq|done]).
    eexists. split; [done|]. cbn. by rewrite delete_insert_eq.
  - erewrite bind_run by done. eexists. split; [done|]. by split_and!.
Qed.

Lemma destruct_task_inv s s' v t p x :
  life_inv s v → tasks s !! t = Some p → handles s !! m_handle p = Some x → task x = t →
  tasks s' = delete t (tasks s) → next_addr s' = next_addr s →
  (handles s' = if detached x || joined x then delete (m_handle p) (handles s)
                else <[m_handle p := mkHandle 0 (id x) (detached x) (joined x)]> (handles s)) →
  life_inv s' v.
Proof using Type.
  intros Hinv Ht Hx Hxt Ht' Hn' Hh'. set (h := m_handle p) in *.
  assert (Hold : ∀ k z, handles s' !! k = Some z →
    (k ≠ h ∧ handles s !! k = Some z) ∨
    (k = h ∧ detached x || joined x = false ∧ z = mkHandle 0 (id x) (detached x) (joined x))).
  { intros k z. rewrite Hh'. destruct (detached x || joined x).
    - intros [? ?]%lookup_delete_Some. by left.
    - intros [[<- <-]|[? ?]]%lookup_insert_Some; [by right|by left]. }
  assert (Hnew : ∀ k z, handles s !! k = Some z → k ≠ h → handles s' !! k = Some z).
  { intros k z Hk Hne. rewrite Hh'. destruct (_ || _); [by rewrite lookup_delete_ne|by rewrite lookup_insert_ne]. }
  split; rewrite ?Ht', ?Hn'.
  - apply Hinv.
  - intros k z Hk. destruct (Hold k z Hk) as [[_ ?]|[-> _]]; by eapply (handle_addr s v Hinv).
  - intros u q [_ Hq]%lookup_delete_Some. by eapply (task_addr s v Hinv).
  - intros u q [Hne Hq]%lookup_delete_Some. destruct (task_handle s v Hinv u q Hq) as (z & Hz & Hzt).
    exists z. split; [|done]. apply Hnew; [done|]. intros E. rewrite E in Hz. congruence.
  - intros k z Hk Hz. destruct (Hold k z Hk) as [[Hne Hk']|(-> & _ & ->)]; [|done].
    destruct (handle_task s v Hinv k z Hk' Hz) as (q & Hq & Hqk). exists q. split; [|done].
    rewrite lookup_delete_ne; [done|]. intros E. rewrite <-E in Hq. assert (q = p) as -> by congruence. by apply Hne.
  - intros i k Hi. destruct (joinable_handle s v Hinv i k Hi) as (z & Hz & Hd & Hj).
    destruct (decide (k = h)) as [->|Hne]; [|exists z; auto].
    rewrite Hx in Hz. injection Hz as <-. rewrite Hh', Hd, Hj. cbn. rewrite lookup_insert_eq. by eexists.
  - apply Hinv.
  - intros k z Hk. destruct (Hold k z Hk) as [[Hne Hk']|(-> & Hf & ->)]; [by apply (handle_owned s v Hinv)|].
    destruct (handle_owned s v Hinv h x Hx) as [?|[_ ?]]; [by left|congruence].
Qed.

(** What only allocates leaves handles and tasks alone. *)
Definition allocates (s s' : @threads W) : Prop :=
  handles s' = handles s ∧ tasks s' = tasks s ∧ next_addr s ≤ next_addr s'.

Lemma alloc_tls_block_wp s :
  tls_fits → wp no_fault alloc_tls_block (λ _ s', allocates s s') s.
Proof using Type.
  intros Hfit. unfold alloc_tls_block. pose proof tls_span_ok.
  assert (0 ≤ TLS_TCB_SIZE) by (unfold TLS_TCB_SIZE; by destruct (size_bits =? 64)).
  wp_step. apply (wp_mono _ _ (λ _ s', s' = s)).
  - apply wp_if; intros _; [|by wp_step].
    destruct (wr_bytes_Ok (replicate (Z.to_nat (usize (TLS_TCB_SIZE + tls_span))) (Some 0))
      TLS_TCB_SIZE tdata) as (b & E & _); [done| |].
    + rewrite length_replicate. unfold usize, tls_fits in *. rewrite Z.mod_small by lia. lia.
    + by eapply wp_lift_Ok.
  - intros b s' ->. unfold fresh. wp_steps. split_and!; cbn; [done|done|lia].
Qed.

Lemma new_tls_wp t s : tls_fits → wp no_fault (new_tls t) (λ _ s', allocates s s') s.
Proof using Type.
  intros Hfit. unfold new_tls. wp_step. eapply wp_mono; [by apply alloc_tls_block_wp|].
  intros b s' Hs'. wp_steps. exact Hs'.
Qed.

(** A new thread: a handle and a task that point at each other. *)
Definition created (func arg h : Z) (s s' : @threads W) : Prop :=
  ∃ t, next_addr s ≤ h < t ∧ t < next_addr s' ∧
    handles s' = <[h := mkHandle t t false false]> (handles s) ∧
    tasks s' = <[t := mkTask func arg h]> (tasks s).

Lemma create_wp func arg s :
  tls_fits → 0 < next_addr s →
  wp no_fault (__libcpp_thread_create func arg) (λ h s', created func arg h s s') s.
Proof using Type.
  intros Hfit Hpos. unfold __libcpp_thread_create. wp_step. wp_step. wp_step.
  apply (wp_mono _ _ (λ _ s1, allocates s s1)).
  { apply wp_when; intros _; [|by split_and!]. wp_steps.
    eapply wp_mono; [by apply new_tls_wp|]. intros b s1 Hs1. wp_steps. exact Hs1. }
  intros [] s1 (H1 & T1 & N1). unfold fresh at 1. wp_steps.
  unfold construct_task, fresh. wp_steps.
  eapply wp_mono; [by apply new_tls_wp|]. intros b s2 (H2 & T2 & N2). wp_step. cbn in H2, T2, N2.
  rewrite H1 in H2. rewrite T1 in T2.
  set (h := next_addr s1) in *. set (t := h + 1) in *.
  eapply wp_run; [apply load_handle_run; [rewrite H2; apply lookup_insert_eq|lia]|].
  eapply wp_run; [eapply store_handle_run; [rewrite H2; apply lookup_insert_eq|lia]|].
  eapply wp_run; [apply load_handle_run; [apply lookup_insert_eq|lia]|].
  eapply wp_run; [eapply store_handle_run; [apply lookup_insert_eq|lia]|].
  wp_step. exists t. split_and!; [lia|lia|cbn; lia| |cbn; exact T2].
  cbn. by rewrite H2, !insert_insert_eq.
Qed.

Lemma create_inv func arg h s s' v i :
  life_inv s v → v !! i = Some NoThread → created func arg h s s' →
  life_inv s' (<[i := Joinable h]> v).
Proof using Type.
  intros Hinv Hi (t & Hht & Htn & Hh' & Ht'). pose proof (next_pos s v Hinv) as Hpos.
  assert (Hfh : handles s !! h = None).
  { destruct (handles s !! h) eqn:E; [|done]. pose proof (handle_addr s v Hinv h _ E). lia. }
  assert (Hv : ∀ j k, <[i := Joinable h]> v !! j = Some (Joinable k) →
    (j = i ∧ k = h) ∨ (j ≠ i ∧ k ≠ h ∧ v !! j = Some (Joinable k))).
  { intros j k [(<- & [= <-] & _)|[Hne Hj]]%list_lookup_insert_Some; [by left|right].
    split_and!; [done| |done]. intros ->. destruct (joinable_handle s v Hinv j h Hj) as (x & Hx & _). congruence. }
  split; rewrite ?Hh', ?Ht'.
  - lia.
  - intros k x [[<- <-]|[_ Hk]]%lookup_insert_Some; [lia|]. pose proof (handle_addr s v Hinv k x Hk). lia.
  - intros u q [[<- <-]|[_ Hu]]%lookup_insert_Some; [lia|]. pose proof (task_addr s v Hinv u q Hu). lia.
  - intros u q [[<- <-]|[_ Hu]]%lookup_insert_Some.
    + cbn. rewrite lookup_insert_eq. by eexists.
    + destruct (task_handle s v Hinv u q Hu) as (x & Hx & Hxu). exists x.
      rewrite lookup_insert_ne; [done|]. congruence.
  - intros k x [[<- <-]|[_ Hk]]%lookup_insert_Some Hx; cbn.
    + rewrite lookup_insert_eq. by eexists.
    + destruct (handle_task s v Hinv k x Hk Hx) as (q & Hq & Hqk). exists q.
      rewrite lookup_insert_ne; [done|]. pose proof (task_addr s v Hinv _ _ Hq). lia.
  - intros j k Hj. destruct (Hv j k Hj) as [(-> & ->)|(Hji & Hkh & Hj')].
    + rewrite lookup_insert_eq. by eexists.
    + rewrite lookup_insert_ne by done. by apply (joinable_handle s v Hinv j).
  - intros j k q Hj Hk. destruct (Hv j q Hj) as [(-> & ->)|(? & ? & Hj')], (Hv k _ Hk) as [(-> & ?)|(? & ? & Hk')];
      try done. by eapply (joinable_inj s v Hinv).
  - intros k x [[<- <-]|[_ Hk]]%lookup_insert_Some.
    + left. exists i. apply list_lookup_insert_eq. by eapply lookup_lt_Some.
    + destruct (handle_owned s v Hinv k x Hk) as [[j Hj]|?]; [left|by right].
      exists j. rewrite list_lookup_insert_ne; [done|]. congruence.
Qed.

Lemma life_other_inv s s' v :
  handles s' = handles s → tasks s' = tasks s → next_addr s ≤ next_addr s' →
  life_inv s v → life_inv s' v.
Proof using Type.
  intros Hh Ht Hn Hinv. split; rewrite ?Hh, ?Ht; try apply Hinv.
  - pose proof (next_pos s v Hinv). lia.
  - intros h x Hx. pose proof (handle_addr s v Hinv h x Hx). lia.
  - intros t p Hp. pose proof (task_addr s v Hinv t p Hp). lia.
Qed.

Lemma life_step_inv sys sys' : tls_fits → life_inv sys.1 sys.2 → life_step sys sys' → life_inv sys'.1 sys'.2.
Proof using Type.
  intros Hfit Hinv Hstep. destruct Hstep as [s v i func arg h s' Hi E|s v i h o s' Hi E
    |s v i t Hi Ht|s v i h s' Hi E|s v t s' [p Hp] E|s v s' Hh Ht Hn]; cbn [fst snd] in *.
  - eapply create_inv; [done|done|].
    exact (wp_Ok _ _ _ _ _ _ (create_wp func arg s Hfit (next_pos s v Hinv)) E).
  - destruct (joinable_handle s v Hinv i h Hi) as (x & Hx & Hd & Hj).
    pose proof (handle_addr s v Hinv h x Hx).
    destruct (join_run h x s Hx ltac:(lia) Hd Hj) as (s2 & E2 & Hg). rewrite E in E2. injection E2 as -> <-.
    eapply surrender_inv; [done|done|exact Hx| | | |exact Hg]; [done|by rewrite orb_true_r|].
    intros k. by destruct (task x =? 0).
  - assert (Hv : ∀ j k, <[i := NoThread]> v !! j = Some (Joinable k) → v !! j = Some (Joinable k)).
    { intros j k Hj. by apply list_lookup_insert_Some in Hj as [(_ & ? & _)|[_ ?]]. }
    split; try apply Hinv.
    + intros j k Hj. apply (joinable_handle s v Hinv j). by apply Hv.
    + intros j k q Hj Hk. eapply (joinable_inj s v Hinv); by apply Hv.
    + intros h x Hx. destruct (handle_owned s v Hinv h x Hx) as [[j Hj]|?]; [left|by right].
      exists j. rewrite list_lookup_insert_ne; [done|]. congruence.
  - destruct (joinable_handle s v Hinv i h Hi) as (x & Hx & Hd & Hj).
    pose proof (handle_addr s v Hinv h x Hx).
    destruct (detach_run h x s Hx ltac:(lia) Hd Hj) as (s2 & E2 & Hg). rewrite E in E2. injection E2 as <-.
    by eapply surrender_inv; [done|done|exact Hx| | | |exact Hg].
  - destruct (task_handle s v Hinv t p Hp) as (x & Hx & Hxt).
    pose proof (task_addr s v Hinv t p Hp). pose proof (handle_addr s v Hinv _ x Hx).
    destruct (destruct_task_run t p x s Hp ltac:(lia) Hx ltac:(lia)) as (s2 & E2 & Ht2 & Hn2 & Hh2).
    rewrite E in E2. injection E2 as <-. by eapply destruct_task_inv.
  - by eapply life_other_inv.
Qed.

Lemma life_steps_inv sys sys' :
  tls_fits → rtc life_step sys sys' → life_inv sys.1 sys.2 → life_inv sys'.1 sys'.2.
Proof using Type.
  intros Hfit Hr. induction Hr as [sys|sys1 sys2 sys3 Hs _ IH]; [done|].
  intros Hi. apply IH. by eapply life_step_inv.
Qed.

Lemma life_reachable_inv s v : tls_fits → life_reachable (s, v) → life_inv s v.
Proof using Type.
  intros Hfit (s0 & v0 & Hst & Hr).
  by apply (life_steps_inv (s0, v0) (s, v)); [| |apply life_start_inv].
Qed.
End handles.
