(* ===== verification/LibcxxTls.v ===== *)
(** What the thread-local storage of [LibcxxThread] does: the destructors of
    the keys at the end of a task, and the list of destructors registered with
    [__cxa_thread_atexit]. *)
From stdpp Require Import base numbers list gmap option relations.
From S2P Require Import Prelude.
From S2P Require Import Sched.
From S2P Require Import LibcxxThread.
Import Thread.

Section tls.
Context `{Target, LinkLayout} {W : Type}.
Context (user_call : Z → Z → M (@threads W) ()).
(** The functions of the program work on its own state only. *)
Context (effect : Z → Z → W → W).
Hypothesis user_call_effect : ∀ f v s,
  user_call f v s = Ok ((), set_world (effect f v (world s)) s).
Implicit Types s : @threads W.

(** The effect of a list of calls, in order. *)
Definition effects (cs : list (Z * Z)) (w : W) : W := foldl (λ w c, effect c.1 c.2 w) w cs.

Lemma arr_get_run {A} (l : list A) k x : l !! k = Some x → arr_get l (Z.of_nat k) = Ok x.
Proof using Type.
  intros Hk. unfold arr_get. destruct (Z.ltb_spec (Z.of_nat k) 0); [lia|]. by rewrite Nat2Z.id, Hk.
Qed.
Lemma arr_set_run {A} (l : list A) k x :
  (k < length l)%nat → arr_set l (Z.of_nat k) x = Ok (<[k := x]> l).
Proof using Type.
  intros Hk. unfold arr_set. destruct (Z.ltb_spec (Z.of_nat k) 0); [lia|].
  destruct (Z.leb_spec (Z.of_nat (length l)) (Z.of_nat k)); [lia|]. by rewrite Nat2Z.id.
Qed.

Lemma get_kv_run t k s x v :
  user_data s !! t = Some x → kv x !! k = Some v → get_kv t (Z.of_nat k) s = Ok (v, s).
Proof using Type.
  intros Hx Hv. unfold get_kv. erewrite bind_run by done. rewrite Hx. erewrite bind_run by done.
  unfold lift_res. by rewrite (arr_get_run _ _ _ Hv).
Qed.
Lemma set_kv_run t k v s x :
  user_data s !! t = Some x → (k < length (kv x))%nat →
  set_kv t (Z.of_nat k) v s
  = Ok ((), set_user_data (<[t := mkTLS (tls_block x) (<[k := v]> (kv x))]> (user_data s)) s).
Proof using Type.
  intros Hx Hk. unfold set_kv. erewrite bind_run by done. rewrite Hx. erewrite bind_run by done.
  erewrite bind_run by (unfold lift_res; by rewrite arr_set_run). done.
Qed.

(** * The destructors of the keys *)

(** The call the end of a task makes for a key. *)
Definition key_call (l : list Z) (ds : list (option dtor)) (k : nat) : option (Z * Z) :=
  match l !! k, ds !! k with
  | Some v, Some (Some (UserDtor f)) => if v =? 0 then None else Some (f, v)
  | _, _ => None
  end.

(** The values after the keys from [k] to [k + m] have been handled. *)
Fixpoint cleared (ds : list (option dtor)) (m k : nat) (l : list Z) : list Z :=
  match m with
  | O => l
  | S m => cleared ds m (S k)
             (match key_call l ds k with Some _ => <[k := 0]> l | None => l end)
  end.

(** The keys whose destructors are functions of the program. *)
Definition plain_keys (s : @threads W) : Prop :=
  s_next_key s ≤ MAX_TLS_KEYS ∧ 0 ≤ s_next_key s ∧ length (s_destructors s) = Z.to_nat MAX_TLS_KEYS ∧
  Forall (λ d, d ≠ Some cxa_dtor) (s_destructors s).

Definition task_data (t : Z) (b : Z) (l : list Z) (s : @threads W) : @threads W :=
  set_user_data (<[t := mkTLS b l]> (user_data s)) s.

Lemma key_call_insert l ds j k : j ≠ k → key_call (<[j := 0]> l) ds k = key_call l ds k.
Proof using Type. intros Hne. unfold key_call. by rewrite list_lookup_insert_ne. Qed.

Lemma key_calls_insert l ds j k m :
  (j < k)%nat → omap (key_call (<[j := 0]> l) ds) (seq k m) = omap (key_call l ds) (seq k m).
Proof using Type.
  revert k. induction m as [|m IH]; intros k Hj; [done|]. cbn.
  rewrite key_call_insert by lia. by rewrite IH by lia.
Qed.

Lemma cleared_length ds m k l : length (cleared ds m k l) = length l.
Proof using Type.
  revert k l. induction m as [|m IH]; intros k l; [done|]. cbn. rewrite IH.
  destruct (key_call l ds k); [apply length_insert|done].
Qed.

Lemma cleared_lookup ds m k l j :
  cleared ds m k l !! j =
  if decide (k ≤ j < k + m)%nat then (match key_call l ds j with Some _ => Some 0 | None => l !! j end)
  else l !! j.
Proof using Type.
  revert k l. induction m as [|m IH]; intros k l; cbn [cleared].
  - by rewrite decide_False by lia.
  - rewrite IH. destruct (decide (j = k)) as [->|Hne].
    + rewrite decide_False, decide_True by lia. destruct (key_call l ds k) eqn:E; [|done].
      apply list_lookup_insert_eq. unfold key_call in E. destruct (l !! k) eqn:El; [|done].
      by eapply lookup_lt_Some.
    + assert (Hsame : match key_call l ds k with Some _ => <[k:=0]> l | None => l end !! j = l !! j).
      { destruct (key_call l ds k); [by rewrite list_lookup_insert_ne|done]. }
      assert (Hcall : key_call (match key_call l ds k with Some _ => <[k:=0]> l | None => l end) ds j
                      = key_call l ds j).
      { destruct (key_call l ds k); [by apply key_call_insert|done]. }
      rewrite Hsame, Hcall.
      destruct (decide (S k ≤ j < S k + m)%nat), (decide (k ≤ j < k + S m)%nat); try done; lia.
Qed.

(** One round over the keys. *)
Lemma destructor_keys_run m fuel t k b l s called :
  user_data s !! t = Some (mkTLS b l) → length l = Z.to_nat MAX_TLS_KEYS → plain_keys s →
  Z.of_nat (k + m) = s_next_key s → (m < fuel)%nat →
  let cs := omap (key_call l (s_destructors s)) (seq k m) in
  destructor_keys user_call fuel t (Z.of_nat k) called s
  = Ok (called || negb (bool_decide (cs = [])),
        set_world (effects cs (world s)) (task_data t b (cleared (s_destructors s) m k l) s)).
Proof using user_call_effect.
  assert (Hself : ∀ s b l, user_data s !! t = Some (mkTLS b l) → task_data t b l s = s).
  { intros s1 b1 l1 Hs1. unfold task_data. rewrite insert_id by done. by destruct s1. }
  revert fuel k l s called. induction m as [|m IH]; intros [|fuel] k l s called Hd Hl Hp Hk Hf; try lia.
  - cbn [destructor_keys]. erewrite bind_run by done. cbn. rewrite Hself by done.
    destruct (Z.ltb_spec (Z.of_nat k) (s_next_key s)); [lia|]. rewrite orb_false_r. by destruct s.
  - cbn [destructor_keys]. erewrite bind_run by done.
    destruct Hp as (Hmax & Hnn & Hds & Hplain).
    destruct (Z.ltb_spec (Z.of_nat k) (s_next_key s)); [|lia]. cbn [negb].
    destruct (lookup_lt_is_Some_2 l k) as [v Hv]; [unfold MAX_TLS_KEYS in *; lia|].
    destruct (lookup_lt_is_Some_2 (s_destructors s) k) as [d Hdk]; [unfold MAX_TLS_KEYS in *; lia|].
    rewrite (bind_run _ _ _ _ _ (get_kv_run t k s _ v Hd Hv)).
    assert (Hu : u32 (Z.of_nat k + 1) = Z.of_nat (S k)).
    { rewrite u32_id; unfold is_u32, MAX_TLS_KEYS in *; lia. }
    cbn [seq omap list_omap]. cbn [cleared].
    assert (Hno : key_call l (s_destructors s) k = None →
      (if v =? 0 then True else d = None) → 
      destructor_keys user_call fuel t (u32 (Z.of_nat k + 1)) called s =
      Ok (called || negb (bool_decide (omap (key_call l (s_destructors s)) (seq (S k) m) = [])),
        set_world (effects (omap (key_call l (s_destructors s)) (seq (S k) m)) (world s))
          (task_data t b (cleared (s_destructors s) m (S k) l) s))).
    { intros _ _. rewrite Hu. apply IH; [done|done|by split_and!|lia|lia]. }
    destruct (Z.eqb_spec v 0) as [->|Hv0].
    { erewrite bind_run by done. assert (Hkc : key_call l (s_destructors s) k = None).
      { unfold key_call. rewrite Hv, Hdk. by destruct d as [[]|]. }
      rewrite Hkc. by apply Hno. }
    rewrite bind_unfold. erewrite bind_run by done.
    erewrite bind_run by (unfold lift_res; by rewrite (arr_get_run _ _ _ Hdk)).
    destruct d as [[f|]|].
    + assert (Hkc : key_call l (s_destructors s) k = Some (f, v)).
      { unfold key_call. rewrite Hv, Hdk. by destruct (Z.eqb_spec v 0). }
      rewrite Hkc. cbn [call_dtor].
      rewrite (bind_run _ _ _ _ _ (set_kv_run t k 0 s _ Hd ltac:(cbn; unfold MAX_TLS_KEYS in *; lia))).
      rewrite (bind_run _ _ _ _ _ (user_call_effect f v _)). cbv beta iota. cbn [mret M_ret kv tls_block].
      rewrite Hu. rewrite (IH fuel (S k) (<[k := 0]> l)).
      * cbn [s_destructors set_world set_user_data world]. rewrite key_calls_insert by lia.
        rewrite orb_true_r. cbn. f_equal. f_equal. destruct s. cbn. unfold task_data, set_user_data, set_world. cbn.
        by rewrite insert_insert_eq.
      * cbn. apply lookup_insert_eq.
      * by rewrite length_insert.
      * by split_and!.
      * cbn. lia.
      * lia.
    + rewrite Forall_lookup in Hplain. by destruct (Hplain _ _ Hdk).
    + assert (Hkc : key_call l (s_destructors s) k = None) by (unfold key_call; by rewrite Hv, Hdk).
      rewrite Hkc. cbv beta iota. by apply Hno.
Qed.

(** Nothing is left for a second round. *)
Lemma cleared_no_calls ds n l :
  omap (key_call (cleared ds n 0 l) ds) (seq 0 n) = [].
Proof using Type.
  assert (Hall : ∀ m k, (k + m ≤ n)%nat → omap (key_call (cleared ds n 0 l) ds) (seq k m) = []).
  { intros m. induction m as [|m IH]; intros k Hk; [done|]. cbn. rewrite IH by lia.
    assert (Hkc : key_call (cleared ds n 0 l) ds k = None); [|by rewrite Hkc].
    unfold key_call at 1. rewrite cleared_lookup, decide_True by lia.
    destruct (key_call l ds k) eqn:E; [by destruct (ds !! k) as [[[]|]|]|].
    unfold key_call in E. destruct (l !! k); [|done]. destruct (ds !! k) as [[[]|]|]; done. }
  by apply Hall.
Qed.

Lemma destructor_rounds_run fuel t b l s :
  user_data s !! t = Some (mkTLS b l) → length l = Z.to_nat MAX_TLS_KEYS → plain_keys s →
  (Z.to_nat MAX_TLS_KEYS < fuel)%nat →
  let n := Z.to_nat (s_next_key s) in
  destructor_rounds user_call fuel PTHREAD_DESTRUCTOR_ITERATIONS t s
  = Ok ((), set_world (effects (omap (key_call l (s_destructors s)) (seq 0 n)) (world s))
              (task_data t b (cleared (s_destructors s) n 0 l) s)).
Proof using user_call_effect.
  intros Hd Hl Hp Hf n. pose proof Hp as (Hmax & Hnn & Hds & Hplain).
  unfold PTHREAD_DESTRUCTOR_ITERATIONS. cbn [destructor_rounds].
  rewrite (bind_run _ _ _ _ _ (destructor_keys_run n fuel t 0 b l s false Hd Hl Hp
    ltac:(subst n; lia) ltac:(subst n; unfold MAX_TLS_KEYS in *; lia))).
  set (cs := omap _ _). cbn [orb]. destruct (bool_decide (cs = [])) eqn:Ec; [done|]. cbn [negb].
  set (s1 := set_world _ _).
  assert (Hd1 : user_data s1 !! t = Some (mkTLS b (cleared (s_destructors s) n 0 l))) by apply lookup_insert_eq.
  rewrite (bind_run _ _ _ _ _ (destructor_keys_run n fuel t 0 b _ s1 false Hd1
    ltac:(by rewrite cleared_length) ltac:(by split_and!) ltac:(cbn; subst n; lia)
    ltac:(subst n; unfold MAX_TLS_KEYS in *; lia))).
  change (s_destructors s1) with (s_destructors s). rewrite cleared_no_calls. cbn.
  assert (Hid : cleared (s_destructors s) n 0 (cleared (s_destructors s) n 0 l) = cleared (s_destructors s) n 0 l).
  { apply list_eq. intros j. rewrite (cleared_lookup _ n 0 (cleared _ n 0 l)). destruct (decide _) as [Hj|]; [|done].
    destruct (key_call (cleared (s_destructors s) n 0 l) (s_destructors s) j) eqn:E; [|done].
    exfalso. pose proof (cleared_no_calls (s_destructors s) n l) as Hno.
    assert (Hin : p ∈ omap (key_call (cleared (s_destructors s) n 0 l) (s_destructors s)) (seq 0 n)).
    { apply list_elem_of_omap. exists j. split; [apply elem_of_seq; lia|done]. }
    rewrite Hno in Hin. by apply elem_of_nil in Hin. }
  rewrite Hid. subst s1. unfold task_data, set_user_data, set_world. cbn. by rewrite insert_insert_eq.
Qed.

(** * The list of [__cxa_thread_atexit] *)

(** The list at the address [p]: the calls its nodes stand for, newest first. *)
Fixpoint chain (ns : gmap Z CXAThreadAtexitNode) (p : Z) (cs : list (Z * Z)) : Prop :=
  match cs with
  | [] => p = 0
  | (d, o) :: cs =>
      0 < p ∧ ∃ n, ns !! p = Some n ∧ node_dtor n = d ∧ obj n = o ∧ next n < p ∧ chain ns (next n) cs
  end.

Lemma chain_frame ns ns' p cs :
  (∀ q, q ≤ p → ns' !! q = ns !! q) → chain ns p cs → chain ns' p cs.
Proof using Type.
  revert p. induction cs as [|[d o] cs IH]; intros p Hf; cbn; [done|].
  intros (Hp & n & Hn & Hd & Ho & Hlt & Hc). split; [done|]. exists n.
  rewrite Hf by lia. split_and!; try done. apply IH; [|done]. intros q Hq. apply Hf. lia.
Qed.

(** Running the list calls the destructors in its order, and frees the nodes. *)
Lemma cxa_dtor_run cs fuel p s :
  chain (nodes s) p cs → (length cs < fuel)%nat →
  ∃ ns, cxa_thread_atexit_dtor user_call fuel p s
        = Ok ((), set_nodes ns (set_world (effects cs (world s)) s)) ∧
    size ns = (size (nodes s) - length cs)%nat ∧ (length cs ≤ size (nodes s))%nat ∧
    ∀ q, p < q → ns !! q = nodes s !! q.
Proof using user_call_effect.
  revert fuel p s. induction cs as [|[d o] cs IH]; intros [|fuel] p s Hc Hf; cbn [length] in *; try lia.
  - cbn in Hc. subst p. exists (nodes s). split_and!; [|lia|lia|done]. cbn. by destruct s.
  - cbn in Hc. destruct Hc as (Hp & n & Hn & Hd & Ho & Hlt & Hc).
    cbn [cxa_thread_atexit_dtor]. destruct (Z.eqb_spec p 0); [lia|].
    erewrite bind_run by done.
    assert (Hptr : ∀ s', nodes s' !! p = Some n → at_ptr (nodes s') p s' = Ok (n, s')).
    { intros s' Hs'. unfold at_ptr. destruct (Z.eqb_spec p 0); [lia|]. by rewrite Hs'. }
    rewrite (bind_run _ _ _ _ _ (Hptr s Hn)). rewrite (bind_run _ _ _ _ _ (user_call_effect _ _ _)).
    erewrite bind_run by done.
    rewrite (bind_run _ _ _ _ _ (Hptr (set_world (effect (node_dtor n) (obj n) (world s)) s) Hn)).
    erewrite bind_run by done. cbn [nodes set_world].
    destruct (IH fuel (next n) (set_nodes (delete p (nodes s)) (set_world (effect d o (world s)) s)))
      as (ns & E & Hsz & Hle & Hfr).
    + apply chain_frame with (nodes s); [|done]. intros q Hq. cbn. apply lookup_delete_ne. lia.
    + lia.
    + pose proof (map_size_delete_Some (M := gmap Z) p (nodes s) (mk_is_Some _ _ Hn)) as Hsd.
      assert (Hpos : size (nodes s) ≠ 0%nat).
      { intros Hz. apply map_size_empty_inv in Hz. rewrite Hz, lookup_empty in Hn. done. }
      exists ns. rewrite Hd, Ho. cbn [nodes set_nodes] in Hsz, Hle, Hfr. split_and!.
      * exact E.
      * lia.
      * lia.
      * intros q Hq. rewrite Hfr by lia. apply lookup_delete_ne. lia.
Qed.

(** The key of the list is there, and the current task has a block. *)
Definition atexit_ready (s : @threads W) (p : Z) (k : nat) (cs : list (Z * Z)) : Prop :=
  s_cxa_thread_atexit_flag s = 2 ∧ s_cxa_thread_atexit_key s = Z.of_nat k ∧
  (∃ x, user_data s !! current s = Some x ∧ kv x !! k = Some p) ∧
  chain (nodes s) p cs ∧ p < next_addr s ∧ 0 < next_addr s.

Lemma tls_get_run k x v s :
  user_data s !! current s = Some x → kv x !! k = Some v →
  __libcpp_tls_get (Z.of_nat k) s = Ok (v, s).
Proof using Type.
  intros Hx Hv. unfold __libcpp_tls_get. erewrite bind_run by done.
  rewrite bool_decide_true by (by eexists). by apply (get_kv_run _ _ _ x).
Qed.

Lemma tls_set_run k v s x :
  user_data s !! current s = Some x → (k < length (kv x))%nat →
  __libcpp_tls_set (Z.of_nat k) v s
  = Ok ((), task_data (current s) (tls_block x) (<[k := v]> (kv x)) s).
Proof using Type.
  intros Hx Hk. unfold __libcpp_tls_set. erewrite bind_run by done. unfold when.
  rewrite bool_decide_true by (by eexists). by rewrite (set_kv_run _ _ _ _ x).
Qed.

Lemma cxa_thread_atexit_run d o dso s p k cs :
  atexit_ready s p k cs → nodes s !! next_addr s = None →
  ∃ s', __cxa_thread_atexit true d o dso s = Ok (0, s') ∧ world s' = world s ∧
    size (nodes s') = S (size (nodes s)) ∧ next_addr s' = next_addr s + 1 ∧
    (∀ q, next_addr s' ≤ q → nodes s' !! q = nodes s !! q) ∧
    atexit_ready s' (next_addr s) k ((d, o) :: cs).
Proof using Type.
  intros (Hfl & Hkey & (x & Hx & Hkv) & Hc & Hp & Hn) Hfree. set (a := next_addr s) in *.
  pose proof (lookup_lt_Some _ _ _ Hkv) as Hlt.
  unfold __cxa_thread_atexit. rewrite (bind_run _ _ s true s).
  2: { unfold execute_once_at. erewrite bind_run by done. by rewrite Hfl. }
  cbn [negb]. rewrite (bind_run _ _ s a (set_next_addr (a + 1) s)) by done.
  erewrite bind_run by done. erewrite bind_run by done. cbn [nodes set_next_addr].
  set (s1 := set_nodes (<[a := mkNode d o dso 0]> (nodes s)) (set_next_addr (a + 1) s)).
  change (s_cxa_thread_atexit_key s1) with (s_cxa_thread_atexit_key s). rewrite Hkey.
  rewrite (bind_run _ _ _ _ _ (tls_get_run k x p s1 Hx Hkv)).
  erewrite bind_run by done.
  assert (Hptr : at_ptr (nodes s1) a s1 = Ok (mkNode d o dso 0, s1)).
  { unfold at_ptr. destruct (Z.eqb_spec a 0); [lia|]. cbn. by rewrite lookup_insert_eq. }
  rewrite (bind_run _ _ _ _ _ Hptr). erewrite bind_run by done. cbn [node_dtor obj dso_symbol].
  erewrite bind_run by done. set (s2 := set_nodes (<[a := mkNode d o dso p]> (nodes s1)) s1).
  change (s_cxa_thread_atexit_key s2) with (s_cxa_thread_atexit_key s). rewrite Hkey.
  rewrite (bind_run _ _ _ _ _ (tls_set_run k a s2 x Hx Hlt)).
  eexists. split; [done|].
  assert (Hns : ∀ q, q ≠ a → nodes s2 !! q = nodes s !! q).
  { intros q Hq. cbn. by rewrite !lookup_insert_ne. }
  split_and!; try done.
  - cbn. rewrite insert_insert_eq. by apply (map_size_insert_None (M := gmap Z)).
  - intros q Hq. apply Hns. cbn in Hq. lia.
  - unfold atexit_ready. split_and!; try done; cbn.
    + eexists. split; [apply lookup_insert_eq|]. cbn. by apply list_lookup_insert_eq.
    + split; [lia|]. exists (mkNode d o dso p). rewrite lookup_insert_eq. split_and!; try done.
      apply chain_frame with (nodes s); [|done]. intros q Hq. apply Hns. cbn in Hq. lia.
    + lia.
    + lia.
Qed.

(** Several registrations, one after the other. *)
Fixpoint register (cs : list (Z * Z)) : M (@threads W) () :=
  match cs with
  | [] => mret ()
  | (d, o) :: cs => _ ← __cxa_thread_atexit true d o 0; register cs
  end.

Lemma register_run cs s p k cs0 :
  atexit_ready s p k cs0 → (∀ q, next_addr s ≤ q → nodes s !! q = None) →
  ∃ s' p', register cs s = Ok ((), s') ∧ world s' = world s ∧
    size (nodes s') = (size (nodes s) + length cs)%nat ∧
    atexit_ready s' p' k (reverse cs ++ cs0).
Proof using Type.
  revert s p cs0. induction cs as [|[d o] cs IH]; intros s p cs0 Hr Hfree.
  - exists s, p. split_and!; [done|done|cbn; lia|done].
  - destruct (cxa_thread_atexit_run d o 0 s p k cs0 Hr) as (s1 & E & Hw & Hsz & Hna & Hns & Hr1).
    { apply Hfree. lia. }
    destruct (IH s1 (next_addr s) ((d, o) :: cs0) Hr1) as (s2 & p2 & E2 & Hw2 & Hsz2 & Hr2).
    { intros q Hq. rewrite Hns by done. apply Hfree. lia. }
    exists s2, p2. cbn [register]. rewrite (bind_run _ _ _ _ _ E). split_and!; [done|congruence| |].
    + rewrite Hsz2, Hsz. cbn. lia.
    + rewrite reverse_cons, <-app_assoc. exact Hr2.
Qed.
End tls.
