(* ===== verification/LibcxxThreadProps.v ===== *)
(** The properties of threads, thread-local storage and one-time
    initialisation, with their witnesses. *)
From stdpp Require Import base numbers list gmap option relations.
From S2P Require Import Prelude.
From S2P Require Import Sched.
From S2P Require Import LibcxxThread.
From S2P Require Import LibcxxThreadSpec.
From S2P Require Import LibcxxTls.
Import Thread.

(** * Concrete programs *)
Module ThreadDemo.
#[export] Instance target : Target := aarch64.
#[export] Program Instance layout : LinkLayout := {| tdata := [1; 2; 3]; tls_span := 8 |}.
Next Obligation. done. Qed.

(** The functions of the program record their calls. *)
Definition call_log : Type := list (Z * Z).
Definition log_call (f v : Z) : M (@threads call_log) () := modify (λ s, set_world (world s ++ [(f, v)]) s).
Definition log_effect (f v : Z) (w : call_log) : call_log := w ++ [(f, v)].

Definition start : @threads call_log :=
  mkThreads ∅ ∅ ∅ ∅ 1 false 1000 0 (replicate 32 None) 0 ∅ 0 0 [].

(** A program with one [std::thread] object whose thread has been created. *)
Definition state_of {A} (r : res (A * @threads call_log)) : @threads call_log :=
  match r with Ok (_, s) => s | Fault _ => start end.
Definition value_of {A} (d : A) (r : res (A * @threads call_log)) : A :=
  match r with Ok (a, _) => a | Fault _ => d end.
Definition one_thread : @threads call_log := state_of (__libcpp_thread_create 7 8 start).
Definition its_handle : Z := value_of 0 (__libcpp_thread_create 7 8 start).

Lemma fits : tls_fits.
Proof. done. Qed.

Lemma one_thread_reachable : life_reachable (one_thread, [Joinable its_handle]).
Proof.
  exists start, [NoThread]. split.
  - split_and!; try done. by repeat constructor.
  - eapply rtc_l; [|apply rtc_refl].
    apply (life_create start [NoThread] 0 7 8 its_handle one_thread); [done|].
    vm_compute. reflexivity.
Qed.

(** A task with two keys, the first with a value. *)
Definition two_keys : @threads call_log :=
  state_of ((_ ← __libcpp_tls_create (Some (UserDtor 5)); _ ← __libcpp_tls_create None;
             _ ← new_tls 1000; __libcpp_tls_set 0 42) start).
End ThreadDemo.
Import ThreadDemo.

(** * One-time initialisation *)

Definition in_routine (c : caller) : bool := match c with InRoutine => true | _ => false end.

Record once_inv (s : once_state) : Prop := {
  once_flag : flag s = 0 ∨ flag s = 1 ∨ flag s = 2;
  once_count : tally in_routine (callers s) = if flag s =? 1 then 1 else 0;
  once_done : done s = if flag s =? 2 then 1%nat else 0%nat;
  once_returned i : callers s !! i = Some HasReturned → flag s = 2
}.

Lemma once_initial_inv n : once_inv (once_initial n).
Proof.
  split; cbn; [by left| |done|].
  - induction n as [|n IH]; [done|]. cbn [replicate]. by rewrite tally_cons, IH.
  - intros i Hi. by apply lookup_replicate in Hi as [? _].
Qed.

Lemma once_step_inv s s' : once_inv s → once_step s s' → once_inv s'.
Proof.
  intros [Hf Hc Hd Hr] Hstep.
  assert (Hret : ∀ i c j, <[i := c]> (callers s) !! j = Some HasReturned →
    (j = i ∧ c = HasReturned) ∨ callers s !! j = Some HasReturned).
  { intros i c j [(<- & -> & _)|[_ ?]]%list_lookup_insert_Some; auto. }
  destruct Hstep as [s i f c Hi E|s i threw f c Hi E|s i f c Hi E].
  - unfold once_top in E. destruct Hf as [Ef|[Ef|Ef]]; rewrite Ef in *; cbn in *; injection E as <- <-;
      (split; cbn; [tauto| |done|]).
    + rewrite (tally_insert _ _ _ _ _ Hi), Hc. done.
    + intros j Hj. destruct (Hret _ _ _ Hj) as [[_ ?]|Hj']; [done|]. by specialize (Hr _ Hj').
    + rewrite (tally_insert _ _ _ _ _ Hi), Hc. done.
    + intros j Hj. destruct (Hret _ _ _ Hj) as [[_ ?]|Hj']; [done|]. by specialize (Hr _ Hj').
    + rewrite (tally_insert _ _ _ _ _ Hi), Hc. done.
    + done.
  - pose proof (tally_pos in_routine (callers s) i _ Hi eq_refl) as Hpos.
    destruct Hf as [Ef|[Ef|Ef]]; rewrite Ef in *; cbn in *; try lia.
    unfold once_routine_end in E. destruct threw; injection E as <- <-; (split; cbn; [tauto| | |]).
    + rewrite (tally_insert _ _ _ _ _ Hi), Hc. done.
    + done.
    + intros j Hj. destruct (Hret _ _ _ Hj) as [[_ ?]|Hj']; [done|]. by specialize (Hr _ Hj').
    + rewrite (tally_insert _ _ _ _ _ Hi), Hc. done.
    + by rewrite Hd.
    + done.
  - unfold once_spin in E. destruct Hf as [Ef|[Ef|Ef]]; rewrite Ef in *; cbn in *; injection E as <- <-;
      (split; cbn; [tauto| |done|]);
      try (rewrite (tally_insert _ _ _ _ _ Hi), Hc; done); try done;
      intros j Hj; destruct (Hret _ _ _ Hj) as [[_ ?]|Hj']; try done; by specialize (Hr _ Hj').
Qed.

Lemma once_reachable_inv n s : once_reachable n s → once_inv s.
Proof.
  intros Hr. pose proof (once_initial_inv n) as Hi. unfold once_reachable in Hr. revert Hi.
  induction Hr as [s|s1 s2 s3 Hs _ IH]; [done|]. intros Hi. apply IH. by eapply once_step_inv.
Qed.

(** C7: the lifetime of thread objects: however the creation, [join] and
    [detach] of [std::thread] objects and the end of their tasks are
    interleaved, no operation accesses a handle that has been deleted or
    deletes one twice, and no handle is leaked: each belongs to a [std::thread]
    object or to a task that has not been deleted yet. *)
Theorem thread_lifetime `{Target, LinkLayout} {W} (s : @threads W) v :
  tls_fits → life_reachable (s, v) →
  (∀ func arg, ∃ h s', __libcpp_thread_create func arg s = Ok (h, s')) ∧
  (∀ i h, v !! i = Some (Joinable h) →
     (∃ t, __libcpp_thread_get_id h s = Ok (t, s)) ∧
     (∃ s', __libcpp_thread_detach h s = Ok ((), s')) ∧
     ∃ o s', __libcpp_thread_join h s = Ok (o, s') ∧
       match o with Some t => is_Some (tasks s' !! t) | None => handles s' !! h = None end) ∧
  (∀ t, is_Some (tasks s !! t) → ∃ s', destruct_task t s = Ok ((), s')) ∧
  ∀ h, is_Some (handles s !! h) →
    (∃ i, v !! i = Some (Joinable h)) ∨ ∃ t p, tasks s !! t = Some p ∧ m_handle p = h.
Proof.
  intros Hfit Hr. pose proof (life_reachable_inv s v Hfit Hr) as Hinv. split_and!.
  - intros func arg.
    destruct (wp_total _ _ _ (create_wp func arg s Hfit (next_pos s v Hinv))) as (h & s' & E & _). eauto.
  - intros i h Hi. destruct (joinable_handle s v Hinv i h Hi) as (x & Hx & Hd & Hj).
    pose proof (handle_addr s v Hinv h x Hx). split_and!.
    + exists (id x). unfold __libcpp_thread_get_id. by rewrite (bind_run _ _ _ _ _ (load_handle_run h x s Hx ltac:(lia))).
    + destruct (detach_run h x s Hx ltac:(lia) Hd Hj) as (s' & E & _). eauto.
    + destruct (join_run h x s Hx ltac:(lia) Hd Hj) as (s' & E & Ht & _ & Hh). eexists _, _. split; [exact E|].
      cbn in Hh. destruct (Z.eqb_spec (task x) 0) as [E0|E0].
      * rewrite Hh. apply lookup_delete_eq.
      * rewrite Ht. destruct (handle_task s v Hinv h x Hx E0) as (p & -> & _). by eexists.
  - intros t [p Hp]. destruct (task_handle s v Hinv t p Hp) as (x & Hx & _).
    pose proof (task_addr s v Hinv t p Hp). pose proof (handle_addr s v Hinv _ x Hx).
    destruct (destruct_task_run t p x s Hp ltac:(lia) Hx ltac:(lia)) as (s' & E & _). eauto.
  - intros h [x Hx]. destruct (handle_owned s v Hinv h x Hx) as [?|[Ht _]]; [by left|right].
    destruct (handle_task s v Hinv h x Hx Ht) as (p & Hp & Hph). eauto.
Qed.

Lemma thread_lifetime_witness :
  let s := one_thread in let v := [Joinable its_handle] in
  (∀ func arg, ∃ h s', __libcpp_thread_create func arg s = Ok (h, s')) ∧
  (∀ i h, v !! i = Some (Joinable h) →
     (∃ t, __libcpp_thread_get_id h s = Ok (t, s)) ∧
     (∃ s', __libcpp_thread_detach h s = Ok ((), s')) ∧
     ∃ o s', __libcpp_thread_join h s = Ok (o, s') ∧
       match o with Some t => is_Some (tasks s' !! t) | None => handles s' !! h = None end) ∧
  (∀ t, is_Some (tasks s !! t) → ∃ s', destruct_task t s = Ok ((), s')) ∧
  ∀ h, is_Some (handles s !! h) →
    (∃ i, v !! i = Some (Joinable h)) ∨ ∃ t p, tasks s !! t = Some p ∧ m_handle p = h.
Proof. apply (thread_lifetime one_thread [Joinable its_handle]); [apply fits|apply one_thread_reachable]. Defined.

(** The keys of thread-local storage: a new key is the number of the keys
    there are, with its destructor; the 33rd is written behind the end of
    [s_destructors].  A value that has been set is read back, and leaves the
    values of the other keys alone. *)
Theorem tls_keys {W} (s : @threads W) at_exit :
  length (s_destructors s) = Z.to_nat MAX_TLS_KEYS → 0 ≤ s_next_key s < 2^32 →
  (if s_next_key s <? MAX_TLS_KEYS
   then ∃ s', __libcpp_tls_create at_exit s = Ok (s_next_key s, s') ∧
          s_next_key s' = s_next_key s + 1 ∧
          s_destructors s' = <[Z.to_nat (s_next_key s) := at_exit]> (s_destructors s)
   else __libcpp_tls_create at_exit s = Fault BadAccess) ∧
  ∀ x k v, user_data s !! current s = Some x → (k < length (kv x))%nat →
    ∃ s', __libcpp_tls_set (Z.of_nat k) v s = Ok ((), s') ∧
      __libcpp_tls_get (Z.of_nat k) s' = Ok (v, s') ∧
      ∀ j u, j ≠ k → kv x !! j = Some u → __libcpp_tls_get (Z.of_nat j) s' = Ok (u, s').
Proof.
  intros Hl Hk. split.
  - unfold __libcpp_tls_create. destruct (Z.ltb_spec (s_next_key s) MAX_TLS_KEYS) as [Hlt|Hge].
    + assert (E : arr_set (s_destructors s) (s_next_key s) at_exit
        = Ok (<[Z.to_nat (s_next_key s) := at_exit]> (s_destructors s))).
      { rewrite <-(Z2Nat.id (s_next_key s)) at 1 by lia. apply arr_set_run. lia. }
      erewrite bind_run by done. cbv zeta. erewrite bind_run by done.
      erewrite bind_run by (unfold lift_res; by rewrite E).
      eexists. split; [done|]. split; [|done]. cbn. unfold MAX_TLS_KEYS in *. rewrite u32_id; unfold is_u32; lia.
    + assert (E : arr_set (s_destructors s) (s_next_key s) at_exit = Fault BadAccess).
      { unfold arr_set. rewrite Hl. destruct (Z.leb_spec (Z.of_nat (Z.to_nat MAX_TLS_KEYS)) (s_next_key s));
          [by rewrite orb_true_r|unfold MAX_TLS_KEYS in *; lia]. }
      erewrite bind_run by done. cbv zeta. erewrite bind_run by done.
      rewrite bind_unfold. unfold lift_res. by rewrite E.
  - intros x k v Hx Hlt. eexists. split; [by apply (tls_set_run k v s x)|]. split.
    + eapply tls_get_run; [apply lookup_insert_eq|]. by apply list_lookup_insert_eq.
    + intros j u Hj Hu. eapply tls_get_run; [apply lookup_insert_eq|]. cbn. by rewrite list_lookup_insert_ne.
Qed.

Lemma tls_keys_witness :
  (∃ s', __libcpp_tls_create None two_keys = Ok (2, s') ∧ s_next_key s' = 3 ∧
     s_destructors s' = <[2%nat := None]> (s_destructors two_keys)) ∧
  __libcpp_tls_create None (set_s_next_key 32 two_keys) = Fault BadAccess.
Proof.
  split.
  - apply (tls_keys two_keys None); done.
  - apply (tls_keys (set_s_next_key 32 two_keys) None); done.
Defined.



(** [thread_local] objects: the destructors that a task registers with
    [__cxa_thread_atexit] are called in the reverse order of their registration
    when the destructor of the key runs, and all the nodes are freed. *)
Theorem thread_atexit_lifo `{Target, LinkLayout} {W} user_call (effect : Z → Z → W → W) fuel cs k
    (s : @threads W) :
  (∀ f v s, user_call f v s = Ok ((), set_world (effect f v (world s)) s)) →
  atexit_ready s 0 k [] → nodes s = ∅ → (length cs < fuel)%nat →
  ∃ s1 p s2, register cs s = Ok ((), s1) ∧ __libcpp_tls_get (Z.of_nat k) s1 = Ok (p, s1) ∧
    call_dtor user_call fuel cxa_dtor p s1 = Ok ((), s2) ∧
    world s2 = effects effect (reverse cs) (world s) ∧ nodes s2 = ∅.
Proof.
  intros Hcall Hr Hn Hf.
  destruct (register_run cs s 0 k [] Hr) as (s1 & p & E & Hw & Hsz & Hr1).
  { intros q _. by rewrite Hn, lookup_empty. }
  rewrite app_nil_r in Hr1. destruct Hr1 as (_ & _ & (x & Hx & Hkv) & Hc & _ & _).
  destruct (cxa_dtor_run user_call effect Hcall (reverse cs) fuel p s1 Hc) as (ns & E2 & Hsz2 & _ & _).
  { by rewrite length_reverse. }
  exists s1, p, (set_nodes ns (set_world (effects effect (reverse cs) (world s1)) s1)).
  split_and!; [done|by apply (tls_get_run k x)|exact E2|cbn; by rewrite Hw|].
  apply (map_size_empty_inv (M := gmap Z)). cbn. rewrite Hsz2, Hsz, Hn, length_reverse, map_size_empty. lia.
Qed.

(** The state of a task after the first registration has created the key. *)
Definition atexit_demo : @threads call_log :=
  state_of ((_ ← execute_once_at s_cxa_thread_atexit_flag set_s_cxa_thread_atexit_flag
                   cxa_thread_atexit_init; new_tls 1000) start).

Lemma thread_atexit_lifo_witness :
  ∃ s1 p s2, register [(1, 10); (2, 20); (3, 30)] atexit_demo = Ok ((), s1) ∧
    __libcpp_tls_get 0 s1 = Ok (p, s1) ∧
    call_dtor log_call 5 cxa_dtor p s1 = Ok ((), s2) ∧
    world s2 = [(3, 30); (2, 20); (1, 10)] ∧ nodes s2 = ∅.
Proof.
  apply (thread_atexit_lifo log_call log_effect 5 [(1, 10); (2, 20); (3, 30)] 0 atexit_demo).
  - done.
  - unfold atexit_ready. split_and!; try done. eexists. split; [vm_compute; reflexivity|done].
  - done.
  - cbn. lia.
Defined.

(** C29: one-time initialisation: whatever the interleaving, and however often
    the routine throws, it runs in at most one task at a time and succeeds at
    most once; a call returns only after it has succeeded; and as long as no
    task is in the routine, a waiting task does not have to wait any longer. *)
Theorem once_exactly n s :
  once_reachable n s →
  (done s ≤ 1)%nat ∧
  (∀ i, callers s !! i = Some HasReturned → done s = 1%nat) ∧
  (∀ i j, callers s !! i = Some InRoutine → callers s !! j = Some InRoutine → i = j) ∧
  ((∀ i, callers s !! i ≠ Some InRoutine) → once_spin (flag s) = (flag s, AtTop)).
Proof.
  intros Hr. destruct (once_reachable_inv n s Hr) as [Hf Hc Hd Hret]. split_and!.
  - rewrite Hd. destruct (flag s =? 2); lia.
  - intros i Hi. by rewrite Hd, (Hret i Hi).
  - intros i j Hi Hj. destruct (decide (i = j)) as [|Hij]; [done|].
    pose proof (tally_two in_routine (callers s) i j _ _ Hij Hi Hj eq_refl eq_refl).
    destruct (flag s =? 1); lia.
  - intros Hno. unfold once_spin. destruct (Z.eqb_spec (flag s) 1) as [E|E]; [|done].
    assert (0 < tally in_routine (callers s)) as Hp by lia.
    apply tally_exists in Hp as (i & c & Hi & Hin). destruct c; try done. by destruct (Hno i).
Qed.

Lemma once_exactly_witness :
  let s := mkOnce 2 1 [HasReturned; AtTop] in
  once_reachable 2 s ∧ (done s ≤ 1)%nat ∧
  (∀ i, callers s !! i = Some HasReturned → done s = 1%nat) ∧
  (∀ i j, callers s !! i = Some InRoutine → callers s !! j = Some InRoutine → i = j) ∧
  ((∀ i, callers s !! i ≠ Some InRoutine) → once_spin (flag s) = (flag s, AtTop)).
Proof.
  assert (Hr : once_reachable 2 (mkOnce 2 1 [HasReturned; AtTop])).
  { eapply rtc_l; [by apply (once_enter (once_initial 2) 0 1 InRoutine)|].
    eapply rtc_l; [by apply (once_end (mkOnce 1 0 [InRoutine; AtTop]) 0 false 2 HasReturned)|].
    apply rtc_refl. }
  split; [exact Hr|]. apply (once_exactly 2 (mkOnce 2 1 [HasReturned; AtTop])). exact Hr.
Defined.
