(* ===== verification/HtmlScanner.v ===== *)
(** The HTML scanner of the web client sample: the class [CHtmlScanner] of
    [htmlscanner.cpp].

    The scanner reads a document that lies in memory as a C string and cuts it
    into tags, texts, comments and CDATA sections.  The buffer of an item is an
    array of [HTMLSCAN_MAXIMUM_ITEM] cells, so that the bounds of every access
    are part of the model.  Whether [char] is signed depends on the options the
    library is compiled with, and is the parameter [CharSign]. *)
From stdpp Require Import base numbers list gmap option strings.
From S2P Require Import Prelude.
From S2P Require Import Libc.
Import Libc.

(** Whether the type [char] is signed. *)
Class CharSign := char_signed : bool.

Module Html.
Definition HTMLSCAN_MAXIMUM_ITEM : Z := 8192.

Inductive THtmlItem :=
  | HtmlItemTag
  | HtmlItemText
  | HtmlItemCData
  | HtmlItemComment
  | HtmlItemEOF
  | HtmlItemError
  | HtmlItemUnknown.

#[export] Instance THtmlItem_eq_dec : EqDecision THtmlItem.
Proof. solve_decision. Defined.

(** The members of the class.  [m_pContent] is the array the pointer points
    to. *)
Record CHtmlScanner := mkScanner {
  m_pContent : option (list cell);
  m_nIndex : Z;
  m_Buffer : list cell;
  m_nWhiteSpace : Z;
  m_nTag : Z
}.
Definition set_nIndex (x : Z) (s : CHtmlScanner) : CHtmlScanner :=
  mkScanner (m_pContent s) x (m_Buffer s) (m_nWhiteSpace s) (m_nTag s).
Definition set_Buffer (x : list cell) (s : CHtmlScanner) : CHtmlScanner :=
  mkScanner (m_pContent s) (m_nIndex s) x (m_nWhiteSpace s) (m_nTag s).
Definition set_nWhiteSpace (x : Z) (s : CHtmlScanner) : CHtmlScanner :=
  mkScanner (m_pContent s) (m_nIndex s) (m_Buffer s) x (m_nTag s).
Definition set_nTag (x : Z) (s : CHtmlScanner) : CHtmlScanner :=
  mkScanner (m_pContent s) (m_nIndex s) (m_Buffer s) (m_nWhiteSpace s) x.

Abbreviation H := (M CHtmlScanner).

(** The constructor, with its [assert (pContent != 0)]. *)
Definition construct (pContent : option (list cell)) : res CHtmlScanner :=
  match pContent with
  | None => Fault AssertFailed
  | Some _ => Ok (mkScanner pContent 0 (uninit HTMLSCAN_MAXIMUM_ITEM) 1 0)
  end.

(** [m_Buffer[i] = v]. *)
Definition store (i v : Z) : H () :=
  s ← get;
  buf ← lift_res (wr (m_Buffer s) i v);
  put (set_Buffer buf s).

(** [strncmp (&m_Buffer[i], lit, length lit) == 0], for a literal. *)
Fixpoint strncmp_eq (buf : list cell) (i : Z) (lit : list Z) : res bool :=
  match lit with
  | [] => Ok true
  | x :: lit =>
      match rd buf i with
      | Fault e => Fault e
      | Ok c => if c =? x then strncmp_eq buf (i + 1) lit else Ok false
      end
  end.

(** A C++ string made of the C string at [m_Buffer + i]. *)
Definition item_at (i : Z) : H (list Z) :=
  s ← get;
  lift_res (string_at (m_Buffer s) i).

(** The value [m_pContent[i]] has as an [int]. *)
Definition char_value `{CharSign} (b : Z) : Z :=
  if char_signed && (128 <=? b) then b - 256 else b.

(** [GetChar]: [fuel] bounds the characters skipped. *)
Fixpoint GetChar `{CharSign} (fuel : nat) : H Z :=
  match fuel with
  | O => fail OutOfFuel
  | S fuel =>
      s ← get;
      content ← deref (m_pContent s);
      b ← lift_res (rd content (m_nIndex s));
      let c := char_value b in
      if c =? 0 then mret (-1)
      else
        put (set_nIndex (s32 (m_nIndex s + 1)) s);;
        if c =? 13 then GetChar fuel
        else if (c =? 10) || (c =? 9) || (c =? 32) then
          if negb (m_nWhiteSpace s =? 0) then GetChar fuel
          else modify (set_nWhiteSpace 1);; mret 32
        else if c =? 26 then mret (-1)
        else modify (set_nWhiteSpace 0);; mret c
  end.

(** The tests after a character [c] was stored and [p] advanced to the index
    [n]: the item that is complete now, if any. *)
Definition check_item (n c : Z) : H (option (THtmlItem * list Z)) :=
  s ← get;
  b0 ← lift_res (rd (m_Buffer s) 0);
  if negb (b0 =? 60) && (c =? 60) then
    modify (set_nTag 1);;
    store (n - 1) 0;;
    t ← item_at 0;
    (if Z.of_nat (length t) >? 0 then
       s ← get;
       l ← lift_res (rd (m_Buffer s) (n - 2));
       when (l =? 32) (store (n - 2) 0)
     else mret ());;
    t ← item_at 0;
    mret (Some (HtmlItemText, t))
  else
    cdata ← lift_res (strncmp_eq (m_Buffer s) 0 (cstr "<![CDATA["));
    ends ← (if cdata && (n >=? 12) then lift_res (strncmp_eq (m_Buffer s) (n - 3) (cstr "]]>"))
            else mret false : H bool);
    if ends : bool then
      store (n - 3) 0;;
      t ← item_at 9;
      mret (Some (HtmlItemCData, t))
    else
      comment ← lift_res (strncmp_eq (m_Buffer s) 0 (cstr "<!--"));
      if (b0 =? 60) && negb cdata && negb comment && (c =? 62) then
        t ← item_at 0;
        mret (Some (HtmlItemTag, t))
      else
        ends ← (if comment && (n >=? 8) then lift_res (strncmp_eq (m_Buffer s) (n - 3) (cstr "-->"))
                else mret false : H bool);
        if ends : bool then
          t ← item_at 0;
          mret (Some (HtmlItemComment, t))
        else mret None.

(** A character is put at the end of the buffer, whose index is [n], and the
    item tested. *)
Definition put_char (n c : Z) : H (option (THtmlItem * list Z)) :=
  assert_ (negb (c =? 0));;
  let c := if (-128 <=? c) && (c <=? 127) then c else 63 in
  store n (u8 c);;
  store (n + 1) 0;;
  check_item (n + 1) c.

(** The [while] loop of [GetNextItem]; [n] is [p - m_Buffer], and [rItem] the
    string the caller passes by reference. *)
Fixpoint item_loop `{CharSign} (fuel : nat) (n : Z) (rItem : list Z) : H (THtmlItem * list Z) :=
  match fuel with
  | O => fail OutOfFuel
  | S fuel' =>
      c ← GetChar fuel;
      if c =? -1 then mret (HtmlItemEOF, rItem)
      else if (n =? 0) && (c =? 32) then item_loop fuel' n rItem
      else if n >=? HTMLSCAN_MAXIMUM_ITEM - 1 then mret (HtmlItemError, rItem)
      else
        o ← put_char n c;
        match o with
        | Some (k, t) => mret (k, t)
        | None => item_loop fuel' (n + 1) rItem
        end
  end.

Definition GetNextItem `{CharSign} (fuel : nat) (rItem : list Z) : H (THtmlItem * list Z) :=
  s ← get;
  if negb (m_nTag s =? 0) then
    modify (set_nTag 0);;
    store 0 60;;
    item_loop fuel 1 rItem
  else item_loop fuel 0 rItem.

Definition GetFirstItem `{CharSign} (fuel : nat) (rItem : list Z) : H (THtmlItem * list Z) :=
  modify (set_nIndex 0);;
  GetNextItem fuel rItem.

(** The [do] loop of [GetItem], with the item the last call has returned. *)
Fixpoint nth_loop `{CharSign} (fuel : nat) (nItem : Z) (HtmlItem : THtmlItem) (rItem : list Z) :
    H (THtmlItem * list Z) :=
  match fuel with
  | O => fail OutOfFuel
  | S fuel' =>
      if nItem =? 0 then mret (HtmlItem, rItem)
      else
        '(HtmlItem, rItem) ← GetNextItem fuel rItem;
        if bool_decide (HtmlItem = HtmlItemEOF) then mret (HtmlItem, rItem)
        else nth_loop fuel' (s32 (nItem - 1)) HtmlItem rItem
  end.

Definition GetItem `{CharSign} (fuel : nat) (nItem : Z) (rItem : list Z) :
    H (THtmlItem * list Z) :=
  assert_ (nItem >=? 0);;
  '(HtmlItem, rItem) ← GetFirstItem fuel rItem;
  if bool_decide (HtmlItem = HtmlItemEOF) then mret (HtmlItem, rItem)
  else nth_loop fuel nItem HtmlItem rItem.

(** The fuel that is enough for a call on a content: every loop uses up a
    character in each round. *)
Definition enough (content : list cell) : nat := S (length content).
End Html.
