(* ===== verification/HtmlSpec.v ===== *)
(** What the HTML scanner promises: the document is first a stream of
    characters (white space is joined, control characters are dropped), and an
    item is the shortest prefix of the stream that is complete. *)
From stdpp Require Import base numbers list gmap option strings.
From S2P Require Import Prelude.
From S2P Require Import Libc.
From S2P Require Import HtmlScanner.
Import Libc Html.

(** * The reference *)

(** The byte that is stored for a character. *)
Definition stored (c : Z) : Z := u8 (if (-128 <=? c) && (c <=? 127) then c else 63).

(** The stream of a document; [ws] says whether white space was seen last. *)
Fixpoint stream `{CharSign} (ws : bool) (s : list Z) : list Z :=
  match s with
  | [] => []
  | b :: s =>
      let c := char_value b in
      if c =? 13 then stream ws s
      else if (c =? 10) || (c =? 9) || (c =? 32) then
        if ws then stream true s else 32 :: stream true s
      else if (c =? 26) || (c =? -1) then []
      else stored c :: stream false s
  end.

Definition starts_with (p b : list Z) : bool := bool_decide (p `prefix_of` b).
Definition ends_with (p b : list Z) : bool := bool_decide (p `suffix_of` b).

(** [complete b]: the characters [b] are a whole item; a text is complete when
    the start of the next tag is seen. *)
Definition complete (b : list Z) : option THtmlItem :=
  if negb (starts_with (cstr "<") b) then
    if ends_with (cstr "<") b then Some HtmlItemText else None
  else if starts_with (cstr "<![CDATA[") b then
    if (12 <=? Z.of_nat (length b)) && ends_with (cstr "]]>") b then Some HtmlItemCData else None
  else if starts_with (cstr "<!--") b then
    if (8 <=? Z.of_nat (length b)) && ends_with (cstr "-->") b then Some HtmlItemComment else None
  else if ends_with (cstr ">") b then Some HtmlItemTag else None.

Definition is_complete (b : list Z) : Prop := is_Some (complete b).
#[export] Instance is_complete_dec b : Decision (is_complete b).
Proof. unfold is_complete. apply _. Defined.

(** A text loses the space at its end. *)
Definition trim (t : list Z) : list Z :=
  if ends_with [32] t then take (length t - 1) t else t.

Definition item_text (k : THtmlItem) (b : list Z) : list Z :=
  match k with
  | HtmlItemText => trim (take (length b - 1) b)
  | HtmlItemCData => drop 9 (take (length b - 3) b)
  | _ => b
  end.

Definition drop_spaces (s : list Z) : list Z := (span (λ c, c =? 32) s).2.

(** How a call ends: an item and the rest of the stream, the end of the
    document, or an item that does not fit in the buffer. *)
Inductive scan :=
  | Item (k : THtmlItem) (t : list Z) (rest : list Z)
  | EndOfDocument
  | TooLong (rest : list Z).

(** The number of characters the buffer holds besides the final zero. *)
Definition room : nat := Z.to_nat (HTMLSCAN_MAXIMUM_ITEM - 1).

Lemma room_Z : Z.of_nat room = HTMLSCAN_MAXIMUM_ITEM - 1.
Proof. apply Z2Nat.id. unfold HTMLSCAN_MAXIMUM_ITEM. lia. Qed.
Lemma room_pos : (0 < room)%nat.
Proof. pose proof room_Z. unfold HTMLSCAN_MAXIMUM_ITEM in *. lia. Qed.
#[global] Opaque room.

(** [tag]: the character [<] that starts the item has been read already. *)
Definition next_item (tag : bool) (s : list Z) : scan :=
  let u := if tag then 60 :: s else drop_spaces s in
  match list_find (λ k, is_complete (take k u)) (seq 1 (min room (length u))) with
  | Some (_, k) =>
      match complete (take k u) with
      | Some i => Item i (item_text i (take k u)) (drop k u)
      | None => EndOfDocument
      end
  | None => if (length u <=? room)%nat then EndOfDocument else TooLong (drop (S room) u)
  end.

(** The same, a character at a time: [b] was read so far. *)
Fixpoint shortest (b s : list Z) : scan :=
  match s with
  | [] => EndOfDocument
  | c :: s =>
      if (room <=? length b)%nat then TooLong s
      else match complete (b ++ [c]) with
           | Some i => Item i (item_text i (b ++ [c])) s
           | None => shortest (b ++ [c]) s
           end
  end.

Lemma shortest_find b s :
  (length b ≤ room)%nat →
  shortest b s =
  match list_find (λ k, is_complete (take k (b ++ s)))
          (seq (S (length b)) (min room (length b + length s) - length b)) with
  | Some (_, k) =>
      match complete (take k (b ++ s)) with
      | Some i => Item i (item_text i (take k (b ++ s))) (drop k (b ++ s))
      | None => EndOfDocument
      end
  | None => if (length (b ++ s) <=? room)%nat then EndOfDocument else TooLong (drop (S room) (b ++ s))
  end.
Proof.
  revert b. induction s as [|c s IH]; intros b Hb; cbn [shortest].
  - rewrite app_nil_r. cbn [length]. rewrite Nat.add_0_r, Nat.min_r, Nat.sub_diag by done. cbn.
    by rewrite leb_correct.
  - destruct (Nat.leb_spec room (length b)).
    + assert (length b = room) as Hl by lia.
      replace (min room (length b + length (c :: s)) - length b)%nat with 0%nat by lia. cbn.
      rewrite length_app. cbn [length].
      destruct (Nat.leb_spec (length b + S (length s)) room); [lia|].
      replace (b ++ c :: s) with ((b ++ [c]) ++ s) by (by rewrite <-app_assoc).
      by rewrite drop_app_length' by (rewrite length_app; cbn; lia).
    + replace (min room (length b + length (c :: s)) - length b)%nat
        with (S (min room (length (b ++ [c]) + length s) - length (b ++ [c])))
        by (rewrite length_app; cbn [length]; lia).
      cbn [seq list_find].
      replace (b ++ c :: s) with ((b ++ [c]) ++ s) by (by rewrite <-app_assoc).
      assert (Hl : length (b ++ [c]) = S (length b)) by (rewrite length_app; cbn; lia).
      rewrite take_app_length' by done.
      destruct (complete (b ++ [c])) as [i|] eqn:Ei.
      * rewrite decide_True by (unfold is_complete; rewrite Ei; eauto).
        by rewrite take_app_length', Ei, drop_app_length' by done.
      * rewrite decide_False by (unfold is_complete; rewrite Ei; by intros [? ?]).
        rewrite IH by lia. rewrite Hl. by destruct (list_find _ _) as [[??]|].
Qed.

Lemma next_item_shortest tag s :
  next_item tag s = shortest (if tag then [60] else []) (if tag then s else drop_spaces s).
Proof.
  unfold next_item. rewrite shortest_find by (pose proof room_pos; destruct tag; cbn; lia).
  pose proof room_pos. destruct tag; cbn [length].
  - cbn [app]. replace (min room (S (length s)))%nat
      with (S (min room (1 + length s) - 1)) by lia.
    cbn [seq list_find]. case_decide as Hc; [|by destruct (list_find _ _) as [[??]|]].
    exfalso. apply (is_Some_None (A := THtmlItem)). exact Hc.
  - cbn [app]. by rewrite Nat.sub_0_r.
Qed.

(** The items of a document to come, [rItem] being the last one: what a loop
    that calls [GetNextItem] until the end sees. *)
Fixpoint items (fuel : nat) (tag : bool) (rItem s : list Z) : list (THtmlItem * list Z) :=
  match fuel with
  | O => []
  | S fuel =>
      match next_item tag s with
      | Item k t rest => (k, t) :: items fuel (bool_decide (k = HtmlItemText)) t rest
      | TooLong rest => (HtmlItemError, rItem) :: items fuel false rItem rest
      | EndOfDocument => []
      end
  end.

(** The string the last of some items has left in the variable of the caller. *)
Definition last_text (rItem : list Z) (l : list (THtmlItem * list Z)) : list Z :=
  foldl (λ _ x, x.2) rItem l.

(** The item number [i], or the end of the document. *)
Definition item_number (i : nat) (rItem : list Z) (l : list (THtmlItem * list Z)) :
    THtmlItem * list Z :=
  default (HtmlItemEOF, last_text rItem l) (l !! i).

(** All items of a document. *)
Definition document_items `{CharSign} (rItem doc : list Z) : list (THtmlItem * list Z) :=
  items (S (length doc)) false rItem (stream true doc).

(** No item has the kind [HtmlItemEOF] or [HtmlItemUnknown]. *)
Lemma complete_kind b k : complete b = Some k → k ≠ HtmlItemEOF ∧ k ≠ HtmlItemUnknown ∧ k ≠ HtmlItemError.
Proof. unfold complete. intros E. repeat case_match; by simplify_eq. Qed.

Lemma shortest_kind b s k t rest :
  shortest b s = Item k t rest → k ≠ HtmlItemEOF ∧ k ≠ HtmlItemUnknown ∧ k ≠ HtmlItemError.
Proof.
  revert b. induction s as [|c s IH]; intros b; cbn; [done|]. case_match; [done|].
  destruct (complete (b ++ [c])) eqn:E; [|apply IH]. intros ?. simplify_eq. by eapply complete_kind.
Qed.

Lemma next_item_kind tag s k t rest :
  next_item tag s = Item k t rest → k ≠ HtmlItemEOF ∧ k ≠ HtmlItemUnknown ∧ k ≠ HtmlItemError.
Proof. rewrite next_item_shortest. apply shortest_kind. Qed.

(** An item that starts with the start of a tag is no text. *)
Lemma shortest_tag b s k t rest :
  shortest (60 :: b) s = Item k t rest → k ≠ HtmlItemText.
Proof.
  revert b. induction s as [|c s IH]; intros b; cbn; [done|]. case_match; [done|].
  destruct (complete (60 :: b ++ [c])) as [i|] eqn:E; [|apply IH].
  intros ?. simplify_eq. unfold complete in E.
  assert (starts_with (cstr "<") (60 :: b ++ [c]) = true) as Hs
    by (apply bool_decide_true; by exists (b ++ [c])).
  rewrite Hs in E. repeat case_match; by simplify_eq/=.
Qed.

Lemma next_item_tag s k t rest : next_item true s = Item k t rest → k ≠ HtmlItemText.
Proof. rewrite next_item_shortest. apply (shortest_tag []). Qed.
