(* ===== verification/HtmlScan.v ===== *)
(** The scanner does what the reference does: a simulation between the cells of
    the class [CHtmlScanner] and the stream of characters of the document. *)
From stdpp Require Import base numbers list gmap option strings.
From S2P Require Import Prelude.
From S2P Require Import Libc.
From S2P Require Import HtmlScanner.
From S2P Require Import HtmlSpec.
Import Libc Html.

(** * Characters and literals in the buffer *)

(** [fits c x]: the character [c] the scanner works on is stored as [x]. *)
Definition fits (c x : Z) : Prop := -128 ≤ c ≤ 255 ∧ c ≠ -1 ∧ c ≠ 0 ∧ stored c = x.

Lemma fits_eqb c x k : fits c x → 0 < k < 128 → k ≠ 63 → (c =? k) = (x =? k).
Proof.
  intros (Hc & H1 & H0 & <-) Hk H63. unfold stored, u8. apply Bool.eq_iff_eq_true.
  rewrite !Z.eqb_eq. destruct (Z.leb_spec (-128) c), (Z.leb_spec c 127); cbn [andb]; zdiv.
Qed.

Lemma stored_nonzero c x : fits c x → x ≠ 0.
Proof.
  intros (Hc & H1 & H0 & <-). unfold stored, u8.
  destruct (Z.leb_spec (-128) c), (Z.leb_spec c 127); cbn [andb]; zdiv.
Qed.

(** The character after the replacement of what is not ASCII. *)
Lemma fits_ascii c x : fits c x → fits (if (-128 <=? c) && (c <=? 127) then c else 63) x.
Proof.
  intros (Hc & H1 & H0 & <-). destruct ((-128 <=? c) && (c <=? 127)) eqn:E; [done|].
  split_and!; [lia|lia|lia|lia|]. unfold stored at 2. by rewrite E.
Qed.

Lemma strncmp_eq_run buf i lit b :
  holds_str buf i b → Forall (λ x, x ≠ 0) lit → strncmp_eq buf i lit = Ok (starts_with lit b).
Proof.
  intros Hb Hlit. revert i b Hb. induction Hlit as [|x lit Hx Hlit IH]; intros i b Hb; cbn.
  - unfold starts_with. by rewrite bool_decide_true by (apply prefix_nil).
  - destruct b as [|c b].
    + destruct Hb as [Hh _]. apply holds_cons in Hh as [-> _]. destruct (Z.eqb_spec 0 x); [lia|].
      unfold starts_with. by rewrite bool_decide_false by (by intros ?%prefix_nil_not).
    + pose proof (holds_str_rest buf i [c] b Hb) as Hr. cbn in Hr.
      destruct Hb as [Hh _]. apply holds_cons in Hh as [-> _]. unfold starts_with in *.
      destruct (Z.eqb_spec c x) as [->|Hn].
      * change (Z.of_nat 1) with 1 in Hr. rewrite (IH _ _ Hr). f_equal.
        apply bool_decide_ext. split; [apply prefix_cons|apply prefix_cons_inv_2].
      * rewrite bool_decide_false; [done|]. by intros ?%prefix_cons_inv_1.
Qed.

Lemma strncmp_end_run buf lit b :
  holds_str buf 0 b → Forall (λ x, x ≠ 0) lit → (length lit ≤ length b)%nat →
  strncmp_eq buf (Z.of_nat (length b) - Z.of_nat (length lit)) lit = Ok (ends_with lit b).
Proof.
  intros Hb Hlit Hl. set (k := (length b - length lit)%nat).
  rewrite <-(take_drop k b) in Hb. apply holds_str_rest in Hb.
  rewrite length_take_le in Hb by lia.
  replace (Z.of_nat (length b) - Z.of_nat (length lit)) with (0 + Z.of_nat k) by lia.
  rewrite (strncmp_eq_run _ _ _ _ Hb Hlit). f_equal. unfold starts_with, ends_with.
  apply bool_decide_ext. split.
  - intros [r Hr]. assert (r = []) as ->.
    { apply length_zero_iff_nil. apply (f_equal length) in Hr.
      rewrite length_app, length_drop in Hr. lia. }
    rewrite app_nil_r in Hr. exists (take k b). by rewrite <-Hr, take_drop.
  - intros [a ->]. unfold k. rewrite length_app.
    replace (length a + length lit - length lit)%nat with (length a) by lia.
    by rewrite drop_app_length.
Qed.

Lemma starts_with_1 x b : starts_with [x] b = match b with y :: _ => y =? x | [] => false end.
Proof.
  unfold starts_with. destruct b as [|y b].
  - by rewrite bool_decide_false by (by intros ?%prefix_nil_not).
  - destruct (Z.eqb_spec y x) as [->|Hn].
    + rewrite bool_decide_true; [done|]. by exists b.
    + rewrite bool_decide_false; [done|]. by intros ?%prefix_cons_inv_1.
Qed.

Lemma ends_with_1 x b y : ends_with [x] (b ++ [y]) = (y =? x).
Proof.
  unfold ends_with. destruct (Z.eqb_spec y x) as [->|Hn].
  - rewrite bool_decide_true; [done|]. by exists b.
  - rewrite bool_decide_false; [done|]. intros [a Ha]. by apply app_inj_tail in Ha as [_ ?].
Qed.

(** A write in the array, and what it does not change. *)
Lemma wr_frame buf i v :
  0 ≤ i < Z.of_nat (length buf) →
  ∃ buf', wr buf i v = Ok buf' ∧ length buf' = length buf ∧ rd buf' i = Ok v ∧
    ∀ j, j ≠ Z.to_nat i → buf' !! j = buf !! j.
Proof.
  intros Hi. exists (<[Z.to_nat i := Some v]> buf). unfold wr. rewrite wr_cell_Ok by done.
  split_and!; [done|by rewrite length_insert| |].
  - apply rd_Ok. split; [lia|]. apply list_lookup_insert_eq. lia.
  - intros j Hj. by apply list_lookup_insert_ne.
Qed.

(** Storing a character at the end of a string. *)
Lemma wr_end buf b x :
  holds buf 0 b → Forall (λ c, c ≠ 0) b → x ≠ 0 →
  Z.of_nat (length b) + 1 < Z.of_nat (length buf) →
  ∃ buf1 buf2, wr buf (Z.of_nat (length b)) x = Ok buf1 ∧
    wr buf1 (Z.of_nat (length b) + 1) 0 = Ok buf2 ∧
    length buf2 = length buf ∧ holds_str buf2 0 (b ++ [x]).
Proof.
  intros Hb Hnz Hx Hl.
  destruct (wr_frame buf (Z.of_nat (length b)) x) as (buf1 & E1 & L1 & R1 & F1); [lia|].
  destruct (wr_frame buf1 (Z.of_nat (length b) + 1) 0) as (buf2 & E2 & L2 & R2 & F2); [lia|].
  exists buf1, buf2. split_and!; [done|done|congruence|]. split.
  - rewrite !holds_app, Z.add_0_l, length_app. cbn [length]. split; [split|].
    + apply (holds_frame buf); [done|]. intros j Hj. rewrite F2, F1 by lia. done.
    + apply holds_cons. split; [|apply holds_nil; lia].
      rewrite rd_Ok in R1 |- *. destruct R1 as [? <-]. split; [done|]. apply F2. lia.
    + apply holds_cons. split; [|apply holds_nil; lia].
      by rewrite Nat2Z.inj_add.
  - apply Forall_app. split; [done|]. by constructor.
Qed.

(** Storing a zero in a string. *)
Lemma wr_cut buf b k :
  holds_str buf 0 b → (k ≤ length b)%nat →
  ∃ buf', wr buf (Z.of_nat k) 0 = Ok buf' ∧ length buf' = length buf ∧
    holds_str buf' 0 (take k b).
Proof.
  intros Hb Hk. pose proof (holds_str_length _ _ _ Hb).
  destruct (wr_frame buf (Z.of_nat k) 0) as (buf' & E & L & R & F); [lia|].
  exists buf'. split_and!; [done|done|]. apply (holds_str_cut buf); [done|done| |by rewrite Z.add_0_l].
  intros j Hj. apply F. lia.
Qed.

Lemma holds_str_last buf b x : holds_str buf 0 (b ++ [x]) → rd buf (Z.of_nat (length b)) = Ok x.
Proof.
  intros Hb. apply holds_str_rest in Hb as [Hh _]. rewrite Z.add_0_l in Hh.
  by apply holds_cons in Hh as [? _].
Qed.

(** * The tests on an item *)

Lemma ends_with_last y b x : ends_with [y] (b ++ [x]) = (x =? y).
Proof. apply ends_with_1. Qed.

Lemma starts_with_head y lit b :
  starts_with [y] b = false → starts_with (y :: lit) b = false.
Proof.
  rewrite starts_with_1. unfold starts_with. intros Hb. apply bool_decide_false. intros [r ->].
  cbn in Hb. by rewrite Z.eqb_refl in Hb.
Qed.

(** The parts of the scanner [check_item] leaves alone. *)
Definition item_frame (sc sc' : CHtmlScanner) : Prop :=
  m_pContent sc' = m_pContent sc ∧ m_nIndex sc' = m_nIndex sc ∧
  m_nWhiteSpace sc' = m_nWhiteSpace sc ∧ length (m_Buffer sc') = length (m_Buffer sc).

Lemma item_frame_refl sc : item_frame sc sc.
Proof. done. Qed.
Lemma item_frame_trans sc1 sc2 sc3 : item_frame sc1 sc2 → item_frame sc2 sc3 → item_frame sc1 sc3.
Proof. intros (?&?&?&?) (?&?&?&?). split_and!; congruence. Qed.
#[local] Hint Resolve item_frame_refl : core.

Lemma store_cut F (Q : () → CHtmlScanner → Prop) k b sc :
  holds_str (m_Buffer sc) 0 b → (k ≤ length b)%nat →
  (∀ sc', holds_str (m_Buffer sc') 0 (take k b) → item_frame sc sc' → m_nTag sc' = m_nTag sc →
    Q () sc') →
  wp F (store (Z.of_nat k) 0) Q sc.
Proof.
  intros Hb Hk HQ. destruct (wr_cut _ _ _ Hb Hk) as (buf & E & L & Hs).
  unfold store. wp_step. wp_step. wp_step. eapply wp_lift_Ok; [exact E|]. wp_step. by apply HQ.
Qed.

Lemma item_at_0 F (Q : list Z → CHtmlScanner → Prop) b sc :
  holds_str (m_Buffer sc) 0 b → Q b sc → wp F (item_at 0) Q sc.
Proof.
  intros Hb HQ. unfold item_at. wp_step. wp_step.
  by eapply wp_lift_Ok; [by apply string_at_holds|].
Qed.

Definition check_post (b : list Z) (sc : CHtmlScanner) (o : option (THtmlItem * list Z))
    (sc' : CHtmlScanner) : Prop :=
  item_frame sc sc' ∧
  match complete b with
  | Some i =>
      o = Some (i, item_text i b) ∧
      m_nTag sc' = (if bool_decide (i = HtmlItemText) then 1 else m_nTag sc)
  | None => o = None ∧ sc' = sc
  end.

(** The text before the start of a tag. *)
Lemma scan_text_run b x sc :
  holds_str (m_Buffer sc) 0 (b ++ [x]) → b ≠ [] →
  wp no_fault
    (store (Z.of_nat (length b)) 0;;
     t ← item_at 0;
     (if Z.of_nat (length t) >? 0 then
        s ← get;
        l ← lift_res (rd (m_Buffer s) (Z.of_nat (length b) - 1));
        when (l =? 32) (store (Z.of_nat (length b) - 1) 0)
      else mret ());;
     t ← item_at 0;
     mret (Some (HtmlItemText, t)))
    (λ o sc', item_frame sc sc' ∧ m_nTag sc' = m_nTag sc ∧ o = Some (HtmlItemText, trim b)) sc.
Proof.
  intros Hb Hne. wp_step. eapply store_cut; [exact Hb|rewrite length_app; lia|].
  rewrite take_app_length. intros sc1 H1 F1 T1. wp_step. eapply item_at_0; [exact H1|]. wp_step.
  assert (∃ a y, b = a ++ [y]) as (a & y & ->) by (destruct b as [|y a _] using rev_ind; eauto; done).
  rewrite length_app in *. cbn [length] in *.
  rewrite Z.gtb_ltb. destruct (Z.ltb_spec 0 (Z.of_nat (length a + 1))); [|lia].
  replace (Z.of_nat (length a + 1) - 1) with (Z.of_nat (length a)) by lia.
  wp_step. wp_step. wp_step. eapply wp_lift_Ok; [by eapply holds_str_last|].
  unfold trim. rewrite ends_with_last. apply wp_when; intros E; rewrite E.
  - eapply store_cut; [exact H1|rewrite length_app; lia|].
    rewrite take_app_length. intros sc2 H2 F2 T2. wp_step. eapply item_at_0; [exact H2|].
    apply wp_ret. rewrite length_app, Nat.add_sub, take_app_length.
    split_and!; [by eapply item_frame_trans|congruence|done].
  - wp_step. eapply item_at_0; [exact H1|]. by apply wp_ret.
Qed.

(** The test on the last three characters. *)
Lemma ends_run F (Q : bool → CHtmlScanner → Prop) m lit b sc :
  holds_str (m_Buffer sc) 0 b → Forall (λ x, x ≠ 0) lit → length lit = 3%nat → 3 ≤ m →
  Q ((m <=? Z.of_nat (length b)) && ends_with lit b) sc →
  wp F (if Z.of_nat (length b) >=? m
        then lift_res (strncmp_eq (m_Buffer sc) (Z.of_nat (length b) - 3) lit)
        else mret false) Q sc.
Proof.
  intros Hb Hlit Hl Hm HQ. rewrite Z.geb_leb. destruct (Z.leb_spec m (Z.of_nat (length b))).
  - eapply wp_lift_Ok; [|exact HQ]. change 3 with (Z.of_nat 3). rewrite <-Hl.
    apply strncmp_end_run; [done|done|lia].
  - apply wp_ret, HQ.
Qed.

(** A CDATA section at its end. *)
Lemma cdata_run b sc :
  holds_str (m_Buffer sc) 0 b → 12 ≤ Z.of_nat (length b) →
  wp no_fault
    (store (Z.of_nat (length b) - 3) 0;; t ← item_at 9; mret (Some (HtmlItemCData, t)))
    (λ o sc', item_frame sc sc' ∧ m_nTag sc' = m_nTag sc ∧
       o = Some (HtmlItemCData, item_text HtmlItemCData b)) sc.
Proof.
  intros Hb Hl. wp_step. replace (Z.of_nat (length b) - 3) with (Z.of_nat (length b - 3)) by lia.
  eapply store_cut; [exact Hb|lia|]. intros sc1 H1 F1 T1. wp_step. unfold item_at. wp_step. wp_step.
  rewrite <-(take_drop 9 (take _ b)) in H1. apply holds_str_rest in H1.
  rewrite length_take_le in H1 by (rewrite length_take_le by lia; lia).
  eapply wp_lift_Ok; [by apply string_at_holds|]. by apply wp_ret.
Qed.

Lemma cdata_no_comment b :
  starts_with (cstr "<![CDATA[") b = true → starts_with (cstr "<!--") b = false.
Proof.
  intros [r ->]%bool_decide_eq_true. apply bool_decide_false. intros [r' E].
  apply (f_equal (λ l, l !! 2%nat)) in E. by vm_compute in E.
Qed.

Lemma check_item_run b x c sc :
  holds_str (m_Buffer sc) 0 (b ++ [x]) → fits c x →
  wp no_fault (check_item (Z.of_nat (length b) + 1) c) (check_post (b ++ [x]) sc) sc.
Proof.
  intros Hb Hc. unfold check_item, check_post, complete. wp_step. wp_step. wp_step.
  set (b' := b ++ [x]) in *.
  assert (∃ h r, b' = h :: r) as (h & r & Eb) by (destruct b; by eexists _, _).
  assert (rd (m_Buffer sc) 0 = Ok h) as Hh.
  { destruct Hb as [Hb _]. rewrite Eb in Hb. by apply holds_cons in Hb as [? _]. }
  eapply wp_lift_Ok; [exact Hh|]. rewrite (fits_eqb _ _ 60 Hc), (fits_eqb _ _ 62 Hc) by lia.
  change (cstr "<") with [60]. change (cstr ">") with [62].
  assert (∀ y, ends_with [y] b' = (x =? y)) as He by (intros; apply ends_with_last).
  rewrite !He.
  assert (starts_with [60] b' = (h =? 60)) as Hs by (by rewrite Eb, starts_with_1).
  rewrite Hs. destruct (Z.eqb_spec h 60) as [->|Hn]; cbn [negb andb].
  - assert (Z.of_nat (length b) + 1 = Z.of_nat (length b')) as -> by (unfold b'; rewrite length_app; cbn; lia).
    wp_step. eapply wp_lift_Ok; [by apply (strncmp_eq_run _ _ _ _ Hb), (bool_decide_unpack _)|].
    destruct (starts_with (cstr "<![CDATA[") b') eqn:Ecd; cbn [negb andb].
    + wp_step. eapply ends_run; [exact Hb|by apply (bool_decide_unpack _)|done|lia|].
      destruct ((12 <=? _) && _) eqn:E12.
      * eapply wp_mono; [apply cdata_run; [exact Hb|]|by intros ?? (? & ? & ?)].
        apply andb_true_iff in E12 as [? _]. lia.
      * wp_step. eapply wp_lift_Ok; [by apply (strncmp_eq_run _ _ _ _ Hb), (bool_decide_unpack _)|].
        rewrite (cdata_no_comment _ Ecd). cbn [andb]. wp_step. wp_step. by wp_step.
    + wp_step. wp_step. wp_step.
      eapply wp_lift_Ok; [by apply (strncmp_eq_run _ _ _ _ Hb), (bool_decide_unpack _)|].
      destruct (starts_with (cstr "<!--") b') eqn:Ecm; cbn [negb andb].
      * wp_step. eapply ends_run; [exact Hb|by apply (bool_decide_unpack _)|done|lia|].
        destruct ((8 <=? _) && _) eqn:E8; [|by wp_step].
        wp_step. eapply item_at_0; [exact Hb|]. by wp_step.
      * destruct (Z.eqb_spec x 62) as [->|Hn].
        -- wp_step. eapply item_at_0; [exact Hb|]. by wp_step.
        -- wp_step. wp_step. by wp_step.
  - destruct (Z.eqb_spec x 60) as [->|Hx].
    + assert (b ≠ []) as Hne by (intros ->; by simplify_eq/=).
      wp_step. wp_step. rewrite Z.add_simpl_r.
      replace (Z.of_nat (length b) + 1 - 2) with (Z.of_nat (length b) - 1) by lia.
      eapply wp_mono; [by eapply scan_text_run|]. intros o sc' (HF & HT & ->). split; [done|].
      split; [|by rewrite HT]. unfold item_text, b'.
      by rewrite length_app, Nat.add_sub, take_app_length.
    + assert (∀ lit, starts_with (60 :: lit) b' = false) as Hno.
      { intros lit. by apply starts_with_head. }
      wp_step. eapply wp_lift_Ok; [by apply (strncmp_eq_run _ _ _ _ Hb), (bool_decide_unpack _)|].
      change (cstr "<![CDATA[") with (60 :: cstr "![CDATA["). rewrite Hno. cbn [andb].
      wp_step. wp_step. wp_step.
      eapply wp_lift_Ok; [by apply (strncmp_eq_run _ _ _ _ Hb), (bool_decide_unpack _)|].
      change (cstr "<!--") with (60 :: cstr "!--"). rewrite Hno. cbn [andb]. wp_step. wp_step.
      by wp_step.
Qed.

(** Putting a character at the end of the string in the buffer. *)
Lemma put_char_run b x c sc :
  holds (m_Buffer sc) 0 b → Forall (λ c, c ≠ 0) b → fits c x →
  Z.of_nat (length b) + 1 < Z.of_nat (length (m_Buffer sc)) →
  wp no_fault (put_char (Z.of_nat (length b)) c)
    (λ o sc', item_frame sc sc' ∧
       match complete (b ++ [x]) with
       | Some i => o = Some (i, item_text i (b ++ [x])) ∧
                   m_nTag sc' = (if bool_decide (i = HtmlItemText) then 1 else m_nTag sc)
       | None => o = None ∧ holds_str (m_Buffer sc') 0 (b ++ [x]) ∧ m_nTag sc' = m_nTag sc
       end) sc.
Proof.
  intros Hb Hnz Hc Hl. unfold put_char. wp_step. apply wp_assert_true.
  { destruct Hc as (_ & _ & Hc0 & _). by apply Z.eqb_neq in Hc0 as ->. }
  pose proof (fits_ascii _ _ Hc) as Hca. pose proof (stored_nonzero _ _ Hc) as Hx.
  assert (u8 (if (-128 <=? c) && (c <=? 127) then c else 63) = x) as ->
    by (by destruct Hc as (_ & _ & _ & <-)).
  set (c' := if (-128 <=? c) && (c <=? 127) then c else 63) in *. cbv zeta.
  destruct (wr_end _ _ _ Hb Hnz Hx Hl) as (buf1 & buf2 & E1 & E2 & L2 & H2).
  wp_step. unfold store. wp_step. wp_step. wp_step. eapply wp_lift_Ok; [exact E1|]. wp_step.
  wp_step. wp_step. wp_step. wp_step. eapply wp_lift_Ok; [exact E2|]. wp_step.
  eapply wp_mono; [by eapply check_item_run|]. intros o sc' [F Ho].
  split; [by eapply item_frame_trans; [|exact F]|].
  destruct (complete (b ++ [x])); [done|]. by destruct Ho as (-> & ->).
Qed.

(** * The document and the position in it *)
Section scan.
Context `{CharSign} (content : list cell) (doc : list Z).

Definition document : Prop :=
  holds_str content 0 doc ∧ Forall is_byte doc ∧ Z.of_nat (length doc) < 2^31 - 1.

(** The scanner has still to read [rest]. *)
Record at_pos (ws : bool) (rest : list Z) (s : CHtmlScanner) : Prop := {
  at_content : m_pContent s = Some content;
  at_rest : ∃ pre, doc = pre ++ rest ∧ m_nIndex s = Z.of_nat (length pre);
  at_ws : (m_nWhiteSpace s =? 0) = negb ws;
  at_len : Z.of_nat (length (m_Buffer s)) = HTMLSCAN_MAXIMUM_ITEM
}.

(** The stream to come is [s]; [n] bounds what is left of the document. *)
Definition scanning (n : nat) (s : list Z) (sc : CHtmlScanner) : Prop :=
  ∃ ws rest, at_pos ws rest sc ∧ stream ws rest = s ∧ (length rest ≤ n)%nat.

Definition same_item (sc sc' : CHtmlScanner) : Prop :=
  m_Buffer sc' = m_Buffer sc ∧ m_nTag sc' = m_nTag sc.

Context (Hdoc : document).

Lemma read_content ws b rest sc :
  at_pos ws (b :: rest) sc →
  rd content (m_nIndex sc) = Ok b ∧ is_byte b ∧ b ≠ 0 ∧
  ∀ w, at_pos (negb (w =? 0)) rest
    (mkScanner (m_pContent sc) (s32 (m_nIndex sc + 1)) (m_Buffer sc) w (m_nTag sc)).
Proof using Hdoc.
  intros [Hc (pre & Hd & Hi) Hw Hl]. destruct Hdoc as (Hs & Hb & Hlen).
  rewrite Hd in Hs, Hb, Hlen.
  rewrite length_app in Hlen. cbn in Hlen.
  apply Forall_app in Hb as [_ Hb]. apply Forall_cons in Hb as [Hb _].
  pose proof (holds_str_rest _ _ _ _ Hs) as [Hh Hz]. apply Forall_cons in Hz as [Hz _].
  cbn in Hh. apply holds_cons in Hh as [Hr _]. rewrite Hi. split_and!; [done|done|done|].
  intros w. split; cbn; [done| |by destruct (w =? 0)|done].
  exists (pre ++ [b]). rewrite <-app_assoc. split; [exact Hd|].
  rewrite s32_small by lia. rewrite length_app. cbn. lia.
Qed.

Lemma read_end ws sc : at_pos ws [] sc → rd content (m_nIndex sc) = Ok 0.
Proof using Hdoc.
  intros [Hc (pre & Hd & Hi) Hw Hl]. destruct Hdoc as (Hs & _ & _). rewrite Hd in Hs.
  apply holds_str_rest in Hs as [Hh _]. cbn in Hh. apply holds_cons in Hh as [Hr _].
  by rewrite Hi.
Qed.

Lemma char_value_range b :
  is_byte b → -128 ≤ char_value b ≤ 255 ∧ ((char_value b =? 0) = (b =? 0)).
Proof using Type.
  intros Hb. unfold_ints. unfold char_value. split.
  - destruct char_signed; cbn; [destruct (Z.leb_spec 128 b)|]; lia.
  - apply Bool.eq_iff_eq_true. rewrite !Z.eqb_eq.
    destruct char_signed; cbn; [destruct (Z.leb_spec 128 b)|]; lia.
Qed.

(** What [GetChar] does. *)
Definition char_post (n : nat) (s : list Z) (sc : CHtmlScanner) (c : Z) (sc' : CHtmlScanner) : Prop :=
  same_item sc sc' ∧
  match s with
  | [] => c = -1
  | x :: s => fits c x ∧ ∃ n', (n' < n)%nat ∧ scanning n' s sc'
  end ∧ m_pContent sc' = Some content ∧ Z.of_nat (length (m_Buffer sc')) = HTMLSCAN_MAXIMUM_ITEM.

Lemma GetChar_run fuel n s sc :
  scanning n s sc → (n < fuel)%nat →
  wp no_fault (GetChar fuel) (char_post n s sc) sc.
Proof using Hdoc.
  intros (ws & rest & Hat & Hst & Hn) Hf. revert fuel n s sc ws Hat Hst Hn Hf.
  induction rest as [|b rest IH]; intros [|fuel] n s sc ws Hat Hst Hn Hf; try lia; cbn [GetChar];
    (wp_step; wp_step; wp_step; eapply wp_deref_Some; [apply Hat|]; wp_step).
  - eapply wp_lift_Ok; [by eapply read_end|]. unfold char_value. cbn in *. rewrite andb_false_r. cbv iota.
    apply wp_ret. subst s. split; [done|]. split_and!; [done|apply Hat|apply Hat].
  - destruct (read_content _ _ _ _ Hat) as (Hr & Hb & Hz & Hnext).
    eapply wp_lift_Ok; [exact Hr|]. destruct (char_value_range b Hb) as [Hv Hv0].
    rewrite Hv0. destruct (Z.eqb_spec b 0); [done|]. cbn in Hst, Hn.
    set (c := char_value b) in *.
    assert (c ≠ 0) as Hc0 by (by apply Z.eqb_neq).
    wp_step. wp_step. unfold set_nIndex.
    destruct (Z.eqb_spec c 13) as [Ec|].
    { eapply wp_mono; [eapply (IH fuel (pred n) s _ ws); [|exact Hst|lia|lia]|].
      - pose proof (Hnext (m_nWhiteSpace sc)) as Hx. by rewrite (at_ws _ _ _ Hat), negb_involutive in Hx.
      - intros c' sc' ((Hb1 & Ht1) & Hs' & Hc' & Hl'). split; [done|].
        split_and!; [|done|done]. destruct s as [|x s]; [done|].
        destruct Hs' as (? & n' & ? & ?). split; [done|]. exists n'. split; [lia|done]. }
    destruct ((c =? 10) || (c =? 9) || (c =? 32)) eqn:Ew.
    + rewrite (at_ws _ _ _ Hat), negb_involutive. destruct ws.
      * eapply wp_mono; [eapply (IH fuel (pred n) s _ true); [|exact Hst|lia|lia]|].
        -- pose proof (Hnext (m_nWhiteSpace sc)) as Hx. by rewrite (at_ws _ _ _ Hat) in Hx.
        -- intros c' sc' ((Hb1 & Ht1) & Hs' & Hc' & Hl'). split; [done|].
           split_and!; [|done|done]. destruct s as [|x s]; [done|].
           destruct Hs' as (? & n' & ? & ?). split; [done|]. exists n'. split; [lia|done].
      * wp_step. wp_step. apply wp_ret. cbn. subst s. split; [done|]. split_and!.
        -- done.
        -- exists (length rest). split; [lia|]. exists true, rest. split; [exact (Hnext 1)|done].
        -- apply Hat.
        -- apply Hat.
    + destruct (Z.eqb_spec c 26) as [Ec|].
      { apply wp_ret. cbn in Hst. subst s. split; [done|]. split_and!; [done|apply Hat|apply Hat]. }
      wp_step. wp_step. apply wp_ret. unfold set_nWhiteSpace. cbn [m_pContent m_nIndex m_Buffer m_nTag].
      cbn [orb] in Hst. destruct (Z.eqb_spec c (-1)) as [Ec|].
      * subst s. split; [done|]. split_and!; [done|apply Hat|apply Hat].
      * subst s. split; [done|]. split_and!.
        -- split_and!; [lia|lia|lia|lia|done].
        -- exists (length rest). split; [lia|]. exists false, rest. split; [exact (Hnext 0)|done].
        -- apply Hat.
        -- apply Hat.
Qed.

Lemma scanning_frame n s sc sc' : item_frame sc sc' → scanning n s sc → scanning n s sc'.
Proof using Type.
  intros (Ec & Ei & Ew & El) (ws & rest & [Hc Hr Hw Hl] & ?). exists ws, rest. split; [|done].
  split; [congruence|by rewrite Ei|by rewrite Ew|by rewrite El].
Qed.

(** ** Items *)

(** What a call of [GetNextItem] returns for the outcome [r] of the reference;
    [tag] is the value of [m_nTag] before an item that is no text. *)
Definition item_post (n : nat) (r : scan) (rItem : list Z) (tag : Z) (o : THtmlItem * list Z)
    (sc' : CHtmlScanner) : Prop :=
  match r with
  | Item k t rest =>
      o = (k, t) ∧ m_nTag sc' = (if bool_decide (k = HtmlItemText) then 1 else tag) ∧
      ∃ n', (n' < n)%nat ∧ scanning n' rest sc'
  | EndOfDocument => o = (HtmlItemEOF, rItem)
  | TooLong rest =>
      o = (HtmlItemError, rItem) ∧ m_nTag sc' = tag ∧ ∃ n', (n' < n)%nat ∧ scanning n' rest sc'
  end.

Lemma item_post_mono n m r rItem tag o sc' :
  (n ≤ m)%nat → item_post n r rItem tag o sc' → item_post m r rItem tag o sc'.
Proof using Type.
  intros Hm. destruct r; cbn; [| |]; try done.
  - intros (? & ? & n' & ? & ?). split_and!; [done|done|]. exists n'. split; [lia|done].
  - intros (? & ? & n' & ? & ?). split_and!; [done|done|]. exists n'. split; [lia|done].
Qed.

Lemma drop_spaces_cons x s : drop_spaces (x :: s) = if x =? 32 then drop_spaces s else x :: s.
Proof using Type. unfold drop_spaces. cbn. destruct (x =? 32); [|done]. by destruct (span _ s). Qed.

Lemma item_loop_run fuel n b s sc rItem :
  scanning n s sc → (n < fuel)%nat → holds (m_Buffer sc) 0 b → Forall (λ c, c ≠ 0) b →
  (length b ≤ room)%nat →
  wp no_fault (item_loop fuel (Z.of_nat (length b)) rItem)
    (item_post n (shortest b (if bool_decide (b = []) then drop_spaces s else s)) rItem (m_nTag sc))
    sc.
Proof using Hdoc.
  revert n b s sc. induction fuel as [|fuel IH]; intros n b s sc Hsc Hf Hb Hnz Hroom; [lia|].
  cbn [item_loop]. wp_step. eapply wp_mono; [by eapply GetChar_run|].
  intros c sc1 ((HB & HT) & Hs & Hc1 & Hl1). destruct s as [|x s].
  { subst c. cbn. by destruct (bool_decide _). }
  destruct Hs as (Hc & n1 & Hn1 & Hsc1). rewrite <-HB in Hb.
  destruct (Z.eqb_spec c (-1)); [by destruct Hc as (_ & ? & _)|].
  rewrite (fits_eqb _ _ 32 Hc) by lia.
  destruct ((Z.of_nat (length b) =? 0) && (x =? 32)) eqn:E0.
  { apply andb_true_iff in E0 as [Eb Ex]. apply Z.eqb_eq in Eb. destruct b; [|cbn in Eb; lia].
    eapply wp_mono; [eapply (IH n1 [] s sc1); [done|lia|done|done|cbn; lia]|].
    intros o sc'. rewrite !bool_decide_true, HT, drop_spaces_cons, Ex by done.
    apply item_post_mono. lia. }
  replace (if bool_decide (b = []) then drop_spaces (x :: s) else x :: s) with (x :: s).
  2: { case_bool_decide as Eb; [|done]. subst b. rewrite drop_spaces_cons. 
       assert ((x =? 32) = false) as -> by exact E0. done. }
  cbn [shortest]. pose proof room_Z as Hroom_Z. rewrite Z.geb_leb.
  destruct (Z.leb_spec (HTMLSCAN_MAXIMUM_ITEM - 1) (Z.of_nat (length b))),
    (Nat.leb_spec room (length b)); try lia.
  { apply wp_ret. cbn. split_and!; [done|done|]. by exists n1. }
  wp_step. eapply wp_mono; [by eapply put_char_run; [| | |lia]|]. intros o sc2 [F Ho].
  pose proof (scanning_frame _ _ _ _ F Hsc1) as Hsc2. destruct (complete (b ++ [x])) as [i|].
  - destruct Ho as (-> & HT2). apply wp_ret. cbn. rewrite HT2, HT. split_and!; [done|done|by exists n1].
  - destruct Ho as (-> & H2 & HT2).
    replace (Z.of_nat (length b) + 1) with (Z.of_nat (length (b ++ [x])))
      by (rewrite length_app; cbn; lia).
    eapply wp_mono; [eapply (IH n1 (b ++ [x]) s sc2); [done|lia| | |]|].
    + destruct H2 as [H2 _]. by apply holds_app in H2 as [H2 _].
    + apply H2.
    + rewrite length_app. cbn. lia.
    + intros o sc'. rewrite bool_decide_false by (by destruct b). rewrite HT2, HT.
      apply item_post_mono. lia.
Qed.

Definition tagged (sc : CHtmlScanner) : bool := negb (m_nTag sc =? 0).

Lemma GetNextItem_run fuel n s sc rItem :
  scanning n s sc → (n < fuel)%nat →
  wp no_fault (GetNextItem fuel rItem) (item_post n (next_item (tagged sc) s) rItem 0) sc.
Proof using Hdoc.
  intros Hsc Hf. unfold GetNextItem, tagged. rewrite next_item_shortest. wp_step. wp_step.
  destruct (Z.eqb_spec (m_nTag sc) 0) as [E|E]; cbn [negb].
  - pose proof (item_loop_run fuel n [] s sc rItem) as Hi. rewrite E in Hi. apply Hi; [done|done|by apply holds_nil|done|cbn; lia].
  - wp_step. wp_step. pose proof Hsc as (ws & rest & Hat & _).
    assert (0 ≤ 0 < Z.of_nat (length (m_Buffer sc))) as Hl
      by (rewrite (at_len _ _ _ Hat); unfold HTMLSCAN_MAXIMUM_ITEM; lia).
    destruct (wr_frame _ _ 60 Hl) as (buf & Ew & Lw & Rw & _).
    wp_step. unfold store. wp_step. wp_step. wp_step. eapply wp_lift_Ok; [exact Ew|]. wp_step.
    set (sc1 := set_Buffer buf (set_nTag 0 sc)).
    apply (item_loop_run fuel n [60] s sc1); [|done| | |pose proof room_pos; cbn; lia].
    + by eapply scanning_frame; [|exact Hsc].
    + apply holds_cons. split; [done|apply holds_nil; lia].
    + by repeat constructor.
Qed.

(** A scanner with the whole document before it. *)
Lemma scanning_first ws s sc :
  (∃ n, scanning n s sc) → (m_nWhiteSpace sc =? 0) = negb ws →
  scanning (length doc) (stream ws doc) (set_nIndex 0 sc).
Proof using Type.
  intros (n & ws' & rest & [Hc Hr Hw Hl] & _) Hws. exists ws, doc. split; [|done].
  split; [done|by exists []|done|done].
Qed.

Lemma scanning_construct sc : construct (Some content) = Ok sc → scanning (length doc) (stream true doc) sc.
Proof using Type.
  intros E. unfold construct in E. injection E as <-. exists true, doc. split; [|done].
  split; [done|by exists []|done|]. cbn -[HTMLSCAN_MAXIMUM_ITEM uninit Z.of_nat]. unfold uninit.
  rewrite length_replicate. by vm_compute.
Qed.

(** The items a sequence of calls returns. *)
Lemma nth_loop_run fuel n m i s sc k t :
  scanning n s sc → (n < fuel)%nat → (n < m)%nat → 0 ≤ i < 2^31 →
  wp no_fault (nth_loop fuel i k t)
    (λ o _, o = item_number (Z.to_nat i) t ((k, t) :: items m (tagged sc) t s)) sc.
Proof using Hdoc.
  revert n m i s sc k t. induction fuel as [|fuel IH]; intros n m i s sc k t Hsc Hf Hm Hi; [lia|].
  cbn [nth_loop]. destruct (Z.eqb_spec i 0) as [->|Hi0]; [by wp_step|].
  wp_step. eapply wp_mono; [by apply GetNextItem_run|]. intros o sc1 Ho.
  assert (Z.to_nat i = S (Z.to_nat (i - 1))) as -> by lia. destruct m as [|m]; [lia|].
  unfold item_number. cbn [items lookup list_lookup]. destruct (next_item (tagged sc) s) as [k1 t1 rest| |rest] eqn:En.
  - destruct Ho as (-> & HT & n1 & Hn1 & Hsc1). apply next_item_kind in En as (HE & _).
    rewrite bool_decide_false by done. rewrite s32_small by lia.
    eapply wp_mono; [eapply (IH n1 m); [done|lia|lia|lia]|]. intros o sc2 ->.
    unfold tagged. rewrite HT. by destruct (bool_decide (k1 = HtmlItemText)).
  - cbn in Ho. subst o. rewrite bool_decide_true by done. by wp_step.
  - destruct Ho as (-> & HT & n1 & Hn1 & Hsc1). rewrite bool_decide_false by done.
    rewrite s32_small by lia.
    eapply wp_mono; [eapply (IH n1 m); [done|lia|lia|lia]|]. intros o sc2 ->.
    unfold tagged. by rewrite HT.
Qed.
End scan.

(** A document as a string constant. *)
Definition cells (s : list Z) : list cell := Some <$> s ++ [0].

Lemma document_cells s :
  Forall (λ c, is_byte c ∧ c ≠ 0) s → Z.of_nat (length s) < 2^31 - 1 → document (cells s) s.
Proof.
  intros [Hb Hz]%Forall_and Hl. split_and!; [|done|done]. split; [|done].
  split; [done|]. intros j b Hj. unfold cells. rewrite list_lookup_fmap. change (Z.to_nat 0 + j)%nat with j.
  by rewrite Hj.
Qed.
