(* ===== verification/HtmlProps.v ===== *)
(** Properties of the HTML scanner. *)
From stdpp Require Import base numbers list gmap option strings.
From S2P Require Import Prelude.
From S2P Require Import Libc.
From S2P Require Import HtmlScanner.
From S2P Require Import HtmlSpec.
From S2P Require Import HtmlScan.
Import Libc Html.

(** The loop that takes items until the end of the document. *)
Fixpoint scan_all `{CharSign} (fuel : nat) (rItem : list Z) : H (list (THtmlItem * list Z)) :=
  match fuel with
  | O => fail OutOfFuel
  | S fuel' =>
      '(k, t) ← GetNextItem fuel rItem;
      if bool_decide (k = HtmlItemEOF) then mret []
      else l ← scan_all fuel' t; mret ((k, t) :: l)
  end.

Lemma scan_all_run `{CharSign} content doc fuel n m s sc rItem :
  document content doc → scanning content doc n s sc → (n < fuel)%nat → (n < m)%nat →
  wp no_fault (scan_all fuel rItem) (λ l _, l = items m (tagged sc) rItem s) sc.
Proof.
  intros Hdoc. revert n m s sc rItem. induction fuel as [|fuel IH]; intros n m s sc rItem Hsc Hf Hm; [lia|].
  destruct m as [|m]; [lia|]. cbn [scan_all items]. wp_step.
  eapply wp_mono; [by eapply GetNextItem_run|]. intros o sc1 Ho.
  destruct (next_item (tagged sc) s) as [k1 t1 rest| |rest] eqn:En.
  - destruct Ho as (-> & HT & n1 & Hn1 & Hsc1). apply next_item_kind in En as (HE & _).
    rewrite bool_decide_false by done. wp_step.
    eapply wp_mono; [eapply (IH n1 m); [done|lia|lia]|]. intros l sc2 ->. wp_step. f_equal.
    unfold tagged. rewrite HT. by destruct (bool_decide (k1 = HtmlItemText)).
  - cbn in Ho. subst o. rewrite bool_decide_true by done. by wp_step.
  - destruct Ho as (-> & HT & n1 & Hn1 & Hsc1). rewrite bool_decide_false by done. wp_step.
    eapply wp_mono; [eapply (IH n1 m); [done|lia|lia]|]. intros l sc2 ->. wp_step. f_equal.
    unfold tagged. by rewrite HT.
Qed.

Lemma document_length content doc : document content doc → (length doc < enough content)%nat.
Proof.
  intros (Hs & _). apply holds_str_length in Hs. unfold enough. lia.
Qed.

Lemma scanner_construct_run content :
  ∃ sc, construct (Some content) = Ok sc ∧ m_nTag sc = 0 ∧ m_nWhiteSpace sc = 1.
Proof. by eexists. Qed.

Lemma GetFirstItem_run `{CharSign} content doc n s sc rItem :
  document content doc → scanning content doc n s sc →
  wp no_fault (GetFirstItem (enough content) rItem)
    (item_post content doc (length doc)
       (next_item (tagged sc) (stream (negb (m_nWhiteSpace sc =? 0)) doc)) rItem 0) sc.
Proof.
  intros Hdoc Hs. unfold GetFirstItem. wp_step. wp_step.
  assert (tagged sc = tagged (set_nIndex 0 sc)) as -> by done.
  apply GetNextItem_run; [done| |by apply document_length].
  apply (scanning_first content doc _ s); [by exists n|by rewrite negb_involutive].
Qed.

Lemma GetFirstItem_new `{CharSign} content doc sc rItem :
  document content doc → construct (Some content) = Ok sc →
  wp no_fault (GetFirstItem (enough content) rItem)
    (item_post content doc (length doc) (next_item false (stream true doc)) rItem 0) sc.
Proof.
  intros Hdoc E. pose proof (scanning_construct content doc _ E) as Hsc.
  pose proof (GetFirstItem_run _ _ _ _ _ rItem Hdoc Hsc) as Hrun. unfold tagged in Hrun.
  destruct (scanner_construct_run content) as (sc' & E' & HT & HW). rewrite E in E'. simplify_eq.
  by rewrite HT, HW in Hrun.
Qed.

(** C15: the scanner cuts a document into the items the reference finds: first
    white space is joined and control characters are dropped, then an item is
    the shortest prefix that is complete (a text up to the next tag, a tag up to
    [>], a comment and a CDATA section up to their ends).  Every call stays in
    the buffer and the document, and ends. *)
Theorem html_items `{CharSign} content doc rItem :
  document content doc →
  ∃ sc sc', construct (Some content) = Ok sc ∧
    scan_all (enough content) rItem sc = Ok (document_items rItem doc, sc').
Proof.
  intros Hdoc. destruct (scanner_construct_run content) as (sc & E & HT & HW). exists sc.
  pose proof (scan_all_run content doc (enough content) _ (S (length doc)) _ sc rItem Hdoc
    (scanning_construct content doc _ E)) as Hrun.
  apply wp_total in Hrun as (l & sc' & Hr & ->); [|by apply document_length|lia].
  exists sc'. split; [done|]. rewrite Hr. unfold document_items, tagged. by rewrite HT.
Qed.

Definition page : list Z :=
  cstr "<body>  Some" ++ [10; 9] ++ cstr "<b>text</b ><!-- a > b --><![CDATA[1<2]]> end".

Lemma page_document : document (cells page) page.
Proof. by apply document_cells; [apply (bool_decide_unpack _); vm_compute|]. Qed.

Lemma html_items_witness :
  document (cells page) page ∧
  ∃ sc sc', construct (Some (cells page)) = Ok sc ∧
    @scan_all false (enough (cells page)) [] sc =
    Ok ([(HtmlItemTag, cstr "<body>"); (HtmlItemText, cstr "Some"); (HtmlItemTag, cstr "<b>");
         (HtmlItemText, cstr "text"); (HtmlItemTag, cstr "</b >");
         (HtmlItemComment, cstr "<!-- a > b -->"); (HtmlItemCData, cstr "1<2")], sc').
Proof.
  split; [exact page_document|].
  destruct (@html_items false (cells page) page [] page_document) as (sc & sc' & E1 & E2).
  exists sc, sc'. split; [exact E1|]. rewrite E2. by vm_compute.
Defined.

(** [GetItem] on a new scanner returns the item with the given number, or
    the end of the document when there are fewer. *)
Theorem html_get_item `{CharSign} content doc sc i rItem :
  document content doc → construct (Some content) = Ok sc → 0 ≤ i < 2^31 →
  ∃ sc', GetItem (enough content) i rItem sc =
    Ok (item_number (Z.to_nat i) rItem (document_items rItem doc), sc').
Proof.
  intros Hdoc E Hi. pose proof (document_length _ _ Hdoc) as Hlen.
  enough (wp no_fault (GetItem (enough content) i rItem)
    (λ o _, o = item_number (Z.to_nat i) rItem (document_items rItem doc)) sc) as Hrun.
  { apply wp_total in Hrun as (o & sc' & -> & ->). eauto. }
  unfold GetItem, document_items. cbn [items]. wp_step. apply wp_assert_true; [lia|].
  wp_step. eapply wp_mono; [by eapply GetFirstItem_new|]. intros o sc1 Ho.
  destruct (next_item false (stream true doc)) as [k1 t1 rest| |rest] eqn:En.
  - destruct Ho as (-> & HT1 & n1 & Hn1 & Hsc1). apply next_item_kind in En as (HE & _).
    rewrite bool_decide_false by done.
    eapply wp_mono; [eapply (nth_loop_run _ _ Hdoc _ n1 (length doc)); [done|lia|lia|lia]|].
    intros o sc2 ->. unfold item_number, tagged. rewrite HT1.
    by destruct (bool_decide (k1 = HtmlItemText)).
  - cbn in Ho. subst o. rewrite bool_decide_true by done. by wp_step.
  - destruct Ho as (-> & HT1 & n1 & Hn1 & Hsc1). rewrite bool_decide_false by done.
    eapply wp_mono; [eapply (nth_loop_run _ _ Hdoc _ n1 (length doc)); [done|lia|lia|lia]|].
    intros o sc2 ->. unfold item_number, tagged. by rewrite HT1.
Qed.

Lemma html_get_item_witness :
  document (cells page) page ∧
  ∃ sc sc', construct (Some (cells page)) = Ok sc ∧
    @GetItem true (enough (cells page)) 3 [] sc = Ok ((HtmlItemText, cstr "text"), sc').
Proof.
  split; [exact page_document|]. destruct (scanner_construct_run (cells page)) as (sc & E & _).
  destruct (@html_get_item true (cells page) page sc 3 [] page_document E) as (sc' & E2); [lia|].
  exists sc, sc'. split; [exact E|]. rewrite E2. by vm_compute.
Defined.

(** [GetFirstItem] does not rewind a scanner that has just returned a text:
    the start of the tag after the text stays noted, and the next first item
    begins with a spurious [<], so that it is never the text again. *)
Theorem html_rescan `{CharSign} content doc sc t t' o sc1 sc2 rItem :
  document content doc → construct (Some content) = Ok sc →
  GetFirstItem (enough content) rItem sc = Ok ((HtmlItemText, t), sc1) →
  GetFirstItem (enough content) t' sc1 = Ok (o, sc2) →
  o.1 ≠ HtmlItemText ∧
  ∃ ws, item_post content doc (length doc) (next_item true (stream ws doc)) t' 0 o sc2.
Proof.
  intros Hdoc E E1 E2. apply (wp_Ok _ _ _ _ _ _ (GetFirstItem_new _ _ _ rItem Hdoc E)) in E1.
  assert (m_nTag sc1 = 1 ∧ ∃ n s, scanning content doc n s sc1) as (HT & n & s & Hs).
  { destruct (next_item _ _) as [k1 t1 rest| |rest]; cbn in E1; [|done|by destruct E1].
    destruct E1 as (? & HT & n1 & _ & Hsc1). simplify_eq. rewrite HT. eauto. }
  apply (wp_Ok _ _ _ _ _ _ (GetFirstItem_run _ _ _ _ _ t' Hdoc Hs)) in E2.
  unfold tagged in E2. rewrite HT in E2. cbn [negb Z.eqb] in E2.
  split; [|eauto].
  destruct (next_item true _) as [k1 t1 rest| |rest] eqn:En; cbn in E2.
  - destruct E2 as (-> & _). by eapply next_item_tag.
  - by subst.
  - by destruct E2 as (-> & _).
Qed.

(** The results of two calls of [GetFirstItem] on a new scanner. *)
Definition first_twice (signed : CharSign) (content : list cell) :
    option ((THtmlItem * list Z) * (THtmlItem * list Z)) :=
  match construct (Some content) with
  | Ok sc =>
      match GetFirstItem (enough content) [] sc with
      | Ok (o1, sc1) =>
          match GetFirstItem (enough content) [] sc1 with
          | Ok (o2, _) => Some (o1, o2)
          | Fault _ => None
          end
      | Fault _ => None
      end
  | Fault _ => None
  end.

Definition short_page : list Z := cstr "a<b>".

Lemma short_page_document : document (cells short_page) short_page.
Proof. by apply document_cells; [apply (bool_decide_unpack _); vm_compute|]. Qed.

Lemma html_rescan_witness :
  ∃ sc sc1 sc2, construct (Some (cells short_page)) = Ok sc ∧
    @GetFirstItem true (enough (cells short_page)) [] sc = Ok ((HtmlItemText, cstr "a"), sc1) ∧
    @GetFirstItem true (enough (cells short_page)) [] sc1 = Ok ((HtmlItemTag, cstr "<a<b>"), sc2) ∧
    HtmlItemTag ≠ HtmlItemText.
Proof.
  assert (first_twice true (cells short_page) =
    Some ((HtmlItemText, cstr "a"), (HtmlItemTag, cstr "<a<b>"))) as Hrun by (by vm_compute).
  unfold first_twice in Hrun. destruct (scanner_construct_run (cells short_page)) as (sc & E & _).
  rewrite E in Hrun.
  destruct (@GetFirstItem true (enough (cells short_page)) [] sc) as [[o1 sc1]|] eqn:E1; [|done].
  destruct (@GetFirstItem true (enough (cells short_page)) [] sc1) as [[o2 sc2]|] eqn:E2; [|done].
  injection Hrun as -> ->. exists sc, sc1, sc2. split_and!; [exact E|exact E1|exact E2|].
  apply (@html_rescan true (cells short_page) short_page sc (cstr "a") []
    (HtmlItemTag, cstr "<a<b>") sc1 sc2 [] short_page_document E E1 E2).
Defined.
