(* ===== verification/WebClient.v ===== *)
(** The web client sample: [CKernel] of [samples/mbedtls/06-webclient].

    It fetches a page with the HTTP client, runs the HTML scanner over it, and
    writes the rows of one table of the page to the screen. *)
From stdpp Require Import base numbers list gmap option strings.
From S2P Require Import Prelude.
From S2P Require Import Libc.
From S2P Require Import Circle.
From S2P Require Import HttpClient.
From S2P Require Import HtmlScanner.
Import Libc.

(** What the kernel needs of the machine besides the platform of the network
    classes: the revision of the board, [CString::Replace] and the sleep of the
    scheduler. *)
Class WebPlatform (W : Type) := {
  CMachineInfo_GetRevisionRaw : W → Z * W;
  CString_Replace : list Z → list Z → list Z → list Z;
  CScheduler_Sleep : Z → W → () * W
}.

Module Web.
Import Html.

Definition bUseSSL : bool := true.
Definition Server : list Z := cstr "elinux.org".
Definition Document : list Z := cstr "/RPi_HardwareHistory".
Definition nDocMaxSize : Z := 2048 * 1024.

(** [strncmp (s, lit, length lit) == 0]. *)
Definition strneq (lit s : list Z) : bool := bool_decide (take (length lit) s = lit).

(** The number of an item kind in the enumeration, for [Item < HtmlItemEOF]. *)
Definition before_EOF (k : THtmlItem) : bool :=
  match k with
  | HtmlItemTag | HtmlItemText | HtmlItemCData | HtmlItemComment => true
  | HtmlItemEOF | HtmlItemError | HtmlItemUnknown => false
  end.

Definition ESC : Z := 27.

Section web.
Context `{Target, CharSign, Platform W, WebPlatform W}.

(** A running [ParseDocument]: the scanner, what was written to the screen so
    far, and the world. *)
Record parse := mkParse {
  scanner : CHtmlScanner;
  screen : list Z;
  pworld : W
}.
Definition set_scanner (x : CHtmlScanner) (p : parse) : parse := mkParse x (screen p) (pworld p).
Definition set_screen (x : list Z) (p : parse) : parse := mkParse (scanner p) x (pworld p).
Definition set_pworld (x : W) (p : parse) : parse := mkParse (scanner p) (screen p) x.

Abbreviation P := (M parse).

Definition Screen_Write (s : list Z) : P () := modify (λ p, set_screen (screen p ++ s) p).
Definition Log (sev : TLogSeverity) (fmt : string) (args : list fmt_arg) : P () :=
  env pworld set_pworld (CLogger_Write sev fmt args).

(** A text in a column: [case 4] is the first one of the row. *)
Definition column_text (nBoardRevision nState : Z) (ItemText : list Z) : P () :=
  (if nState =? 4 then
     let '(ulRevision, pEnd) := strtoul ItemText 16 in
     when (bool_decide (pEnd = []) && (ulRevision =? nBoardRevision))
       (Screen_Write (ESC :: cstr "[1m"))
   else Screen_Write (cstr ", "));;
  Screen_Write (CString_Replace ItemText (cstr "&#160;") (cstr " ")).

(** [case 4] and [case 5]: an item of the table.  [None] leaves the function
    with [TRUE]. *)
Definition column_item (nBoardRevision nState : Z) (Item : THtmlItem) (ItemText : list Z) :
    P (option Z) :=
  match Item with
  | HtmlItemTag =>
      if streq ItemText (cstr "</table>") then mret None
      else if streq ItemText (cstr "</tr>") then
        Screen_Write (ESC :: cstr "[0m" ++ [10]);; mret (Some 4)
      else mret (Some nState)
  | HtmlItemText => column_text nBoardRevision nState ItemText;; mret (Some 5)
  | _ => mret (Some nState)
  end.

(** The [switch]: the next state. *)
Definition parse_step (nBoardRevision nState : Z) (Item : THtmlItem) (ItemText : list Z) :
    P (option Z) :=
  if nState =? 0 then
    mret (Some (if bool_decide (Item = HtmlItemTag) && strneq (cstr "<body") ItemText
                then 1 else nState))
  else if nState =? 1 then
    mret (Some (if bool_decide (Item = HtmlItemText) &&
                   streq ItemText (cstr "Board Revision History") then 2 else nState))
  else if nState =? 2 then
    mret (Some (if bool_decide (Item = HtmlItemTag) && strneq (cstr "<table") ItemText
                then 3 else nState))
  else if nState =? 3 then
    if bool_decide (Item = HtmlItemText) then
      if streq ItemText (cstr "Revision") then
        Screen_Write [10];; column_item nBoardRevision 4 Item ItemText
      else mret (Some 2)
    else mret (Some nState)
  else if (nState =? 4) || (nState =? 5) then column_item nBoardRevision nState Item ItemText
  else fail AssertFailed.

(** The [while] loop and the end of the function. *)
Fixpoint parse_loop (fuel : nat) (nBoardRevision nState : Z) (Item : THtmlItem)
    (ItemText : list Z) : P bool :=
  match fuel with
  | O => fail OutOfFuel
  | S fuel' =>
      if before_EOF Item then
        o ← parse_step nBoardRevision nState Item ItemText;
        match o with
        | None => mret true
        | Some nState =>
            '(Item, ItemText) ← zoom scanner set_scanner (GetNextItem fuel ItemText);
            parse_loop fuel' nBoardRevision nState Item ItemText
        end
      else if bool_decide (Item ≠ HtmlItemEOF) then
        Log LogError "HTML scanner error" [];; mret false
      else Log LogError "Revision table not found" [];; mret false
  end.

(** [ParseDocument]: the scanner is a local variable, and the result is the
    value returned with the screen and the world. *)
Definition ParseDocument (fuel : nat) (pDocument : option (list cell)) (scr : list Z) (w : W) :
    res (bool * (list Z * W)) :=
  let '(raw, w) := CMachineInfo_GetRevisionRaw w in
  let nBoardRevision := Z.land raw 0xFFFFFF in
  let '(_, w) := CLogger_Write LogNotice "Revision of this board is %04x" [ArgZ nBoardRevision] w in
  match construct pDocument with
  | Fault e => Fault e
  | Ok sc =>
      match ('(Item, ItemText) ← zoom scanner set_scanner (GetFirstItem fuel []);
             parse_loop fuel nBoardRevision 0 Item ItemText) (mkParse sc scr w) with
      | Ok (b, p) => Ok (b, (screen p, pworld p))
      | Fault e => Fault e
      end
  end.

(** ** Fetching the page *)

(** The part of [GetDocument] behind the connection of the client, which is a
    local variable and destroyed at the end. *)
Definition fetch (fuel : nat) : M (Http.call (W := W)) bool :=
  Status ← Http.Get fuel (Some Document);
  c ← get;
  (if negb (Status =? Http.HTTPOK) then
     Http.world_op (CLogger_Write LogError "HTTP request failed (status %u)" [ArgZ Status]);;
     Http.destruct_client;;
     mret false
   else
     nLength ← deref (Http.pLength c);
     Http.world_op (CLogger_Write LogDebug "%u bytes successfully received" [ArgZ nLength]);;
     assert_ (nLength <=? nDocMaxSize);;
     buf ← lift_res (wr (Http.pBuffer (Http.loc c)) nLength 0);
     modify (λ c, Http.set_loc (Http.set_output buf (Http.pBuffer_at (Http.loc c))
                                  (Http.nLength (Http.loc c)) (Http.loc c)) c);;
     Http.destruct_client;;
     mret true).

(** [GetDocument]: the result, the buffer and the world. *)
Definition GetDocument (fuel : nat) (pBuffer : option (list cell)) (w : W) :
    res (bool * (option (list cell) * W)) :=
  let '(o, w) := CDNSClient_Resolve Server w in
  match o with
  | None =>
      let '(_, w) := CLogger_Write LogError "Cannot resolve: %s" [ArgS Server] w in
      Ok (false, (pBuffer, w))
  | Some ForeignIP =>
      let '(_, w) := CLogger_Write LogDebug "Outgoing connection to %s"
                       [ArgS (CIPAddress_Format ForeignIP)] w in
      match pBuffer with
      | None => Fault AssertFailed
      | Some buf =>
          let Client := Http.construct true ForeignIP
            (if bUseSSL then Http.HTTPS_PORT else Http.HTTP_PORT) (Some Server) bUseSSL in
          match fetch fuel (Http.call_of Client buf (Some nDocMaxSize) w) with
          | Fault e => Fault e
          | Ok (b, c) => Ok (b, (Some (Http.pBuffer (Http.loc c)), Http.world c))
          end
      end
  end.

(** [Run]: what was written to the screen, and the world. *)
Definition Run (fuel : nat) (scr : list Z) (w : W) : res (list Z * W) :=
  let '(ok, w) := operator_new_array (nDocMaxSize + 1) w in
  let pBuffer := if ok : bool then Some (uninit (nDocMaxSize + 1)) else None in
  let '(_, w) := if ok then ((), w)
                 else CLogger_Write LogPanic "Cannot allocate document buffer" [] w in
  match GetDocument fuel pBuffer w with
  | Fault e => Fault e
  | Ok (false, (_, w)) => let '(_, w) := CScheduler_Sleep 10 w in Ok (scr, w)
  | Ok (true, (pBuffer, w)) =>
      match ParseDocument fuel pBuffer scr w with
      | Fault e => Fault e
      | Ok (_, (scr, w)) => let '(_, w) := CScheduler_Sleep 10 w in Ok (scr, w)
      end
  end.
End web.
End Web.
