(* ===== verification/WebSpec.v ===== *)
(** What the web client shows: [ParseDocument] as a function of the items of the
    page, and the table it looks for. *)
From stdpp Require Import base numbers list gmap option strings.
From S2P Require Import Prelude.
From S2P Require Import Libc.
From S2P Require Import Circle.
From S2P Require Import HttpClient.
From S2P Require Import HtmlScanner.
From S2P Require Import HtmlSpec.
From S2P Require Import HtmlScan.
From S2P Require Import WebClient.
Import Libc Html Web.

Section spec.
Context `{Target, CharSign, Platform W, WebPlatform W}.

(** * The items of a page *)

(** What a text in a column adds to the screen. *)
Definition show_text (rev : Z) (first : bool) (t : list Z) : list Z :=
  (if first then
     let '(v, rest) := strtoul t 16 in
     if bool_decide (rest = []) && (v =? rev) then ESC :: cstr "[1m" else []
   else cstr ", ") ++ CString_Replace t (cstr "&#160;") (cstr " ").

(** The end of a row. *)
Definition end_row : list Z := ESC :: cstr "[0m" ++ [10].

(** An item of the table: the next state ([None] at its end) and the output. *)
Definition show_column (rev st : Z) (i : THtmlItem * list Z) : option Z * list Z :=
  match i.1 with
  | HtmlItemTag =>
      if streq i.2 (cstr "</table>") then (None, [])
      else if streq i.2 (cstr "</tr>") then (Some 4, end_row) else (Some st, [])
  | HtmlItemText => (Some 5, show_text rev (st =? 4) i.2)
  | _ => (Some st, [])
  end.

Definition is_tag (i : THtmlItem * list Z) : bool := bool_decide (i.1 = HtmlItemTag).
Definition is_text (i : THtmlItem * list Z) : bool := bool_decide (i.1 = HtmlItemText).
Definition is_body (i : THtmlItem * list Z) : bool := is_tag i && strneq (cstr "<body") i.2.
Definition is_heading (i : THtmlItem * list Z) : bool :=
  is_text i && streq i.2 (cstr "Board Revision History").
Definition is_table (i : THtmlItem * list Z) : bool := is_tag i && strneq (cstr "<table") i.2.

Definition show_item (rev st : Z) (i : THtmlItem * list Z) : option Z * list Z :=
  if st =? 0 then (Some (if is_body i then 1 else st), [])
  else if st =? 1 then (Some (if is_heading i then 2 else st), [])
  else if st =? 2 then (Some (if is_table i then 3 else st), [])
  else if st =? 3 then
    if is_text i then
      if streq i.2 (cstr "Revision")
      then let '(o, out) := show_column rev 4 i in (o, 10 :: out) else (Some 2, [])
    else (Some st, [])
  else show_column rev st i.

(** The value [ParseDocument] returns, and its output. *)
Fixpoint show_items (rev st : Z) (l : list (THtmlItem * list Z)) : bool * list Z :=
  match l with
  | [] => (false, [])
  | i :: l =>
      if before_EOF i.1 then
        match show_item rev st i with
        | (None, out) => (true, out)
        | (Some st, out) => let '(b, outs) := show_items rev st l in (b, out ++ outs)
        end
      else (false, [])
  end.

(** ** [ParseDocument] does that *)

Lemma when_true (b : bool) {S} (m : M S ()) s : when b m s = if b then m s else Ok ((), s).
Proof using Type. by destruct b. Qed.

Lemma Screen_Write_run s (p : @parse W) : Screen_Write s p = Ok ((), set_screen (screen p ++ s) p).
Proof using Type. done. Qed.

Lemma set_screen_app a b (p : @parse W) :
  set_screen (screen (set_screen (screen p ++ a) p) ++ b) (set_screen (screen p ++ a) p) =
  set_screen (screen p ++ a ++ b) p.
Proof using Type. unfold set_screen. cbn [screen scanner pworld]. by rewrite <-app_assoc. Qed.

Lemma column_text_run rev st t (p : @parse W) :
  column_text rev st t p = Ok ((), set_screen (screen p ++ show_text rev (st =? 4) t) p).
Proof using Type.
  unfold column_text, show_text. rewrite bind_unfold. destruct (st =? 4).
  - destruct (strtoul t 16) as [v rest]. rewrite when_true.
    destruct (bool_decide (rest = []) && (v =? rev)); [|done].
    by rewrite !Screen_Write_run, set_screen_app.
  - by rewrite !Screen_Write_run, set_screen_app.
Qed.

Lemma set_screen_nil (p : @parse W) : set_screen (screen p ++ []) p = p.
Proof using Type. rewrite app_nil_r. by destruct p. Qed.

Lemma column_item_run rev st k t (p : @parse W) :
  column_item rev st k t p =
  Ok ((show_column rev st (k, t)).1, set_screen (screen p ++ (show_column rev st (k, t)).2) p).
Proof using Type.
  unfold column_item, show_column. cbn [fst snd]. destruct k; cbn; try (by rewrite set_screen_nil).
  - destruct (streq t _); cbn; [by rewrite set_screen_nil|].
    destruct (streq t _); cbn; [done|by rewrite set_screen_nil].
  - by rewrite (bind_run _ _ _ _ _ (column_text_run rev st t p)).
Qed.

Lemma parse_step_run rev st k t (p : @parse W) :
  0 ≤ st ≤ 5 →
  parse_step rev st k t p =
  Ok ((show_item rev st (k, t)).1, set_screen (screen p ++ (show_item rev st (k, t)).2) p) ∧
  (∀ st', (show_item rev st (k, t)).1 = Some st' → 0 ≤ st' ≤ 5).
Proof using Type.
  intros Hst. split.
  - unfold parse_step, show_item, is_body, is_heading, is_table, is_tag, is_text. cbn [fst snd].
    destruct (Z.eqb_spec st 0); [cbn; by rewrite set_screen_nil|].
    destruct (Z.eqb_spec st 1); [cbn; by rewrite set_screen_nil|].
    destruct (Z.eqb_spec st 2); [cbn; by rewrite set_screen_nil|].
    destruct (Z.eqb_spec st 3).
    + case_bool_decide; [|cbn; by rewrite set_screen_nil].
      destruct (streq t _); [|cbn; by rewrite set_screen_nil].
      rewrite bind_unfold, Screen_Write_run, column_item_run, set_screen_app.
      by destruct (show_column rev 4 (k, t)) as [o out].
    + destruct ((st =? 4) || (st =? 5)) eqn:E; [apply column_item_run|].
      apply orb_false_iff in E as [?%Z.eqb_neq ?%Z.eqb_neq]. lia.
  - intros st'. unfold show_item, show_column. repeat case_match; intros E; simplify_eq/=; lia.
Qed.

(** Taking the next item and going on, from any place of the document. *)
Lemma parse_loop_run content doc rev f1 f2 n m st s t (p : @parse W) :
  document content doc → scanning content doc n s (scanner p) → 0 ≤ st ≤ 5 →
  (n < f1)%nat → (n < f2)%nat → (n < m)%nat →
  wp no_fault
    ('(k, t) ← zoom scanner set_scanner (GetNextItem f1 t); parse_loop f2 rev st k t)
    (λ b p', let r := show_items rev st (items m (tagged (scanner p)) t s) in
       b = r.1 ∧ screen p' = screen p ++ r.2) p.
Proof using Type.
  intros Hdoc. revert f1 n m st s t p. induction f2 as [|f2 IH]; intros f1 n m st s t p Hsc Hst Hf1 Hf2 Hm; [lia|].
  destruct m as [|m]; [lia|]. wp_step. wp_step. eapply wp_mono; [by eapply GetNextItem_run|].
  intros o sc1 Ho. cbn [items parse_loop].
  destruct (next_item (tagged (scanner p)) s) as [k1 t1 rest| |rest] eqn:En; cbn in Ho.
  - destruct Ho as (-> & HT & n1 & Hn1 & Hsc1). cbn [show_items fst].
    destruct (before_EOF k1) eqn:Ek.
    + destruct (parse_step_run rev st k1 t1 (set_scanner sc1 p) Hst) as [E Hst1].
      destruct (show_item rev st (k1, t1)) as [[st1|] out]; cbn [fst snd] in E, Hst1;
        (eapply wp_run; [exact E|]).
      * eapply wp_mono; [eapply (IH (S f2) n1 m); [exact Hsc1|by apply Hst1|lia|lia|lia]|].
        intros b p'. cbv zeta. unfold tagged. cbn [set_screen set_scanner scanner]. rewrite HT.
        assert (negb ((if bool_decide (k1 = HtmlItemText) then 1 else 0) =? 0) =
          bool_decide (k1 = HtmlItemText)) as -> by by destruct (bool_decide _).
        destruct (show_items rev st1 _) as [b1 outs]. intros [-> ->]. split; [done|].
        cbn. by rewrite app_assoc.
      * by apply wp_ret.
    + apply next_item_kind in En. exfalso. by destruct k1; naive_solver.
  - subst o. cbn [before_EOF]. rewrite bool_decide_false by naive_solver. wp_step.
    eapply wp_env. intros [] w _. wp_step. cbn. by rewrite app_nil_r.
  - destruct Ho as (-> & HT & n1 & Hn1 & Hsc1). cbn [before_EOF show_items fst].
    rewrite bool_decide_true by done. wp_step. eapply wp_env. intros [] w _. wp_step. cbn.
    by rewrite app_nil_r.
Qed.

Lemma ParseDocument_run content doc fuel scr w :
  document content doc → (length doc < fuel)%nat →
  ∃ w', ParseDocument fuel (Some content) scr w =
    let rev := Z.land (CMachineInfo_GetRevisionRaw w).1 0xFFFFFF in
    let r := show_items rev 0 (document_items [] doc) in Ok (r.1, (scr ++ r.2, w')).
Proof using Type.
  intros Hdoc Hf. unfold ParseDocument. destruct (CMachineInfo_GetRevisionRaw w) as [raw w1].
  cbn [fst]. set (rev := Z.land raw 0xFFFFFF). destruct (CLogger_Write _ _ _ w1) as [[] w2].
  destruct (construct (Some content)) as [sc|] eqn:E; [|done].
  pose proof (scanning_construct content doc sc E) as Hsc.
  pose proof (parse_loop_run content doc rev fuel fuel _ (S (length doc)) 0 _ [] (mkParse sc scr w2)
    Hdoc Hsc ltac:(lia) Hf Hf ltac:(lia)) as Hrun.
  apply wp_total in Hrun as (b & p' & Hr & -> & Hs). exists (pworld p').
  assert (GetFirstItem fuel [] sc = GetNextItem fuel [] sc) as Hfirst.
  { unfold GetFirstItem. rewrite bind_unfold. cbn [modify]. by injection E as <-. }
  rewrite bind_unfold in *. unfold zoom in *. cbn [scanner] in *. rewrite Hfirst, Hr, Hs.
  unfold document_items. assert (tagged sc = false) as -> by (by injection E as <-).
  cbn [screen]. done.
Qed.
End spec.
