(* ===== verification/WebProps.v ===== *)
(** Properties of the web client sample: the table it shows, and the way of a
    page from the network to the screen. *)
From stdpp Require Import base numbers list gmap option strings.
From S2P Require Import Prelude.
From S2P Require Import Libc.
From S2P Require Import Circle.
From S2P Require Import HttpClient.
From S2P Require Import HttpSpec.
From S2P Require Import HttpParse.
From S2P Require Import HttpSafety.
From S2P Require Import HtmlScanner.
From S2P Require Import HtmlSpec.
From S2P Require Import HtmlScan.
From S2P Require Import WebClient.
From S2P Require Import WebSpec.
Import Libc Html Web.

Section table.
Context `{Target, CharSign, Platform W, WebPlatform W}.

Abbreviation item := (THtmlItem * list Z)%type.

Definition row_end : item := (HtmlItemTag, cstr "</tr>").
Definition table_end : item := (HtmlItemTag, cstr "</table>").

(** An item inside a row. *)
Definition in_row (i : item) : Prop := before_EOF i.1 = true ∧ i ≠ row_end ∧ i ≠ table_end.

(** An item a search passes over. *)
Definition passes (p : item → bool) (i : item) : Prop := before_EOF i.1 = true ∧ p i = false.

(** The texts of a row. *)
Definition texts (row : list item) : list (list Z) := (filter (λ i, is_text i = true) row).*2.

Fixpoint show_texts (rev : Z) (first : bool) (ts : list (list Z)) : list Z :=
  match ts with
  | [] => []
  | t :: ts => show_text rev first t ++ show_texts rev false ts
  end.

Definition show_row (rev : Z) (ts : list (list Z)) : list Z := show_texts rev true ts ++ end_row.

(** Items between the heading and the table: other tables may come first, whose
    first text is not the one looked for. *)
Inductive searching : list item → Prop :=
  | searching_end : searching []
  | searching_pass i l : passes is_table i → searching l → searching (i :: l)
  | searching_table tb pre t l :
      is_table tb = true → Forall (passes is_text) pre → t ≠ cstr "Revision" →
      searching l → searching (tb :: pre ++ (HtmlItemText, t) :: l).

(** Two runs, one after the other. *)
Definition add_output (out : list Z) (r : bool * list Z) : bool * list Z := (r.1, out ++ r.2).

Lemma add_output_nil r : add_output [] r = r.
Proof using Type. by destruct r. Qed.

Lemma show_items_cons rev st st' i l out :
  before_EOF i.1 = true → show_item rev st i = (Some st', out) →
  show_items rev st (i :: l) = add_output out (show_items rev st' l).
Proof using Type. intros E1 E2. cbn. rewrite E1, E2. by destruct (show_items rev st' l). Qed.

Lemma tag_before i : is_tag i = true → before_EOF i.1 = true.
Proof using Type. intros E%bool_decide_eq_true. by rewrite E. Qed.
Lemma text_before i : is_text i = true → before_EOF i.1 = true.
Proof using Type. intros E%bool_decide_eq_true. by rewrite E. Qed.

(** The three searches: for the body, for the heading and for a table. *)
Lemma pass_run rev st p pre l :
  (st = 0 ∧ p = is_body) ∨ (st = 1 ∧ p = is_heading) ∨ (st = 2 ∧ p = is_table) ∨
    (st = 3 ∧ p = is_text) →
  Forall (passes p) pre → show_items rev st (pre ++ l) = show_items rev st l.
Proof using Type.
  intros Hp. induction 1 as [|i pre [Hi Hpi] Hpre IH]; [done|]. cbn [app].
  rewrite (show_items_cons _ _ st _ _ []); [by rewrite add_output_nil|done|].
  unfold show_item. destruct Hp as [[-> ->] | [[-> ->] | [[-> ->] | [-> ->]]]]; cbn [Z.eqb];
    by rewrite Hpi.
Qed.

Lemma found_run rev i l :
  (is_body i = true → show_items rev 0 (i :: l) = show_items rev 1 l) ∧
  (is_heading i = true → show_items rev 1 (i :: l) = show_items rev 2 l) ∧
  (is_table i = true → show_items rev 2 (i :: l) = show_items rev 3 l).
Proof using Type.
  split_and!; intros E; pose proof E as [E' _]%andb_true_iff;
    (erewrite show_items_cons; [apply add_output_nil| |]);
    [by apply tag_before| |by apply text_before| |by apply tag_before|];
    unfold show_item; cbn [Z.eqb]; by rewrite E.
Qed.

Lemma searching_run rev pre l :
  searching pre → show_items rev 2 (pre ++ l) = show_items rev 2 l.
Proof using Type.
  induction 1 as [|i pre Hi Hpre IH|tb pre t pre' Htb Hpre Ht _ IH]; [done| |].
  - rewrite <-IH. apply (pass_run rev 2 is_table [i] (pre ++ l)); [tauto|by constructor].
  - cbn [app]. rewrite (proj2 (proj2 (found_run rev tb _)) Htb), <-app_assoc.
    rewrite (pass_run rev 3 is_text pre _) by (done || tauto). cbn [app].
    rewrite (show_items_cons _ _ 2 _ _ []); [by rewrite add_output_nil|done|].
    unfold show_item. cbn. unfold streq. by rewrite bool_decide_false.
Qed.

Lemma in_row_item rev st i :
  in_row i → 4 ≤ st ≤ 5 →
  show_item rev st i = if is_text i then (Some 5, show_text rev (st =? 4) i.2) else (Some st, []).
Proof using Type.
  intros (Hi & Hr & Ht) Hst. unfold show_item.
  destruct (Z.eqb_spec st 0), (Z.eqb_spec st 1), (Z.eqb_spec st 2), (Z.eqb_spec st 3); try lia.
  unfold show_column, is_text. destruct i as [[] t]; cbn [fst snd]; try done.
  unfold streq. by rewrite !bool_decide_false by (done || by intros ->).
Qed.

Lemma row_run rev st row l :
  Forall in_row row → 4 ≤ st ≤ 5 →
  ∃ st', 4 ≤ st' ≤ 5 ∧
    show_items rev st (row ++ l) =
    add_output (show_texts rev (st =? 4) (texts row)) (show_items rev st' l).
Proof using Type.
  intros Hrow. revert st. induction Hrow as [|i row Hi Hrow IH]; intros st Hst.
  { exists st. split; [done|]. by rewrite add_output_nil. }
  cbn [app]. rewrite (show_items_cons rev st (if is_text i then 5 else st) i (row ++ l)
    (if is_text i then show_text rev (st =? 4) i.2 else [])); [|by apply Hi|].
  2: { rewrite (in_row_item _ _ _ Hi Hst). by destruct (is_text i). }
  unfold texts. rewrite filter_cons. destruct (is_text i) eqn:E.
  - destruct (IH 5 ltac:(lia)) as (st' & Hst' & ->). exists st'. split; [done|].
    rewrite decide_True by done. unfold add_output. cbn. by rewrite <-app_assoc.
  - destruct (IH st Hst) as (st' & Hst' & ->). exists st'. split; [done|].
    rewrite decide_False by done. done.
Qed.

Lemma row_end_run rev st l :
  4 ≤ st ≤ 5 → show_items rev st (row_end :: l) = add_output end_row (show_items rev 4 l).
Proof using Type.
  intros Hst. apply show_items_cons; [done|]. unfold show_item.
  destruct (Z.eqb_spec st 0), (Z.eqb_spec st 1), (Z.eqb_spec st 2), (Z.eqb_spec st 3); try lia. done.
Qed.

Lemma table_end_run rev st l : 4 ≤ st ≤ 5 → show_items rev st (table_end :: l) = (true, []).
Proof using Type.
  intros Hst. cbn [show_items table_end fst before_EOF]. unfold show_item.
  destruct (Z.eqb_spec st 0), (Z.eqb_spec st 1), (Z.eqb_spec st 2), (Z.eqb_spec st 3); try lia. done.
Qed.

Lemma rows_run rev rows gap post :
  Forall (Forall in_row) rows → Forall in_row gap →
  show_items rev 4 (concat ((λ r, r ++ [row_end]) <$> rows) ++ gap ++ table_end :: post) =
  (true, concat ((λ r, show_row rev (texts r)) <$> rows) ++ show_texts rev true (texts gap)).
Proof using Type.
  intros Hrows Hgap. induction Hrows as [|r rows Hr Hrows IH]; cbn.
  - destruct (row_run rev 4 gap (table_end :: post) Hgap) as (st & Hst & ->); [lia|].
    rewrite table_end_run by done. unfold add_output. cbn. by rewrite app_nil_r.
  - rewrite <-!app_assoc. destruct (row_run rev 4 r (row_end :: concat ((λ r, r ++ [row_end]) <$> rows) ++ gap ++ table_end :: post) Hr)
      as (st & Hst & E); [lia|]. cbn [app]. rewrite E, row_end_run, IH by done.
    unfold add_output, show_row. cbn. by rewrite <-!app_assoc.
Qed.

(** The header row, whose first text has started the table. *)
Lemma header_row_run rev hdr l :
  Forall in_row hdr →
  show_items rev 3 ((HtmlItemText, cstr "Revision") :: hdr ++ row_end :: l) =
  add_output (10 :: show_row rev (cstr "Revision" :: texts hdr)) (show_items rev 4 l).
Proof using Type.
  intros Hhdr. rewrite (show_items_cons _ _ 5 _ _ (10 :: show_text rev true (cstr "Revision")));
    [|done|done].
  destruct (row_run rev 5 hdr (row_end :: l) Hhdr) as (st & Hst & ->); [lia|].
  rewrite row_end_run by done. unfold add_output, show_row. cbn -[show_text].
  by rewrite <-!app_assoc.
Qed.
End table.

(** The table of the page: when the document has a body, the heading
    "Board Revision History" behind it, and behind that a table whose first text
    is "Revision" (tables with another first text are passed over),
    [ParseDocument] returns [TRUE] and writes a line for each row of the table:
    the texts of the row with commas between them, highlighted when the first
    is the number of this board's revision. *)
Theorem revision_table `{Target, CharSign, Platform W, WebPlatform W} content doc fuel scr (w : W)
    pre0 bdy pre1 hd pre2 tb pre3 hdr rows gap post :
  let rev := Z.land (CMachineInfo_GetRevisionRaw w).1 0xFFFFFF in
  document content doc → (length doc < fuel)%nat →
  Forall (passes is_body) pre0 → is_body bdy = true →
  Forall (passes is_heading) pre1 → is_heading hd = true →
  searching pre2 → is_table tb = true → Forall (passes is_text) pre3 →
  Forall in_row hdr → Forall (Forall in_row) rows → Forall in_row gap →
  document_items [] doc =
    pre0 ++ bdy :: pre1 ++ hd :: pre2 ++ tb :: pre3 ++ (HtmlItemText, cstr "Revision") ::
    hdr ++ row_end :: concat ((λ r, r ++ [row_end]) <$> rows) ++ gap ++ table_end :: post →
  ∃ w', ParseDocument fuel (Some content) scr w =
    Ok (true, (scr ++ [10] ++ show_row rev (cstr "Revision" :: texts hdr) ++
                 concat ((λ r, show_row rev (texts r)) <$> rows) ++ show_texts rev true (texts gap),
               w')).
Proof.
  intros rev Hdoc Hf Hp0 Hb Hp1 Hh Hp2 Ht Hp3 Hhdr Hrows Hgap Hitems.
  destruct (ParseDocument_run content doc fuel scr w Hdoc Hf) as (w' & E). exists w'.
  rewrite E. cbv zeta. fold rev. rewrite Hitems.
  rewrite (pass_run rev 0 is_body pre0) by (done || tauto).
  rewrite (proj1 (found_run rev bdy _)) by done.
  rewrite (pass_run rev 1 is_heading pre1) by (done || tauto).
  rewrite (proj1 (proj2 (found_run rev hd _))), (searching_run rev pre2) by done.
  rewrite (proj2 (proj2 (found_run rev tb _))) by done.
  rewrite (pass_run rev 3 is_text pre3) by (done || tauto).
  rewrite header_row_run, rows_run by done. unfold add_output. cbn. by rewrite <-app_assoc.
Qed.

(** A page for the evaluation of the properties. *)
Fixpoint replace_all (fuel : nat) (s a b : list Z) : list Z :=
  match fuel, s with
  | S fuel, c :: s' =>
      if strneq a s then b ++ replace_all fuel (drop (length a) s) a b
      else c :: replace_all fuel s' a b
  | _, _ => s
  end.

#[local] Instance script_web : WebPlatform Script.t := {|
  CMachineInfo_GetRevisionRaw w := (0x3a02082, w);
  CString_Replace s a b := replace_all (length s) s a b;
  CScheduler_Sleep n w := Script.sleep (100 * n) w
|}.

Definition history : list Z := cstr ("<html> <body><p>Board Revision History</p>" ++
  "<table><tr><td>Model</td></tr></table>" ++
  "<table><tr><th>Revision</th><th>Year</th></tr>" ++
  "<tr><td>a02082</td><td>2016&#160;Q1</td></tr></table></body>").

Lemma history_document : document (cells history) history.
Proof. by apply document_cells; [apply (bool_decide_unpack _); vm_compute|]. Qed.

Definition tag (s : string) : THtmlItem * list Z := (HtmlItemTag, cstr s).
Definition txt (s : string) : THtmlItem * list Z := (HtmlItemText, cstr s).

Lemma revision_table_witness :
  ∃ w', @ParseDocument aarch32 false Script.t Script.platform script_web 1000
          (Some (cells history)) [] (Script.init []) =
    Ok (true, ([10] ++ (cstr "Revision, Year" ++ ESC :: cstr "[0m" ++ [10]) ++
                 ESC :: cstr "[1ma02082, 2016 Q1" ++ ESC :: cstr "[0m" ++ [10], w')).
Proof.
  destruct (@revision_table aarch32 false Script.t Script.platform script_web
    (cells history) history 1000 [] (Script.init [])
    [tag "<html>"] (tag "<body>") [tag "<p>"] (txt "Board Revision History")
    [tag "</p>"; tag "<table>"; tag "<tr>"; tag "<td>"; txt "Model"; tag "</td>"; tag "</tr>"; tag "</table>"]
    (tag "<table>") [tag "<tr>"; tag "<th>"] [tag "</th>"; tag "<th>"; txt "Year"; tag "</th>"]
    [[tag "<tr>"; tag "<td>"; txt "a02082"; tag "</td>"; tag "<td>"; txt "2016&#160;Q1"; tag "</td>"]]
    [] [tag "</body>"]) as (w' & E).
  - exact history_document.
  - apply Nat.ltb_lt. by vm_compute.
  - by repeat constructor.
  - done.
  - by repeat constructor.
  - done.
  - apply searching_pass; [by split|].
    apply (searching_table (tag "<table>") [tag "<tr>"; tag "<td>"] (cstr "Model")); [done| |done|];
      by repeat constructor.
  - done.
  - by repeat constructor.
  - by repeat constructor.
  - by repeat constructor.
  - by repeat constructor.
  - by vm_compute.
  - exists w'. rewrite E. by vm_compute.
Defined.

(** ** From the network to the screen *)

Lemma wr_written_end buf page :
  Z.of_nat (length page) < Z.of_nat (length buf) →
  wr (written buf page) (Z.of_nat (length page)) 0 = Ok (written buf (page ++ [0])).
Proof. apply written_snoc. Qed.

Lemma written_document buf page :
  Z.of_nat (length page) < Z.of_nat (length buf) → Z.of_nat (length page) < 2^31 - 1 →
  Forall (λ c, is_byte c ∧ c ≠ 0) page → document (written buf (page ++ [0])) page.
Proof.
  intros Hl Hlen [Hb Hz]%Forall_and. split_and!; [|done|done]. split; [|done].
  split; [done|]. intros j b Hj. unfold written. change (Z.to_nat 0 + j)%nat with j.
  rewrite lookup_app_l by (rewrite length_fmap; by eapply lookup_lt_Some).
  by rewrite list_lookup_fmap, Hj.
Qed.

(** The destructor of the client, when the socket is gone already. *)
Lemma destruct_client_run `{Platform W} (c : Http.call (W := W)) :
  Http.m_pSocket (Http.client c) = None →
  ∃ c', Http.destruct_client c = Ok ((), c') ∧ Http.loc c' = Http.loc c ∧ Http.world c' = Http.world c.
Proof.
  intros E. unfold Http.destruct_client, Http.delete_socket. rewrite !bind_unfold.
  cbn. rewrite bind_unfold. cbn. rewrite E. cbn. by eexists.
Qed.

(** The end of [GetDocument] after a successful request. *)
Lemma fetch_run `{Target, Platform W} fuel (c c' : Http.call (W := W)) page :
  Http.Get fuel (Some Document) c = Ok (Http.HTTPOK, c') →
  Http.m_pSocket (Http.client c') = None →
  Http.pLength c' = Some (Z.of_nat (length page)) →
  Http.pBuffer (Http.loc c') = written (Http.pBuffer (Http.loc c)) page →
  Z.of_nat (length page) ≤ nDocMaxSize →
  nDocMaxSize < Z.of_nat (length (Http.pBuffer (Http.loc c))) →
  ∃ c2, fetch fuel c = Ok (true, c2) ∧
    Http.pBuffer (Http.loc c2) = written (Http.pBuffer (Http.loc c)) (page ++ [0]).
Proof.
  intros E Hs Hn Hb Hl Hbuf. unfold fetch. rewrite (bind_run _ _ _ _ _ E).
  rewrite bind_unfold. cbn [get]. rewrite Z.eqb_refl. cbn [negb].
  rewrite bind_unfold, Hn. cbn [deref]. rewrite bind_unfold. unfold Http.world_op, env at 1.
  destruct (CLogger_Write _ _ _ (Http.world c')) as [[] w1].
  rewrite bind_unfold. unfold assert_. rewrite (proj2 (Z.leb_le _ _) Hl).
  rewrite bind_unfold, Hb, wr_written_end by lia. cbn [lift_res]. rewrite bind_unfold. cbn [modify].
  rewrite bind_unfold. match goal with |- context [Http.destruct_client ?c] => set (c3 := c) end.
  destruct (destruct_client_run c3 Hs) as (c4 & -> & E4 & _).
  exists c4. split; [done|]. by rewrite E4.
Qed.


Definition answer : list (list Z) :=
  [header (cstr "HTTP/1.1 200 OK") [cstr "Server: demo"] ++ cstr "<html> <body>"; cstr "hello</body>"].
Definition answer_page : list Z := cstr "<html> <body>hello</body>".
Definition kernel_start : Script.t := Script.init (Some <$> answer).

(** The request of the kernel for a buffer, and the world when it was sent. *)
Definition kernel_call (buf : list cell) : Http.call (W := Script.t) :=
  Http.call_of (@Http.construct Script.t Script.platform true Server Http.HTTPS_PORT (Some Server) bUseSSL)
    buf (Some nDocMaxSize)
    (Script.write_log LogDebug "Outgoing connection to %s" [ArgS Server] kernel_start).2.
Definition requested : Script.t :=
  match Http.start Http.HTTPRequestMethodGet (Some Document) None (kernel_call []) with
  | Ok (_, c) => Http.world c
  | Fault _ => kernel_start
  end.

Definition answered : Script.t :=
  let w := requested in
  Script.mk [] (Script.tx w) (Script.tx_refused w) (Script.now w) (Script.log w) (Script.opened w)
    (Script.closed w) (Script.events w).

Lemma kernel_request buf :
  ∃ c1, Http.start Http.HTTPRequestMethodGet (Some Document) None (kernel_call buf) = Ok (None, c1) ∧
    Http.m_pSocket (Http.client c1) = Some 0%nat ∧ Http.world c1 = requested.
Proof.
  assert (match Http.start Http.HTTPRequestMethodGet (Some Document) None (kernel_call buf) with
          | Ok (None, c1) => Http.m_pSocket (Http.client c1) = Some 0%nat ∧ Http.world c1 = requested
          | _ => False
          end) as Hc by (vm_compute; split; reflexivity).
  destruct (Http.start _ _ _ _) as [[[] c1]|]; [done| |done]. by exists c1.
Qed.

Lemma answer_meaning buf :
  nDocMaxSize ≤ Z.of_nat (length buf) →
  @interpret aarch32 (Some nDocMaxSize) buf (concat answer) =
  Ok (Http.HTTPOK, written buf answer_page, Some (Z.of_nat (length answer_page))).
Proof.
  intros Hb. assert (concat answer = header (cstr "HTTP/1.1 200 OK") [cstr "Server: demo"] ++ answer_page) as ->
    by (vm_compute; reflexivity).
  rewrite (@content_interpret aarch32 nDocMaxSize buf).
  - assert ((Z.of_nat (length answer_page) <=? nDocMaxSize) = true) as -> by (vm_compute; reflexivity).
    reflexivity.
  - unfold nDocMaxSize. lia.
  - exact Hb.
  - apply (bool_decide_unpack _). vm_compute. exact I.
  - vm_compute. reflexivity.
  - constructor; [|constructor]. apply (bool_decide_unpack _). vm_compute. exact I.
  - cbn [length]. lia.
  - vm_compute. reflexivity.
Qed.

