(* ===== verification/NetSockets.v ===== *)
(** The sockets below mbed TLS: the class [CAdaptedSocket] of
    [adaptedsocket.cpp] and the functions [mbedtls_net_*] of [net_sockets.cpp].

    mbed TLS names its sockets by small integers; [CAdaptedSocket] keeps the
    table from these handles to its objects.  The objects live in a heap that is
    part of the state, so that deletion and dangling pointers are visible. *)
From stdpp Require Import base numbers list gmap option strings.
From S2P Require Import Prelude.
From S2P Require Import Libc.
From S2P Require Import Circle.
Import Libc.

(** * What the code calls *)

(** The result codes and constants of mbed TLS. *)
Class MbedTLS := {
  MBEDTLS_ERR_NET_SOCKET_FAILED : Z;
  MBEDTLS_ERR_NET_CONNECT_FAILED : Z;
  MBEDTLS_ERR_NET_BIND_FAILED : Z;
  MBEDTLS_ERR_NET_ACCEPT_FAILED : Z;
  MBEDTLS_ERR_NET_SEND_FAILED : Z;
  MBEDTLS_ERR_NET_UNKNOWN_HOST : Z;
  MBEDTLS_ERR_NET_BUFFER_TOO_SMALL : Z;
  MBEDTLS_ERR_NET_INVALID_CONTEXT : Z;
  MBEDTLS_ERR_SSL_ALLOC_FAILED : Z;
  MBEDTLS_ERR_SSL_WANT_READ : Z;
  MBEDTLS_ERR_SSL_WANT_WRITE : Z;
  MBEDTLS_ERR_SSL_TIMEOUT : Z;
  MBEDTLS_ERR_X509_CERT_VERIFY_FAILED : Z;
  MBEDTLS_NET_PROTO_TCP : Z;
  MBEDTLS_NET_LISTEN_BACKLOG : Z
}.

(** Error codes are negative. *)
Class MbedTLSOk `{MbedTLS} := {
  net_errors_neg : Forall (λ e, e < 0)
    [MBEDTLS_ERR_NET_SOCKET_FAILED; MBEDTLS_ERR_NET_CONNECT_FAILED; MBEDTLS_ERR_NET_BIND_FAILED;
     MBEDTLS_ERR_NET_ACCEPT_FAILED; MBEDTLS_ERR_NET_SEND_FAILED; MBEDTLS_ERR_NET_UNKNOWN_HOST;
     MBEDTLS_ERR_NET_BUFFER_TOO_SMALL; MBEDTLS_ERR_NET_INVALID_CONTEXT;
     MBEDTLS_ERR_SSL_ALLOC_FAILED; MBEDTLS_ERR_SSL_WANT_READ; MBEDTLS_ERR_SSL_WANT_WRITE;
     MBEDTLS_ERR_SSL_TIMEOUT; MBEDTLS_ERR_X509_CERT_VERIFY_FAILED]
}.

(** The operations of [CSocket], the scheduler and the allocator that
    [Platform] does not have.  [CSocket_Accept] returns the new connection with
    the address of the other side. *)
Class SocketPlatform (W : Type) `{Platform W} := {
  IPPROTO_TCP : Z;
  IP_ADDRESS_SIZE : Z;
  MSEC2HZ : Z → Z;
  operator_new : W → bool * W;
  CSocket_new : Z → W → Sock * W;
  CSocket_Bind : Sock → Z → W → Z * W;
  CSocket_Listen : Sock → Z → W → Z * W;
  CSocket_Accept : Sock → W → option (Sock * IPAddr) * W;
  CSocket_GetForeignIP : Sock → W → option (list Z) * W;
  CIPAddress_CopyTo : IPAddr → list Z;
  CScheduler_Yield : W → () * W;
  CScheduler_usSleep : Z → W → () * W
}.

(** [CPtrArray]: a growing array of pointers.  [pa_view] is its content. *)
Class PtrArray := {
  parray : Type;
  pa_empty : parray;
  pa_GetCount : parray → Z;
  pa_get : parray → Z → Z;
  pa_set : parray → Z → Z → parray;
  pa_Append : parray → Z → parray * Z;
  pa_view : parray → list Z
}.

Class PtrArrayOk `{PtrArray} := {
  pa_view_empty : pa_view pa_empty = [];
  pa_GetCount_view a : pa_GetCount a = Z.of_nat (length (pa_view a));
  pa_get_view a (i : nat) p : pa_view a !! i = Some p → pa_get a (Z.of_nat i) = p;
  pa_set_view a (i : nat) p :
    (i < length (pa_view a))%nat → pa_view (pa_set a (Z.of_nat i) p) = <[i := p]> (pa_view a);
  pa_Append_view a p :
    pa_view (pa_Append a p).1 = pa_view a ++ [p] ∧ (pa_Append a p).2 = pa_GetCount a
}.

(** An instance: the list itself. *)
#[export] Instance list_PtrArray : PtrArray := {|
  parray := list Z;
  pa_empty := [];
  pa_GetCount a := Z.of_nat (length a);
  pa_get a i := nth (Z.to_nat i) a 0;
  pa_set a i p := <[Z.to_nat i := p]> a;
  pa_Append a p := (a ++ [p], Z.of_nat (length a));
  pa_view a := a
|}.

#[export] Instance list_PtrArray_ok : PtrArrayOk.
Proof.
  split; cbn; try done.
  - intros a i p Hp. rewrite Nat2Z.id. by apply nth_lookup_Some.
  - intros a i p _. by rewrite Nat2Z.id.
Qed.

Module Net.
(** [strtoul] on a port, and the test behind it, as [Connect] and [Bind] have
    it; [None] is a port they refuse. *)
Definition port_number `{Target} (pPort : list Z) : option Z :=
  let '(ulPort, pEnd) := strtoul pPort 10 in
  if bool_decide (pEnd ≠ []) || ((ulPort =? 0) || (ulPort >? 0xFFFF)) then None else Some (u16 ulPort).

Section net.
Context `{Target, MbedTLS, PtrArray, SocketPlatform W}.

(** An object of the class; [m_pSocket] is null after its deletion only, and
    then the object is gone. *)
Record CAdaptedSocket := mkAdapted {
  m_pSocket : Sock;
  m_nHandle : Z;
  m_RxBuffer : list cell;
  m_nRxBytesValid : Z;
  m_nRxBytesUsed : Z;
  m_bBlock : bool
}.
Definition set_rx (buf : list cell) (valid used : Z) (o : CAdaptedSocket) : CAdaptedSocket :=
  mkAdapted (m_pSocket o) (m_nHandle o) buf valid used (m_bBlock o).
Definition set_block (b : bool) (o : CAdaptedSocket) : CAdaptedSocket :=
  mkAdapted (m_pSocket o) (m_nHandle o) (m_RxBuffer o) (m_nRxBytesValid o) (m_nRxBytesUsed o) b.

(** The state: the objects by their addresses, the address of the next object,
    the table of the class, the field [fd] of each [mbedtls_net_context] by its
    address, and the world. *)
Record net := mkNet {
  heap : gmap Z CAdaptedSocket;
  next_address : Z;
  s_SocketArray : parray;
  contexts : gmap Z Z;
  world : W
}.
Definition set_heap (x : gmap Z CAdaptedSocket) (s : net) : net :=
  mkNet x (next_address s) (s_SocketArray s) (contexts s) (world s).
Definition set_array (x : parray) (s : net) : net :=
  mkNet (heap s) (next_address s) x (contexts s) (world s).
Definition set_contexts (x : gmap Z Z) (s : net) : net :=
  mkNet (heap s) (next_address s) (s_SocketArray s) x (world s).
Definition set_world (x : W) (s : net) : net :=
  mkNet (heap s) (next_address s) (s_SocketArray s) (contexts s) x.

Abbreviation N := (M net).

Definition world_op {A} (f : W → A * W) : N A := env world set_world f.

(** The object at an address, and its update. *)
Definition load (p : Z) : N CAdaptedSocket :=
  s ← get;
  if p =? 0 then fail NullDeref
  else match heap s !! p with Some o => mret o | None => fail BadAccess end.
Definition update (p : Z) (f : CAdaptedSocket → CAdaptedSocket) : N () :=
  o ← load p; modify (λ s, set_heap (<[p := f o]> (heap s)) s).

(** [s_SocketArray[i]], which has to be an index of the array. *)
Definition array_at (i : Z) : N Z :=
  s ← get;
  if (0 <=? i) && (i <? pa_GetCount (s_SocketArray s)) then mret (pa_get (s_SocketArray s) i)
  else fail BadAccess.
Definition array_put (i p : Z) : N () :=
  s ← get;
  if (0 <=? i) && (i <? pa_GetCount (s_SocketArray s))
  then put (set_array (pa_set (s_SocketArray s) i p) s) else fail BadAccess.

(** The [for] loop of [AddSocket], over the [n] last indices of the array. *)
Fixpoint free_slot (n : nat) (i : Z) : N (option Z) :=
  match n with
  | O => mret None
  | S n => p ← array_at i; if p =? 0 then mret (Some i) else free_slot n (i + 1)
  end.

Definition AddSocket (pSocket : Z) : N Z :=
  assert_ (negb (pSocket =? 0));;
  s ← get;
  o ← free_slot (Z.to_nat (pa_GetCount (s_SocketArray s))) 0;
  match o with
  | Some i => array_put i pSocket;; mret (s32 i)
  | None =>
      let '(a, i) := pa_Append (s_SocketArray s) pSocket in
      modify (set_array a);; mret (s32 i)
  end.

Definition DeleteSocket (nHandle : Z) : N () :=
  assert_ (nHandle >=? 0);; array_put nHandle 0.

(** The static [Get]: a pointer, null for a negative handle. *)
Definition Get (nHandle : Z) : N Z := if nHandle <? 0 then mret 0 else array_at nHandle.

Definition GetHandle (p : Z) : N Z :=
  o ← load p; assert_ (m_nHandle o >=? 0);; mret (m_nHandle o).

(** The members a constructor initialises for an object at a new address. *)
Definition construct (pSocket : Sock) : N Z :=
  s ← get;
  let p := next_address s in
  put (mkNet (heap s) (p + 1) (s_SocketArray s) (contexts s) (world s));;
  nHandle ← AddSocket p;
  modify (λ s, set_heap (<[p := mkAdapted pSocket nHandle (uninit FRAME_BUFFER_SIZE) 0 0 true]>
                           (heap s)) s);;
  assert_ (nHandle >=? 0);;
  mret p.

(** [new CAdaptedSocket (pNetSubSystem, nProtocol)]: the address, or null. *)
Definition new_CAdaptedSocket (nProtocol : Z) : N Z :=
  b ← world_op operator_new;
  if negb b then mret 0
  else
    sock ← world_op (CSocket_new nProtocol);
    p ← construct sock;
    assert_ (nProtocol =? IPPROTO_TCP);;
    mret p.

(** [new CAdaptedSocket (pNetSubSystem, pSocket)] for an accepted connection. *)
Definition new_accepted (pSocket : Sock) : N Z :=
  b ← world_op operator_new;
  if negb b then mret 0 else construct pSocket.

(** [delete pSocket], with the destructor. *)
Definition delete_CAdaptedSocket (p : Z) : N () :=
  if p =? 0 then mret ()
  else
    o ← load p;
    DeleteSocket (m_nHandle o);;
    world_op (CNetSocket_delete (m_pSocket o));;
    modify (λ s, set_heap (delete p (heap s)) s).

(** ** Connections *)

Definition Connect (p : Z) (rForeignIP : IPAddr) (nForeignPort : Z) : N Z :=
  o ← load p;
  n ← world_op (CNetSocket_Connect (m_pSocket o) rForeignIP nForeignPort);
  mret (if n <? 0 then MBEDTLS_ERR_NET_CONNECT_FAILED else 0).

Definition Connect_host (p : Z) (pHost pPort : option (list Z)) : N Z :=
  assert_ (bool_decide (is_Some pHost));;
  assert_ (bool_decide (is_Some pPort));;
  host ← deref pHost;
  port ← deref pPort;
  match port_number port with
  | None => mret MBEDTLS_ERR_NET_CONNECT_FAILED
  | Some nPort =>
      o ← world_op (CDNSClient_Resolve host);
      match o with
      | None => mret MBEDTLS_ERR_NET_UNKNOWN_HOST
      | Some IPAddress => Connect p IPAddress nPort
      end
  end.

Definition Bind (p : Z) (pPort : option (list Z)) : N Z :=
  assert_ (bool_decide (is_Some pPort));;
  port ← deref pPort;
  match port_number port with
  | None => mret MBEDTLS_ERR_NET_CONNECT_FAILED
  | Some nPort =>
      o ← load p;
      n ← world_op (CSocket_Bind (m_pSocket o) nPort);
      if n <? 0 then mret MBEDTLS_ERR_NET_BIND_FAILED
      else
        n ← world_op (CSocket_Listen (m_pSocket o) MBEDTLS_NET_LISTEN_BACKLOG);
        mret (if n <? 0 then MBEDTLS_ERR_NET_BIND_FAILED else 0)
  end.

(** [Accept]: the handle of the connection, and what was written to
    [pForeignIP] when that is not null. *)
Definition Accept (p : Z) (pForeignIP : bool) : N (Z * option (list Z)) :=
  o ← load p;
  c ← world_op (CSocket_Accept (m_pSocket o));
  match c with
  | None => mret (MBEDTLS_ERR_NET_ACCEPT_FAILED, None)
  | Some (pConnection, IPAddress) =>
      pNewSocket ← new_accepted pConnection;
      if pNewSocket =? 0 then
        world_op (CNetSocket_delete pConnection);;
        mret (MBEDTLS_ERR_SSL_ALLOC_FAILED, None)
      else
        let ip := if pForeignIP then Some (CIPAddress_CopyTo IPAddress) else None in
        nHandle ← AddSocket pNewSocket;
        assert_ (nHandle >=? 0);;
        mret (nHandle, ip)
  end.

(** ** Data *)

(** The part [Receive] and [ReceiveTimeout] share: up to [nLength] of the bytes
    in the buffer. *)
Definition take_buffered (p nLength : Z) : N (Z * list Z) :=
  o ← load p;
  let nBytesAvail := u32 (m_nRxBytesValid o - m_nRxBytesUsed o) in
  let nLength := if nLength >? nBytesAvail then nBytesAvail else nLength in
  bs ← lift_res (rd_bytes (m_RxBuffer o) (m_nRxBytesUsed o) (Z.to_nat nLength));
  update p (λ o, set_rx (m_RxBuffer o) (m_nRxBytesValid o) (usize (m_nRxBytesUsed o + nLength)) o);;
  mret (s32 nLength, bs).

(** A call of [m_pSocket->Receive] into [m_RxBuffer]. *)
Definition fill (p nFlags : Z) : N Z :=
  o ← load p;
  '(nResult, bs) ← world_op (CNetSocket_Receive (m_pSocket o) FRAME_BUFFER_SIZE nFlags);
  buf ← lift_res (wr_bytes (m_RxBuffer o) 0 bs);
  update p (λ o, set_rx buf (m_nRxBytesValid o) (m_nRxBytesUsed o) o);;
  mret nResult.

Definition filled (p nResult : Z) : N () :=
  update p (λ o, set_rx (m_RxBuffer o) (usize nResult) 0 o).

(** [Receive]: the result, and the bytes written to [pBuffer], which is not
    null. *)
Definition Receive (p nLength : Z) : N (Z * list Z) :=
  o ← load p;
  if u32 (m_nRxBytesValid o - m_nRxBytesUsed o) =? 0 then
    nResult ← fill p (if m_bBlock o then 0 else MSG_DONTWAIT);
    if nResult =? 0 then world_op CScheduler_Yield;; mret (MBEDTLS_ERR_SSL_WANT_READ, [])
    else if nResult <? 0 then mret (0, [])
    else filled p nResult;; take_buffered p nLength
  else take_buffered p nLength.

(** The [while] loop of [ReceiveTimeout]: [None] when it leaves the function
    with the value, otherwise the number of bytes received. *)
Fixpoint receive_timeout_loop (fuel : nat) (p nTimeoutMs nStartTicks : Z) : N (Z + Z) :=
  match fuel with
  | O => fail OutOfFuel
  | S fuel =>
      nResult ← fill p (if nTimeoutMs =? 0 then 0 else MSG_DONTWAIT);
      if nResult =? 0 then
        world_op CScheduler_Yield;;
        now ← world_op CTimer_GetTicks;
        if u32 (now - nStartTicks) >=? MSEC2HZ nTimeoutMs then mret (inl MBEDTLS_ERR_SSL_TIMEOUT)
        else receive_timeout_loop fuel p nTimeoutMs nStartTicks
      else if nResult <? 0 then mret (inl 0)
      else mret (inr nResult)
  end.

Definition ReceiveTimeout (fuel : nat) (p nLength nTimeoutMs : Z) : N (Z * list Z) :=
  o ← load p;
  if u32 (m_nRxBytesValid o - m_nRxBytesUsed o) =? 0 then
    nStartTicks ← world_op CTimer_GetTicks;
    r ← receive_timeout_loop fuel p nTimeoutMs nStartTicks;
    match r with
    | inl code => mret (code, [])
    | inr nResult => filled p nResult;; take_buffered p nLength
    end
  else take_buffered p nLength.

Definition Send (p : Z) (pBuffer : list Z) : N Z :=
  o ← load p;
  n ← world_op (CNetSocket_Send (m_pSocket o) pBuffer MSG_DONTWAIT);
  mret (if n <? 0 then MBEDTLS_ERR_NET_SEND_FAILED else n).

Definition SetOptionBlocking (p : Z) (bBlock : bool) : N () := update p (set_block bBlock).

Definition GetForeignIP (p : Z) : N (option (list Z)) :=
  o ← load p; world_op (CSocket_GetForeignIP (m_pSocket o)).

(** * The functions mbed TLS calls

    A context is named by its address, 0 for a null pointer. *)
Definition context_fd (ctx : Z) : N Z :=
  assert_ (negb (ctx =? 0));;
  s ← get;
  match contexts s !! ctx with Some fd => mret fd | None => fail BadAccess end.
Definition set_context_fd (ctx fd : Z) : N () :=
  s ← get;
  match contexts s !! ctx with
  | Some _ => put (set_contexts (<[ctx := fd]> (contexts s)) s)
  | None => fail BadAccess
  end.

Definition mbedtls_net_init (ctx : Z) : N () :=
  assert_ (negb (ctx =? 0));; modify (λ s, set_contexts (<[ctx := -1]> (contexts s)) s).

(** The object of a context, null if it has none. *)
Definition context_socket (ctx : Z) : N Z := fd ← context_fd ctx; Get fd.

(** The part [mbedtls_net_connect] and [mbedtls_net_bind] share: a new socket
    in the context. *)
Definition new_context_socket (ctx : Z) : N Z :=
  pSocket ← new_CAdaptedSocket IPPROTO_TCP;
  if pSocket =? 0 then mret 0
  else
    assert_ (negb (ctx =? 0));;
    fd ← GetHandle pSocket;
    set_context_fd ctx fd;;
    assert_ (fd >=? 0);;
    mret pSocket.

Definition mbedtls_net_connect (ctx : Z) (host port : option (list Z)) (proto : Z) : N Z :=
  if negb (proto =? MBEDTLS_NET_PROTO_TCP) then mret MBEDTLS_ERR_NET_SOCKET_FAILED
  else
    pSocket ← new_context_socket ctx;
    if pSocket =? 0 then mret MBEDTLS_ERR_SSL_ALLOC_FAILED
    else Connect_host pSocket host port.

Definition mbedtls_net_bind (ctx : Z) (bind_ip port : option (list Z)) (proto : Z) : N Z :=
  if negb (proto =? MBEDTLS_NET_PROTO_TCP) then mret MBEDTLS_ERR_NET_SOCKET_FAILED
  else if bool_decide (is_Some bind_ip) then mret MBEDTLS_ERR_NET_BIND_FAILED
  else
    pSocket ← new_context_socket ctx;
    if pSocket =? 0 then mret MBEDTLS_ERR_SSL_ALLOC_FAILED
    else Bind pSocket port.

(** [client_ip] and [ip_len] say whether the pointers are not null; the results
    are the code and what is written to [*client_ip] and [*ip_len].  The size of
    [IP_ADDRESS_SIZE], an [int], is 4. *)
Definition mbedtls_net_accept (bind_ctx client_ctx : Z) (client_ip : bool) (buf_size : Z)
    (ip_len : bool) : N (Z * option (list Z) * option Z) :=
  if client_ip && (buf_size <? 4) then mret (MBEDTLS_ERR_NET_BUFFER_TOO_SMALL, None, None)
  else
    pSocket ← context_socket bind_ctx;
    if pSocket =? 0 then mret (MBEDTLS_ERR_NET_INVALID_CONTEXT, None, None)
    else
      '(nResult, ip) ← Accept pSocket client_ip;
      if nResult <? 0 then mret (MBEDTLS_ERR_NET_ACCEPT_FAILED, ip, None)
      else
        assert_ (negb (client_ctx =? 0));;
        set_context_fd client_ctx nResult;;
        if client_ip then assert_ ip_len;; mret (0, ip, Some IP_ADDRESS_SIZE)
        else mret (0, ip, None).

Definition set_blocking (ctx : Z) (b : bool) : N Z :=
  pSocket ← context_socket ctx;
  if pSocket =? 0 then mret MBEDTLS_ERR_NET_INVALID_CONTEXT
  else SetOptionBlocking pSocket b;; mret 0.
Definition mbedtls_net_set_block (ctx : Z) : N Z := set_blocking ctx true.
Definition mbedtls_net_set_nonblock (ctx : Z) : N Z := set_blocking ctx false.

(** The lengths are [size_t] values and become [unsigned] ones. *)
Definition mbedtls_net_recv (ctx len : Z) : N (Z * list Z) :=
  pSocket ← context_socket ctx;
  if pSocket =? 0 then mret (MBEDTLS_ERR_NET_INVALID_CONTEXT, []) else Receive pSocket (u32 len).

Definition mbedtls_net_recv_timeout (fuel : nat) (ctx len timeout : Z) : N (Z * list Z) :=
  pSocket ← context_socket ctx;
  if pSocket =? 0 then mret (MBEDTLS_ERR_NET_INVALID_CONTEXT, [])
  else ReceiveTimeout fuel pSocket (u32 len) timeout.

Definition mbedtls_net_send (ctx : Z) (buf : list Z) : N Z :=
  pSocket ← context_socket ctx;
  if pSocket =? 0 then mret MBEDTLS_ERR_NET_INVALID_CONTEXT
  else Send pSocket (take (Z.to_nat (u32 (Z.of_nat (length buf)))) buf).

Definition mbedtls_net_free (ctx : Z) : N () :=
  pSocket ← context_socket ctx;
  delete_CAdaptedSocket pSocket;;
  set_context_fd ctx (-1).

Definition mbedtls_net_usleep (usec : Z) : N () := world_op (CScheduler_usSleep usec).
End net.
End Net.
