(* ===== verification/NetInv.v ===== *)
(** The invariant of the sockets below mbed TLS: the handle table, the objects
    and the contexts fit together, and the receive buffers are well-formed; and
    what the operations of [CAdaptedSocket] do to it. *)
From stdpp Require Import base numbers list gmap option strings.
From S2P Require Import Prelude.
From S2P Require Import Libc.
From S2P Require Import Circle.
From S2P Require Import NetSockets.
Import Libc Net.

Section inv.
Context `{Target, MbedTLS, PtrArray, !PtrArrayOk, SocketPlatform W, !PlatformOk W}.

(** * The receive buffer *)

(** The bytes [bs] are in the buffer and have not been taken yet. *)
Definition buffered (o : CAdaptedSocket) (bs : list Z) : Prop :=
  Z.of_nat (length (m_RxBuffer o)) = FRAME_BUFFER_SIZE ∧
  holds (m_RxBuffer o) (m_nRxBytesUsed o) bs ∧
  m_nRxBytesValid o = m_nRxBytesUsed o + Z.of_nat (length bs) ∧
  m_nRxBytesValid o ≤ FRAME_BUFFER_SIZE.

Definition rx_ok (o : CAdaptedSocket) : Prop := ∃ bs, buffered o bs.

Lemma buffered_avail o bs :
  buffered o bs → u32 (m_nRxBytesValid o - m_nRxBytesUsed o) = Z.of_nat (length bs).
Proof using Type*.
  intros (Hl & [Hu _] & Hv & Hle). pose proof (FRAME_BUFFER_SIZE_pos (W := W)).
  rewrite u32_id; unfold is_u32; lia.
Qed.

(** * The handle table *)

Definition view (s : net) : list Z := pa_view (s_SocketArray s).

(** The handle [h] names the address [p]. *)
Definition slot (s : net) (h p : Z) : Prop := 0 ≤ h ∧ view s !! Z.to_nat h = Some p.

Lemma slot_bound s h p : slot s h p → 0 ≤ h < pa_GetCount (s_SocketArray s).
Proof using Type*.
  intros [Hh Hv]. rewrite pa_GetCount_view. apply lookup_lt_Some in Hv. unfold view in Hv. lia.
Qed.

Lemma array_at_run s h p : slot s h p → array_at h s = Ok (p, s).
Proof using Type*.
  intros Hs. pose proof (slot_bound _ _ _ Hs) as Hb. unfold array_at. rewrite bind_unfold. cbn [get].
  rewrite (proj2 (Z.leb_le _ _)), (proj2 (Z.ltb_lt _ _)) by lia. cbn [andb].
  destruct Hs as [Hh Hv]. unfold view in Hv.
  by rewrite <-(Z2Nat.id h), (pa_get_view _ _ _ Hv) by done.
Qed.

Lemma array_put_run s h p q :
  slot s h p →
  ∃ a, array_put h q s = Ok ((), set_array a s) ∧ pa_view a = <[Z.to_nat h := q]> (view s).
Proof using Type*.
  intros Hs. pose proof (slot_bound _ _ _ Hs) as Hb. unfold array_put. rewrite bind_unfold. cbn [get].
  rewrite (proj2 (Z.leb_le _ _)), (proj2 (Z.ltb_lt _ _)) by lia. cbn [andb].
  eexists. split; [done|]. destruct Hs as [Hh Hv]. rewrite <-(Z2Nat.id h) at 1 by done.
  apply pa_set_view. by apply lookup_lt_Some in Hv.
Qed.

(** [added v p i v']: the table [v'] is [v] with [p] in the slot [i], which was
    free or new. *)
Definition added (v : list Z) (p : Z) (i : nat) (v' : list Z) : Prop :=
  v' !! i = Some p ∧ (v !! i = None ∨ v !! i = Some 0) ∧
  (∀ j, j ≠ i → v' !! j = v !! j) ∧ (length v ≤ length v' ≤ S (length v))%nat.

Lemma free_slot_run s n i :
  (i + n)%nat = length (view s) →
  ∃ o, free_slot n (Z.of_nat i) s = Ok (o, s) ∧
    match o with
    | Some j => slot s j 0
    | None => True
    end.
Proof using Type*.
  revert i. induction n as [|n IH]; intros i Hi; cbn [free_slot]; [by exists None|].
  destruct (lookup_lt_is_Some_2 (view s) i) as [p Hp]; [lia|].
  rewrite (bind_run _ _ s p s) by (apply array_at_run; split; [lia|by rewrite Nat2Z.id]).
  destruct (Z.eqb_spec p 0) as [->|].
  - exists (Some (Z.of_nat i)). split; [done|]. split; [lia|by rewrite Nat2Z.id].
  - destruct (IH (S i)) as (o & E & Ho); [lia|]. exists o. split; [|done].
    rewrite <-E. f_equal. lia.
Qed.

Lemma AddSocket_run s p :
  p ≠ 0 → Z.of_nat (length (view s)) < 2^31 - 1 →
  ∃ i a, AddSocket p s = Ok (Z.of_nat i, set_array a s) ∧ added (view s) p i (pa_view a).
Proof using Type*.
  intros Hp Hl. unfold AddSocket. rewrite bind_unfold. unfold assert_.
  rewrite (proj2 (Z.eqb_neq p 0)) by done. cbn [negb]. rewrite bind_unfold. cbn [get].
  rewrite pa_GetCount_view, Nat2Z.id. fold (view s).
  destruct (free_slot_run s (length (view s)) 0) as (o & E & Ho); [done|].
  change (Z.of_nat 0) with 0 in E. rewrite (bind_run _ _ _ _ _ E). destruct o as [j|].
  - destruct (array_put_run _ _ _ p Ho) as (a & E' & Hv). destruct Ho as [Hj Hz].
    rewrite (bind_run _ _ _ _ _ E'). exists (Z.to_nat j), a.
    pose proof (lookup_lt_Some _ _ _ Hz) as Hlt. split.
    + rewrite Z2Nat.id, s32_small by lia. done.
    + rewrite Hv. split_and!; [by apply list_lookup_insert_eq|by right| |rewrite length_insert; lia..].
      intros k Hk. by apply list_lookup_insert_ne.
  - pose proof (pa_Append_view (s_SocketArray s) p) as [Hv Hi].
    destruct (pa_Append (s_SocketArray s) p) as [a i]. cbn [fst snd] in *. subst i.
    rewrite pa_GetCount_view. fold (view s) in Hv |- *. exists (length (view s)), a. split.
    + rewrite bind_unfold. cbn [modify]. by rewrite s32_small by lia.
    + rewrite Hv. split_and!; [|left; by apply lookup_ge_None| |rewrite length_app; cbn; lia..].
      * by apply list_lookup_middle.
      * intros j Hj. destruct (decide (j < length (view s))%nat).
        -- by apply lookup_app_l.
        -- rewrite !(proj2 (lookup_ge_None _ _)); [done|lia|rewrite length_app; cbn; lia].
Qed.

Lemma added_keeps v p i v' j q : added v p i v' → v !! j = Some q → q ≠ 0 → v' !! j = Some q.
Proof using Type.
  intros (_ & Hi & Hj & _) Hv Hq. destruct (decide (j = i)) as [->|Hn]; [|by rewrite Hj].
  destruct Hi as [Hi|Hi]; simplify_eq; by rewrite Hi in Hv.
Qed.

(** * The invariant *)

Definition live (s : net) (p : Z) : Prop := is_Some (heap s !! p).

(** [k] bounds the size of the table. *)
Record net_ok (k : Z) (s : net) : Prop := {
  ok_next : 0 < next_address s;
  ok_objects p o : heap s !! p = Some o →
    0 < p < next_address s ∧ slot s (m_nHandle o) p ∧ rx_ok o;
  ok_slots j q : view s !! j = Some q → 0 ≤ q < next_address s;
  ok_size : Z.of_nat (length (view s)) ≤ k;
  ok_contexts c fd : contexts s !! c = Some fd →
    c ≠ 0 ∧ (fd = -1 ∨ ∃ p, slot s fd p ∧ live s p);
  ok_distinct c1 c2 fd1 fd2 p :
    contexts s !! c1 = Some fd1 → contexts s !! c2 = Some fd2 →
    slot s fd1 p → slot s fd2 p → live s p → c1 = c2
}.

Lemma net_ok_mono k k' s : k ≤ k' → net_ok k s → net_ok k' s.
Proof using Type. intros Hk [? ? ? ? ? ?]. split; try done. lia. Qed.

Lemma net_ok_world k s w : net_ok k s → net_ok k (set_world w s).
Proof using Type. intros [? ? ? ? ? ?]. by split. Qed.

Lemma live_pos k s p : net_ok k s → live s p → p ≠ 0.
Proof using Type. intros Hok [o Ho]. apply (ok_objects _ _ Hok) in Ho as (? & _). lia. Qed.

Lemma load_run k s p o : net_ok k s → heap s !! p = Some o → load p s = Ok (o, s).
Proof using Type.
  intros Hok Ho. unfold load. rewrite bind_unfold. cbn [get].
  pose proof (ok_objects _ _ Hok _ _ Ho) as (Hp & _).
  destruct (Z.eqb_spec p 0); [lia|]. by rewrite Ho.
Qed.

Lemma update_run k s p o f :
  net_ok k s → heap s !! p = Some o → update p f s = Ok ((), set_heap (<[p := f o]> (heap s)) s).
Proof using Type.
  intros Hok Ho. unfold update. by rewrite (bind_run _ _ _ _ _ (load_run _ _ _ _ Hok Ho)).
Qed.

Lemma live_insert s p o q : live (set_heap (<[p := o]> (heap s)) s) q ↔ q = p ∨ live s q.
Proof using Type.
  unfold live. cbn. destruct (decide (q = p)) as [->|Hq].
  - rewrite lookup_insert_eq. split; [by left|by intros _].
  - rewrite lookup_insert_ne by done. tauto.
Qed.

(** Changing the buffer or the mode of an object. *)
Lemma net_ok_object k s p o o' :
  net_ok k s → heap s !! p = Some o → m_nHandle o' = m_nHandle o → rx_ok o' →
  net_ok k (set_heap (<[p := o']> (heap s)) s).
Proof using Type.
  intros Hok Ho Hh Hrx.
  assert (∀ q, live (set_heap (<[p := o']> (heap s)) s) q ↔ live s q) as Hlive.
  { intros q. rewrite live_insert. split; [|tauto]. intros [->|]; [by exists o|done]. }
  destruct Hok as [Hn Hobj Hsl Hsz Hc Hd]. split; cbn; try done.
  - intros q x. destruct (decide (q = p)) as [->|Hq].
    + rewrite lookup_insert_eq. intros ?. simplify_eq.
      destruct (Hobj _ _ Ho) as (? & ? & _). by rewrite Hh.
    + rewrite lookup_insert_ne by done. apply Hobj.
  - intros c fd Hcf. destruct (Hc _ _ Hcf) as [? [?|(q & ? & ?)]]; [by auto|].
    split; [done|]. right. exists q. by rewrite Hlive.
  - intros c1 c2 fd1 fd2 q. rewrite Hlive. apply Hd.
Qed.

(** A new slot gives a context no new name. *)
Lemma added_back k s p i a c fd q :
  net_ok k s → added (view s) p i (pa_view a) → contexts s !! c = Some fd →
  slot (set_array a s) fd q → slot s fd q.
Proof using Type.
  intros Hok Ha Hc [Hfd Hv]. split; [done|].
  destruct (ok_contexts _ _ Hok _ _ Hc) as [_ [->|(q' & [Hfd' Hv'] & [x Hx])]]; [lia|].
  apply (ok_objects _ _ Hok) in Hx as (Hq' & _). pose proof (added_keeps _ _ _ _ _ _ Ha Hv') as Hv2.
  unfold view in Hv. cbn in Hv. rewrite Hv2 in Hv by lia. congruence.
Qed.

(** A further slot for an address in use. *)
Lemma net_ok_added k s p i a :
  net_ok k s → 0 < p < next_address s → added (view s) p i (pa_view a) →
  net_ok (k + 1) (set_array a s).
Proof using Type.
  intros [Hn Hobj Hsl Hsz Hc Hd] Hp Ha.
  assert (∀ h q, slot s h q → q ≠ 0 → slot (set_array a s) h q) as Hkeep.
  { intros h q [Hh Hv] Hq. split; [done|]. by eapply added_keeps. }
  split; cbn; try done.
  - intros q o Ho. destruct (Hobj _ _ Ho) as (Hq & Hs & Hrx). split_and!; [lia|lia| |done].
    apply Hkeep; [done|lia].
  - intros j q Hq. destruct (decide (j = i)) as [->|Hj].
    + destruct Ha as (Hi & _). unfold view in Hq. cbn in Hq. rewrite Hi in Hq. simplify_eq. lia.
    + destruct Ha as (_ & _ & Hne & _). apply (Hsl j). by rewrite <-Hne.
  - destruct Ha as (_ & _ & _ & Hl). unfold view in *. cbn. lia.
  - intros c fd Hcf. destruct (Hc _ _ Hcf) as [? [?|(q & Hs & Hq)]]; [by auto|].
    split; [done|]. right. exists q. split; [|done]. apply Hkeep; [done|].
    destruct Hq as [x Hx]. apply Hobj in Hx. lia.
  - intros c1 c2 fd1 fd2 q E1 E2 S1 S2 Hq. eapply Hd; [exact E1|exact E2| | |exact Hq]; by eapply (added_back k); [by split|..].
Qed.

(** ** New objects *)

(** The contexts name live objects only. *)
Lemma context_slot k s c fd p : net_ok k s → contexts s !! c = Some fd → slot s fd p → live s p.
Proof using Type.
  intros Hok Hc [Hfd Hv]. destruct (ok_contexts _ _ Hok _ _ Hc) as [_ [->|(q & [_ Hv'] & Hq)]]; [lia|].
  rewrite Hv in Hv'. by simplify_eq.
Qed.

Lemma net_ok_new k s p o :
  net_ok k s → heap s !! p = None → 0 < p < next_address s → slot s (m_nHandle o) p → rx_ok o →
  net_ok k (set_heap (<[p := o]> (heap s)) s).
Proof using Type.
  intros Hok Hnew Hp Hs Hrx. pose proof Hok as [Hn Hobj Hsl Hsz Hc Hd]. split; cbn; try done.
  - intros q x. destruct (decide (q = p)) as [->|Hq].
    + rewrite lookup_insert_eq. intros ?. by simplify_eq.
    + rewrite lookup_insert_ne by done. apply Hobj.
  - intros c fd Hcf. destruct (Hc _ _ Hcf) as [? [?|(q & ? & ?)]]; [by auto|].
    split; [done|]. right. exists q. split; [done|]. apply live_insert. by right.
  - intros c1 c2 fd1 fd2 q E1 E2 S1 S2 _. eapply Hd; [exact E1|exact E2|exact S1|exact S2|].
    by eapply context_slot.
Qed.

Lemma net_ok_next k s :
  net_ok k s →
  net_ok k (mkNet (heap s) (next_address s + 1) (s_SocketArray s) (contexts s) (world s)).
Proof using Type.
  intros [Hn Hobj Hsl Hsz Hc Hd]. split; cbn; try done; [lia| |].
  - intros p o Ho. destruct (Hobj _ _ Ho) as (? & ? & ?). split_and!; (lia || done).
  - intros j q Hq. apply (Hsl j) in Hq. lia.
Qed.

Lemma fresh_address k s : net_ok k s → heap s !! next_address s = None.
Proof using Type.
  intros Hok. destruct (heap s !! next_address s) eqn:E; [|done].
  apply (ok_objects _ _ Hok) in E as (? & _). lia.
Qed.

(** What a constructor leaves behind: the object [o] at the address [p]. *)
Definition created (s s' : net) (sock : Sock) (p : Z) (o : CAdaptedSocket) : Prop :=
  p = next_address s ∧ heap s' = <[p := o]> (heap s) ∧ contexts s' = contexts s ∧
  world s' = world s ∧ m_pSocket o = sock ∧ buffered o [] ∧
  ∃ i, m_nHandle o = Z.of_nat i ∧ added (view s) p i (view s').

Lemma new_buffer sock h : buffered (mkAdapted sock h (uninit FRAME_BUFFER_SIZE) 0 0 true) [].
Proof using Type*.
  pose proof (FRAME_BUFFER_SIZE_pos (W := W)). split_and!; cbn; [|by apply holds_nil|done|lia].
  unfold uninit. rewrite length_replicate. lia.
Qed.

Lemma construct_run k s sock :
  net_ok k s → k < 2^31 - 1 →
  ∃ p s' o, construct sock s = Ok (p, s') ∧ net_ok (k + 1) s' ∧ created s s' sock p o.
Proof using Type*.
  intros Hok Hk. pose proof (ok_next _ _ Hok) as Hn. pose proof (ok_size _ _ Hok) as Hsz.
  pose proof (net_ok_next _ _ Hok) as Hok1. unfold construct.
  rewrite bind_unfold. cbn [get]. rewrite bind_unfold. cbn [put].
  set (s1 := mkNet _ (next_address s + 1) _ _ _) in *.
  destruct (AddSocket_run s1 (next_address s)) as (i & a & E & Ha); [lia|change (view s1) with (view s); lia|].
  rewrite (bind_run _ _ _ _ _ E), bind_unfold. cbn [modify]. unfold assert_. rewrite bind_unfold.
  set (o := mkAdapted sock (Z.of_nat i) _ _ _ _).
  assert ((Z.of_nat i >=? 0) = true) as -> by (rewrite Z.geb_leb; apply Z.leb_le; lia).
  exists (next_address s), (set_heap (<[next_address s := o]> (heap s1)) (set_array a s1)), o.
  assert (net_ok (k + 1) (set_array a s1)) as Hok2 by (eapply (net_ok_added _ _ (next_address s)); [done|cbn; lia|exact Ha]).
  split; [done|]. split.
  - apply (net_ok_new _ (set_array a s1)); [done|exact (fresh_address _ _ Hok)|cbn; lia| |].
    + split; [cbn; lia|]. unfold o. cbn [m_nHandle]. rewrite Nat2Z.id. by destruct Ha.
    + exists []. apply new_buffer.
  - split_and!; try done; [apply new_buffer|]. by exists i.
Qed.

(** No context names a new object. *)
Lemma created_unnamed k s s' sock p o c fd :
  net_ok k s → created s s' sock p o → contexts s !! c = Some fd → ¬ slot s' fd p.
Proof using Type.
  intros Hok (-> & _ & _ & _ & _ & _ & i & _ & Ha) Hc [Hfd Hv].
  destruct (ok_contexts _ _ Hok _ _ Hc) as [_ [->|(q & [_ Hq] & [x Hx])]]; [lia|].
  apply (ok_objects _ _ Hok) in Hx as (Hx & _).
  apply (added_keeps _ _ _ _ _ _ Ha) in Hq; [|lia]. rewrite Hv in Hq. simplify_eq. lia.
Qed.
End inv.
