(* ===== verification/NetSafety.v ===== *)
(** The operations of the sockets below mbed TLS keep the invariant, and what
    the receive functions return. *)
From stdpp Require Import base numbers list gmap option strings.
From S2P Require Import Prelude.
From S2P Require Import Libc.
From S2P Require Import Circle.
From S2P Require Import NetSockets.
From S2P Require Import NetInv.
Import Libc Net.

Section safety.
Context `{Target, MbedTLS, PtrArray, !PtrArrayOk, SocketPlatform W, !PlatformOk W}.

(** * Data *)

(** An object that differs in its buffer only. *)
Definition same_object (o o' : CAdaptedSocket) : Prop :=
  m_pSocket o' = m_pSocket o ∧ m_nHandle o' = m_nHandle o ∧ m_bBlock o' = m_bBlock o.

Lemma same_object_trans o1 o2 o3 : same_object o1 o2 → same_object o2 o3 → same_object o1 o3.
Proof using Type. intros (? & ? & ?) (? & ? & ?). split_and!; congruence. Qed.

Lemma rd_taken buf i bs n :
  holds buf i bs → rd_bytes buf i (min n (length bs)) = Ok (take n bs).
Proof using Type.
  intros Hh. rewrite <-(take_drop n bs) in Hh. apply holds_app in Hh as [Hh _].
  apply holds_rd_bytes in Hh. by rewrite length_take in Hh.
Qed.

Lemma take_buffered_run k s p o bs n :
  net_ok k s → heap s !! p = Some o → buffered o bs → is_u32 n →
  ∃ o', take_buffered p n s =
      Ok ((Z.min n (Z.of_nat (length bs)), take (Z.to_nat n) bs), set_heap (<[p := o']> (heap s)) s) ∧
    buffered o' (drop (Z.to_nat n) bs) ∧ same_object o o'.
Proof using Type*.
  intros Hok Ho Hb Hn. pose proof (FRAME_BUFFER_SIZE_pos (W := W)) as HF. unfold take_buffered.
  rewrite (bind_run _ _ _ _ _ (load_run _ _ _ _ Hok Ho)), (buffered_avail _ _ Hb).
  pose proof Hb as (Hl & Hh & Hv & Hle). pose proof (proj1 Hh) as Hu.
  set (m := if n >? Z.of_nat (length bs) then Z.of_nat (length bs) else n).
  assert (m = Z.min n (Z.of_nat (length bs))) as Hm.
  { unfold m. rewrite Z.gtb_ltb. destruct (Z.ltb_spec (Z.of_nat (length bs)) n); lia. }
  unfold is_u32 in Hn.
  assert (Z.to_nat m = min (Z.to_nat n) (length bs)) as -> by lia.
  rewrite bind_unfold. unfold lift_res. rewrite (rd_taken _ _ _ _ Hh).
  rewrite (bind_run _ _ _ _ _ (update_run _ _ _ _ _ Hok Ho)).
  eexists. split; [rewrite s32_small by lia; rewrite <-Hm; done|].
  split; [|done]. split_and!; cbn; [done| | |done].
  - rewrite usize_id by lia. rewrite <-(take_drop (Z.to_nat n) bs) in Hh.
    apply holds_app in Hh as [_ Hh]. rewrite length_take in Hh.
    replace (m_nRxBytesUsed o + m) with (m_nRxBytesUsed o + Z.of_nat (min (Z.to_nat n) (length bs)))
      by lia. done.
  - rewrite usize_id by lia. rewrite length_drop. lia.
Qed.

(** A call of [m_pSocket->Receive] when the buffer is empty. *)
Lemma fill_run k s p o fl r bs w :
  net_ok k s → heap s !! p = Some o → buffered o [] →
  CNetSocket_Receive (m_pSocket o) FRAME_BUFFER_SIZE fl (world s) = ((r, bs), w) →
  ∃ o', fill p fl s = Ok (r, set_heap (<[p := o']> (heap s)) (set_world w s)) ∧
    buffered o' [] ∧ same_object o o' ∧ Z.of_nat (length bs) = Z.max 0 r ∧ r ≤ FRAME_BUFFER_SIZE ∧
    Z.of_nat (length (m_RxBuffer o')) = FRAME_BUFFER_SIZE ∧ holds (m_RxBuffer o') 0 bs ∧
    (r ≤ 0 → o' = o).
Proof using Type*.
  intros Hok Ho Hb E. pose proof (FRAME_BUFFER_SIZE_pos (W := W)) as HF.
  destruct (CNetSocket_Receive_len _ _ _ _ _ _ _ E) as [Hl Hr]; [lia|].
  pose proof Hb as (HL & [Hu _] & Hv & Hle). unfold fill.
  rewrite (bind_run _ _ _ _ _ (load_run _ _ _ _ Hok Ho)), bind_unfold. unfold world_op, env.
  rewrite E. destruct (wr_bytes_Ok (m_RxBuffer o) 0 bs) as (buf & Ew & Lw & Hw & _); [lia|lia|].
  rewrite bind_unfold. unfold lift_res. rewrite Ew.
  pose proof (net_ok_world _ _ w Hok) as Hok1.
  rewrite (bind_run _ _ _ _ _ (update_run _ (set_world w s) _ _ _ Hok1 Ho)).
  eexists. split; [done|]. split; [|split; [done|]].
  { split_and!; cbn; [by rewrite Lw|by apply holds_nil|done|done]. }
  split_and!; cbn; try done; [by rewrite Lw|].
  intros Hr0. assert (bs = []) as -> by (apply nil_length_inv; lia). cbn in Ew. simplify_eq.
  by destruct o.
Qed.

Lemma filled_run k s p o r bs :
  net_ok k s → heap s !! p = Some o → 0 < r ≤ FRAME_BUFFER_SIZE → Z.of_nat (length bs) = r →
  Z.of_nat (length (m_RxBuffer o)) = FRAME_BUFFER_SIZE → holds (m_RxBuffer o) 0 bs →
  ∃ o', filled p r s = Ok ((), set_heap (<[p := o']> (heap s)) s) ∧ buffered o' bs ∧ same_object o o'.
Proof using Type*.
  intros Hok Ho Hr Hl HL Hh. pose proof (FRAME_BUFFER_SIZE_pos (W := W)) as HF. unfold filled.
  rewrite (update_run _ _ _ _ _ Hok Ho). eexists. split; [done|]. split; [|done].
  split_and!; cbn; [done|done|rewrite usize_id by lia; lia|rewrite usize_id by lia; lia].
Qed.

(** What a reader gets from a buffer: the result, and what is left. *)
Definition taken (bs : list Z) (n : Z) : (Z * list Z) * list Z :=
  ((Z.min n (Z.of_nat (length bs)), take (Z.to_nat n) bs), drop (Z.to_nat n) bs).

(** [Receive] as a function: [bs] is in the buffer, [k] the socket. *)
Definition received (k : Sock) (flags : Z) (bs : list Z) (n : Z) (w : W) :
    (Z * list Z) * list Z * W :=
  if decide (bs = []) then
    let '((r, rx), w) := CNetSocket_Receive k FRAME_BUFFER_SIZE flags w in
    if r =? 0 then ((MBEDTLS_ERR_SSL_WANT_READ, []), [], (CScheduler_Yield w).2)
    else if r <? 0 then ((0, []), [], w)
    else (taken rx n, w)
  else (taken bs n, w).

Definition rx_flags (o : CAdaptedSocket) : Z := if m_bBlock o then 0 else MSG_DONTWAIT.

Lemma empty_avail o bs :
  buffered o bs → (u32 (m_nRxBytesValid o - m_nRxBytesUsed o) =? 0) = bool_decide (bs = []).
Proof using Type*.
  intros Hb. rewrite (buffered_avail _ _ Hb). case_bool_decide as E.
  - by subst.
  - apply Z.eqb_neq. destruct bs; [done|cbn; lia].
Qed.

Lemma set_heap_twice s p o o' w :
  set_heap (<[p := o']> (heap (set_heap (<[p := o]> (heap s)) (set_world w s))))
    (set_heap (<[p := o]> (heap s)) (set_world w s)) =
  set_heap (<[p := o']> (heap s)) (set_world w s).
Proof using Type. unfold set_heap. cbn. by rewrite insert_insert_eq. Qed.

Lemma set_heap_world s p o o' w w' :
  set_heap (<[p := o']> (heap (set_heap (<[p := o]> (heap s)) (set_world w s))))
    (set_world w' (set_heap (<[p := o]> (heap s)) (set_world w s))) =
  set_heap (<[p := o']> (heap s)) (set_world w' s).
Proof using Type. unfold set_heap. cbn. by rewrite insert_insert_eq. Qed.

(** The way from a filled buffer to the caller. *)
Lemma filled_taken_run k s p o r rx n :
  net_ok k s → heap s !! p = Some o → 0 < r ≤ FRAME_BUFFER_SIZE → Z.of_nat (length rx) = r →
  Z.of_nat (length (m_RxBuffer o)) = FRAME_BUFFER_SIZE → holds (m_RxBuffer o) 0 rx → is_u32 n →
  ∃ o', (filled p r;; take_buffered p n) s = Ok ((taken rx n).1, set_heap (<[p := o']> (heap s)) s) ∧
    buffered o' (taken rx n).2 ∧ same_object o o'.
Proof using Type*.
  intros Hok Ho Hr Hl HL Hh Hn. destruct (filled_run k s p o r rx Hok Ho Hr Hl HL Hh) as (o1 & E1 & B1 & S1).
  rewrite (bind_run _ _ _ _ _ E1).
  assert (net_ok k (set_heap (<[p := o1]> (heap s)) s)) as Hok1.
  { eapply net_ok_object; [done|done|by apply S1|by exists rx]. }
  destruct (take_buffered_run k _ p o1 rx n Hok1 (lookup_insert_eq _ _ _) B1 Hn) as (o2 & E2 & B2 & S2).
  exists o2. split; [|split; [done|]].
  - rewrite E2. cbn. unfold set_heap. cbn. by rewrite insert_insert_eq.
  - by eapply same_object_trans.
Qed.

(** The state after a socket's receive call, while the object is [o]. *)
Lemma net_ok_filled k s p o o' w :
  net_ok k s → heap s !! p = Some o → same_object o o' → rx_ok o' →
  net_ok k (set_heap (<[p := o']> (heap s)) (set_world w s)).
Proof using Type.
  intros Hok Ho (_ & Hh & _) Hrx. apply (net_ok_world _ _ w) in Hok.
  by apply (net_ok_object _ (set_world w s) _ o).
Qed.

Lemma Receive_run k s p o bs n :
  net_ok k s → heap s !! p = Some o → buffered o bs → is_u32 n →
  let '(res, rest, w) := received (m_pSocket o) (rx_flags o) bs n (world s) in
  ∃ o', Receive p n s = Ok (res, set_heap (<[p := o']> (heap s)) (set_world w s)) ∧
    buffered o' rest ∧ same_object o o'.
Proof using Type*.
  intros Hok Ho Hb Hn. unfold received, Receive.
  rewrite (bind_run _ _ _ _ _ (load_run _ _ _ _ Hok Ho)), (empty_avail _ _ Hb).
  destruct (decide (bs = [])) as [->|Hne].
  2: { rewrite bool_decide_false by done.
       destruct (take_buffered_run k s p o bs n Hok Ho Hb Hn) as (o' & E & B & S).
       exists o'. split; [|done]. rewrite E. by destruct s. }
  rewrite bool_decide_true by done. fold (rx_flags o).
  destruct (CNetSocket_Receive _ _ _ (world s)) as [[r rx] w] eqn:E.
  destruct (fill_run k s p o _ r rx w Hok Ho Hb E) as (o1 & E1 & B1 & S1 & Hl & Hr & HL & Hh & Hsame).
  rewrite (bind_run _ _ _ _ _ E1). destruct (Z.eqb_spec r 0) as [->|Hr0].
  { rewrite (Hsame ltac:(lia)). exists o. rewrite bind_unfold. unfold world_op, env. cbn.
    by destruct (CScheduler_Yield w) as [[] w1]. }
  destruct (Z.ltb_spec r 0) as [Hneg|Hpos].
  { rewrite (Hsame ltac:(lia)). by exists o. }
  set (s1 := set_heap _ (set_world w s)).
  assert (net_ok k s1) as Hok1 by (apply (net_ok_filled _ _ _ o); [done|done|done|by exists []]).
  destruct (filled_taken_run k s1 p o1 r rx n Hok1 (lookup_insert_eq _ _ _)) as (o2 & E2 & B2 & S2);
    [lia|lia|done|done|done|].
  exists o2. rewrite E2. split; [|split; [done|]].
  - unfold s1. by rewrite set_heap_twice.
  - by eapply same_object_trans.
Qed.

(** ** With a timeout *)

Definition timeout_post (k : Z) (s : net) (p : Z) (o : CAdaptedSocket) (r : Z + Z) (s' : net) : Prop :=
  ∃ o' w, s' = set_heap (<[p := o']> (heap s)) (set_world w s) ∧ same_object o o' ∧ buffered o' [] ∧
    match r with
    | inl _ => True
    | inr n => 0 < n ≤ FRAME_BUFFER_SIZE ∧ ∃ rx, Z.of_nat (length rx) = n ∧ holds (m_RxBuffer o') 0 rx
    end.

(** A round of a receive call with a time limit that gets no data and goes on. *)
Definition waits (sock : Sock) (to start : Z) (w w' : W) : Prop :=
  ∃ rx w1 now,
    CNetSocket_Receive sock FRAME_BUFFER_SIZE (if to =? 0 then 0 else MSG_DONTWAIT) w = ((0, rx), w1) ∧
    CTimer_GetTicks (CScheduler_Yield w1).2 = (now, w') ∧ (u32 (now - start) >=? MSEC2HZ to) = false.

(** A call with the time limit [to] does not wait for ever. *)
Definition expires (to : Z) : Prop := ∀ sock start w, Acc (λ w2 w1, waits sock to start w1 w2) w.

(** A round leaves the loop, or is such a round. *)
Lemma timeout_round k s p o to start :
  net_ok k s → heap s !! p = Some o → buffered o [] →
  (∃ r s', timeout_post k s p o r s' ∧ ∀ fuel, receive_timeout_loop (S fuel) p to start s = Ok (r, s')) ∨
  ∃ o1 w1, let s1 := set_heap (<[p := o1]> (heap s)) (set_world w1 s) in
    waits (m_pSocket o) to start (world s) w1 ∧ same_object o o1 ∧ buffered o1 [] ∧ net_ok k s1 ∧
    ∀ fuel, receive_timeout_loop (S fuel) p to start s = receive_timeout_loop fuel p to start s1.
Proof using Type*.
  intros Hok Ho Hb. set (fl := if to =? 0 then 0 else MSG_DONTWAIT).
  destruct (CNetSocket_Receive (m_pSocket o) FRAME_BUFFER_SIZE fl (world s)) as [[r rx] w] eqn:E.
  destruct (fill_run k s p o fl r rx w Hok Ho Hb E) as (o1 & E1 & B1 & S1 & Hl & Hr & HL & Hh & Hsame).
  set (s0 := set_heap (<[p := o1]> (heap s)) (set_world w s)) in *.
  assert (∀ fuel, receive_timeout_loop (S fuel) p to start s =
    (if r =? 0 then
       world_op CScheduler_Yield;;
       now ← world_op CTimer_GetTicks;
       if u32 (now - start) >=? MSEC2HZ to then mret (inl MBEDTLS_ERR_SSL_TIMEOUT)
       else receive_timeout_loop fuel p to start
     else if r <? 0 then mret (inl 0) else mret (inr r)) s0) as Hround.
  { intros fuel. cbn [receive_timeout_loop]. fold fl. by rewrite (bind_run _ _ _ _ _ E1). }
  destruct (Z.eqb_spec r 0) as [->|Hr0].
  - destruct (CScheduler_Yield w) as [[] w1] eqn:Ey. destruct (CTimer_GetTicks w1) as [now w2] eqn:Et.
    set (s2 := set_heap (<[p := o1]> (heap s)) (set_world w2 s)).
    assert (∀ fuel, receive_timeout_loop (S fuel) p to start s =
      (if u32 (now - start) >=? MSEC2HZ to then mret (inl MBEDTLS_ERR_SSL_TIMEOUT)
       else receive_timeout_loop fuel p to start) s2) as Hround2.
    { intros fuel. rewrite Hround. rewrite (bind_run _ _ _ () (set_world w1 s0)); [|by unfold world_op, env; cbn; rewrite Ey].
      by rewrite (bind_run _ _ _ now s2) by by unfold world_op, env; cbn; rewrite Et. }
    destruct (u32 (now - start) >=? MSEC2HZ to) eqn:Ec.
    + left. exists (inl MBEDTLS_ERR_SSL_TIMEOUT), s2. split; [by exists o1, w2|exact Hround2].
    + right. exists o1, w2. split; [|split_and!; try done; apply (net_ok_filled _ _ _ o); [done|done|done|by exists []]].
      exists rx, w, now. rewrite Ey. done.
  - left. destruct (Z.ltb_spec r 0).
    + exists (inl 0), s0. split; [by exists o1, w|exact Hround].
    + exists (inr r), s0. split; [|exact Hround]. exists o1, w. do 3 (split; [done|]). split; [lia|].
      exists rx. split; [lia|done].
Qed.

Lemma timeout_post_trans k s p o o1 w1 r s' :
  same_object o o1 → timeout_post k (set_heap (<[p := o1]> (heap s)) (set_world w1 s)) p o1 r s' →
  timeout_post k s p o r s'.
Proof using Type.
  intros S1 (o3 & w3 & -> & S3 & B3 & Hr3). exists o3, w3. split; [apply set_heap_world|].
  split; [by eapply same_object_trans|done].
Qed.

Lemma receive_timeout_loop_ok k s p o to start :
  net_ok k s → heap s !! p = Some o → buffered o [] →
  ends (expires to) (λ fuel, receive_timeout_loop fuel p to start) (timeout_post k s p o) s.
Proof using Type*.
  intros Hok Ho Hb. split.
  - intros fuel. revert s o Hok Ho Hb. induction fuel as [|fuel IH]; intros s o Hok Ho Hb; [by apply wp_fail|].
    destruct (timeout_round k s p o to start Hok Ho Hb) as [(r & s' & Hp & E)|(o1 & w1 & _ & S1 & B1 & Hok1 & E)];
      unfold wp; rewrite E; [done|].
    apply (wp_mono _ _ _ _ _ (IH _ o1 Hok1 (lookup_insert_eq _ _ _) B1)).
    intros r s'. by apply timeout_post_trans.
  - intros HT. remember (world s) as w eqn:Ew. set (sock := m_pSocket o).
    assert (∀ s o', m_pSocket o' = sock → net_ok k s → heap s !! p = Some o' → buffered o' [] → w = world s →
      ∃ n r s', timeout_post k s p o' r s' ∧
        ∀ fuel, (n ≤ fuel)%nat → receive_timeout_loop fuel p to start s = Ok (r, s')) as Hall;
      [|by apply (Hall s o)].
    clearbody sock. clear s o Hok Ho Hb Ew. induction (HT sock start w) as [w _ IH]. intros s o' Es Hok Ho Hb ->.
    destruct (timeout_round k s p o' to start Hok Ho Hb) as [(r & s' & Hp & E)|(o1 & w1 & Hw & S1 & B1 & Hok1 & E)].
    + exists 1%nat, r, s'. split; [done|]. intros [|fuel] Hf; [lia|]. apply E.
    + rewrite Es in Hw. assert (m_pSocket o1 = sock) as Es1 by (destruct S1 as (-> & _); exact Es).
      destruct (IH w1 Hw _ o1 Es1 Hok1 (lookup_insert_eq _ _ _) B1 eq_refl) as (n & r & s' & Hp & Hn).
      exists (S n), r, s'. split; [by eapply timeout_post_trans|]. intros [|fuel] Hf; [lia|].
      rewrite E. apply Hn. lia.
Qed.

Lemma ReceiveTimeout_ok k s p o n to :
  net_ok k s → heap s !! p = Some o → is_u32 n →
  ends (expires to) (λ fuel, ReceiveTimeout fuel p n to)
    (λ _ s', ∃ o' w, s' = set_heap (<[p := o']> (heap s)) (set_world w s) ∧ same_object o o' ∧ rx_ok o') s.
Proof using Type*.
  intros Hok Ho Hn. pose proof (ok_objects _ _ Hok _ _ Ho) as (_ & _ & [bs Hb]).
  unfold ReceiveTimeout. eapply ends_after; [by eapply load_run|]. rewrite (empty_avail _ _ Hb).
  case_bool_decide as Hbs.
  - subst bs. apply ends_step. apply wp_env. intros start w _.
    set (s1 := set_world w s). assert (net_ok k s1) as Hok1 by by apply net_ok_world.
    eapply ends_bind; [by apply (receive_timeout_loop_ok k s1 p o)|].
    intros r s2 (o2 & w2 & -> & S2 & B2 & Hr). apply ends_const. destruct r as [code|r]; cbv beta iota.
    + wp_step. exists o2, w2. split_and!; [done|apply S2..|by exists []].
    + destruct Hr as (Hr & rx & Hl & Hh). set (s2 := set_heap _ (set_world w2 s1)).
      assert (net_ok k s2) as Hok2 by (apply (net_ok_filled _ _ _ o); [done|done|done|by exists []]).
      destruct (filled_taken_run k s2 p o2 r rx n Hok2 (lookup_insert_eq _ _ _)) as (o3 & E3 & B3 & S3);
        [lia|lia|by destruct B2|done|done|].
      unfold wp. rewrite E3. exists o3, w2.
      split; [unfold s2, s1, set_heap; cbn; by rewrite insert_insert_eq|].
      split; [by eapply same_object_trans|by eexists].
  - apply ends_const. destruct (take_buffered_run k s p o bs n Hok Ho Hb Hn) as (o' & E & B & S).
    unfold wp. rewrite E. exists o', (world s). split_and!; [by destruct s|apply S..|by eexists].
Qed.

(** * Contexts and connections *)

Lemma context_fd_run k s c fd :
  net_ok k s → contexts s !! c = Some fd → context_fd c s = Ok (fd, s).
Proof using Type.
  intros Hok Hc. destruct (ok_contexts _ _ Hok _ _ Hc) as [Hc0 _].
  unfold context_fd, assert_. rewrite bind_unfold, (proj2 (Z.eqb_neq c 0)) by done. cbn [negb].
  rewrite bind_unfold. cbn [get]. by rewrite Hc.
Qed.

(** The object of a context: none, or the live object in the slot [fd]. *)
Lemma context_socket_run k s c fd :
  net_ok k s → contexts s !! c = Some fd →
  (fd = -1 ∧ context_socket c s = Ok (0, s)) ∨
  ∃ p o, slot s fd p ∧ heap s !! p = Some o ∧ p ≠ 0 ∧ context_socket c s = Ok (p, s).
Proof using Type*.
  intros Hok Hc. unfold context_socket. rewrite (bind_run _ _ _ _ _ (context_fd_run _ _ _ _ Hok Hc)).
  unfold Get. destruct (ok_contexts _ _ Hok _ _ Hc) as [_ [->|(p & Hs & [o Ho])]]; [by left|right].
  exists p, o. split_and!; [done|done|by eapply live_pos; [|eexists]|].
  destruct (Z.ltb_spec fd 0); [by destruct Hs; lia|]. by apply array_at_run.
Qed.

(** A new value for the field [fd]. *)
Lemma set_context_run k s c fd q :
  net_ok k s → is_Some (contexts s !! c) →
  (fd = -1 ∨ slot s fd q ∧ live s q ∧
    ∀ c' fd', c' ≠ c → contexts s !! c' = Some fd' → ¬ slot s fd' q) →
  ∃ s', set_context_fd c fd s = Ok ((), s') ∧ net_ok k s' ∧ s' = set_contexts (<[c := fd]> (contexts s)) s.
Proof using Type.
  intros Hok [fd0 Hc] Hfd. unfold set_context_fd. rewrite bind_unfold. cbn [get]. rewrite Hc.
  eexists. split; [done|]. split; [|done]. pose proof Hok as [Hn Hobj Hsl Hsz Hcs Hd].
  split; cbn; try done.
  - intros c1 fd1. destruct (decide (c1 = c)) as [->|Hne].
    + rewrite lookup_insert_eq. intros ?. simplify_eq. split; [by eapply Hcs|].
      destruct Hfd as [?|(? & ? & _)]; [by left|right; by exists q].
    + rewrite lookup_insert_ne by done. apply Hcs.
  - assert (∀ c' fd' p, c' ≠ c → contexts s !! c' = Some fd' → slot s fd p → slot s fd' p → live s p → False)
      as Hother.
    { intros c' fd' p Hne Hc' S1 S2 Hp. destruct Hfd as [->|((_ & Hv) & _ & Hu)].
      - destruct S1; lia.
      - apply (Hu c' fd' Hne Hc'). destruct S1 as [_ S1]. rewrite Hv in S1. by simplify_eq. }
    intros c1 c2 fd1 fd2 p.
    destruct (decide (c1 = c)) as [->|Hc1], (decide (c2 = c)) as [->|Hc2];
      rewrite ?lookup_insert_eq, ?lookup_insert_ne by done; intros E1 E2 S1 S2 Hp; simplify_eq; try done.
    + exfalso. by eapply Hother.
    + exfalso. by eapply Hother.
    + by eapply Hd.
Qed.

(** A program that changes the world only. *)
Definition world_only {A} (m : M net A) (s : net) : Prop :=
  wp no_fault m (λ _ s', ∃ w, s' = set_world w s) s.

Lemma Connect_ok k s p o ip n : net_ok k s → heap s !! p = Some o → world_only (Connect p ip n) s.
Proof using Type.
  intros Hok Ho. unfold Connect. eapply wp_run; [by eapply load_run|].
  wp_step. apply wp_env. intros r w _. wp_step. by exists w.
Qed.

Lemma Connect_host_ok k s p o host port :
  net_ok k s → heap s !! p = Some o → world_only (Connect_host p (Some host) (Some port)) s.
Proof using Type.
  intros Hok Ho. unfold Connect_host. do 4 (eapply wp_run; [done|]).
  destruct (port_number port) as [nPort|]; [|wp_step; exists (world s); by destruct s].
  wp_step. apply wp_env. intros [ip|] w _; [|wp_step; by exists w].
  eapply wp_mono; [eapply Connect_ok; [by apply net_ok_world|done]|]. intros r s' (w' & ->). by exists w'.
Qed.

Lemma Bind_ok k s p o port :
  net_ok k s → heap s !! p = Some o → world_only (Bind p (Some port)) s.
Proof using Type.
  intros Hok Ho. unfold Bind. do 2 (eapply wp_run; [done|]).
  destruct (port_number port) as [nPort|]; [|wp_step; exists (world s); by destruct s].
  eapply wp_run; [by eapply load_run|]. wp_step. apply wp_env. intros r w _.
  apply wp_if; intros _; [wp_step; by exists w|].
  wp_step. apply wp_env. intros r' w' _. wp_step. by exists w'.
Qed.

(** ** New sockets *)

Lemma created_heap s s' sock p o : created s s' sock p o → heap s' !! p = Some o.
Proof using Type. intros (-> & -> & _). apply lookup_insert_eq. Qed.

Lemma created_slot k s s' sock p o : net_ok k s' → created s s' sock p o → slot s' (m_nHandle o) p.
Proof using Type. intros Hok Hc. apply created_heap in Hc. by apply (ok_objects _ _ Hok) in Hc as (_ & ? & _). Qed.

Lemma new_CAdaptedSocket_ok k s :
  net_ok k s → k < 2^31 - 1 →
  wp no_fault (new_CAdaptedSocket IPPROTO_TCP)
    (λ p s', p = 0 ∧ net_ok k s' ∧ contexts s' = contexts s ∨
       ∃ w sock o, net_ok (k + 1) s' ∧ created (set_world w s) s' sock p o) s.
Proof using Type*.
  intros Hok Hk. unfold new_CAdaptedSocket. wp_step. apply wp_env. intros b w _.
  apply wp_if; intros _; [wp_step; left; split_and!; [done|by apply net_ok_world|done]|].
  wp_step. apply wp_env. intros sock w' _.
  destruct (construct_run k (set_world w' s) sock) as (p & s' & o & E & Hok' & Hc);
    [by apply net_ok_world|done|].
  eapply wp_run; [exact E|]. wp_step. apply wp_assert_true; [apply Z.eqb_refl|]. wp_step.
  right. by exists w', sock, o.
Qed.

Lemma new_accepted_ok k s sock :
  net_ok k s → k < 2^31 - 1 →
  wp no_fault (new_accepted sock)
    (λ p s', p = 0 ∧ net_ok k s' ∧ contexts s' = contexts s ∨
       ∃ w o, net_ok (k + 1) s' ∧ created (set_world w s) s' sock p o) s.
Proof using Type*.
  intros Hok Hk. unfold new_accepted. wp_step. apply wp_env. intros b w _.
  apply wp_if; intros _; [wp_step; left; split_and!; [done|by apply net_ok_world|done]|].
  destruct (construct_run k (set_world w s) sock) as (p & s' & o & E & Hok' & Hc);
    [by apply net_ok_world|done|].
  unfold wp. rewrite E. right. by exists w, o.
Qed.

Lemma new_context_socket_ok k s c :
  net_ok k s → k < 2^31 - 1 → is_Some (contexts s !! c) →
  wp no_fault (new_context_socket c)
    (λ p s', net_ok (k + 1) s' ∧ dom (contexts s') = dom (contexts s) ∧
       (p = 0 ∨ ∃ o, heap s' !! p = Some o)) s.
Proof using Type*.
  intros Hok Hk Hc. unfold new_context_socket. wp_step.
  eapply wp_mono; [by apply (new_CAdaptedSocket_ok k)|].
  intros p s1 [(-> & Hok1 & Hctx)|(w & sock & o & Hok1 & Hcr)].
  { rewrite Z.eqb_refl. wp_step. split_and!; [eapply net_ok_mono; [|done]; lia|by rewrite Hctx|by left]. }
  pose proof (created_heap _ _ _ _ _ Hcr) as Ho. pose proof (created_slot _ _ _ _ _ _ Hok1 Hcr) as Hs.
  pose proof (live_pos _ _ _ Hok1 (ex_intro _ _ Ho)) as Hp.
  destruct (Z.eqb_spec p 0); [done|]. destruct Hc as [fd0 Hc].
  wp_step. apply wp_assert_true.
  { apply (ok_contexts _ _ Hok) in Hc as [Hc0 _]. by rewrite (proj2 (Z.eqb_neq c 0)). }
  eapply wp_run.
  { unfold GetHandle. rewrite (bind_run _ _ _ _ _ (load_run _ _ _ _ Hok1 Ho)). unfold assert_.
    rewrite bind_unfold, Z.geb_leb, (proj2 (Z.leb_le _ _)) by apply Hs. done. }
  pose proof Hcr as (_ & _ & Hctx & _). cbn in Hctx.
  destruct (set_context_run (k + 1) s1 c (m_nHandle o) p Hok1) as (s2 & E2 & Hok2 & Hs2).
  { rewrite Hctx. by exists fd0. }
  { right. split_and!; [done|by exists o|]. intros c' fd' _ Hc'. rewrite Hctx in Hc'.
    eapply (created_unnamed k); [by apply (net_ok_world k s w)|exact Hcr|exact Hc']. }
  eapply wp_run; [exact E2|]. wp_step. apply wp_assert_true.
  { rewrite Z.geb_leb. apply Z.leb_le, Hs. }
  wp_step. split_and!; [done| |right; exists o; by subst s2].
  subst s2. cbn. rewrite Hctx. apply dom_insert_lookup_L. by exists fd0.
Qed.

Lemma AddSocket_ok k s p o :
  net_ok k s → k < 2^31 - 1 → heap s !! p = Some o →
  ∃ i a, AddSocket p s = Ok (Z.of_nat i, set_array a s) ∧ added (view s) p i (pa_view a) ∧
    net_ok (k + 1) (set_array a s).
Proof using Type*.
  intros Hok Hk Ho. pose proof (ok_size _ _ Hok). apply (ok_objects _ _ Hok) in Ho as (Hp & _).
  destruct (AddSocket_run s p) as (i & a & E & Ha); [lia|lia|].
  exists i, a. split_and!; [done|apply Ha..|]. by eapply net_ok_added.
Qed.

(** The object [o] of the new connection is in two slots of the table: in [i],
    its handle, by the constructor, and in [j] by [Accept]. *)
Definition registered_twice (s : net) (q : Z) (o : CAdaptedSocket) (i : nat) (v : list Z) (j : nat)
    (s' : net) : Prop :=
  q = next_address s ∧ heap s' = <[q := o]> (heap s) ∧ m_nHandle o = Z.of_nat i ∧
  added (view s) q i v ∧ added v q j (view s').

(** The result of [Accept]: an error, or a handle of a connection that no
    context names. *)
Definition accepted (k : Z) (s : net) (r : Z * option (list Z)) (s' : net) : Prop :=
  net_ok (k + 2) s' ∧ contexts s' = contexts s ∧
  (r.1 < 0 ∨ ∃ q, slot s' r.1 q ∧ live s' q ∧
     (∀ c fd, contexts s !! c = Some fd → ¬ slot s' fd q) ∧
     ∃ o i v j, registered_twice s q o i v j s' ∧ r.1 = Z.of_nat j).

Lemma Accept_ok k s p o ip :
  net_ok k s → k < 2^31 - 2 → heap s !! p = Some o → MbedTLSOk →
  wp no_fault (Accept p ip) (accepted k s) s.
Proof using Type*.
  intros Hok Hk Ho Herr. unfold Accept. eapply wp_run; [by eapply load_run|].
  pose proof net_errors_neg as Hneg. rewrite !Forall_cons in Hneg.
  wp_step. apply wp_env. intros [[sock addr]|] w _.
  2: { wp_step. split_and!; [eapply net_ok_mono; [|by apply net_ok_world]; lia|done|left; cbn; lia]. }
  wp_step. eapply wp_mono; [apply (new_accepted_ok k); [by apply net_ok_world|lia]|].
  intros q s1 [(-> & Hok1 & Hctx)|(w1 & o1 & Hok1 & Hcr)].
  { rewrite Z.eqb_refl. wp_step. apply wp_env. intros [] w2 _. wp_step.
    split_and!; [eapply net_ok_mono; [|by apply net_ok_world]; lia|done|left; cbn; lia]. }
  pose proof (created_heap _ _ _ _ _ Hcr) as Ho1.
  pose proof (live_pos _ _ _ Hok1 (ex_intro _ _ Ho1)) as Hq. destruct (Z.eqb_spec q 0); [done|].
  destruct (AddSocket_ok (k + 1) s1 q o1 Hok1) as (i & a & E & Ha & Hok2); [lia|done|].
  eapply wp_run; [exact E|]. wp_step. apply wp_assert_true; [rewrite Z.geb_leb; apply Z.leb_le; lia|].
  pose proof Hcr as (_ & _ & Hctx & _). cbn in Hctx. wp_step.
  split_and!; [by replace (k + 2) with (k + 1 + 1) by lia|by cbn; rewrite Hctx|].
  right. exists q. split; [split; [cbn; lia|cbn [fst]; rewrite Nat2Z.id; apply Ha]|].
  split; [by exists o1|]. split.
  2: { destruct Hcr as (Hqn & Hh & _ & _ & _ & _ & i1 & Hi1 & Ha1).
       exists o1, i1, (view s1), i. split; [|done]. by split_and!. }
  intros c fd Hc Hs. eapply (created_unnamed k); [|exact Hcr|exact Hc|].
  - by apply net_ok_world, net_ok_world.
  - eapply (added_back (k + 1)); [done|exact Ha|by rewrite Hctx|done].
Qed.

(** ** Deletion *)

(** The states after the object [p] is gone, and with the object of the context
    [c]. *)
Definition deleted (s : net) (p : Z) (w : W) (a : parray) : net :=
  mkNet (delete p (heap s)) (next_address s) a (contexts s) w.
Definition freed (s : net) (c p : Z) (w : W) (a : parray) : net :=
  mkNet (delete p (heap s)) (next_address s) a (<[c := -1]> (contexts s)) w.

(** No context names the object. *)
Definition unnamed (s : net (W := W)) (p : Z) : Prop :=
  ∀ c fd, contexts s !! c = Some fd → ¬ slot s fd p.

Lemma net_ok_deleted k s p o w a :
  net_ok k s → heap s !! p = Some o → unnamed s p →
  pa_view a = <[Z.to_nat (m_nHandle o) := 0]> (view s) → net_ok k (deleted s p w a).
Proof using Type*.
  intros Hok Ho Hun Ha. pose proof Hok as [Hn Hobj Hsl Hsz Hcs Hd].
  pose proof (Hobj _ _ Ho) as (Hp & Hh & _).
  assert (∀ h q, slot s h q → q ≠ p → slot (deleted s p w a) h q) as Hkeep.
  { intros h q [Hh0 Hv] Hq. split; [done|]. unfold view. cbn. rewrite Ha.
    rewrite list_lookup_insert_ne; [done|]. destruct Hh as [_ Hh]. intros E. rewrite E in Hh.
    rewrite Hh in Hv. by simplify_eq. }
  assert (∀ h q, slot (deleted s p w a) h q → q ≠ 0 → slot s h q) as Hback.
  { intros h q [Hh0 Hv] Hq. split; [done|]. unfold view in Hv. cbn in Hv. rewrite Ha in Hv.
    destruct (decide (Z.to_nat h = Z.to_nat (m_nHandle o))) as [E|E].
    - rewrite E, list_lookup_insert_eq in Hv; [by simplify_eq|]. by destruct Hh as [_ ?%lookup_lt_Some].
    - by rewrite list_lookup_insert_ne in Hv. }
  assert (∀ q, live (deleted s p w a) q ↔ q ≠ p ∧ live s q) as Hlive.
  { intros q. unfold live. cbn. split.
    - intros [x [? ?]%lookup_delete_Some]. split; [done|by exists x].
    - intros [? [x ?]]. exists x. by apply lookup_delete_Some. }
  split; cbn; try done.
  - intros q x [Hq Hx]%lookup_delete_Some. destruct (Hobj _ _ Hx) as (? & ? & ?).
    split_and!; [lia|lia|by apply Hkeep|done].
  - intros j q. unfold view. cbn. rewrite Ha. intros Hj.
    apply list_lookup_insert_Some in Hj as [(_ & <- & _)|[_ Hj]]; [lia|by apply (Hsl j)].
  - unfold view. cbn. by rewrite Ha, length_insert.
  - intros c fd Hc. destruct (Hcs _ _ Hc) as [? [?|(q & Hs & Hq)]]; [by auto|]. split; [done|]. right.
    exists q. assert (q ≠ p) as Hqp by (intros ->; by apply (Hun c fd)).
    split; [by apply Hkeep|]. by apply Hlive.
  - intros c1 c2 fd1 fd2 q E1 E2 S1 S2 Hq. apply Hlive in Hq as [_ Hq].
    pose proof (live_pos _ _ _ Hok Hq). by eapply Hd; [exact E1|exact E2|apply Hback..|].
Qed.

Lemma delete_run k s p o :
  net_ok k s → heap s !! p = Some o →
  ∃ w a, delete_CAdaptedSocket p s = Ok ((), deleted s p w a) ∧
    pa_view a = <[Z.to_nat (m_nHandle o) := 0]> (view s).
Proof using Type*.
  intros Hok Ho. pose proof (ok_objects _ _ Hok _ _ Ho) as (Hp & Hh & _).
  destruct (array_put_run s (m_nHandle o) p 0 Hh) as (a & Ea & Ha).
  exists (CNetSocket_delete (m_pSocket o) (world s)).2, a. split; [|done].
  unfold delete_CAdaptedSocket. rewrite (proj2 (Z.eqb_neq p 0)) by lia.
  rewrite (bind_run _ _ _ _ _ (load_run _ _ _ _ Hok Ho)), bind_unfold.
  unfold DeleteSocket, assert_. rewrite bind_unfold, Z.geb_leb, (proj2 (Z.leb_le _ _)) by apply Hh.
  rewrite Ea, bind_unfold. unfold world_op, env. cbn [world set_array].
  by destruct (CNetSocket_delete _ (world s)) as [[] w].
Qed.

Lemma net_ok_freed k s c fd p o w a :
  net_ok k s → contexts s !! c = Some fd → slot s fd p → heap s !! p = Some o →
  pa_view a = <[Z.to_nat (m_nHandle o) := 0]> (view s) → net_ok k (freed s c p w a).
Proof using Type*.
  intros Hok Hc Hfd Ho Ha.
  destruct (set_context_run k s c (-1) 0 Hok) as (s1 & _ & Hok1 & ->); [by exists fd|by left|].
  apply (net_ok_deleted k _ p o w a) in Hok1; [done|done| |done].
  intros c1 fd1. cbn. destruct (decide (c1 = c)) as [->|Hne].
  - rewrite lookup_insert_eq. intros [= <-] [Hneg _]. lia.
  - rewrite lookup_insert_ne by done. intros Hc1 Hs1. apply Hne.
    by eapply (ok_distinct _ _ Hok); [exact Hc1|exact Hc|exact Hs1|exact Hfd|exists o].
Qed.

Lemma net_free_run k s c fd :
  net_ok k s → contexts s !! c = Some fd →
  fd = -1 ∧ mbedtls_net_free c s = Ok ((), set_contexts (<[c := -1]> (contexts s)) s) ∨
  ∃ p o w a, slot s fd p ∧ heap s !! p = Some o ∧
    pa_view a = <[Z.to_nat (m_nHandle o) := 0]> (view s) ∧
    mbedtls_net_free c s = Ok ((), freed s c p w a).
Proof using Type*.
  intros Hok Hc. unfold mbedtls_net_free.
  destruct (context_socket_run _ _ _ _ Hok Hc) as [[-> E]|(p & o & Hs & Ho & Hp & E)].
  - left. split; [done|]. rewrite (bind_run _ _ _ _ _ E). cbn [delete_CAdaptedSocket].
    unfold delete_CAdaptedSocket. rewrite Z.eqb_refl, bind_unfold. cbn.
    unfold set_context_fd. rewrite bind_unfold. cbn [get]. by rewrite Hc.
  - right. destruct (delete_run _ _ _ _ Hok Ho) as (w & a & Ed & Ha).
    exists p, o, w, a. split_and!; [apply Hs..|done|done|].
    rewrite (bind_run _ _ _ _ _ E), (bind_run _ _ _ _ _ Ed).
    unfold set_context_fd. rewrite bind_unfold. cbn. by rewrite Hc.
Qed.
End safety.
