(* ===== verification/NetProps.v ===== *)
(** Properties of the sockets below mbed TLS. *)
From stdpp Require Import base numbers list gmap option strings.
From S2P Require Import Prelude.
From S2P Require Import Libc.
From S2P Require Import Circle.
From S2P Require Import NetSockets.
From S2P Require Import NetInv.
From S2P Require Import NetSafety.
Import Libc Net.

(** A call of one of the functions [mbedtls_net_*]. *)
Inductive net_call :=
  | NetInit (ctx : Z)
  | NetConnect (ctx : Z) (host port : list Z) (proto : Z)
  | NetBind (ctx : Z) (bind_ip : option (list Z)) (port : list Z) (proto : Z)
  | NetAccept (bind_ctx client_ctx : Z) (client_ip : bool) (buf_size : Z)
  | NetSetBlock (ctx : Z)
  | NetSetNonblock (ctx : Z)
  | NetRecv (ctx len : Z)
  | NetRecvTimeout (ctx len timeout : Z)
  | NetSend (ctx : Z) (buf : list Z)
  | NetFree (ctx : Z)
  | NetSleep (usec : Z).

(** The contexts a call uses. *)
Definition call_contexts (c : net_call) : list Z :=
  match c with
  | NetInit ctx | NetConnect ctx _ _ _ | NetBind ctx _ _ _ | NetSetBlock ctx | NetSetNonblock ctx
  | NetRecv ctx _ | NetRecvTimeout ctx _ _ | NetSend ctx _ | NetFree ctx => [ctx]
  | NetAccept bind_ctx client_ctx _ _ => [bind_ctx; client_ctx]
  | NetSleep _ => []
  end.

Section calls.
Context `{Target, MbedTLS, PtrArray, SocketPlatform W}.

Definition exec (fuel : nat) (c : net_call) : M (net (W := W)) () :=
  match c with
  | NetInit ctx => mbedtls_net_init ctx
  | NetConnect ctx host port proto => mbedtls_net_connect ctx (Some host) (Some port) proto;; mret ()
  | NetBind ctx ip port proto => mbedtls_net_bind ctx ip (Some port) proto;; mret ()
  | NetAccept b c ip size => mbedtls_net_accept b c ip size ip;; mret ()
  | NetSetBlock ctx => mbedtls_net_set_block ctx;; mret ()
  | NetSetNonblock ctx => mbedtls_net_set_nonblock ctx;; mret ()
  | NetRecv ctx len => mbedtls_net_recv ctx len;; mret ()
  | NetRecvTimeout ctx len to => mbedtls_net_recv_timeout fuel ctx len to;; mret ()
  | NetSend ctx buf => mbedtls_net_send ctx buf;; mret ()
  | NetFree ctx => mbedtls_net_free ctx
  | NetSleep usec => mbedtls_net_usleep usec
  end.

Fixpoint exec_all (fuel : nat) (cs : list net_call) : M (net (W := W)) () :=
  match cs with
  | [] => mret ()
  | c :: cs => exec fuel c;; exec_all fuel cs
  end.

(** Before any call: contexts as [mbedtls_net_init] leaves them, and no socket. *)
Definition net_init (ctxs : list Z) (w : W) : net :=
  mkNet ∅ 1 pa_empty (list_to_map ((λ c, (c, -1)) <$> ctxs)) w.
End calls.

Section safety.
Context `{Target, MbedTLS, !MbedTLSOk, PtrArray, !PtrArrayOk, SocketPlatform W, !PlatformOk W}.

Lemma net_init_ok ctxs w : 0 ∉ ctxs → net_ok 0 (net_init ctxs w).
Proof using Type*.
  intros Hnz. assert (∀ c fd, contexts (net_init ctxs w) !! c = Some fd → c ≠ 0 ∧ fd = -1) as Hctx.
  { intros c fd Hc. cbn in Hc. apply elem_of_list_to_map_2 in Hc.
    apply list_elem_of_fmap in Hc as (x & [= -> ->] & Hx). split; [|done]. by intros ->. }
  split; cbn; try done.
  - intros j q. unfold view. cbn. by rewrite pa_view_empty.
  - unfold view. cbn. by rewrite pa_view_empty.
  - intros c fd Hc. destruct (Hctx _ _ Hc) as [? ->]. by auto.
  - intros c1 c2 fd1 fd2 p E1 E2 [S1 _]. destruct (Hctx _ _ E1) as [_ ->]. lia.
Qed.

(** The frame of a call: the invariant, and the same contexts. *)
Definition call_post (k : Z) (s s' : net) : Prop := net_ok k s' ∧ dom (contexts s') = dom (contexts s).

Lemma call_world k k' s w : k ≤ k' → net_ok k s → call_post k' s (set_world w s).
Proof using Type. intros Hk Hok. split; [|done]. eapply net_ok_mono; [exact Hk|]. by apply net_ok_world. Qed.

Lemma call_same k k' s : k ≤ k' → net_ok k s → call_post k' s s.
Proof using Type. intros Hk Hok. split; [|done]. by eapply net_ok_mono. Qed.

Lemma wp_socket {A} F k s c fd (m : Z → M net A) Q :
  net_ok k s → contexts s !! c = Some fd →
  (fd = -1 → wp F (m 0) Q s) →
  (∀ p o, slot s fd p → heap s !! p = Some o → p ≠ 0 → wp F (m p) Q s) →
  wp F (p ← context_socket c; m p) Q s.
Proof using Type*.
  intros Hok Hc Hnone Hp. destruct (context_socket_run _ _ _ _ Hok Hc) as [[? E]|(p & o & Hs & Ho & Hn & E)];
    (eapply wp_run; [exact E|]); eauto.
Qed.

Lemma connect_ok k s ctx host port proto :
  net_ok k s → k < 2^31 - 2 → is_Some (contexts s !! ctx) →
  wp no_fault (mbedtls_net_connect ctx (Some host) (Some port) proto) (λ _, call_post (k + 2) s) s.
Proof using Type*.
  intros Hok Hk Hc. unfold mbedtls_net_connect. apply wp_if; intros _; [wp_step; eapply call_same; [|done]; lia|].
  wp_step. eapply wp_mono; [apply (new_context_socket_ok k); [done|lia|done]|].
  intros p s1 (Hok1 & Hdom & Hp). destruct (Z.eqb_spec p 0) as [->|Hp0].
  { wp_step. split; [|done]. eapply net_ok_mono; [|done]. lia. }
  destruct Hp as [?|[o Ho]]; [done|]. eapply wp_mono; [by eapply Connect_host_ok|].
  intros r s2 (w & ->). split; [|done]. eapply net_ok_mono; [|by apply net_ok_world]. lia.
Qed.

Lemma bind_ok k s ctx ip port proto :
  net_ok k s → k < 2^31 - 2 → is_Some (contexts s !! ctx) →
  wp no_fault (mbedtls_net_bind ctx ip (Some port) proto) (λ _, call_post (k + 2) s) s.
Proof using Type*.
  intros Hok Hk Hc. unfold mbedtls_net_bind. apply wp_if; intros _; [wp_step; eapply call_same; [|done]; lia|].
  apply wp_if; intros _; [wp_step; eapply call_same; [|done]; lia|].
  wp_step. eapply wp_mono; [apply (new_context_socket_ok k); [done|lia|done]|].
  intros p s1 (Hok1 & Hdom & Hp). destruct (Z.eqb_spec p 0) as [->|Hp0].
  { wp_step. split; [|done]. eapply net_ok_mono; [|done]. lia. }
  destruct Hp as [?|[o Ho]]; [done|]. eapply wp_mono; [by eapply Bind_ok|].
  intros r s2 (w & ->). split; [|done]. eapply net_ok_mono; [|by apply net_ok_world]. lia.
Qed.

Lemma accept_ok k s b c ip size :
  net_ok k s → k < 2^31 - 2 → is_Some (contexts s !! b) → is_Some (contexts s !! c) →
  wp no_fault (mbedtls_net_accept b c ip size ip) (λ _, call_post (k + 2) s) s.
Proof using Type*.
  intros Hok Hk [fd Hb] Hc. unfold mbedtls_net_accept. apply wp_if; intros _; [wp_step; eapply call_same; [|done]; lia|].
  eapply wp_socket; [done|exact Hb| |].
  { intros _. rewrite Z.eqb_refl. wp_step. eapply call_same; [|done]. lia. }
  intros p o _ Ho Hp. destruct (Z.eqb_spec p 0) as [|_]; [done|]. wp_step.
  eapply wp_mono; [apply (Accept_ok k _ _ o); try done; lia|]. intros [n addr] s1 (Hok1 & Hctx & Hn).
  cbn [fst] in Hn. destruct (Z.ltb_spec n 0); [wp_step; split; [done|by rewrite Hctx]|].
  destruct Hn as [?|(q & Hs & Hq & Hun & _)]; [lia|]. wp_step. apply wp_assert_true.
  { destruct Hc as [fd' Hc]. apply (ok_contexts _ _ Hok) in Hc as [Hc0 _]. by rewrite (proj2 (Z.eqb_neq c 0)). }
  destruct (set_context_run (k + 2) s1 c n q Hok1) as (s2 & E2 & Hok2 & ->).
  { by rewrite Hctx. }
  { right. split_and!; [done|done|]. intros c' fd' _. rewrite Hctx. apply Hun. }
  eapply wp_run; [exact E2|].
  assert (dom (<[c := n]> (contexts s1)) = dom (contexts s)) as Hdom.
  { rewrite Hctx. by apply dom_insert_lookup_L. }
  apply wp_if; intros Hip; [wp_step; apply wp_assert_true; [done|]|]; wp_step; by split.
Qed.

(** The calls that use the object of one context. *)
Lemma use_ok {A} F k s ctx (m : Z → M net A) (code : A) :
  net_ok k s → is_Some (contexts s !! ctx) →
  (∀ p o, heap s !! p = Some o → wp F (m p) (λ _ s', ∃ o' w, rx_ok o' ∧ same_object o o' ∧
     s' = set_heap (<[p := o']> (heap s)) (set_world w s)) s) →
  wp F (p ← context_socket ctx; if p =? 0 then mret code else m p) (λ _, call_post (k + 2) s) s.
Proof using Type*.
  intros Hok [fd Hc] Hm. eapply (wp_socket F k s ctx fd (λ p, if p =? 0 then mret code else m p));
    [done|exact Hc| |].
  - intros _. rewrite Z.eqb_refl. wp_step. eapply call_same; [|done]. lia.
  - intros p o _ Ho Hp. destruct (Z.eqb_spec p 0) as [|_]; [done|].
    eapply wp_mono; [by apply Hm|]. intros r s' (o' & w & Hrx & Hso & ->).
    split; [|done]. eapply net_ok_mono; [|by eapply net_ok_filled]. lia.
Qed.

Lemma unchanged_object s p o w :
  heap s !! p = Some o → set_world w s = set_heap (<[p := o]> (heap s)) (set_world w s).
Proof using Type. intros Ho. unfold set_heap, set_world. cbn. by rewrite insert_id. Qed.

Lemma object_rx k s p o : net_ok k s → heap s !! p = Some o → rx_ok o.
Proof using Type. intros Hok Ho. by apply (ok_objects _ _ Hok) in Ho as (_ & _ & ?). Qed.

Lemma set_blocking_ok k s ctx b :
  net_ok k s → is_Some (contexts s !! ctx) →
  wp no_fault (set_blocking ctx b) (λ _, call_post (k + 2) s) s.
Proof using Type*.
  intros Hok [fd Hc]. unfold set_blocking. eapply wp_socket; [done|exact Hc| |].
  { intros _. rewrite Z.eqb_refl. wp_step. eapply call_same; [|done]. lia. }
  intros p o _ Ho Hp. destruct (Z.eqb_spec p 0) as [|_]; [done|].
  eapply wp_run; [by eapply update_run|]. wp_step. split; [|done].
  eapply net_ok_mono; [|eapply net_ok_object; [done|exact Ho|done|]]; [lia|].
  exact (object_rx _ _ _ _ Hok Ho).
Qed.

Lemma recv_ok k s ctx len :
  net_ok k s → is_Some (contexts s !! ctx) →
  wp no_fault (mbedtls_net_recv ctx len) (λ _, call_post (k + 2) s) s.
Proof using Type*.
  intros Hok Hc. apply use_ok; [done|done|]. intros p o Ho.
  destruct (object_rx _ _ _ _ Hok Ho) as [bs Hb].
  pose proof (Receive_run k s p o bs (u32 len) Hok Ho Hb (u32_range len)) as Hr.
  destruct (received _ _ _ _ _) as [[res rest] w]. destruct Hr as (o' & E & Hb' & Hso).
  unfold wp. rewrite E. exists o', w. split_and!; [by exists rest|apply Hso..|done].
Qed.

Lemma recv_timeout_ok k s ctx len to :
  net_ok k s → is_Some (contexts s !! ctx) →
  ends (expires to) (λ fuel, mbedtls_net_recv_timeout fuel ctx len to) (λ _, call_post (k + 2) s) s.
Proof using Type*.
  intros Hok [fd Hc]. unfold mbedtls_net_recv_timeout. apply ends_step.
  destruct (context_socket_run _ _ _ _ Hok Hc) as [[_ E]|(p & o & _ & Ho & Hp & E)]; unfold wp; rewrite E.
  - apply ends_const. wp_step. eapply call_same; [|done]. lia.
  - rewrite (proj2 (Z.eqb_neq p 0)) by done.
    eapply ends_mono; [apply (ReceiveTimeout_ok k s p o); [done|done|apply u32_range]|].
    intros r s' (o' & w & -> & Hso & Hrx). split; [|done].
    eapply net_ok_mono; [|by eapply net_ok_filled]. lia.
Qed.

Lemma send_ok k s ctx buf :
  net_ok k s → is_Some (contexts s !! ctx) →
  wp no_fault (mbedtls_net_send ctx buf) (λ _, call_post (k + 2) s) s.
Proof using Type*.
  intros Hok Hc. apply use_ok; [done|done|]. intros p o Ho. unfold Send.
  eapply wp_run; [by eapply load_run|]. wp_step. apply wp_env. intros r w _. wp_step.
  exists o, w. split_and!; [exact (object_rx _ _ _ _ Hok Ho)|done..|by apply unchanged_object].
Qed.

Lemma free_ok k s ctx :
  net_ok k s → is_Some (contexts s !! ctx) →
  wp no_fault (mbedtls_net_free ctx) (λ _, call_post (k + 2) s) s.
Proof using Type*.
  intros Hok [fd Hc]. assert (dom (<[ctx := -1]> (contexts s)) = dom (contexts s)) as Hdom
    by (apply dom_insert_lookup_L; by exists fd).
  destruct (net_free_run _ _ _ _ Hok Hc) as [[_ E]|(p & o & w & a & Hs & Ho & Ha & E)];
    unfold wp; rewrite E; (split; [|exact Hdom]); apply (net_ok_mono k); try lia.
  - destruct (set_context_run k s ctx (-1) 0 Hok) as (s' & _ & Hok' & ->); [by exists fd|by left|done].
  - by eapply net_ok_freed.
Qed.

Lemma init_ok k s ctx :
  net_ok k s → is_Some (contexts s !! ctx) →
  wp no_fault (mbedtls_net_init ctx) (λ _, call_post (k + 2) s) s.
Proof using Type.
  intros Hok Hc. destruct (set_context_run k s ctx (-1) 0 Hok Hc) as (s' & _ & Hok' & ->); [by left|].
  unfold mbedtls_net_init. wp_step. apply wp_assert_true.
  { destruct Hc as [fd Hc]. apply (ok_contexts _ _ Hok) in Hc as [Hc0 _]. by rewrite (proj2 (Z.eqb_neq ctx 0)). }
  wp_step. split; [eapply net_ok_mono; [|done]; lia|]. by apply dom_insert_lookup_L.
Qed.

Lemma wp_discard {A} F (m : M (net (W := W)) A) (P : net → Prop) s :
  wp F m (λ _, P) s → wp F (m;; mret ()) (λ _, P) s.
Proof using Type. intros Hm. by apply wp_bind. Qed.

(** A call whose time limit, if it has one, is reached. *)
Definition timely (c : net_call) : Prop :=
  match c with NetRecvTimeout _ _ to => expires (W := W) to | _ => True end.

Lemma exec_ok k s c :
  net_ok k s → k < 2^31 - 2 → Forall (λ x, is_Some (contexts s !! x)) (call_contexts c) →
  ends (timely c) (λ fuel, exec fuel c) (λ _, call_post (k + 2) s) s.
Proof using Type*.
  intros Hok Hk Hc. destruct c as [| | | | | | |ctx len to| | |];
    cbn [call_contexts] in Hc; rewrite ?Forall_cons in Hc; cbn [exec];
    destruct_and?; try (apply ends_const; try apply wp_discard).
  8: { apply (ends_bind _ _ (λ _ _, mret ()) (λ _, call_post (k + 2) s)); [by apply recv_timeout_ok|].
       intros r s' Hs'. apply ends_const. by wp_step. }
  - by apply init_ok.
  - by apply connect_ok.
  - by apply bind_ok.
  - by apply accept_ok.
  - by apply set_blocking_ok.
  - by apply set_blocking_ok.
  - by apply recv_ok.
  - by apply send_ok.
  - by apply free_ok.
  - apply wp_env. intros [] w _. eapply call_world; [|done]. lia.
Qed.
End safety.

(** * A platform for concrete runs *)
Module NetDemo.
#[export] Existing Instances Script.platform Script.platform_ok.
#[export] Instance target : Target := aarch64.

#[export] Instance codes : MbedTLS := {|
  MBEDTLS_ERR_NET_SOCKET_FAILED := -0x42;
  MBEDTLS_ERR_NET_CONNECT_FAILED := -0x44;
  MBEDTLS_ERR_NET_BIND_FAILED := -0x46;
  MBEDTLS_ERR_NET_ACCEPT_FAILED := -0x4A;
  MBEDTLS_ERR_NET_SEND_FAILED := -0x4E;
  MBEDTLS_ERR_NET_UNKNOWN_HOST := -0x52;
  MBEDTLS_ERR_NET_BUFFER_TOO_SMALL := -0x43;
  MBEDTLS_ERR_NET_INVALID_CONTEXT := -0x45;
  MBEDTLS_ERR_SSL_ALLOC_FAILED := -0x7F00;
  MBEDTLS_ERR_SSL_WANT_READ := -0x6900;
  MBEDTLS_ERR_SSL_WANT_WRITE := -0x6880;
  MBEDTLS_ERR_SSL_TIMEOUT := -0x6800;
  MBEDTLS_ERR_X509_CERT_VERIFY_FAILED := -0x2700;
  MBEDTLS_NET_PROTO_TCP := 0;
  MBEDTLS_NET_LISTEN_BACKLOG := 10
|}.

#[export] Instance codes_ok : MbedTLSOk.
Proof. split. repeat constructor. Qed.

#[export] Instance sockets : SocketPlatform Script.t := {|
  IPPROTO_TCP := 6;
  IP_ADDRESS_SIZE := 4;
  MSEC2HZ ms := ms / 10;
  operator_new w := (true, w);
  CSocket_new _ := Script.open_socket;
  CSocket_Bind _ _ w := (0, w);
  CSocket_Listen _ _ w := (0, w);
  CSocket_Accept _ w := let '(k, w) := Script.open_socket w in (Some (k, [10; 0; 0; 1]), w);
  CSocket_GetForeignIP _ w := (Some [10; 0; 0; 1], w);
  CIPAddress_CopyTo a := a;
  CScheduler_Yield := Script.sleep 1;
  CScheduler_usSleep _ := Script.sleep 1
|}.

Definition listener : CAdaptedSocket (W := Script.t) := mkAdapted 0%nat 0 (uninit 1600) 0 0 true.

Lemma listening_buffer : buffered listener [].
Proof. split_and!; cbn; [by vm_compute|by apply holds_nil|done|lia]. Qed.

(** A listening socket in the context 8, and a context 16 without one. *)
Definition listening (script : list (option (list Z))) : net (W := Script.t) :=
  mkNet {[1 := listener]} 2 [1] {[8 := 0; 16 := -1]}
    (Script.init script).

Lemma listening_ok script : net_ok 1 (listening script).
Proof.
  assert (∀ c fd, contexts (listening script) !! c = Some fd → c = 8 ∧ fd = 0 ∨ c = 16 ∧ fd = -1)
    as Hctx.
  { intros c fd Hc. cbn in Hc. apply lookup_insert_Some in Hc as [[<- <-]|[_ Hc]]; [by left|].
    apply lookup_singleton_Some in Hc as [<- <-]. by right. }
  split; cbn; try lia.
  - intros p o Hp. apply lookup_singleton_Some in Hp as [<- <-]. split; [lia|]. split; [by split|].
    exists []. exact listening_buffer.
  - intros [|j] q Hq; cbn in Hq; simplify_eq. lia.
  - intros c fd Hc. destruct (Hctx _ _ Hc) as [[-> ->]|[-> ->]]; (split; [lia|]); [right|by left].
    exists 1. split; [done|by eexists].
  - intros c1 c2 fd1 fd2 p E1 E2 [S1 _] [S2 _] _.
    destruct (Hctx _ _ E1) as [[-> ->]|[-> ->]], (Hctx _ _ E2) as [[-> ->]|[-> ->]]; lia.
Qed.
End NetDemo.
Import NetDemo.

(** C6: any sequence of calls of the functions [mbedtls_net_*], with contexts
    that exist, runs without a fault from the start, whatever the sockets do:
    no assertion fails, no dangling pointer is used and no buffer overrun.
    After it each object is in the table under its handle, has a well-formed
    buffer, and each context names nothing or a live object of its own.  The
    calls return, those with a time limit if the clock reaches it. *)
Theorem net_safe `{Target, MbedTLS, !MbedTLSOk, PtrArray, !PtrArrayOk, SocketPlatform W, !PlatformOk W}
    ctxs cs w :
  0 ∉ ctxs → Forall (λ c, call_contexts c ⊆ ctxs) cs → 2 * Z.of_nat (length cs) < 2^31 - 2 →
  ends (Forall (timely (W := W)) cs) (λ fuel, exec_all fuel cs)
    (λ _ s, net_ok (2 * Z.of_nat (length cs)) s) (net_init ctxs w).
Proof.
  intros Hnz Hcs Hlen.
  enough (∀ k s, net_ok k s → k + 2 * Z.of_nat (length cs) < 2^31 - 2 →
    Forall (λ c, Forall (λ x, is_Some (contexts s !! x)) (call_contexts c)) cs →
    ends (Forall (timely (W := W)) cs) (λ fuel, exec_all fuel cs)
      (λ _ s', net_ok (k + 2 * Z.of_nat (length cs)) s') s) as Hall.
  { apply (Hall 0); [by apply net_init_ok|lia|].
    eapply Forall_impl; [exact Hcs|]. intros c Hc. apply Forall_forall. intros x Hx.
    apply elem_of_dom. cbn. rewrite dom_list_to_map_L. apply elem_of_list_to_set.
    rewrite <-list_fmap_compose, list_fmap_id. by apply Hc. }
  clear Hnz Hcs Hlen. induction cs as [|c cs IH]; intros k s Hok Hk Hcs; cbn [exec_all length].
  { apply ends_const. wp_step. by rewrite Z.add_0_r. }
  apply Forall_cons in Hcs as [Hc Hcs]. cbn [length] in Hk.
  apply (ends_bind _ _ (λ fuel _, exec_all fuel cs) (λ _, call_post (k + 2) s)).
  { eapply ends_weaken; [by apply (exec_ok k); [|lia|]|]. by intros [? _]%Forall_cons. }
  intros [] s1 [Hok1 Hdom]. eapply ends_weaken; [|by intros [_ Ht]%Forall_cons; exact Ht].
  eapply ends_mono; [apply (IH (k + 2)); [done|lia|]|].
  - eapply Forall_impl; [exact Hcs|]. intros c' Hc'. eapply Forall_impl; [exact Hc'|].
    intros x. by rewrite <-!elem_of_dom, Hdom.
  - intros [] s2. by replace (k + 2 + 2 * Z.of_nat (length cs)) with (k + 2 * Z.of_nat (S (length cs))) by lia.
Qed.

Definition server_calls : list net_call :=
  [NetInit 8; NetBind 8 None (cstr "443") 0; NetAccept 8 16 true 4; NetSetNonblock 16; NetRecv 16 3;
   NetRecv 16 100; NetRecv 16 100; NetRecvTimeout 16 100 50; NetSend 16 (cstr "bye"); NetFree 16;
   NetRecv 16 1; NetFree 8].

(** Each round takes one tick of the clock of [Script]. *)
Lemma script_expires to : to / 10 < 2^32 → expires (W := Script.t) to.
Proof.
  intros Hto sock start.
  assert (∀ n w, Z.to_nat (to / 10 - u32 (u32 (Script.now w) - start)) = n →
    u32 (u32 (Script.now w) - start) < to / 10 → Acc (λ w2 w1, waits sock to start w1 w2) w) as Hn.
  - induction n as [n IH] using (well_founded_induction lt_wf). intros w En Hlt. constructor.
    intros w2 (rx & w1 & now & E & Et & Hc). cbn in E, Et. injection Et as <- <-.
    assert (Script.now w1 = Script.now w) as E1.
    { unfold Script.receive in E. repeat case_match; by simplify_eq/=. }
    rewrite Z.geb_leb, Z.leb_gt in Hc. cbn in Hc |- *. rewrite E1 in Hc.
    assert (u32 (u32 (Script.now w + 1) - start) = u32 (u32 (Script.now w) - start) + 1) as Es.
    { unfold u32 in *. rewrite !Zminus_mod_idemp_l in *. pose proof (Z.mod_pos_bound (Script.now w - start) (2^32)) as Hm.
      replace (Script.now w + 1 - start) with (Script.now w - start + 1) by lia.
      rewrite <-Zplus_mod_idemp_l. apply Z.mod_small. lia. }
    eapply IH; [|done|cbn; by rewrite E1]. cbn. rewrite E1. lia.
  - intros w. constructor. intros w2 (rx & w1 & now & E & Et & Hc). cbn in Et. injection Et as <- <-.
    eapply Hn; [done|]. rewrite Z.geb_leb, Z.leb_gt in Hc. exact Hc.
Qed.

Lemma net_safe_witness :
  let s := net_init [8; 16] (Script.init [Some (cstr "hello")]) in
  (Forall (timely (W := Script.t)) server_calls ∧
    ∃ n s', net_ok 24 s' ∧ ∀ fuel, (n ≤ fuel)%nat → exec_all fuel server_calls s = Ok ((), s')) ∧
  match exec_all 10 server_calls s with
  | Ok (_, s) => contexts s = {[8 := -1; 16 := -1]} ∧ heap s = ∅
  | Fault e => False
  end.
Proof.
  set (s := net_init _ _). split.
  - assert (Forall (timely (W := Script.t)) server_calls) as Ht.
    { unfold server_calls. rewrite !Forall_cons. cbn [timely].
      split_and!; try exact I; [apply script_expires; reflexivity|by apply Forall_nil]. }
    split; [exact Ht|]. destruct (net_safe [8; 16] server_calls (Script.init [Some (cstr "hello")])) as [_ Hends].
    + apply (bool_decide_unpack _). by vm_compute.
    + unfold server_calls. rewrite !Forall_cons. cbn [call_contexts].
      split_and!; try (by apply Forall_nil); intros x; set_solver.
    + unfold server_calls. cbn [length]. lia.
    + destruct (Hends Ht) as (n & [] & s' & Hs' & Hn). exists n, s'. split; [exact Hs'|exact Hn].
  - assert (match exec_all 10 server_calls s with
            | Ok (_, s) => bool_decide (contexts s = {[8 := -1; 16 := -1]}) && bool_decide (map_to_list (heap s) = [])
            | Fault e => false
            end = true) as Hrun by (vm_compute; reflexivity).
    destruct (exec_all _ _ _) as [[u s']|e]; [|done].
    apply andb_true_iff in Hrun as [H1%bool_decide_eq_true H2%bool_decide_eq_true].
    split; [done|]. by apply map_to_list_empty_iff.
Defined.

(** * The bytes of a connection *)

(** [delivered k fl w bs w']: between the worlds [w] and [w'] the receive calls
    on the socket [k] have delivered the bytes [bs]. *)
Inductive delivered `{SocketPlatform W} (k : Sock) (fl : Z) : W → list Z → W → Prop :=
  | delivered_nothing w : delivered k fl w [] w
  | delivered_more w r rx w1 bs w2 :
      CNetSocket_Receive k FRAME_BUFFER_SIZE fl w = ((r, rx), w1) →
      delivered k fl (if r =? 0 then (CScheduler_Yield w1).2 else w1) bs w2 →
      delivered k fl w (rx ++ bs) w2.

(** Calls of [mbedtls_net_recv] on a context, and the bytes they return. *)
Fixpoint recv_all `{Target, MbedTLS, PtrArray, SocketPlatform W} (ctx : Z) (lens : list Z) :
    M (net (W := W)) (list Z) :=
  match lens with
  | [] => mret []
  | n :: lens =>
      '(_, bs) ← mbedtls_net_recv ctx n;
      rest ← recv_all ctx lens;
      mret (bs ++ rest)
  end.

Section stream.
Context `{Target, MbedTLS, PtrArray, !PtrArrayOk, SocketPlatform W, !PlatformOk W}.

Lemma delivered_app k fl w bs w1 bs' w2 :
  delivered k fl w bs w1 → delivered k fl w1 bs' w2 → delivered k fl w (bs ++ bs') w2.
Proof using Type. induction 1; intros; [done|]. rewrite <-app_assoc. by eapply delivered_more; [|auto]. Qed.

Lemma received_stream k fl bs n w code out rest w' :
  received k fl bs n w = ((code, out), rest, w') →
  ∃ blk, delivered k fl w blk w' ∧ bs ++ blk = out ++ rest.
Proof using Type*.
  unfold received, taken. case_decide as Hbs.
  - subst bs. destruct (CNetSocket_Receive k FRAME_BUFFER_SIZE fl w) as [[r rx] w1] eqn:E.
    pose proof (FRAME_BUFFER_SIZE_pos (W := W)) as HF.
    destruct (CNetSocket_Receive_len _ _ _ _ _ _ _ E) as [Hl _]; [lia|].
    intros Hr. exists (rx ++ []). split.
    + eapply delivered_more; [exact E|]. destruct (Z.eqb_spec r 0), (Z.ltb_spec r 0);
        simplify_eq; constructor.
    + rewrite app_nil_r. destruct (Z.eqb_spec r 0) as [->|]; [|destruct (Z.ltb_spec r 0)];
        simplify_eq; cbn; [by apply nil_length_inv; lia..|by rewrite take_drop].
  - intros ?. simplify_eq. exists []. split; [constructor|]. by rewrite app_nil_r, take_drop.
Qed.

(** One call. *)
Lemma recv_run k s ctx fd p o bs len :
  net_ok k s → contexts s !! ctx = Some fd → slot s fd p → heap s !! p = Some o → buffered o bs →
  ∃ code out rest blk o' w, let s' := set_heap (<[p := o']> (heap s)) (set_world w s) in
    mbedtls_net_recv ctx len s = Ok ((code, out), s') ∧ net_ok k s' ∧ same_object o o' ∧
    buffered o' rest ∧ delivered (m_pSocket o) (rx_flags o) (world s) blk w ∧ bs ++ blk = out ++ rest.
Proof using Type*.
  intros Hok Hc Hs Ho Hb. unfold mbedtls_net_recv.
  destruct (context_socket_run _ _ _ _ Hok Hc) as [[-> _]|(p' & o2 & [_ Hs'] & _ & Hp & E)];
    [by destruct Hs; lia|].
  destruct Hs as [_ Hs]. rewrite Hs in Hs'. simplify_eq. rewrite (bind_run _ _ _ _ _ E).
  rewrite (proj2 (Z.eqb_neq p' 0)) by done.
  pose proof (Receive_run k s p' o bs (u32 len) Hok Ho Hb (u32_range len)) as Hr.
  destruct (received _ _ _ _ _) as [[[code out] rest] w] eqn:Er. destruct Hr as (o' & E' & Hb' & Hso).
  destruct (received_stream _ _ _ _ _ _ _ _ _ Er) as (blk & Hd & Heq).
  exists code, out, rest, blk, o', w. cbv zeta. split_and!; try done; try apply Hso.
  apply (net_ok_filled _ _ _ o); [done|done|done|by exists rest].
Qed.
End stream.

(** C31: a connection is read as a stream: however the bytes of the connection are cut
    into the pieces the socket delivers, and whatever lengths the reader asks
    for, the bytes the reader has got and those left in the buffer are, in
    order, those that were in the buffer and those the socket has delivered:
    none is lost, repeated or swapped. *)
Theorem recv_stream `{Target, MbedTLS, PtrArray, !PtrArrayOk, SocketPlatform W, !PlatformOk W}
    k s ctx fd p o bs lens :
  net_ok k s → contexts s !! ctx = Some fd → slot s fd p → heap s !! p = Some o → buffered o bs →
  ∃ out s' o' rest blocks,
    recv_all ctx lens s = Ok (out, s') ∧ heap s' !! p = Some o' ∧ buffered o' rest ∧
    delivered (m_pSocket o) (rx_flags o) (world s) blocks (world s') ∧
    bs ++ blocks = out ++ rest.
Proof.
  revert s o bs. induction lens as [|n lens IH]; intros s o bs Hok Hc Hs Ho Hb; cbn [recv_all].
  { exists [], s, o, bs, []. split_and!; try done; [constructor|by rewrite app_nil_r]. }
  destruct (recv_run k s ctx fd p o bs n Hok Hc Hs Ho Hb)
    as (code & out & rest & blk & o1 & w1 & E & Hok1 & Hso & Hb1 & Hd & Heq).
  rewrite (bind_run _ _ _ _ _ E). cbv beta iota.
  destruct (IH _ o1 rest Hok1) as (out' & s' & o' & rest' & blk' & E' & Ho' & Hb' & Hd' & Heq');
    [exact Hc|exact Hs|apply lookup_insert_eq|exact Hb1|].
  rewrite (bind_run _ _ _ _ _ E'). cbn [world set_world set_heap] in Hd'.
  assert (rx_flags o1 = rx_flags o) as Hfl by (unfold rx_flags; by destruct Hso as (_ & _ & ->)).
  rewrite Hfl, (proj1 Hso) in Hd'. exists (out ++ out'), s', o', rest', (blk ++ blk').
  split_and!; [done|done|apply Hb'..|by eapply delivered_app|].
  by rewrite app_assoc, Heq, <-!app_assoc, Heq'.
Qed.

Lemma recv_stream_witness :
  let s := listening [Some (cstr "hello"); None] in
  net_ok 1 s ∧
  ∃ out s' o' rest blocks,
    recv_all 8 [2; 2; 2; 2] s = Ok (out, s') ∧ heap s' !! 1 = Some o' ∧ buffered o' rest ∧
    delivered (W := Script.t) 0%nat 0 (world s) blocks (world s') ∧ [] ++ blocks = out ++ rest.
Proof.
  split; [apply listening_ok|].
  apply (recv_stream 1 (listening [Some (cstr "hello"); None]) 8 0 1
    listener [] [2; 2; 2; 2]).
  - apply listening_ok.
  - reflexivity.
  - split; [lia|reflexivity].
  - reflexivity.
  - exact listening_buffer.
Defined.

(** * Accepted connections *)

(** A server that accepts a connection and closes it again; the result says
    whether all calls of [mbedtls_net_accept] have succeeded. *)
Fixpoint accept_rounds `{Target, MbedTLS, PtrArray, SocketPlatform W} (n : nat) (b c : Z) :
    M (net (W := W)) bool :=
  match n with
  | O => mret true
  | S n =>
      r ← mbedtls_net_accept b c false 0 false;
      mbedtls_net_free c;;
      ok ← accept_rounds n b c;
      mret ((r.1.1 =? 0) && ok)
  end.

Section leak.
Context `{Target, MbedTLS, !MbedTLSOk, PtrArray, !PtrArrayOk, SocketPlatform W, !PlatformOk W}.

(** A slot that names an object that is gone: nobody will free it. *)
Definition stale (s : net (W := W)) (j : nat) : Prop :=
  ∃ q, view s !! j = Some q ∧ q ≠ 0 ∧ heap s !! q = None.

Lemma accept_success k s b c :
  net_ok k s → k < 2^31 - 2 → is_Some (contexts s !! b) → is_Some (contexts s !! c) →
  wp no_fault (mbedtls_net_accept b c false 0 false)
    (λ r s1, net_ok (k + 2) s1 ∧ dom (contexts s1) = dom (contexts s) ∧
       (r.1.1 = 0 → ∃ q o i v j s0, registered_twice s q o i v j s0 ∧ heap s1 = heap s0 ∧
          view s1 = view s0 ∧ contexts s1 !! c = Some (Z.of_nat j))) s.
Proof using Type*.
  intros Hok Hk [fd Hb] Hc. unfold mbedtls_net_accept. cbn [andb].
  pose proof net_errors_neg as Hneg. rewrite !Forall_cons in Hneg.
  eapply wp_socket; [done|exact Hb| |].
  { intros _. rewrite Z.eqb_refl. wp_step. split_and!; [by eapply net_ok_mono; [|done]; lia|done|cbn; lia]. }
  intros p o _ Ho Hp. destruct (Z.eqb_spec p 0) as [|_]; [done|]. wp_step.
  eapply wp_mono; [apply (Accept_ok k _ _ o); try done; lia|]. intros [n addr] s1 (Hok1 & Hctx & Hn).
  cbn [fst] in Hn. destruct (Z.ltb_spec n 0).
  { wp_step. split_and!; [done|by rewrite Hctx|cbn; lia]. }
  destruct Hn as [?|(q & Hs & Hq & Hun & o' & i & v & j & Htw & ->)]; [lia|]. wp_step. apply wp_assert_true.
  { destruct Hc as [fd' Hc]. apply (ok_contexts _ _ Hok) in Hc as [Hc0 _]. by rewrite (proj2 (Z.eqb_neq c 0)). }
  destruct (set_context_run (k + 2) s1 c (Z.of_nat j) q Hok1) as (s2 & E2 & Hok2 & ->).
  { by rewrite Hctx. }
  { right. split_and!; [done|done|]. intros c' fd' _. rewrite Hctx. apply Hun. }
  eapply wp_run; [exact E2|]. wp_step. split; [done|]. split.
  { cbn. rewrite Hctx. by apply dom_insert_lookup_L. }
  intros _. exists q, o', i, v, j, s1. split_and!; [apply Htw..|done|done|apply lookup_insert_eq].
Qed.

(** A connection that is accepted and closed. *)
Lemma accept_free_round k s b c r s1 s2 :
  net_ok k s → k < 2^31 - 2 → is_Some (contexts s !! b) → is_Some (contexts s !! c) →
  mbedtls_net_accept b c false 0 false s = Ok (r, s1) → mbedtls_net_free c s1 = Ok ((), s2) →
  r.1.1 = 0 →
  net_ok (k + 2) s2 ∧ dom (contexts s2) = dom (contexts s) ∧ heap s2 = heap s ∧
  (∃ j, stale s2 j ∧ ¬ stale s j) ∧ ∀ j, stale s j → stale s2 j.
Proof using Type*.
  intros Hok Hk Hb Hc E1 E2 Hr. pose proof (accept_success k s b c Hok Hk Hb Hc) as Ha.
  apply (wp_Ok _ _ _ _ _ _ Ha) in E1 as (Hok1 & Hdom & Htw).
  destruct (Htw Hr) as (q & o & i & v & j & s0 & (-> & Hh & Hi & A1 & A2) & Hh1 & Hv1 & Hcj).
  rewrite <-Hh1 in Hh. rewrite <-Hv1 in A2. clear Hh1 Hv1 s0. pose proof (ok_next _ _ Hok) as Hn.
  destruct (net_free_run _ _ _ _ Hok1 Hcj) as [[? _]|(p & o' & w & a & Hs & Ho' & Hva & E)]; [lia|].
  assert (p = next_address s) as ->.
  { destruct Hs as [_ Hs]. rewrite Nat2Z.id in Hs. destruct A2 as (A2 & _). rewrite A2 in Hs. by simplify_eq. }
  rewrite Hh, lookup_insert_eq in Ho'. injection Ho' as <-. rewrite E in E2. injection E2 as <-.
  assert (i ≠ j) as Hij.
  { intros ->. destruct A1 as (A1 & _), A2 as (_ & A2 & _). rewrite A1 in A2. destruct A2; simplify_eq. lia. }
  assert (heap (freed s1 c (next_address s) w a) = heap s) as Hheap.
  { cbn. rewrite Hh, delete_insert_eq. apply delete_id. by eapply fresh_address. }
  assert (∀ j', j' ≠ i → view (freed s1 c (next_address s) w a) !! j' = view s1 !! j') as Hview.
  { intros j' Hj'. unfold view at 1. cbn. rewrite Hva, Hi, Nat2Z.id. by apply list_lookup_insert_ne. }
  split_and!; [by eapply net_ok_freed; [| |exact Hs| |]; rewrite ?Hh, ?lookup_insert_eq| |done| |].
  - cbn. rewrite <-Hdom. apply dom_insert_lookup_L. by eexists.
  - exists j. split.
    + exists (next_address s). rewrite Hview, Hheap by done. destruct A2 as (A2 & _).
      split_and!; [done|lia|by eapply fresh_address].
    + intros (q' & Hq' & Hq0 & _). apply (added_keeps _ _ _ _ _ _ A1) in Hq'; [|done].
      destruct A2 as (_ & A2 & _). rewrite Hq' in A2. destruct A2; by simplify_eq.
  - intros j' (q' & Hq' & Hq0 & Hdead). exists q'. rewrite Hheap. split_and!; [|done|done].
    rewrite Hview.
    + eapply added_keeps; [exact A2| |done]. by eapply added_keeps.
    + intros ->. destruct A1 as (_ & A1 & _). rewrite Hq' in A1. destruct A1; by simplify_eq.
Qed.

Lemma rounds_stale n k s b c s' l :
  net_ok k s → k + 2 * Z.of_nat n < 2^31 - 2 → is_Some (contexts s !! b) → is_Some (contexts s !! c) →
  accept_rounds n b c s = Ok (true, s') → NoDup l → (∀ j, j ∈ l → stale s j) →
  ∃ l', NoDup l' ∧ length l' = (n + length l)%nat ∧ (∀ j, j ∈ l' → stale s' j) ∧ heap s' = heap s.
Proof using Type*.
  revert k s l. induction n as [|n IH]; intros k s l Hok Hk Hb Hc E Hl Hst; cbn [accept_rounds] in E.
  { injection E as <-. by exists l. }
  apply bind_Ok in E as (r & s1 & E1 & E). apply bind_Ok in E as ([] & s2 & E2 & E).
  apply bind_Ok in E as (ok & s3 & E3 & E). injection E as Hr <-.
  apply andb_true_iff in Hr as [Hr%Z.eqb_eq ->].
  destruct (accept_free_round k s b c r s1 s2 Hok ltac:(lia) Hb Hc E1 E2 Hr)
    as (Hok2 & Hdom & Hheap & (j & Hj & Hnj) & Hkeep).
  destruct (IH (k + 2) s2 (j :: l) Hok2) as (l' & Hl' & Hlen & Hst' & Hh'); try done; [lia| | | | |].
  - apply elem_of_dom. rewrite Hdom. by apply elem_of_dom.
  - apply elem_of_dom. rewrite Hdom. by apply elem_of_dom.
  - constructor; [|done]. intros Hin. by apply Hnj, Hst.
  - intros j' [->|Hj']%elem_of_cons; [done|]. by apply Hkeep, Hst.
  - exists l'. split_and!; [done| |done|congruence]. cbn [length] in Hlen. lia.
Qed.
End leak.

(** [CAdaptedSocket::Accept] registers a connection twice, in the
    constructor and again itself, and the destructor frees one of the two slots:
    after a server has accepted and closed [n] connections the table of the
    handles has at least [n] entries, although the objects are those of
    before. *)
Theorem accept_leak `{Target, MbedTLS, !MbedTLSOk, PtrArray, !PtrArrayOk, SocketPlatform W, !PlatformOk W}
    n k (s s' : net (W := W)) b c :
  net_ok k s → k + 2 * Z.of_nat n < 2^31 - 2 → is_Some (contexts s !! b) → is_Some (contexts s !! c) →
  accept_rounds n b c s = Ok (true, s') →
  Z.of_nat n ≤ pa_GetCount (s_SocketArray s') ∧ heap s' = heap s.
Proof.
  intros Hok Hk Hb Hc E.
  destruct (rounds_stale n k s b c s' [] Hok Hk Hb Hc E) as (l & Hl & Hlen & Hst & Hh);
    [constructor|by intros ? ?%elem_of_nil|]. split; [|done].
  rewrite pa_GetCount_view. fold (view s'). cbn [length] in Hlen.
  assert (length l ≤ length (seq 0 (length (view s'))))%nat as Hle.
  { apply submseteq_length, NoDup_submseteq; [done|]. intros j Hj.
    destruct (Hst j Hj) as (q & Hq & _). apply elem_of_seq. apply lookup_lt_Some in Hq. lia. }
  rewrite length_seq in Hle. lia.
Qed.

Lemma accept_leak_witness :
  ∃ s', accept_rounds 5 8 16 (listening []) = Ok (true, s') ∧
    5 ≤ pa_GetCount (s_SocketArray s') ∧ heap s' = heap (listening []).
Proof.
  assert (match accept_rounds 5 8 16 (listening []) with Ok (b, _) => b | Fault _ => false end = true)
    as Hrun by (by vm_compute).
  destruct (accept_rounds 5 8 16 (listening [])) as [[[] s']|] eqn:E; [|done|done].
  exists s'. split; [done|].
  apply (accept_leak 5 1 (listening []) s' 8 16).
  - apply listening_ok.
  - lia.
  - by eexists.
  - by eexists.
  - exact E.
Defined.
