(* ===== verification/X509Profile.v ===== *)
(** The security profile for certificates: the class [CX509CertificateProfile]
    of [x509certprofile.h].

    The profile of mbed TLS has three sets of algorithms as bit masks.  The flag
    of an algorithm, the macro [MBEDTLS_X509_ID_FLAG] of mbed TLS, is a
    parameter; its documented meaning is the bit with the number of the
    algorithm less one.  The second part of the file proves that the masks are
    sets of algorithms. *)
From stdpp Require Import base numbers list gmap option strings.
From S2P Require Import Prelude.

Class X509Flags := MBEDTLS_X509_ID_FLAG : Z → Z.
Class X509FlagsOk `{X509Flags} :=
  id_flag_bit id : 1 ≤ id ≤ 32 → MBEDTLS_X509_ID_FLAG id = 2^(id - 1).

Module X509Profile.
(** The fields of [mbedtls_x509_crt_profile]. *)
Record profile := mkProfile {
  allowed_mds : Z;
  allowed_pks : Z;
  allowed_curves : Z;
  rsa_min_bitlen : Z
}.

(** The constructor copies the default profile of mbed TLS, and [Set] another
    one. *)
Definition construct (mbedtls_x509_crt_profile_default : profile) : profile :=
  mbedtls_x509_crt_profile_default.
Definition Set_ (pProfile _this : profile) : profile := pProfile.
Definition Get (this : profile) : profile := this.

Section profile.
Context `{X509Flags}.

(** [x |= flag], [x &= ~flag] and [x & flag ? TRUE : FALSE] on a 32-bit mask. *)
Definition enable (mask id : Z) : Z := u32 (Z.lor mask (MBEDTLS_X509_ID_FLAG id)).
Definition disable (mask id : Z) : Z := Z.land mask (Z.lxor (MBEDTLS_X509_ID_FLAG id) (2^32 - 1)).
Definition allowed (mask id : Z) : bool := negb (Z.land mask (MBEDTLS_X509_ID_FLAG id) =? 0).

Definition SetAllowedMessageDigests (nFlags : Z) (p : profile) : profile :=
  mkProfile (u32 nFlags) (allowed_pks p) (allowed_curves p) (rsa_min_bitlen p).
Definition GetAllowedMessageDigests (p : profile) : Z := allowed_mds p.
Definition EnableMessageDigest (Type_ : Z) (p : profile) : profile :=
  mkProfile (enable (allowed_mds p) Type_) (allowed_pks p) (allowed_curves p) (rsa_min_bitlen p).
Definition DisableMessageDigest (Type_ : Z) (p : profile) : profile :=
  mkProfile (disable (allowed_mds p) Type_) (allowed_pks p) (allowed_curves p) (rsa_min_bitlen p).
Definition IsMessageDigestAllowed (Type_ : Z) (p : profile) : bool := allowed (allowed_mds p) Type_.

Definition SetAllowedPublicKeys (nFlags : Z) (p : profile) : profile :=
  mkProfile (allowed_mds p) (u32 nFlags) (allowed_curves p) (rsa_min_bitlen p).
Definition GetAllowedPublicKeys (p : profile) : Z := allowed_pks p.
Definition EnablePublicKey (Type_ : Z) (p : profile) : profile :=
  mkProfile (allowed_mds p) (enable (allowed_pks p) Type_) (allowed_curves p) (rsa_min_bitlen p).
Definition DisablePublicKey (Type_ : Z) (p : profile) : profile :=
  mkProfile (allowed_mds p) (disable (allowed_pks p) Type_) (allowed_curves p) (rsa_min_bitlen p).
Definition IsPublicKeyAllowed (Type_ : Z) (p : profile) : bool := allowed (allowed_pks p) Type_.

Definition SetAllowedEllipticCurves (nFlags : Z) (p : profile) : profile :=
  mkProfile (allowed_mds p) (allowed_pks p) (u32 nFlags) (rsa_min_bitlen p).
Definition GetAllowedEllipticCurves (p : profile) : Z := allowed_curves p.
Definition EnableEllipticCurve (Type_ : Z) (p : profile) : profile :=
  mkProfile (allowed_mds p) (allowed_pks p) (enable (allowed_curves p) Type_) (rsa_min_bitlen p).
Definition DisableEllipticCurve (Type_ : Z) (p : profile) : profile :=
  mkProfile (allowed_mds p) (allowed_pks p) (disable (allowed_curves p) Type_) (rsa_min_bitlen p).
Definition IsEllipticCurveAllowed (Type_ : Z) (p : profile) : bool :=
  allowed (allowed_curves p) Type_.

Definition SetRSAMinimumKeySize (nBitLen : Z) (p : profile) : profile :=
  mkProfile (allowed_mds p) (allowed_pks p) (allowed_curves p) nBitLen.

(** ** What the operations are for: a mask is a set of algorithms *)

(** The algorithms of a mask. *)
Definition members (mask : Z) : gset Z :=
  list_to_set (filter (λ id, Z.testbit mask (id - 1) = true) (seqZ 1 32)).

(** An operation on the profile that changes one of its three sets. *)
Inductive profile_op :=
  | MessageDigest (on : bool) (id : Z)
  | PublicKey (on : bool) (id : Z)
  | EllipticCurve (on : bool) (id : Z).

Definition run_op (o : profile_op) (p : profile) : profile :=
  match o with
  | MessageDigest true id => EnableMessageDigest id p
  | MessageDigest false id => DisableMessageDigest id p
  | PublicKey true id => EnablePublicKey id p
  | PublicKey false id => DisablePublicKey id p
  | EllipticCurve true id => EnableEllipticCurve id p
  | EllipticCurve false id => DisableEllipticCurve id p
  end.

(** The same on the sets. *)
Definition change (on : bool) (id : Z) (s : gset Z) : gset Z :=
  if on then {[id]} ∪ s else s ∖ {[id]}.
Definition spec_op (o : profile_op) (s : gset Z * gset Z * gset Z) : gset Z * gset Z * gset Z :=
  match o, s with
  | MessageDigest on id, (m, k, c) => (change on id m, k, c)
  | PublicKey on id, (m, k, c) => (m, change on id k, c)
  | EllipticCurve on id, (m, k, c) => (m, k, change on id c)
  end.

Definition op_id (o : profile_op) : Z :=
  match o with MessageDigest _ id | PublicKey _ id | EllipticCurve _ id => id end.

Definition meaning (p : profile) : gset Z * gset Z * gset Z :=
  (members (allowed_mds p), members (allowed_pks p), members (allowed_curves p)).

Definition profile_ok (p : profile) : Prop :=
  is_u32 (allowed_mds p) ∧ is_u32 (allowed_pks p) ∧ is_u32 (allowed_curves p).
End profile.
End X509Profile.

(** * The masks of the certificate profile are sets *)
Import X509Profile.
Import X509Profile.

Lemma elem_members mask x : x ∈ members mask ↔ 1 ≤ x ≤ 32 ∧ Z.testbit mask (x - 1) = true.
Proof.
  unfold members. rewrite elem_of_list_to_set, list_elem_of_filter, elem_of_seqZ. intuition lia.
Qed.

Section masks.
Context `{X509Flags, !X509FlagsOk}.

Lemma flag_bit id x : 1 ≤ id ≤ 32 → 1 ≤ x → Z.testbit (MBEDTLS_X509_ID_FLAG id) (x - 1) = (id =? x).
Proof using Type*.
  intros Hid Hx. rewrite (id_flag_bit id Hid), Z.pow2_bits_eqb by lia.
  apply Bool.eq_iff_eq_true. rewrite !Z.eqb_eq. lia.
Qed.

Lemma members_enable mask id : 1 ≤ id ≤ 32 → members (enable mask id) = {[id]} ∪ members mask.
Proof using Type*.
  intros Hid. apply set_eq. intros x.
  rewrite elem_of_union, elem_of_singleton, !elem_members. unfold enable, u32.
  split.
  - intros [Hx Hb]. rewrite Z.mod_pow2_bits_low, Z.lor_spec, flag_bit in Hb by lia.
    apply orb_true_iff in Hb as [?|?%Z.eqb_eq]; [by right|left; lia].
  - intros Hx. assert (1 ≤ x ≤ 32) as Hx' by (destruct Hx as [->|[? _]]; lia). split; [done|].
    rewrite Z.mod_pow2_bits_low, Z.lor_spec, flag_bit by lia. apply orb_true_iff.
    destruct Hx as [->|[_ Hb]]; [right; by apply Z.eqb_refl|by left].
Qed.

Lemma members_disable mask id : 1 ≤ id ≤ 32 → members (disable mask id) = members mask ∖ {[id]}.
Proof using Type*.
  intros Hid. apply set_eq. intros x.
  rewrite elem_of_difference, elem_of_singleton, !elem_members. unfold disable.
  assert (1 ≤ x ≤ 32 → Z.testbit (Z.land mask (Z.lxor (MBEDTLS_X509_ID_FLAG id) (2^32 - 1))) (x - 1) =
    Z.testbit mask (x - 1) && negb (id =? x)) as Hbit.
  { intros Hx. rewrite Z.land_spec, Z.lxor_spec, flag_bit by lia.
    change (2^32 - 1) with (Z.ones 32). rewrite Z.ones_spec_low by lia.
    by destruct (id =? x). }
  split.
  - intros [Hx Hb]. rewrite Hbit in Hb by done. apply andb_true_iff in Hb as [? Hn].
    apply negb_true_iff, Z.eqb_neq in Hn. split; [done|congruence].
  - intros [[Hx Hb] Hn]. split; [done|]. rewrite Hbit, Hb by done. cbn.
    apply negb_true_iff, Z.eqb_neq. congruence.
Qed.

Lemma allowed_member mask id : 1 ≤ id ≤ 32 → allowed mask id = bool_decide (id ∈ members mask).
Proof using Type*.
  intros Hid. unfold allowed. apply Bool.eq_iff_eq_true.
  rewrite bool_decide_eq_true, elem_members, negb_true_iff, Z.eqb_neq.
  rewrite (id_flag_bit id Hid). split.
  - intros Hn. split; [done|]. destruct (Z.testbit mask (id - 1)) eqn:E; [done|]. exfalso. apply Hn.
    apply Z.bits_inj_0. intros n. rewrite Z.land_spec, Z.pow2_bits_eqb by lia.
    destruct (Z.eqb_spec (id - 1) n) as [<-|]; [by rewrite E|by rewrite andb_false_r].
  - intros [_ Hb] Hz. apply (f_equal (λ z, Z.testbit z (id - 1))) in Hz.
    rewrite Z.land_spec, Hb, Z.pow2_bits_eqb, Z.eqb_refl, Z.bits_0 in Hz by lia. done.
Qed.

Lemma enable_u32 mask id : is_u32 (enable mask id).
Proof using Type. apply u32_range. Qed.

Lemma disable_u32 mask id : is_u32 mask → is_u32 (disable mask id).
Proof using Type.
  intros [Hm0 Hm]. unfold disable, is_u32.
  set (b := Z.lxor (MBEDTLS_X509_ID_FLAG id) (2 ^ 32 - 1)).
  assert (Z.land mask b = Z.land mask b mod 2^32) as ->.
  { rewrite <-Z.land_ones by lia. rewrite <-Z.land_assoc, (Z.land_comm b), Z.land_assoc.
    rewrite (Z.land_ones mask) by lia. by rewrite Z.mod_small. }
  by apply Z.mod_pos_bound.
Qed.
End masks.

(** C40: the three masks of a profile are sets of algorithms: enabling and
    disabling an algorithm adds it to its set and removes it, without touching
    another algorithm, another set or the minimal key size, and [Is...Allowed]
    is membership. *)
Theorem profile_sets `{X509Flags, !X509FlagsOk} (o : profile_op) (p : profile) id :
  profile_ok p → 1 ≤ op_id o ≤ 32 → 1 ≤ id ≤ 32 →
  profile_ok (run_op o p) ∧ meaning (run_op o p) = spec_op o (meaning p) ∧
  rsa_min_bitlen (run_op o p) = rsa_min_bitlen p ∧
  IsMessageDigestAllowed id p = bool_decide (id ∈ (meaning p).1.1) ∧
  IsPublicKeyAllowed id p = bool_decide (id ∈ (meaning p).1.2) ∧
  IsEllipticCurveAllowed id p = bool_decide (id ∈ (meaning p).2).
Proof.
  intros (Hm & Hk & Hc) Ho Hid. unfold IsMessageDigestAllowed, IsPublicKeyAllowed, IsEllipticCurveAllowed.
  rewrite !allowed_member by done. split_and!; try done.
  - by destruct o as [[] n|[] n|[] n]; split_and!; cbn; auto using enable_u32, disable_u32.
  - by destruct o as [[] n|[] n|[] n]; cbn in *; unfold meaning; cbn;
      rewrite ?members_enable, ?members_disable by done.
  - by destruct o as [[] n|[] n|[] n].
Qed.

Lemma profile_sets_witness :
  let flags : X509Flags := λ id, 2^(id - 1) in
  let p := mkProfile 0x1C0 0 0x14 2048 in
  meaning (EnableMessageDigest (H := flags) 4 p) = spec_op (MessageDigest true 4) (meaning p) ∧
  IsMessageDigestAllowed (H := flags) 4 p = false ∧
  IsMessageDigestAllowed (H := flags) 7 p = true.
Proof.
  set (flags := (λ id, 2^(id - 1)) : X509Flags).
  assert (@X509FlagsOk flags) as Hok by (by intros id _).
  destruct (@profile_sets flags Hok (MessageDigest true 4) (mkProfile 0x1C0 0 0x14 2048) 4)
    as (_ & Hm & _ & Ha & _); [by split_and!|done|done|].
  split; [exact Hm|]. by split; vm_compute.
Defined.
