(* ===== verification/TlsConfig.v ===== *)
(** The objects around a TLS connection: [tlsconfig.h], [x509certchain.h],
    [ctr_drbg.h] and [entropycontext.h], and what they call of mbed TLS.

    The wrapper classes own one structure of mbed TLS each, and mbed TLS keeps
    pointers between them: a context points to its configuration, which points
    to the chain of certificates and the random generator.  The structures are
    objects with an address and a lifetime, and a use after the destructor is a
    fault. *)
From stdpp Require Import base numbers list gmap option strings.
From S2P Require Import Prelude.
From S2P Require Import Libc.
From S2P Require Import Circle.
From S2P Require Import NetSockets.
Import Libc Net.

(** * A call of mbed TLS

    A function of mbed TLS that uses the connection calls back: it sends with
    [CallSend], receives with [CallRecv], and everything else it does outside
    the program (memory, random numbers, messages) is [Outside], whose answer
    is a number.  It ends after finitely many of these. *)
Inductive io (W A : Type) : Type :=
  | Ret (a : A)
  | CallSend (pBuffer : list Z) (k : Z → io W A)
  | CallRecv (nLength : Z) (k : Z * list Z → io W A)
  | Outside (f : W → Z * W) (k : Z → io W A).
Arguments Ret {W A} _.
Arguments CallSend {W A} _ _.
Arguments CallRecv {W A} _ _.
Arguments Outside {W A} _ _.

(** [returns okS okR p a]: [p] can end with [a] when the answers to its calls
    are among [okS] and [okR]. *)
Inductive returns {W A} (okS : Z → Prop) (okR : Z * list Z → Prop) : io W A → A → Prop :=
  | returns_Ret a : returns okS okR (Ret a) a
  | returns_Send bs k n a : okS n → returns okS okR (k n) a → returns okS okR (CallSend bs k) a
  | returns_Recv n k r a : okR r → returns okS okR (k r) a → returns okS okR (CallRecv n k) a
  | returns_Outside f k z a : returns okS okR (k z) a → returns okS okR (Outside f k) a.

(** The settings of a configuration the program makes.  The profile, the chain
    and the generator are pointers, 0 for none. *)
Record conf_settings := mkSettings {
  authmode : option Z;
  cert_profile : Z;
  ca_chain : Z;
  rng : Z;
  debug_callback : bool
}.

(** The part of mbed TLS the code calls.  [conf_view] reads the settings of a
    configuration.  A configuration and the chain it points to are arguments of
    the functions on a connection; [None] means that the context has not been
    set up. *)
Class MbedSSL (W : Type) := {
  ssl_context : Type;
  ssl_config : Type;
  x509_crt : Type;
  MBEDTLS_SSL_IS_CLIENT : Z;
  MBEDTLS_SSL_TRANSPORT_STREAM : Z;
  MBEDTLS_SSL_PRESET_DEFAULT : Z;
  MBEDTLS_SSL_VERIFY_NONE : Z;
  MBEDTLS_SSL_VERIFY_REQUIRED : Z;
  conf_view : ssl_config → conf_settings;
  ssl_config_init : ssl_config;
  ssl_config_defaults : Z → Z → Z → ssl_config → W → (Z * ssl_config) * W;
  ssl_conf_authmode : Z → ssl_config → ssl_config;
  ssl_conf_cert_profile : Z → ssl_config → ssl_config;
  ssl_conf_ca_chain : Z → ssl_config → ssl_config;
  ssl_conf_rng : Z → ssl_config → ssl_config;
  ssl_conf_dbg : bool → ssl_config → ssl_config;
  x509_crt_init : x509_crt;
  x509_crt_parse : x509_crt → list Z → W → (Z * x509_crt) * W;
  x509_crt_verify_info : Z → string → Z → string;
  ctr_drbg_seed : Z → Z → list Z → W → Z * W;
  ssl_init : ssl_context;
  ssl_free : ssl_context → W → () * W;
  ssl_setup : ssl_config → ssl_context → W → (Z * ssl_context) * W;
  ssl_set_hostname : list Z → ssl_context → W → (Z * ssl_context) * W;
  ssl_get_verify_result : ssl_context → Z;
  ssl_handshake : option (ssl_config * option x509_crt) → ssl_context → io W (Z * ssl_context);
  ssl_read : Z → option (ssl_config * option x509_crt) → ssl_context →
    io W ((Z * list Z) * ssl_context);
  ssl_write : list Z → option (ssl_config * option x509_crt) → ssl_context → io W (Z * ssl_context);
  ssl_close_notify : option (ssl_config * option x509_crt) → ssl_context → io W (Z * ssl_context)
}.

(** What the documentation of mbed TLS says of them: a setting is what was set
    last; [mbedtls_ssl_read] writes as many bytes as it returns, at most the
    size of the buffer; and it asks to be called again only if the connection
    could not take or give data. *)
Class MbedSSLOk (W : Type) `{MbedTLS, MbedSSL W} := {
  view_init : conf_view ssl_config_init = mkSettings None 0 0 0 false;
  view_defaults e t p c w :
    let v := conf_view c in let v' := conf_view (ssl_config_defaults e t p c w).1.2 in
    cert_profile v' = cert_profile v ∧ ca_chain v' = ca_chain v ∧ rng v' = rng v ∧
    debug_callback v' = debug_callback v;
  view_authmode m c :
    let v := conf_view c in conf_view (ssl_conf_authmode m c) =
      mkSettings (Some m) (cert_profile v) (ca_chain v) (rng v) (debug_callback v);
  view_cert_profile x c :
    let v := conf_view c in conf_view (ssl_conf_cert_profile x c) =
      mkSettings (authmode v) x (ca_chain v) (rng v) (debug_callback v);
  view_ca_chain x c :
    let v := conf_view c in conf_view (ssl_conf_ca_chain x c) =
      mkSettings (authmode v) (cert_profile v) x (rng v) (debug_callback v);
  view_rng x c :
    let v := conf_view c in conf_view (ssl_conf_rng x c) =
      mkSettings (authmode v) (cert_profile v) (ca_chain v) x (debug_callback v);
  view_dbg b c :
    let v := conf_view c in conf_view (ssl_conf_dbg b c) =
      mkSettings (authmode v) (cert_profile v) (ca_chain v) (rng v) b;
  read_length n c x r bs y :
    returns (λ _, True) (λ _, True) (ssl_read n c x) ((r, bs), y) →
    0 ≤ n → Z.of_nat (length bs) = Z.max 0 r ∧ r ≤ n ∧ Forall is_byte bs;
  read_wants n c x r bs y :
    returns (λ a, a ≠ MBEDTLS_ERR_SSL_WANT_WRITE) (λ a, a.1 ≠ MBEDTLS_ERR_SSL_WANT_READ)
      (ssl_read n c x) ((r, bs), y) →
    r ≠ MBEDTLS_ERR_SSL_WANT_READ ∧ r ≠ MBEDTLS_ERR_SSL_WANT_WRITE;
  codes_distinct : MBEDTLS_ERR_NET_SEND_FAILED ≠ MBEDTLS_ERR_SSL_WANT_WRITE
}.

Module TlsConfig.
Section config.
Context `{MbedTLS, PtrArray, SocketPlatform W, !MbedSSL W}.

(** The live objects of the four classes by their addresses, the address of
    the next one, and the sockets below mbed TLS with the world.  The content of
    a random generator and of an entropy context belongs to the world. *)
Record objects := mkObjects {
  configs : gmap Z ssl_config;
  chains : gmap Z x509_crt;
  drbgs : gmap Z Z;
  entropies : gset Z;
  next_object : Z;
  below : net (W := W)
}.
Definition set_configs (x : gmap Z ssl_config) (s : objects) : objects :=
  mkObjects x (chains s) (drbgs s) (entropies s) (next_object s) (below s).
Definition set_chains (x : gmap Z x509_crt) (s : objects) : objects :=
  mkObjects (configs s) x (drbgs s) (entropies s) (next_object s) (below s).
Definition set_drbgs (x : gmap Z Z) (s : objects) : objects :=
  mkObjects (configs s) (chains s) x (entropies s) (next_object s) (below s).
Definition set_entropies (x : gset Z) (s : objects) : objects :=
  mkObjects (configs s) (chains s) (drbgs s) x (next_object s) (below s).
Definition set_below (x : net (W := W)) (s : objects) : objects :=
  mkObjects (configs s) (chains s) (drbgs s) (entropies s) (next_object s) x.

Abbreviation OM := (M objects).

Definition net_op {A} (m : M (net (W := W)) A) : OM A := zoom below set_below m.
Definition ask {A} (f : W → A * W) : OM A := net_op (world_op f).

(** The address of a new object. *)
Definition fresh : OM Z :=
  s ← get;
  put (mkObjects (configs s) (chains s) (drbgs s) (entropies s) (next_object s + 1) (below s));;
  mret (next_object s).

(** An object of a class by its address. *)
Definition find_object {A} (table : objects → gmap Z A) (p : Z) : OM A :=
  s ← get;
  if p =? 0 then fail NullDeref
  else match table s !! p with Some x => mret x | None => fail BadAccess end.

(** ** [CEntropyContext] *)
Definition CEntropyContext : OM Z :=
  p ← fresh; modify (λ s, set_entropies ({[p]} ∪ entropies s) s);; mret p.
Definition CEntropyContext_destroy (p : Z) : OM () :=
  modify (λ s, set_entropies (entropies s ∖ {[p]}) s).
Definition CEntropyContext_Get (p : Z) : OM Z :=
  s ← get; if bool_decide (p ∈ entropies s) then mret p else fail BadAccess.

(** ** [CCTR_DRBG]: the generator keeps a pointer to its entropy context *)
Definition CCTR_DRBG (pEntropy : Z) : OM Z :=
  p ← fresh; modify (λ s, set_drbgs (<[p := pEntropy]> (drbgs s)) s);; mret p.
Definition CCTR_DRBG_destroy (p : Z) : OM () := modify (λ s, set_drbgs (delete p (drbgs s)) s).

Definition Seed (p : Z) (pPersonalizationData : list Z) : OM Z :=
  pEntropy ← find_object drbgs p;
  e ← CEntropyContext_Get pEntropy;
  ask (ctr_drbg_seed p e pPersonalizationData).
(** With a string, which may be a null pointer, and its [strlen]. *)
Definition Seed_string (p : Z) (pPersonalizationString : option (list Z)) : OM Z :=
  str ← deref pPersonalizationString; Seed p str.

(** ** [CX509CertificateChain] *)
Definition CX509CertificateChain : OM Z :=
  p ← fresh; modify (λ s, set_chains (<[p := x509_crt_init]> (chains s)) s);; mret p.
Definition CX509CertificateChain_destroy (p : Z) : OM () :=
  modify (λ s, set_chains (delete p (chains s)) s).
Definition AddCertificate (p : Z) (pBuffer : list Z) : OM Z :=
  m_Chain ← find_object chains p;
  '(n, m_Chain) ← ask (x509_crt_parse m_Chain pBuffer);
  modify (λ s, set_chains (<[p := m_Chain]> (chains s)) s);;
  mret n.

(** ** [CTLSConfig] *)
Definition CTLSConfig : OM Z :=
  p ← fresh; modify (λ s, set_configs (<[p := ssl_config_init]> (configs s)) s);; mret p.
Definition CTLSConfig_destroy (p : Z) : OM () := modify (λ s, set_configs (delete p (configs s)) s).

Definition configure (p : Z) (f : ssl_config → ssl_config) : OM () :=
  c ← find_object configs p; modify (λ s, set_configs (<[p := f c]> (configs s)) s).
Definition SetDefaults (p nEndpoint nTransport nPreset : Z) : OM Z :=
  c ← find_object configs p;
  '(n, c) ← ask (ssl_config_defaults nEndpoint nTransport nPreset c);
  modify (λ s, set_configs (<[p := c]> (configs s)) s);;
  mret n.
Definition SetAuthMode (p nAuthMode : Z) : OM () := configure p (ssl_conf_authmode nAuthMode).
Definition SetCertProfile (p pProfile : Z) : OM () := configure p (ssl_conf_cert_profile pProfile).
Definition SetCA_Chain (p pCA_Chain : Z) : OM () := configure p (ssl_conf_ca_chain pCA_Chain).
Definition SetRNG (p pCTR_DRBG : Z) : OM () := configure p (ssl_conf_rng pCTR_DRBG).
Definition SetDebugCallback (p : Z) (pCallback : bool) : OM () := configure p (ssl_conf_dbg pCallback).

(** The configuration behind a pointer of mbed TLS, with the chain it points
    to: mbed TLS requires that a configuration, its chain and its random
    generator live as long as they are used. *)
Definition used_config (conf : Z) : OM (option (ssl_config * option x509_crt)) :=
  if conf =? 0 then mret None
  else
    c ← find_object configs conf;
    let v := conf_view c in
    chain ← (if ca_chain v =? 0 then mret None
             else x ← find_object chains (ca_chain v); mret (Some x));
    (if rng v =? 0 then mret ()
     else e ← find_object drbgs (rng v); CEntropyContext_Get e;; mret ());;
    mret (Some (c, chain)).
End config.
End TlsConfig.
