(* ===== verification/X509CertChain.v ===== *)
(** Certificates from files: [x509certchain.cpp].

    The files of the C library are the class [FileSystem]; a name is a list of
    character codes without zeros. *)
From stdpp Require Import base numbers list gmap option strings.
From S2P Require Import Prelude.
From S2P Require Import Libc.
From S2P Require Import Circle.
From S2P Require Import NetSockets.
From S2P Require Import TlsConfig.
Import Libc Net TlsConfig.

(** [fopen] opens for reading in binary mode, [fread f n] gives the next bytes
    of the file, at most [n], and [readdir] the name of the next entry. *)
Class FileSystem (W : Type) := {
  FILE : Type;
  DIR : Type;
  fopen : list Z → W → option FILE * W;
  fread : FILE → Z → W → list Z * W;
  fclose : FILE → W → () * W;
  opendir : list Z → W → option DIR * W;
  readdir : DIR → W → option (list Z) * W;
  closedir : DIR → W → () * W
}.
Class FileSystemOk (W : Type) `{FileSystem W} := {
  fread_length f n w : 0 ≤ n → Z.of_nat (length (fread f n w).1) ≤ n
}.

(** The error codes of the functions. *)
Class X509Codes := {
  MBEDTLS_ERR_PK_FILE_IO_ERROR : Z;
  MBEDTLS_ERR_X509_BUFFER_TOO_SMALL : Z
}.

Module X509CertChain.
Definition CERTIFICATE_MAX_SIZE : Z := 5000.

(** [strstr (s, needle) != 0]. *)
Fixpoint strstr (s needle : list Z) : bool :=
  bool_decide (take (length needle) s = needle) ||
  match s with [] => false | _ :: s => strstr s needle end.

(** The names with one of the three extensions, as the loop selects them. *)
Definition is_certificate_name (d_name : list Z) : bool :=
  let nLength := Z.of_nat (length d_name) in
  if nLength <? 5 then false
  else
    let suffix := drop (Z.to_nat (nLength - 4)) d_name in
    negb (negb (streq suffix (cstr ".pem")) && negb (streq suffix (cstr ".crt")) &&
          negb (streq suffix (cstr ".der"))).

Section chain.
Context `{MbedTLS, PtrArray, SocketPlatform W, !MbedSSL W, X509Codes, FileSystem W}.

Abbreviation OM := (M (objects (W := W))).

(** The buffer is an automatic array of one byte more than is read. *)
Definition AddCertificateFile (p : Z) (pFilename : option (list Z)) : OM Z :=
  assert_ (bool_decide (is_Some pFilename));;
  name ← deref pFilename;
  f ← ask (fopen name);
  match f with
  | None => mret MBEDTLS_ERR_PK_FILE_IO_ERROR
  | Some pFile =>
      bs ← ask (fread pFile CERTIFICATE_MAX_SIZE);
      Buffer ← lift_res (wr_bytes (uninit (CERTIFICATE_MAX_SIZE + 1)) 0 bs);
      let nLength := Z.of_nat (length bs) in
      ask (fclose pFile);;
      if nLength =? 0 then mret MBEDTLS_ERR_PK_FILE_IO_ERROR
      else if nLength >=? CERTIFICATE_MAX_SIZE then mret MBEDTLS_ERR_X509_BUFFER_TOO_SMALL
      else
        Buffer ← lift_res (wr Buffer nLength 0);
        str ← lift_res (c_string Buffer);
        let nLength := if strstr str (cstr "-----BEGIN ") then nLength + 1 else nLength in
        bytes ← lift_res (rd_bytes Buffer 0 (Z.to_nat nLength));
        AddCertificate p bytes
  end.

(** The [while] loop of [AddCertificatePath]: a directory may have any number
    of entries, the fuel bounds them. *)
Fixpoint path_loop (fuel : nat) (p : Z) (pDirectory : DIR) (nFiles : Z) : OM Z :=
  match fuel with
  | O => fail OutOfFuel
  | S fuel =>
      pEntry ← ask (readdir pDirectory);
      match pEntry with
      | None => ask (closedir pDirectory);; mret nFiles
      | Some d_name =>
          if negb (is_certificate_name d_name) then path_loop fuel p pDirectory nFiles
          else
            nResult ← AddCertificateFile p (Some d_name);
            if nResult <? 0 then
              ask (CLogger_Write LogWarning "Cannot parse file: %s (%d)" [ArgS d_name; ArgZ nResult]);;
              ask (closedir pDirectory);;
              mret nResult
            else path_loop fuel p pDirectory (nFiles + 1)
      end
  end.

Definition AddCertificatePath (fuel : nat) (p : Z) (pPath : option (list Z)) : OM Z :=
  assert_ (bool_decide (is_Some pPath));;
  path ← deref pPath;
  d ← ask (opendir path);
  match d with
  | None => mret MBEDTLS_ERR_PK_FILE_IO_ERROR
  | Some pDirectory => path_loop fuel p pDirectory 0
  end.
End chain.
End X509CertChain.
