(* ===== verification/TlsSocket.v ===== *)
(** TLS connections: the class [CTLSSocket] of [tlssocket.cpp].  The class
    [CTLSSimpleClientSocket], which owns the configuration of its connection,
    is in [TlsClient]. *)
From stdpp Require Import base numbers list gmap option strings.
From S2P Require Import Prelude.
From S2P Require Import Libc.
From S2P Require Import Circle.
From S2P Require Import NetSockets.
From S2P Require Import TlsConfig.
From S2P Require Import X509CertChain.
Import Libc Net TlsConfig X509CertChain.

Module Tls.
Section tls.
Context `{Target, MbedTLS, PtrArray, SocketPlatform W, !MbedSSL W}.

(** The members.  [m_Context] is the structure of mbed TLS without the two
    pointers it keeps into the program: [m_conf] to the configuration (0 before
    [Setup]) and [m_bio] to the socket its callbacks use (0 before [Connect]). *)
Record CTLSSocket := mkTLSSocket {
  m_pNetSubSystem : Z;
  m_Context : ssl_context;
  m_conf : Z;
  m_bio : Z;
  m_pSocket : Z;
  m_bConnected : bool
}.
Definition set_context (x : ssl_context) (o : CTLSSocket) : CTLSSocket :=
  mkTLSSocket (m_pNetSubSystem o) x (m_conf o) (m_bio o) (m_pSocket o) (m_bConnected o).
Definition set_conf (x : Z) (o : CTLSSocket) : CTLSSocket :=
  mkTLSSocket (m_pNetSubSystem o) (m_Context o) x (m_bio o) (m_pSocket o) (m_bConnected o).
Definition set_bio (x : Z) (o : CTLSSocket) : CTLSSocket :=
  mkTLSSocket (m_pNetSubSystem o) (m_Context o) (m_conf o) x (m_pSocket o) (m_bConnected o).
Definition set_connected (x : bool) (o : CTLSSocket) : CTLSSocket :=
  mkTLSSocket (m_pNetSubSystem o) (m_Context o) (m_conf o) (m_bio o) (m_pSocket o) x.

(** The state: the object itself, the others, and what is below them. *)
Record tls := mkTls { this : CTLSSocket; objs : objects (W := W) }.
Definition set_this (x : CTLSSocket) (s : tls) : tls := mkTls x (objs s).
Definition set_objs (x : objects) (s : tls) : tls := mkTls (this s) x.

Abbreviation T := (M tls).

Definition obj_op {A} (m : M objects A) : T A := zoom objs set_objs m.
Definition sock_op {A} (m : M (net (W := W)) A) : T A := obj_op (net_op m).
Definition change (f : CTLSSocket → CTLSSocket) : T () := modify (λ s, set_this (f (this s)) s).

(** ** The callbacks *)

(** A length is a [size_t] that becomes an [unsigned]. *)
Definition ReceiveCallback (pParam nLength : Z) : T (Z * list Z) :=
  assert_ (negb (pParam =? 0));; sock_op (Receive pParam (u32 nLength)).
Definition ReceiveTimeoutCallback (fuel : nat) (pParam nLength nTimeoutMs : Z) : T (Z * list Z) :=
  assert_ (negb (pParam =? 0));; sock_op (ReceiveTimeout fuel pParam (u32 nLength) nTimeoutMs).
Definition SendCallback (pParam : Z) (pBuffer : list Z) : T Z :=
  assert_ (negb (pParam =? 0));;
  sock_op (Send pParam (take (Z.to_nat (u32 (Z.of_nat (length pBuffer)))) pBuffer)).

(** A function of mbed TLS at work on the connection of the socket [pParam]. *)
Fixpoint run_io {A} (pParam : Z) (p : io W A) : T A :=
  match p with
  | Ret a => mret a
  | CallSend bs k => n ← SendCallback pParam bs; run_io pParam (k n)
  | CallRecv n k => r ← ReceiveCallback pParam n; run_io pParam (k r)
  | Outside f k => z ← obj_op (ask f); run_io pParam (k z)
  end.

(** A call of such a function with the context of the object. *)
Definition ssl_call {A}
    (f : option (ssl_config * option x509_crt) → ssl_context → io W (A * ssl_context)) : T A :=
  s ← get;
  conf ← obj_op (used_config (m_conf (this s)));
  '(a, c) ← run_io (m_bio (this s)) (f conf (m_Context (this s)));
  change (set_context c);;
  mret a.

(** ** Construction and destruction *)

Definition CTLSSocket_construct (pNetSubSystem nProtocol : Z) : M objects CTLSSocket :=
  p ← net_op (new_CAdaptedSocket nProtocol);
  mret (mkTLSSocket pNetSubSystem ssl_init 0 0 p false).

Definition CTLSSocket_destroy : T () :=
  s ← get;
  (if m_bConnected (this s) then ssl_call ssl_close_notify;; mret () else mret ());;
  s ← get;
  obj_op (ask (ssl_free (m_Context (this s))));;
  sock_op (delete_CAdaptedSocket (m_pSocket (this s)));;
  modify (λ s, set_this (mkTLSSocket 0 (m_Context (this s)) (m_conf (this s)) (m_bio (this s)) 0
                                     (m_bConnected (this s))) s).

(** ** Setup *)

(** mbed TLS keeps the pointer to the configuration when it succeeds. *)
Definition Setup (rConfig : Z) : T Z :=
  s ← get;
  assert_ (negb (m_bConnected (this s)));;
  c ← obj_op (find_object configs rConfig);
  '(n, x) ← obj_op (ask (ssl_setup c (m_Context (this s))));
  change (λ o, set_conf (if n =? 0 then rConfig else 0) (set_context x o));;
  mret n.

Definition SetHostname (pHostname : option (list Z)) : T Z :=
  s ← get;
  assert_ (negb (m_bConnected (this s)));;
  assert_ (bool_decide (is_Some pHostname));;
  name ← deref pHostname;
  '(n, x) ← obj_op (ask (ssl_set_hostname name (m_Context (this s))));
  change (set_context x);;
  mret n.

(** ** Connect *)

(** The [while] loop around [mbedtls_ssl_handshake]: 0, or the error the
    function returns. *)
Fixpoint handshake_loop (fuel : nat) : T Z :=
  match fuel with
  | O => fail OutOfFuel
  | S fuel =>
      nResult ← ssl_call ssl_handshake;
      if nResult =? 0 then mret 0
      else if negb (nResult =? MBEDTLS_ERR_SSL_WANT_READ) && negb (nResult =? MBEDTLS_ERR_SSL_WANT_WRITE)
      then mret nResult
      else handshake_loop fuel
  end.

(** The text for the result of the verification is the format of the log
    message itself. *)
Definition finish_connect : T Z :=
  change (set_connected true);;
  s ← get;
  let nFlags := u32 (ssl_get_verify_result (m_Context (this s))) in
  if negb (nFlags =? 0) then
    let Info := x509_crt_verify_info 512 "x509: " nFlags in
    obj_op (ask (CLogger_Write LogWarning Info []));;
    mret MBEDTLS_ERR_X509_CERT_VERIFY_FAILED
  else mret 0.

Definition Connect (fuel : nat) (rForeignIP : IPAddr) (nForeignPort : Z) : T Z :=
  s ← get;
  if m_pSocket (this s) =? 0 then mret MBEDTLS_ERR_SSL_ALLOC_FAILED
  else
    assert_ (negb (m_bConnected (this s)));;
    nResult ← sock_op (Net.Connect (m_pSocket (this s)) rForeignIP nForeignPort);
    if negb (nResult =? 0) then mret nResult
    else
      change (set_bio (m_pSocket (this s)));;
      nResult ← handshake_loop fuel;
      if negb (nResult =? 0) then mret nResult else finish_connect.

Definition Connect_host (fuel : nat) (pHost pPort : option (list Z)) : T Z :=
  assert_ (bool_decide (is_Some pHost));;
  assert_ (bool_decide (is_Some pPort));;
  host ← deref pHost;
  port ← deref pPort;
  match port_number port with
  | None => mret MBEDTLS_ERR_NET_CONNECT_FAILED
  | Some nPort =>
      s ← get;
      assert_ (negb (m_pNetSubSystem (this s) =? 0));;
      o ← obj_op (ask (CDNSClient_Resolve host));
      match o with
      | None => mret MBEDTLS_ERR_NET_UNKNOWN_HOST
      | Some IPAddress => Connect fuel IPAddress nPort
      end
  end.

(** ** Data *)

Definition Receive (nLength nFlags : Z) : T (Z * list Z) :=
  s ← get;
  assert_ (negb (m_pSocket (this s) =? 0));;
  sock_op (SetOptionBlocking (m_pSocket (this s)) (negb (nFlags =? MSG_DONTWAIT)));;
  assert_ (m_bConnected (this s));;
  '(nResult, bs) ← ssl_call (ssl_read nLength);
  if (nResult =? MBEDTLS_ERR_SSL_WANT_READ) || (nResult =? MBEDTLS_ERR_SSL_WANT_WRITE) then
    assert_ (nFlags =? MSG_DONTWAIT);; mret (0, bs)
  else if nResult =? 0 then mret (-1, bs)
  else mret (nResult, bs).

Definition Send (pBuffer : list Z) (nFlags : Z) : T Z :=
  s ← get;
  assert_ (m_bConnected (this s));;
  ssl_call (ssl_write pBuffer).

Definition GetForeignIP : T (option (list Z)) :=
  s ← get;
  if m_pSocket (this s) =? 0 then mret None else sock_op (Net.GetForeignIP (m_pSocket (this s))).
End tls.
End Tls.
