(* ===== verification/TlsClient.v ===== *)
(** The class [CTLSSimpleClientSocket] of [tlssimpleclientsocket.cpp], a
    [CTLSSocket] that owns its configuration, certificates and random
    generator, and the environment [CTLSSimpleSupport] it is given. *)
From stdpp Require Import base numbers list gmap option strings.
From S2P Require Import Prelude.
From S2P Require Import Libc.
From S2P Require Import Circle.
From S2P Require Import NetSockets.
From S2P Require Import TlsConfig.
From S2P Require Import X509CertChain.
From S2P Require Import TlsSocket.
Import Libc Net TlsConfig X509CertChain.

Module TlsClient.
(** The members of [CTLSSimpleSupport] the client uses: the network subsystem
    and the address of the certificate profile. *)
Record CTLSSimpleSupport := mkSupport { GetNet : Z; GetCertProfile : Z }.

Section client.
Context `{Target, MbedTLS, PtrArray, SocketPlatform W, !MbedSSL W, X509Codes, FileSystem W}.

Abbreviation OM := (M (objects (W := W))).

Record CTLSSimpleClientSocket := mkSimple {
  base : Tls.CTLSSocket (W := W);
  m_pTLSSupport : option CTLSSimpleSupport;
  m_Entropy : Z;
  m_CTR_DRBG : Z;
  m_CertChain : Z;
  m_TLSConfig : Z;
  m_bCertAdded : bool
}.

(** The state: the object, and the others. *)
Record client := mkClient { self : CTLSSimpleClientSocket; others : objects (W := W) }.
Definition set_others (x : objects) (s : client) : client := mkClient (self s) x.
Definition set_added (s : client) : client :=
  let o := self s in
  mkClient (mkSimple (base o) (m_pTLSSupport o) (m_Entropy o) (m_CTR_DRBG o) (m_CertChain o)
                     (m_TLSConfig o) true) (others s).

(** The object as a [CTLSSocket]. *)
Definition as_tls (s : client) : Tls.tls (W := W) := Tls.mkTls (base (self s)) (others s).
Definition set_tls (t : Tls.tls) (s : client) : client :=
  let o := self s in
  mkClient (mkSimple (Tls.this t) (m_pTLSSupport o) (m_Entropy o) (m_CTR_DRBG o) (m_CertChain o)
                     (m_TLSConfig o) (m_bCertAdded o)) (Tls.objs t).

Abbreviation C := (M client).

Definition member {A} (m : OM A) : C A := zoom others set_others m.
Definition inherited {A} (m : M Tls.tls A) : C A := zoom as_tls set_tls m.

(** The base class is constructed first, then the members in the order of
    their declaration. *)
Definition construct (pTLSSupport : option CTLSSimpleSupport) (nProtocol : Z) :
    OM CTLSSimpleClientSocket :=
  sup ← deref pTLSSupport;
  b ← Tls.CTLSSocket_construct (GetNet sup) nProtocol;
  e ← CEntropyContext;
  g ← CCTR_DRBG e;
  ch ← CX509CertificateChain;
  cf ← CTLSConfig;
  mret (mkSimple b pTLSSupport e g ch cf false).

(** The members are destroyed in the reverse order, then the base class. *)
Definition destroy : C () :=
  s ← get;
  let o := self s in
  member (CTLSConfig_destroy (m_TLSConfig o));;
  member (CX509CertificateChain_destroy (m_CertChain o));;
  member (CCTR_DRBG_destroy (m_CTR_DRBG o));;
  member (CEntropyContext_destroy (m_Entropy o));;
  inherited Tls.CTLSSocket_destroy.

Definition AddCertificate (pBuffer : list Z) : C Z :=
  s ← get;
  nResult ← member (TlsConfig.AddCertificate (m_CertChain (self s)) pBuffer);
  if negb (nResult =? 0) then mret nResult else modify set_added;; mret 0.

Definition AddCertificateFile (pFilename : option (list Z)) : C Z :=
  s ← get;
  nResult ← member (X509CertChain.AddCertificateFile (m_CertChain (self s)) pFilename);
  if negb (nResult =? 0) then mret nResult else modify set_added;; mret 0.

Definition AddCertificatePath (fuel : nat) (pPath : option (list Z)) : C Z :=
  s ← get;
  nResult ← member (X509CertChain.AddCertificatePath fuel (m_CertChain (self s)) pPath);
  if nResult <=? 0 then mret nResult else modify set_added;; mret nResult.

(** The two branches on [m_bCertAdded] in [Setup]. *)
Definition set_verification : C () :=
  s ← get;
  let o := self s in
  if m_bCertAdded o then
    member (SetAuthMode (m_TLSConfig o) MBEDTLS_SSL_VERIFY_REQUIRED);;
    assert_ (bool_decide (is_Some (m_pTLSSupport o)));;
    sup ← deref (m_pTLSSupport o);
    member (SetCertProfile (m_TLSConfig o) (GetCertProfile sup));;
    member (SetCA_Chain (m_TLSConfig o) (m_CertChain o))
  else member (SetAuthMode (m_TLSConfig o) MBEDTLS_SSL_VERIFY_NONE).

Definition Setup (pServername pPersonalizationString : option (list Z)) : C Z :=
  s ← get;
  let o := self s in
  nResult ← member (Seed_string (m_CTR_DRBG o) pPersonalizationString);
  if negb (nResult =? 0) then mret nResult
  else
    nResult ← member (SetDefaults (m_TLSConfig o) MBEDTLS_SSL_IS_CLIENT
                        MBEDTLS_SSL_TRANSPORT_STREAM MBEDTLS_SSL_PRESET_DEFAULT);
    if negb (nResult =? 0) then mret nResult
    else
      set_verification;;
      member (SetRNG (m_TLSConfig o) (m_CTR_DRBG o));;
      member (SetDebugCallback (m_TLSConfig o) true);;
      nResult ← inherited (Tls.Setup (m_TLSConfig o));
      if negb (nResult =? 0) then mret nResult
      else
        assert_ (bool_decide (is_Some pServername));;
        inherited (Tls.SetHostname pServername).

(** [Setup (pServername)]: the header gives the second parameter the default
    0. *)
Definition Setup_default (pServername : option (list Z)) : C Z := Setup pServername None.
End client.
End TlsClient.
