(* ===== verification/TlsInv.v ===== *)
(** The invariant of a TLS socket and what its operations do to it. *)
From stdpp Require Import base numbers list gmap option strings.
From S2P Require Import Prelude.
From S2P Require Import Libc.
From S2P Require Import Circle.
From S2P Require Import NetSockets.
From S2P Require Import NetInv.
From S2P Require Import NetSafety.
From S2P Require Import TlsConfig.
From S2P Require Import TlsSocket.
Import Libc Net TlsConfig Tls.

Lemma returns_mono {W A} (P P' : Z → Prop) (Q Q' : Z * list Z → Prop) (p : io W A) a :
  (∀ n, P n → P' n) → (∀ r, Q r → Q' r) → returns P Q p a → returns P' Q' p a.
Proof. intros HP HQ. induction 1; econstructor; eauto. Qed.

(** A receive call that may wait does not answer that there is no data. *)
Class BlockingSockets (W : Type) `{SocketPlatform W} :=
  blocking_receive k n w : 0 < n → (CNetSocket_Receive k n 0 w).1.1 ≠ 0.

Section inv.
Context `{Target, MbedTLS, !MbedTLSOk, PtrArray, !PtrArrayOk, SocketPlatform W, !PlatformOk W,
  !MbedSSL W, !MbedSSLOk W}.

(** * States that differ below the object only *)

(** The state of the sockets when the object [o] at [p] has become [o'] in the
    world [w]. *)
Definition with_object (p : Z) (o' : CAdaptedSocket) (w : W) (n : net) : net :=
  set_heap (<[p := o']> (heap n)) (set_world w n).

Definition touched (p : Z) (o : CAdaptedSocket) (os os' : objects (W := W)) : Prop :=
  ∃ o' w, os' = set_below (with_object p o' w (below os)) os ∧ same_object o o' ∧ rx_ok o'.

Lemma same_object_refl o : same_object (W := W) o o.
Proof using Type. by split_and!. Qed.

Lemma touched_world p o os w :
  heap (below os) !! p = Some o → rx_ok o → touched p o os (set_below (set_world w (below os)) os).
Proof using Type.
  intros Ho Hrx. exists o, w. split; [|split; [apply same_object_refl|done]].
  unfold with_object, set_heap. cbn. by rewrite insert_id.
Qed.

Lemma touched_refl p o os : heap (below os) !! p = Some o → rx_ok o → touched p o os os.
Proof using Type.
  intros Ho Hrx. pose proof (touched_world p o os (world (below os)) Ho Hrx) as Ht.
  destruct os as [c1 c2 c3 c4 c5 n]. by destruct n.
Qed.

Lemma touched_object p o os os' :
  touched p o os os' →
  ∃ o', heap (below os') !! p = Some o' ∧ same_object o o' ∧ rx_ok o'.
Proof using Type. intros (o' & w & -> & Hs & Hrx). exists o'. split; [apply lookup_insert_eq|done]. Qed.

Lemma touched_trans p o o1 os os1 os2 :
  touched p o os os1 → heap (below os1) !! p = Some o1 → touched p o1 os1 os2 → touched p o os os2.
Proof using Type.
  intros (o' & w & -> & Hs & Hrx) Ho1 (o2 & w2 & -> & Hs2 & Hrx2). cbn in Ho1.
  rewrite lookup_insert_eq in Ho1. simplify_eq. exists o2, w2.
  split; [|split; [by eapply same_object_trans|done]].
  unfold with_object, set_heap, set_below. cbn. by rewrite insert_insert_eq.
Qed.

Lemma touched_net_ok k p o os os' :
  net_ok k (below os) → heap (below os) !! p = Some o → touched p o os os' → net_ok k (below os').
Proof using Type.
  intros Hok Ho (o' & w & -> & Hs & Hrx). cbn. by eapply net_ok_filled.
Qed.

(** * mbed TLS at work *)

(** The answers of the callbacks on the socket [o]. *)
Definition send_answer (n : Z) : Prop := n ≠ MBEDTLS_ERR_SSL_WANT_WRITE.
Definition receive_answer (o : CAdaptedSocket (W := W)) (r : Z * list Z) : Prop :=
  m_bBlock o = true → BlockingSockets W → r.1 ≠ MBEDTLS_ERR_SSL_WANT_READ.

Lemma wants_neg : MBEDTLS_ERR_SSL_WANT_READ < 0 ∧ MBEDTLS_ERR_SSL_WANT_WRITE < 0.
Proof using Type*.
  pose proof net_errors_neg as Hn. rewrite !Forall_cons in Hn. tauto.
Qed.

Lemma Send_callback_ok k (s : tls) p o bs :
  net_ok k (below (objs s)) → heap (below (objs s)) !! p = Some o →
  wp no_fault (SendCallback p bs)
    (λ n s', send_answer n ∧ this s' = this s ∧ touched p o (objs s) (objs s')) s.
Proof using Type*.
  intros Hok Ho. pose proof (ok_objects _ _ Hok _ _ Ho) as (Hp & _ & Hrx). unfold SendCallback.
  wp_step. apply wp_assert_true; [by rewrite (proj2 (Z.eqb_neq p 0)) by lia|].
  unfold sock_op, obj_op, net_op. do 2 wp_step. unfold Net.Send.
  eapply wp_run; [by eapply load_run|]. wp_step. apply wp_env. intros n w _. wp_step. split.
  - pose proof wants_neg. unfold send_answer. destruct (Z.ltb_spec n 0); [apply codes_distinct|lia].
  - split; [done|]. by apply touched_world.
Qed.

(** What the function on the answer of a socket says about waiting. *)
Lemma received_answer o bs n w res rest w' :
  is_u32 n → received (Net.m_pSocket o) (rx_flags o) bs n w = (res, rest, w') → receive_answer o res.
Proof using Type*.
  intros Hn E Hb Hbl. pose proof wants_neg as [Hw _]. unfold received, rx_flags, taken in E.
  unfold is_u32 in Hn. rewrite Hb in E. case_decide.
  - pose proof (blocking_receive (Net.m_pSocket o) FRAME_BUFFER_SIZE w (proj1 FRAME_BUFFER_SIZE_pos)) as Hr.
    destruct (CNetSocket_Receive _ _ 0 w) as [[r rx] w1] eqn:Er. cbn in Hr.
    rewrite (proj2 (Z.eqb_neq r 0)) in E by done. destruct (Z.ltb_spec r 0); simplify_eq/=; lia.
  - simplify_eq/=. lia.
Qed.

Lemma Receive_callback_ok k (s : tls) p o n :
  net_ok k (below (objs s)) → heap (below (objs s)) !! p = Some o →
  wp no_fault (ReceiveCallback p n)
    (λ r s', receive_answer o r ∧ this s' = this s ∧ touched p o (objs s) (objs s')) s.
Proof using Type*.
  intros Hok Ho. pose proof (ok_objects _ _ Hok _ _ Ho) as (Hp & _ & [bs Hb]). unfold ReceiveCallback.
  wp_step. apply wp_assert_true; [by rewrite (proj2 (Z.eqb_neq p 0)) by lia|].
  unfold sock_op, obj_op, net_op. do 2 wp_step.
  pose proof (Receive_run k _ p o bs (u32 n) Hok Ho Hb (u32_range n)) as Hr.
  destruct (received _ _ _ _ _) as [[res rest] w] eqn:E.
  destruct Hr as (o' & Er & Hb' & Hs). unfold wp. rewrite Er.
  split; [by eapply received_answer; [apply (u32_range n)|]|]. split; [done|].
  exists o', w. split; [done|]. split; [done|by exists rest].
Qed.

Lemma send_receive_same o o' r : same_object o o' → receive_answer o' r → receive_answer o r.
Proof using Type. intros (_ & _ & E) Hr. unfold receive_answer. by rewrite <-E. Qed.

(** A function of mbed TLS runs to its end and touches the socket only. *)
Lemma run_io_ok {A} (q : io W A) k (s : tls) p o :
  net_ok k (below (objs s)) → heap (below (objs s)) !! p = Some o →
  wp no_fault (run_io p q)
    (λ a s', returns send_answer (receive_answer o) q a ∧ this s' = this s ∧
       touched p o (objs s) (objs s')) s.
Proof using Type*.
  revert s o. induction q as [a|bs q IH|n q IH|f q IH]; intros s o Hok Ho; cbn [run_io].
  - wp_step. split; [constructor|]. split; [done|]. apply touched_refl; [done|].
    by apply (ok_objects _ _ Hok) in Ho as (_ & _ & ?).
  - wp_step. eapply wp_mono; [by eapply Send_callback_ok|]. intros n s1 (Hn & Hthis & Ht).
    destruct (touched_object _ _ _ _ Ht) as (o1 & Ho1 & Hs1 & _).
    eapply wp_mono; [apply (IH n s1 o1); [by eapply touched_net_ok|done]|].
    intros a s2 (Hr & Hthis2 & Ht2). split_and!; [|congruence|by eapply touched_trans].
    econstructor; [done|]. eapply returns_mono; [| |exact Hr]; [done|]. intros r. by apply send_receive_same.
  - wp_step. eapply wp_mono; [by eapply Receive_callback_ok|]. intros r s1 (Hr & Hthis & Ht).
    destruct (touched_object _ _ _ _ Ht) as (o1 & Ho1 & Hs1 & _).
    eapply wp_mono; [apply (IH r s1 o1); [by eapply touched_net_ok|done]|].
    intros a s2 (Hr2 & Hthis2 & Ht2). split_and!; [|congruence|by eapply touched_trans].
    econstructor; [done|]. eapply returns_mono; [| |exact Hr2]; [done|]. intros r'. by apply send_receive_same.
  - wp_step. unfold obj_op, ask, net_op. do 2 wp_step. apply wp_env. intros z w _.
    match goal with |- wp _ _ _ ?x => set (s1 := x) end.
    assert (touched p o (objs s) (objs s1)) as Ht.
    { apply touched_world; [done|]. by apply (ok_objects _ _ Hok) in Ho as (_ & _ & ?). }
    eapply wp_mono; [apply (IH z s1 o); [by eapply touched_net_ok|done]|].
    intros a s2 (Hr2 & Hthis2 & Ht2). split_and!; [by econstructor|done|exact (touched_trans _ _ _ _ _ _ Ht Ho Ht2)].
Qed.
End inv.
