(* ===== verification/TlsSafety.v ===== *)
(** The operations of a TLS socket keep its invariant and do not fault. *)
From stdpp Require Import base numbers list gmap option strings relations.
From S2P Require Import Prelude.
From S2P Require Import Libc.
From S2P Require Import Circle.
From S2P Require Import NetSockets.
From S2P Require Import NetInv.
From S2P Require Import NetSafety.
From S2P Require Import TlsConfig.
From S2P Require Import TlsSocket.
From S2P Require Import TlsInv.
Import Libc Net TlsConfig Tls.

Section safety.
Context `{Target, MbedTLS, !MbedTLSOk, PtrArray, !PtrArrayOk, SocketPlatform W, !PlatformOk W,
  !MbedSSL W, !MbedSSLOk W}.

(** mbed TLS may use the configuration at [conf]: it, its chain and its random
    generator are alive. *)
Definition usable (os : objects (W := W)) (conf : Z) : Prop :=
  ∃ r, ∀ n, used_config conf (set_below n os) = Ok (r, set_below n os).

Record tls_ok (k : Z) (s : tls (W := W)) : Prop := {
  ok_net : net_ok k (below (objs s));
  ok_socket : m_pSocket (this s) ≠ 0 →
    live (below (objs s)) (m_pSocket (this s)) ∧ unnamed (below (objs s)) (m_pSocket (this s));
  ok_connected : m_bConnected (this s) = true →
    m_pSocket (this s) ≠ 0 ∧ m_bio (this s) = m_pSocket (this s);
  ok_conf : usable (objs s) (m_conf (this s))
}.

Lemma find_object_inv {A} (table : objects (W := W) → gmap Z A) p os x os' :
  find_object table p os = Ok (x, os') → os' = os ∧ table os !! p = Some x ∧ p ≠ 0.
Proof using Type.
  unfold find_object. rewrite bind_unfold. cbn [get]. destruct (Z.eqb_spec p 0); [done|].
  destruct (table os !! p) as [y|] eqn:E; [|done]. intros [= -> ->]. done.
Qed.

Lemma set_below_below (os : objects (W := W)) : set_below (below os) os = os.
Proof using Type. by destruct os. Qed.

Lemma usable_run os conf : usable os conf → ∃ r, used_config conf os = Ok (r, os).
Proof using Type. intros [r Hr]. exists r. rewrite <-(set_below_below os). apply Hr. Qed.

Lemma usable_below os conf n : usable os conf → usable (set_below n os) conf.
Proof using Type. intros [r Hr]. exists r. intros n'. apply Hr. Qed.

(** ** Steps that leave the object in its place *)

Definition same_links (o o' : CTLSSocket (W := W)) : Prop :=
  m_pSocket o' = m_pSocket o ∧ m_conf o' = m_conf o ∧ m_bio o' = m_bio o ∧
  m_bConnected o' = m_bConnected o ∧ m_pNetSubSystem o' = m_pNetSubSystem o.

Lemma tls_ok_touched k s s' o :
  tls_ok k s → heap (below (objs s)) !! m_pSocket (this s) = Some o →
  touched (m_pSocket (this s)) o (objs s) (objs s') → same_links (this s) (this s') → tls_ok k s'.
Proof using Type.
  intros [Hn Hs Hc Hu] Ho Ht (E1 & E2 & E3 & E4 & _).
  pose proof (touched_net_ok _ _ _ _ _ Hn Ho Ht) as Hn'.
  destruct (touched_object _ _ _ _ Ht) as (o' & Ho' & _). destruct Ht as (o2 & w & E & _).
  split; [done| | |].
  - rewrite E1. intros Hp. destruct (Hs Hp) as [_ Hun]. split; [by exists o'|].
    rewrite E. exact Hun.
  - rewrite E1, E3, E4. exact Hc.
  - rewrite E2, E. by apply usable_below.
Qed.

Lemma tls_ok_world k s w :
  tls_ok k s → tls_ok k (set_objs (set_below (set_world w (below (objs s))) (objs s)) s).
Proof using Type.
  intros [Hn Hs Hc Hu]. split; cbn; [by apply net_ok_world| |done|by apply usable_below].
  intros Hp. destruct (Hs Hp) as [Hl Hun]. by split.
Qed.

(** A change of the object that keeps its pointers. *)
Lemma tls_ok_this k s x : tls_ok k s → same_links (this s) x → tls_ok k (set_this x s).
Proof using Type.
  intros [Hn Hs Hc Hu] (E1 & E2 & E3 & E4 & _). split; cbn; rewrite ?E1, ?E2, ?E3, ?E4; done.
Qed.

Lemma tls_ok_object k s :
  tls_ok k s → m_pSocket (this s) ≠ 0 →
  ∃ o, heap (below (objs s)) !! m_pSocket (this s) = Some o.
Proof using Type. intros Hok Hp. by destruct (ok_socket _ _ Hok Hp) as [[o Ho] _]; exists o. Qed.

(** * A call of mbed TLS *)

Definition call_answer {A}
    (f : option (ssl_config * option x509_crt) → ssl_context → io W (A * ssl_context))
    (s : tls (W := W)) (o : CAdaptedSocket) (a : A) (s' : tls) : Prop :=
  ∃ conf c, used_config (m_conf (this s)) (objs s) = Ok (conf, objs s) ∧
    returns send_answer (receive_answer o) (f conf (m_Context (this s))) (a, c) ∧
    this s' = set_context c (this s) ∧ touched (m_pSocket (this s)) o (objs s) (objs s').

Lemma ssl_call_ok {A} f k s o :
  tls_ok k s → m_bio (this s) = m_pSocket (this s) →
  heap (below (objs s)) !! m_pSocket (this s) = Some o →
  wp no_fault (ssl_call (A := A) f) (call_answer f s o) s.
Proof using Type*.
  intros Hok Hbio Ho. unfold ssl_call. wp_step. wp_step.
  destruct (usable_run _ _ (ok_conf _ _ Hok)) as [conf Hconf].
  eapply wp_run. { unfold obj_op, zoom. by rewrite Hconf. }
  wp_step. rewrite Hbio.
  assert (set_objs (objs s) s = s) as -> by by destruct s.
  eapply wp_mono; [by apply (run_io_ok _ k s _ o); [apply ok_net|]|].
  intros [a c] s1 (Hr & Hthis & Ht). unfold change. do 2 wp_step. wp_step.
  exists conf, c. cbn. by rewrite Hthis.
Qed.

Lemma call_answer_ok {A} f k s o (a : A) s' :
  tls_ok k s → heap (below (objs s)) !! m_pSocket (this s) = Some o → call_answer f s o a s' →
  tls_ok k s' ∧ same_links (this s) (this s').
Proof using Type.
  intros Hok Ho (conf & c & _ & _ & Hthis & Ht).
  assert (same_links (this s) (this s')) as Hl by by rewrite Hthis.
  split; [|done]. by eapply tls_ok_touched.
Qed.

(** * The operations *)

Definition unconnected (s : tls (W := W)) : Prop := m_bConnected (this s) = false.

(** An operation of the objects that only uses the world. *)
Lemma wp_ask {A} F (f : W → A * W) (Q : A → tls → Prop) s :
  (∀ a w, Q a (set_objs (set_below (set_world w (below (objs s))) (objs s)) s)) →
  wp F (obj_op (ask f)) Q s.
Proof using Type.
  intros HQ. unfold obj_op, ask, net_op, world_op. do 2 wp_step. apply wp_env. intros a w _. apply HQ.
Qed.

Lemma Setup_ok k s conf :
  tls_ok k s → unconnected s → usable (objs s) conf → conf ≠ 0 →
  wp no_fault (Setup conf) (λ _ s', tls_ok k s' ∧ unconnected s') s.
Proof using Type.
  intros Hok Hun Hu Hc. unfold Setup. wp_step. wp_step. wp_step.
  apply wp_assert_true; [by rewrite Hun|].
  destruct (usable_run _ _ Hu) as [r Hr]. unfold used_config in Hr.
  rewrite (proj2 (Z.eqb_neq conf 0)) in Hr by done. apply bind_Ok in Hr as (c & os & Hfind & _).
  destruct (find_object_inv _ _ _ _ _ Hfind) as (-> & _ & _).
  eapply wp_run. { unfold obj_op, zoom. by rewrite Hfind. }
  wp_step. apply wp_ask. intros [n x] w. unfold change. do 2 wp_step. wp_step. split; [|done].
  destruct (tls_ok_world _ _ w Hok) as [Hn' Hs' Hc' Hu']. split; cbn in *; try done.
  destruct (n =? 0); [by apply usable_below|]. by exists None.
Qed.

Lemma SetHostname_ok k s name :
  tls_ok k s → unconnected s →
  wp no_fault (SetHostname (Some name)) (λ _ s', tls_ok k s' ∧ unconnected s') s.
Proof using Type.
  intros Hok Hun. unfold SetHostname. wp_step. wp_step. wp_step.
  apply wp_assert_true; [by rewrite Hun|]. do 2 (eapply wp_run; [done|]).
  wp_step. apply wp_ask. intros [n x] w. unfold change. do 2 wp_step. wp_step. split; [|done].
  apply (tls_ok_this k (set_objs _ s)); [by apply tls_ok_world|by split_and!].
Qed.

(** A call of the handshake, and what is behind it in the loop. *)
Definition handshake_round : M (tls (W := W)) (option Z) :=
  n ← ssl_call ssl_handshake;
  if n =? 0 then mret (Some 0)
  else if negb (n =? MBEDTLS_ERR_SSL_WANT_READ) && negb (n =? MBEDTLS_ERR_SSL_WANT_WRITE)
  then mret (Some n) else mret None.

(** mbed TLS does not ask for another call for ever. *)
Definition handshake_ends : Prop := finite handshake_round.

Lemma handshake_loop_rounds fuel s : handshake_loop fuel s = loop handshake_round fuel s.
Proof using Type.
  revert s. induction fuel as [|fuel IH]; intros s; [done|]. cbn [handshake_loop loop].
  destruct (ssl_call ssl_handshake s) as [[n s1]|e] eqn:E.
  - rewrite (bind_run _ _ _ _ _ E). destruct (n =? 0) eqn:E0; [|destruct (negb _ && negb _) eqn:E1].
    + rewrite (bind_run handshake_round _ s (Some 0) s1); [done|].
      unfold handshake_round. by rewrite (bind_run _ _ _ _ _ E), E0.
    + rewrite (bind_run handshake_round _ s (Some n) s1); [done|].
      unfold handshake_round. by rewrite (bind_run _ _ _ _ _ E), E0, E1.
    + rewrite (bind_run handshake_round _ s None s1); [apply IH|].
      unfold handshake_round. by rewrite (bind_run _ _ _ _ _ E), E0, E1.
  - rewrite !bind_unfold, E. unfold handshake_round. by rewrite bind_unfold, E.
Qed.

Lemma handshake_loop_ok k s o :
  tls_ok k s → m_bio (this s) = m_pSocket (this s) →
  heap (below (objs s)) !! m_pSocket (this s) = Some o →
  ends handshake_ends handshake_loop (λ _ s', tls_ok k s' ∧ same_links (this s) (this s')) s.
Proof using Type*.
  intros Hok Hbio Ho. apply (ends_ext _ (loop handshake_round)); [|intros fuel; apply handshake_loop_rounds].
  set (I := λ s', tls_ok k s' ∧ same_links (this s) (this s') ∧
    is_Some (heap (below (objs s')) !! m_pSocket (this s'))).
  apply (ends_loop _ _ I); [|split; [done|split; [by split_and!|by exists o]]|intros HT; exact HT].
  intros s0 (Hok0 & Hl0 & [o0 Ho0]). pose proof Hl0 as (E1 & E2 & E3 & E4 & E5).
  unfold handshake_round. wp_step. eapply wp_mono; [apply (ssl_call_ok ssl_handshake k s0 o0); [done|congruence|done]|].
  intros n s1 Hca. pose proof (call_answer_ok _ _ _ _ _ _ Hok0 Ho0 Hca) as [Hok1 (F1 & F2 & F3 & F4 & F5)].
  assert (same_links (this s) (this s1)) as Hl1 by (split_and!; congruence).
  apply wp_if; intros _; [by wp_step|]. apply wp_if; intros _; wp_step; [done|]. split; [done|]. split; [done|].
  destruct Hca as (_ & _ & _ & _ & _ & Ht). destruct (touched_object _ _ _ _ Ht) as (o1 & Ho1 & _).
  exists o1. by rewrite F1.
Qed.

Lemma finish_connect_ok k s :
  tls_ok k s → m_bio (this s) = m_pSocket (this s) → m_pSocket (this s) ≠ 0 →
  wp no_fault finish_connect (λ _ s', tls_ok k s') s.
Proof using Type.
  intros [Hn Hs Hc Hu] Hbio Hp. unfold finish_connect, change. do 2 wp_step. wp_step. wp_step.
  assert (tls_ok k (set_this (set_connected true (this s)) s)) as Hok' by by split.
  apply wp_if; intros _; [|by wp_step]. wp_step. apply wp_ask. intros a w. wp_step.
  by apply (tls_ok_world k (set_this _ s)).
Qed.

Lemma Connect_ok' k s ip port :
  tls_ok k s → unconnected s →
  ends handshake_ends (λ fuel, Connect fuel ip port) (λ _ s', tls_ok k s') s.
Proof using Type*.
  intros Hok Hun. unfold Connect. apply ends_step. wp_step.
  destruct (Z.eqb_spec (m_pSocket (this s)) 0) as [|Hp]; [apply ends_const; by wp_step|].
  destruct (tls_ok_object _ _ Hok Hp) as [o Ho].
  apply ends_step. apply wp_assert_true; [by rewrite Hun|].
  apply ends_step. unfold sock_op, obj_op, net_op. do 2 wp_step.
  eapply wp_mono; [eapply NetSafety.Connect_ok; [by apply ok_net|done]|].
  intros r n' (w & ->). set (s1 := set_objs _ s).
  pose proof (tls_ok_world _ _ w Hok) as Hok1. destruct (negb (r =? 0)); [apply ends_const; by wp_step|].
  apply ends_step. unfold change. wp_step. set (s2 := set_this _ s1).
  assert (tls_ok k s2) as Hok2.
  { destruct Hok1 as [Hn Hs Hc Hu]. split; [exact Hn|exact Hs| |exact Hu]. cbn. unfold unconnected in Hun.
    congruence. }
  eapply (ends_bind _ handshake_loop); [by apply (handshake_loop_ok k s2 o)|].
  intros r2 s3 [Hok3 (E1 & E2 & E3 & E4 & E5)]. apply ends_const. apply wp_if; intros _; [by wp_step|].
  apply finish_connect_ok; [done|by rewrite E1, E3|by rewrite E1].
Qed.

Lemma Connect_host_ok' k s host port :
  tls_ok k s → unconnected s → m_pNetSubSystem (this s) ≠ 0 →
  ends handshake_ends (λ fuel, Connect_host fuel (Some host) (Some port)) (λ _ s', tls_ok k s') s.
Proof using Type*.
  intros Hok Hun Hnet. unfold Connect_host. do 4 (eapply ends_after; [done|]).
  destruct (port_number port) as [nPort|]; [|apply ends_const; by wp_step].
  apply ends_step. wp_step.
  apply ends_step. apply wp_assert_true; [by rewrite (proj2 (Z.eqb_neq _ 0)) by done|].
  apply ends_step. apply wp_ask. intros [ip|] w; [|apply ends_const; wp_step; by apply tls_ok_world].
  apply Connect_ok'; [by apply tls_ok_world|done].
Qed.

(** ** Data *)

(** The state in which [Receive] calls mbed TLS. *)
Lemma SetOptionBlocking_ok k s o b :
  tls_ok k s → heap (below (objs s)) !! m_pSocket (this s) = Some o →
  ∃ s', sock_op (SetOptionBlocking (m_pSocket (this s)) b) s = Ok ((), s') ∧ tls_ok k s' ∧
    this s' = this s ∧ heap (below (objs s')) !! m_pSocket (this s) = Some (set_block b o).
Proof using Type.
  intros Hok Ho. pose proof (ok_net _ _ Hok) as Hn. unfold sock_op, obj_op, net_op, zoom, SetOptionBlocking.
  rewrite (update_run _ _ _ _ _ Hn Ho). eexists. split; [done|]. split; [|split; [done|by apply lookup_insert_eq]].
  destruct Hok as [_ Hs Hc Hu]. pose proof (ok_objects _ _ Hn _ _ Ho) as (Hp & _ & Hrx).
  split; cbn; [by eapply net_ok_object| |done|by apply usable_below].
  intros _. split; [by apply live_insert; left|]. destruct (Hs ltac:(lia)) as [_ Hun]. exact Hun.
Qed.

(** What a caller gets from [Receive]: a blocking call does not return 0. *)
Definition receive_result (nLength nFlags : Z) (r : Z * list Z) : Prop :=
  (Z.of_nat (length r.2) = Z.max 0 r.1 ∧ r.1 ≤ nLength) ∧ Forall is_byte r.2 ∧
  (r.1 = 0 → nFlags = MSG_DONTWAIT).

Lemma Receive_ok k s n fl :
  BlockingSockets W → tls_ok k s → m_bConnected (this s) = true → 0 ≤ n →
  wp no_fault (Receive n fl)
    (λ r s', tls_ok k s' ∧ same_links (this s) (this s') ∧ receive_result n fl r) s.
Proof using Type*.
  intros Hbl Hok Hcon Hlen. destruct (ok_connected _ _ Hok Hcon) as [Hp Hbio].
  destruct (tls_ok_object _ _ Hok Hp) as [o Ho]. unfold Receive. wp_step. wp_step. wp_step.
  apply wp_assert_true; [by rewrite (proj2 (Z.eqb_neq _ 0)) by done|].
  destruct (SetOptionBlocking_ok k s o (negb (fl =? MSG_DONTWAIT)) Hok Ho) as (s1 & E1 & Hok1 & Ht1 & Ho1).
  eapply wp_run; [exact E1|]. eapply wp_run; [by unfold assert_; rewrite Hcon|].
  rewrite <-Ht1 in Ho1, Hbio. rewrite <-Ht1. wp_step.
  eapply wp_mono; [by apply (ssl_call_ok (ssl_read n) k s1 (set_block (negb (fl =? MSG_DONTWAIT)) o))|].
  intros [r bs] s2 Hca. pose proof (call_answer_ok _ _ _ _ _ _ Hok1 Ho1 Hca) as [Hok2 Hl].
  destruct Hca as (conf & c & _ & Hret & _).
  destruct (read_length n conf (m_Context (this s1)) r bs c) as (Hbs & Hr & Hbytes); [by eapply returns_mono; [..|exact Hret]|done|].
  pose proof wants_neg as [Hw1 Hw2].
  destruct ((r =? _) || (r =? _)) eqn:Ewant.
  - wp_step. apply wp_assert; intros Hfl; [|exfalso].
    + wp_step. split; [done|]. split; [exact Hl|]. split_and!; cbn; [lia|lia|done|].
      intros _. by apply Z.eqb_eq.
    + apply orb_true_iff in Ewant. destruct (read_wants n conf (m_Context (this s1)) r bs c) as [N1 N2].
      { eapply returns_mono; [| |exact Hret]; [done|]. intros x Hx. apply Hx; [by cbn; rewrite Hfl|done]. }
      destruct Ewant as [E%Z.eqb_eq|E%Z.eqb_eq]; congruence.
  - destruct (Z.eqb_spec r 0) as [->|Hr0]; wp_step;
      (split; [done|]; split; [exact Hl|]); (split_and!; cbn; [lia|lia|done|lia]).
Qed.

Lemma Send_ok k s bs fl :
  tls_ok k s → m_bConnected (this s) = true →
  wp no_fault (Send bs fl) (λ _ s', tls_ok k s') s.
Proof using Type*.
  intros Hok Hcon. destruct (ok_connected _ _ Hok Hcon) as [Hp Hbio].
  destruct (tls_ok_object _ _ Hok Hp) as [o Ho]. unfold Send. wp_step. wp_step.
  eapply wp_run; [by unfold assert_; rewrite Hcon|].
  eapply wp_mono; [by apply (ssl_call_ok _ k s o)|]. intros a s' Hca. by eapply call_answer_ok.
Qed.

Lemma GetForeignIP_ok k s : tls_ok k s → wp no_fault GetForeignIP (λ _ s', tls_ok k s') s.
Proof using Type.
  intros Hok. unfold GetForeignIP. wp_step. wp_step. destruct (Z.eqb_spec (m_pSocket (this s)) 0) as [|Hp].
  { by wp_step. }
  destruct (tls_ok_object _ _ Hok Hp) as [o Ho]. unfold sock_op, obj_op, net_op, Net.GetForeignIP. do 2 wp_step.
  eapply wp_run; [eapply load_run; [by apply ok_net|done]|]. apply wp_env. intros a w _.
  by apply tls_ok_world.
Qed.
End safety.

(** * The life of a socket *)

Section life.
Context `{Target, MbedTLS, !MbedTLSOk, PtrArray, !PtrArrayOk, SocketPlatform W, !PlatformOk W,
  !MbedSSL W, !MbedSSLOk W}.

Lemma construct_ok k os pNet :
  net_ok k (below os) → k < 2^31 - 1 →
  wp no_fault (CTLSSocket_construct pNet IPPROTO_TCP)
    (λ o os', tls_ok (k + 1) (mkTls o os') ∧ unconnected (mkTls o os') ∧ m_pNetSubSystem o = pNet ∧
       m_conf o = 0) os.
Proof using Type*.
  intros Hok Hk. unfold CTLSSocket_construct. wp_step. unfold net_op. wp_step.
  eapply wp_mono; [by apply new_CAdaptedSocket_ok|].
  intros p n [(-> & Hn & _)|(w & sock & o & Hn & Hcr)]; wp_step; (split; [|done]); split; cbn; try done.
  - eapply net_ok_mono; [|exact Hn]. lia.
  - by exists None.
  - intros _. split; [exists o; by eapply created_heap|]. intros c fd.
    pose proof Hcr as (_ & _ & Hctx & _). rewrite Hctx. intros Hc.
    eapply created_unnamed; [by apply (net_ok_world k (below os) w)|exact Hcr|exact Hc].
  - by exists None.
Qed.

(** The destructor, as long as the configuration is alive. *)
Lemma CTLSSocket_destroy_ok k s :
  tls_ok k s →
  wp no_fault CTLSSocket_destroy
    (λ _ s', net_ok k (below (objs s')) ∧ ¬ live (below (objs s')) (m_pSocket (this s)) ∧
       m_pSocket (this s') = 0) s.
Proof using Type*.
  intros Hok. unfold CTLSSocket_destroy. wp_step. wp_step. wp_step.
  assert (wp no_fault (if m_bConnected (this s) then ssl_call ssl_close_notify;; mret () else mret ())
    (λ _ s1, tls_ok k s1 ∧ same_links (this s) (this s1)) s) as Hclose.
  { destruct (m_bConnected (this s)) eqn:Hcon; [|by wp_step].
    destruct (ok_connected _ _ Hok Hcon) as [Hp Hbio]. destruct (tls_ok_object _ _ Hok Hp) as [o Ho].
    wp_step. eapply wp_mono; [by apply (ssl_call_ok _ k s o)|]. intros a s1 Hca. wp_step.
    by eapply call_answer_ok. }
  eapply wp_mono; [exact Hclose|]. intros _ s1 [Hok1 (Hp1 & _)]. do 2 wp_step. wp_step.
  apply wp_ask. intros _ w. pose proof (tls_ok_world _ _ w Hok1) as Hok2.
  set (s2 := set_objs _ s1) in *. change (this s1) with (this s2). rewrite <-Hp1.
  change (this s1) with (this s2). wp_step. destruct (Z.eqb_spec (m_pSocket (this s2)) 0) as [Hz|Hp].
  { unfold sock_op, obj_op, net_op. do 2 wp_step. unfold delete_CAdaptedSocket. rewrite Hz, Z.eqb_refl.
    do 2 wp_step. split; [apply (ok_net _ _ Hok2)|]. split; [|done]. cbn. intros [o Ho].
    apply (ok_objects _ _ (ok_net _ _ Hok2)) in Ho as (Hgt & _). lia. }
  destruct (tls_ok_object _ _ Hok2 Hp) as [o Ho].
  destruct (delete_run _ _ _ _ (ok_net _ _ Hok2) Ho) as (w' & a & E & Ha).
  unfold sock_op, obj_op, net_op. do 2 wp_step. unfold wp at 1. rewrite E. wp_step.
  split; [|split; [|done]].
  - cbn. eapply net_ok_deleted; [apply (ok_net _ _ Hok2)|done|by apply (ok_socket _ _ Hok2)|done].
  - cbn. intros [x Hx]. unfold deleted in Hx. cbn in Hx. apply lookup_delete_Some in Hx as [Hne _]. by apply Hne.
Qed.
End life.
