(* ===== verification/TlsDemo.v ===== *)
(** Instances for concrete runs of the TLS classes: sockets whose receive calls
    wait when they may, and a stand-in for mbed TLS that sends and receives in
    plain text.  Its handshake sends the byte 22 and ends with the answer of
    the server, the number that is the result of the verification. *)
From stdpp Require Import base numbers list gmap option strings.
From S2P Require Import Prelude.
From S2P Require Import Libc.
From S2P Require Import Circle.
From S2P Require Import NetSockets.
From S2P Require Import NetProps.
From S2P Require Import TlsConfig.
From S2P Require Import TlsInv.
Import Libc Net TlsConfig.

Module TlsDemo.
#[export] Instance target : Target := aarch64.
#[export] Instance codes : MbedTLS := NetDemo.codes.
#[export] Instance codes_ok : MbedTLSOk := NetDemo.codes_ok.

(** The coming results after those without data. *)
Fixpoint wait (rx : list (option (list Z))) : list (option (list Z)) :=
  match rx with Some [] :: rx => wait rx | _ => rx end.

Definition receive (n fl : Z) (w : Script.t) : (Z * list Z) * Script.t :=
  if fl =? 0 then
    let rx := wait (Script.rx w) in
    let w := Script.mk rx (Script.tx w) (Script.tx_refused w) (Script.now w) (Script.log w)
                       (Script.opened w) (Script.closed w) (Script.events w) in
    match rx with [] => ((-1, []), w) | _ => Script.receive n w end
  else Script.receive n w.

#[export] Instance platform : Platform Script.t := {|
  Sock := nat;
  IPAddr := list Z;
  FRAME_BUFFER_SIZE := 1600;
  HZ := 100;
  MSG_DONTWAIT := 64;
  operator_new_array _ w := (true, w);
  CLogger_Write := Script.write_log;
  CString_Format f _ := cstr f;
  CTimer_GetTicks w := (u32 (Script.now w), w);
  CScheduler_MsSleep ms := Script.sleep (ms / 10);
  CDNSClient_Resolve h w := (Some h, w);
  CIPAddress_Format a := a;
  PropertyTag_Serial w := (Some (1, 2), w);
  new_CSocket := Script.open_socket;
  new_CTLSSimpleClientSocket := Script.open_socket;
  TLS_AddCertificatePath _ _ w := (0, w);
  TLS_Setup _ _ w := (0, w);
  CNetSocket_Connect _ _ _ w := (0, w);
  CNetSocket_Send _ bs _ := Script.send bs;
  CNetSocket_Receive _ n fl := receive n fl;
  CNetSocket_delete _ := Script.close_socket
|}.

#[export] Instance platform_ok : PlatformOk Script.t.
Proof.
  assert (∀ n w r bs w', Script.receive n w = ((r, bs), w') → 0 ≤ n →
    Z.of_nat (length bs) = Z.max 0 r ∧ r ≤ n) as Hlen.
  { exact (λ n w r bs w', CNetSocket_Receive_len (H := Script.platform) (PlatformOk := Script.platform_ok) 0%nat n 0 w r bs w'). }
  assert (∀ n w r bs w', Script.receive n w = ((r, bs), w') → Forall is_byte bs) as Hbytes.
  { exact (λ n w r bs w', CNetSocket_Receive_bytes (H := Script.platform) (PlatformOk := Script.platform_ok) 0%nat n 0 w r bs w'). }
  split; cbn; try lia.
  - intros w. apply u32_range.
  - unfold receive. intros _ n fl w r bs w'. destruct (fl =? 0); [|apply Hlen].
    destruct (wait _); [intros ?; simplify_eq/=; lia|apply Hlen].
  - unfold receive. intros _ n fl w r bs w'. destruct (fl =? 0); [|apply Hbytes].
    destruct (wait _); [intros ?; by simplify_eq/=|apply Hbytes].
  - intros s0 s1. split; [|done]. by apply (bool_decide_unpack _).
Qed.

#[export] Instance sockets : SocketPlatform Script.t := {|
  IPPROTO_TCP := 6;
  IP_ADDRESS_SIZE := 4;
  MSEC2HZ ms := ms / 10;
  operator_new w := (true, w);
  CSocket_new _ := Script.open_socket;
  CSocket_Bind _ _ w := (0, w);
  CSocket_Listen _ _ w := (0, w);
  CSocket_Accept _ w := let '(k, w) := Script.open_socket w in (Some (k, [10; 0; 0; 1]), w);
  CSocket_GetForeignIP _ w := (Some [10; 0; 0; 1], w);
  CIPAddress_CopyTo a := a;
  CScheduler_Yield := Script.sleep 1;
  CScheduler_usSleep _ := Script.sleep 1
|}.

Lemma wait_data rx : ∀ rs, wait rx ≠ Some [] :: rs.
Proof. induction rx as [|[[|b bs]|] rx IH]; cbn; intros rs; [done|apply IH|done|done]. Qed.

#[export] Instance blocking : BlockingSockets Script.t.
Proof.
  intros k n w Hn. cbn. unfold receive. cbn. pose proof (wait_data (Script.rx w)) as Hw.
  destruct (wait (Script.rx w)) as [|[[|b bs]|] rs]; cbn; [done|by destruct (Hw rs)| |done].
  replace (Z.to_nat n) with (S (Z.to_nat (n - 1))) by lia. cbn. lia.
Qed.

Definition handshake (c : option (conf_settings * option (list (list Z)))) (x : Z) :
    io Script.t (Z * Z) :=
  CallSend [22] (λ n, if n <? 0 then Ret (-1, x) else
  CallRecv 1 (λ r, match r with
                   | (_, [v]) => Ret (0, v)
                   | _ => Ret (-1, x)
                   end)).
Definition read (n : Z) (c : option (conf_settings * option (list (list Z)))) (x : Z) :
    io Script.t ((Z * list Z) * Z) :=
  CallRecv n (λ r, if r.1 <? 0 then Ret ((if r.1 =? MBEDTLS_ERR_SSL_WANT_READ then r.1 else -1, []), x)
                   else let bs := u8 <$> take (Z.to_nat n) r.2 in Ret ((Z.of_nat (length bs), bs), x)).

#[export] Instance ssl : MbedSSL Script.t := {|
  ssl_context := Z;
  ssl_config := conf_settings;
  x509_crt := list (list Z);
  MBEDTLS_SSL_IS_CLIENT := 0;
  MBEDTLS_SSL_TRANSPORT_STREAM := 0;
  MBEDTLS_SSL_PRESET_DEFAULT := 0;
  MBEDTLS_SSL_VERIFY_NONE := 0;
  MBEDTLS_SSL_VERIFY_REQUIRED := 2;
  conf_view c := c;
  ssl_config_init := mkSettings None 0 0 0 false;
  ssl_config_defaults _ _ _ c w := ((0, c), w);
  ssl_conf_authmode m c := mkSettings (Some m) (cert_profile c) (ca_chain c) (rng c) (debug_callback c);
  ssl_conf_cert_profile x c := mkSettings (authmode c) x (ca_chain c) (rng c) (debug_callback c);
  ssl_conf_ca_chain x c := mkSettings (authmode c) (cert_profile c) x (rng c) (debug_callback c);
  ssl_conf_rng x c := mkSettings (authmode c) (cert_profile c) (ca_chain c) x (debug_callback c);
  ssl_conf_dbg b c := mkSettings (authmode c) (cert_profile c) (ca_chain c) (rng c) b;
  x509_crt_init := [];
  x509_crt_parse ch bs w := ((0, ch ++ [bs]), w);
  x509_crt_verify_info _ _ _ := "x509: not verified"%string;
  ctr_drbg_seed _ _ _ w := (0, w);
  ssl_init := 0;
  ssl_free _ w := ((), w);
  ssl_setup _ x w := ((0, x), w);
  ssl_set_hostname _ x w := ((0, x), w);
  ssl_get_verify_result x := x;
  ssl_handshake := handshake;
  ssl_read := read;
  ssl_write bs _ x := CallSend bs (λ n, Ret (n, x));
  ssl_close_notify _ x := CallSend [21] (λ n, Ret (n, x))
|}.

#[export] Instance ssl_ok : MbedSSLOk Script.t.
Proof.
  split; try done.
  - intros n c x r bs y Hr Hn. inversion Hr as [| |? ? a ? _ Hk|]; subst. clear Hr. revert Hk.
    destruct (Z.ltb_spec a.1 0); intros Hk; inversion Hk; subst.
    + cbn. split_and!; [|..|done]; destruct (_ =? _); lia.
    + rewrite length_fmap, length_take. split_and!; [lia|lia|].
      apply Forall_fmap, Forall_true. intros b. apply u8_range.
  - intros n c x r bs y Hr. inversion Hr as [| |? ? a ? Ha Hk|]; subst. clear Hr. revert Hk.
    rewrite (proj2 (Z.eqb_neq _ _)) by done.
    destruct (Z.ltb_spec a.1 0); intros Hk; inversion Hk; subst; cbn; lia.
Qed.

(** The start: no objects, and a script for the connection. *)
Definition start (rx : list (option (list Z))) : objects (W := Script.t) :=
  mkObjects ∅ ∅ ∅ ∅ 1 (net_init [] (Script.init rx)).
End TlsDemo.
