(* ===== verification/TlsProps.v ===== *)
(** Properties of [CTLSSocket]. *)
From stdpp Require Import base numbers list gmap option strings relations.
From S2P Require Import Prelude.
From S2P Require Import Libc.
From S2P Require Import Circle.
From S2P Require Import NetSockets.
From S2P Require Import NetInv.
From S2P Require Import NetSafety.
From S2P Require Import NetProps.
From S2P Require Import TlsConfig.
From S2P Require Import TlsSocket.
From S2P Require Import TlsInv.
From S2P Require Import TlsSafety.
From S2P Require Import TlsDemo.
Import Libc Net TlsConfig Tls.

(** * A user of the class *)

Section calls.
Context `{Target, MbedTLS, PtrArray, SocketPlatform W, !MbedSSL W}.

(** A call of a public function. *)
Inductive tls_call :=
  | CallSetup (conf : Z)
  | CallSetHostname (name : list Z)
  | CallConnect (ip : IPAddr) (port : Z)
  | CallConnectHost (host port : list Z)
  | CallReceive (nLength nFlags : Z)
  | CallSend (pBuffer : list Z) (nFlags : Z)
  | CallGetForeignIP.

Definition exec (fuel : nat) (c : tls_call) : M (tls (W := W)) () :=
  match c with
  | CallSetup conf => Setup conf;; mret ()
  | CallSetHostname name => SetHostname (Some name);; mret ()
  | CallConnect ip port => Connect fuel ip port;; mret ()
  | CallConnectHost host port => Connect_host fuel (Some host) (Some port);; mret ()
  | CallReceive n fl => Receive n fl;; mret ()
  | CallSend bs fl => Send bs fl;; mret ()
  | CallGetForeignIP => GetForeignIP;; mret ()
  end.

(** What the class asks of its user: first the setup with a configuration that
    is alive, then the connection, then data. *)
Definition permitted (s : tls (W := W)) (c : tls_call) : Prop :=
  match c with
  | CallSetup conf => unconnected s ∧ usable (objs s) conf ∧ conf ≠ 0
  | CallSetHostname _ | CallConnect _ _ => unconnected s
  | CallConnectHost _ _ => unconnected s ∧ m_pNetSubSystem (this s) ≠ 0
  | CallReceive n _ => m_bConnected (this s) = true ∧ 0 ≤ n
  | CallSend _ _ => m_bConnected (this s) = true
  | CallGetForeignIP => True
  end.

(** A permitted call that returns. *)
Definition step (s s' : tls (W := W)) : Prop :=
  ∃ fuel c, permitted s c ∧ exec fuel c s = Ok ((), s').
End calls.

Section safety.
Context `{Target, MbedTLS, !MbedTLSOk, PtrArray, !PtrArrayOk, SocketPlatform W, !PlatformOk W,
  !MbedSSL W, !MbedSSLOk W}.

Lemma wp_ignore {S A} F (m : M S A) (P : S → Prop) s :
  wp F m (λ _ s', P s') s → wp F (m;; mret ()) (λ _ s', P s') s.
Proof using Type. intros Hm. wp_step. eapply wp_mono; [exact Hm|]. intros a s' Hs. by wp_step. Qed.

Lemma ends_ignore {S A} T (m : nat → M S A) (P : S → Prop) s :
  ends T m (λ _ s', P s') s → ends T (λ fuel, m fuel;; mret ()) (λ _ s', P s') s.
Proof using Type. intros Hm. eapply (ends_bind _ _ (λ _ _, mret ())); [exact Hm|]. intros a s' Hs. apply ends_const. by wp_step. Qed.

Lemma tls_exec_ok k s c :
  BlockingSockets W → tls_ok k s → permitted s c →
  ends (handshake_ends (W := W)) (λ fuel, exec fuel c) (λ _ s', tls_ok k s') s.
Proof using Type*.
  intros Hbl Hok Hc. destruct c as [conf|name|ip port|host port|n fl|bs fl|]; cbn in Hc |- *;
    destruct_and?.
  3: { apply (ends_ignore _ (λ fuel, Connect fuel ip port)). by apply Connect_ok'. }
  3: { apply (ends_ignore _ (λ fuel, Connect_host fuel _ _)). by apply Connect_host_ok'. }
  all: apply ends_const, wp_ignore.
  - eapply wp_mono; [by apply Setup_ok|]. by intros ? ? [? _].
  - eapply wp_mono; [by apply SetHostname_ok|]. by intros ? ? [? _].
  - eapply wp_mono; [by apply Receive_ok|]. by intros ? ? [? _].
  - by apply Send_ok.
  - by apply GetForeignIP_ok.
Qed.

Lemma steps_ok k s s' :
  BlockingSockets W → tls_ok k s → rtc step s s' → tls_ok k s'.
Proof using Type*.
  intros Hbl Hok Hsteps. induction Hsteps as [|s s1 s2 (fuel & c & Hc & E) _ IH]; [done|].
  apply IH. exact (wp_Ok _ _ (λ _ s', tls_ok k s') _ _ _ (proj1 (tls_exec_ok k s c Hbl Hok Hc) fuel) E).
Qed.
End safety.

(** C5: from its constructor on, whatever calls its user makes in the order
    setup, connection, data, and whatever the other side and mbed TLS do, no
    call of a function of [CTLSSocket] faults: no assertion fails, no null or
    dangling pointer is used, no buffer is overrun.  Every call returns, the
    handshake if mbed TLS does not ask for ever to repeat it; and the destructor
    then closes the connection, frees the socket below and leaves the table of
    handles in order. *)
Theorem tls_safe `{Target, MbedTLS, !MbedTLSOk, PtrArray, !PtrArrayOk, SocketPlatform W, !PlatformOk W,
    !MbedSSL W, !MbedSSLOk W, !BlockingSockets W} k pNet os o os' s c :
  net_ok k (below os) → k < 2^31 - 1 →
  CTLSSocket_construct pNet IPPROTO_TCP os = Ok (o, os') →
  rtc step (mkTls o os') s → permitted s c →
  ends (handshake_ends (W := W)) (λ fuel, exec fuel c) (λ _ s', tls_ok (k + 1) s') s ∧
  ∃ s', CTLSSocket_destroy s = Ok ((), s') ∧ net_ok (k + 1) (below (objs s')) ∧
    ¬ live (below (objs s')) (m_pSocket (this s)).
Proof.
  intros Hn Hk E Hsteps Hc.
  assert (tls_ok (k + 1) (mkTls o os')) as Hok by apply (wp_Ok _ _ _ _ _ _ (construct_ok k os pNet Hn Hk) E).
  apply (steps_ok _ _ _ _ Hok) in Hsteps as Hok'. split; [by apply tls_exec_ok|].
  destruct (wp_total _ _ _ (CTLSSocket_destroy_ok _ _ Hok')) as ([] & s' & Ed & Hn' & Hl & _).
  by exists s'.
Qed.

(** C19: [Receive] keeps the contract of [CNetSocket] that the HTTP and MQTT
    clients rely on, the laws of the class [PlatformOk]: a positive result is
    the number of bytes in the buffer, at most its length, and nothing is
    written otherwise; 0 says that there is no data and is for calls that do not
    wait only; a closed connection is a negative result. *)
Theorem tls_receive `{Target, MbedTLS, !MbedTLSOk, PtrArray, !PtrArrayOk, SocketPlatform W, !PlatformOk W,
    !MbedSSL W, !MbedSSLOk W, !BlockingSockets W} k s nLength nFlags :
  tls_ok k s → m_bConnected (this s) = true → 0 ≤ nLength →
  ∃ r bs s', Receive nLength nFlags s = Ok ((r, bs), s') ∧
    (Z.of_nat (length bs) = Z.max 0 r ∧ r ≤ nLength) ∧ Forall is_byte bs ∧
    (r = 0 → nFlags = MSG_DONTWAIT) ∧
    tls_ok k s' ∧ m_bConnected (this s') = true.
Proof.
  intros Hok Hcon Hn. destruct (wp_total _ _ _ (Receive_ok k s nLength nFlags _ Hok Hcon Hn))
    as ([r bs] & s' & E & Hok' & (_ & _ & _ & Hcon' & _) & Hr & Hb & Hz).
  exists r, bs, s'. split_and!; try done; [apply Hr..|congruence].
Qed.

(** * Connecting *)

Section connect.
Context `{Target, MbedTLS, PtrArray, SocketPlatform W, !MbedSSL W}.

Definition wants (n : Z) : Prop := n = MBEDTLS_ERR_SSL_WANT_READ ∨ n = MBEDTLS_ERR_SSL_WANT_WRITE.

(** [handshakes s n s']: the calls of [mbedtls_ssl_handshake] from [s] on end
    with the result [n], after any number that asked for another call. *)
Inductive handshakes : tls (W := W) → Z → tls → Prop :=
  | handshake_over s n s' :
      ssl_call ssl_handshake s = Ok (n, s') → n = 0 ∨ ¬ wants n → handshakes s n s'
  | handshake_again s n s1 r s' :
      ssl_call ssl_handshake s = Ok (n, s1) → n ≠ 0 → wants n → handshakes s1 r s' →
      handshakes s r s'.

(** The outcomes of [Connect]. *)
Inductive connect_outcome (ip : IPAddr) (port : Z) (s : tls (W := W)) : Z → tls → Prop :=
  | no_socket :
      m_pSocket (this s) = 0 → connect_outcome ip port s MBEDTLS_ERR_SSL_ALLOC_FAILED s
  | not_reached n s1 :
      m_pSocket (this s) ≠ 0 → unconnected s →
      sock_op (Net.Connect (m_pSocket (this s)) ip port) s = Ok (n, s1) → n ≠ 0 →
      connect_outcome ip port s n s1
  | no_handshake s1 n s2 :
      m_pSocket (this s) ≠ 0 → unconnected s →
      sock_op (Net.Connect (m_pSocket (this s)) ip port) s = Ok (0, s1) →
      handshakes (set_this (set_bio (m_pSocket (this s)) (this s1)) s1) n s2 → n ≠ 0 →
      connect_outcome ip port s n s2
  | established s1 s2 :
      m_pSocket (this s) ≠ 0 → unconnected s →
      sock_op (Net.Connect (m_pSocket (this s)) ip port) s = Ok (0, s1) →
      handshakes (set_this (set_bio (m_pSocket (this s)) (this s1)) s1) 0 s2 →
      u32 (ssl_get_verify_result (m_Context (this s2))) = 0 →
      connect_outcome ip port s 0 (set_this (set_connected true (this s2)) s2)
  | rejected s1 s2 s3 :
      m_pSocket (this s) ≠ 0 → unconnected s →
      sock_op (Net.Connect (m_pSocket (this s)) ip port) s = Ok (0, s1) →
      handshakes (set_this (set_bio (m_pSocket (this s)) (this s1)) s1) 0 s2 →
      u32 (ssl_get_verify_result (m_Context (this s2))) ≠ 0 →
      obj_op (ask (CLogger_Write LogWarning
                (x509_crt_verify_info 512 "x509: " (u32 (ssl_get_verify_result (m_Context (this s2))))) []))
        (set_this (set_connected true (this s2)) s2) = Ok ((), s3) →
      connect_outcome ip port s MBEDTLS_ERR_X509_CERT_VERIFY_FAILED s3.

Lemma again_cond n :
  (negb (n =? MBEDTLS_ERR_SSL_WANT_READ) && negb (n =? MBEDTLS_ERR_SSL_WANT_WRITE)) = false ↔ wants n.
Proof using Type. unfold wants. rewrite andb_false_iff, !negb_false_iff, !Z.eqb_eq. done. Qed.

Lemma handshake_loop_sound fuel s n s' : handshake_loop fuel s = Ok (n, s') → handshakes s n s'.
Proof using Type.
  revert s. induction fuel as [|fuel IH]; intros s E; [done|]. cbn [handshake_loop] in E.
  apply bind_Ok in E as (r & s1 & E1 & E). destruct (Z.eqb_spec r 0) as [->|Hr].
  { injection E as <- <-. apply handshake_over; auto. }
  destruct (negb _ && negb _) eqn:Ec.
  - injection E as <- <-. apply handshake_over; [done|]. right. intros Hw%again_cond. congruence.
  - eapply handshake_again; [exact E1|done|by apply again_cond|by apply IH].
Qed.

Lemma handshake_loop_complete s n s' :
  handshakes s n s' → ∃ k, ∀ fuel, (k ≤ fuel)%nat → handshake_loop fuel s = Ok (n, s').
Proof using Type.
  induction 1 as [s n s' E Hn|s n s1 r s' E Hn Hw _ [k IH]].
  - exists 1%nat. intros [|fuel] Hf; [lia|]. cbn [handshake_loop]. rewrite (bind_run _ _ _ _ _ E).
    destruct (Z.eqb_spec n 0) as [->|Hn0]; [done|]. destruct Hn as [|Hn]; [done|].
    destruct (negb _ && negb _) eqn:Ec; [done|]. by apply again_cond in Ec.
  - exists (S k). intros [|fuel] Hf; [lia|]. cbn [handshake_loop]. rewrite (bind_run _ _ _ _ _ E).
    rewrite (proj2 (Z.eqb_neq n 0)) by done. rewrite (proj2 (again_cond n)) by done. apply IH. lia.
Qed.

Lemma finish_connect_run s :
  finish_connect s =
  let s1 := set_this (set_connected true (this s)) s in
  let nFlags := u32 (ssl_get_verify_result (m_Context (this s))) in
  if nFlags =? 0 then Ok (0, s1)
  else match obj_op (ask (CLogger_Write LogWarning (x509_crt_verify_info 512 "x509: " nFlags) [])) s1 with
       | Ok (_, s3) => Ok (MBEDTLS_ERR_X509_CERT_VERIFY_FAILED, s3)
       | Fault e => Fault e
       end.
Proof using Type.
  unfold finish_connect, change. rewrite bind_unfold. cbn [modify]. rewrite bind_unfold. cbn [get].
  cbv zeta. change (m_Context (this (set_this (set_connected true (this s)) s))) with (m_Context (this s)).
  by destruct (u32 _ =? 0).
Qed.

(** [Connect] in its parts. *)
Lemma Connect_run fuel ip port s :
  m_pSocket (this s) ≠ 0 → unconnected s →
  Connect fuel ip port s =
  match sock_op (Net.Connect (m_pSocket (this s)) ip port) s with
  | Ok (n, s1) =>
      if n =? 0 then
        match handshake_loop fuel (set_this (set_bio (m_pSocket (this s)) (this s1)) s1) with
        | Ok (r, s2) => if r =? 0 then finish_connect s2 else Ok (r, s2)
        | Fault e => Fault e
        end
      else Ok (n, s1)
  | Fault e => Fault e
  end.
Proof using Type.
  intros Hp Hun. unfold Connect. rewrite bind_unfold. cbn [get].
  rewrite (proj2 (Z.eqb_neq _ 0)) by done. rewrite bind_unfold. unfold assert_. rewrite Hun. cbn [negb].
  rewrite bind_unfold. destruct (sock_op _ s) as [[n s1]|e]; [|done].
  destruct (n =? 0); cbn [negb]; [|done]. rewrite bind_unfold. cbn [change modify]. unfold change.
  cbn [modify]. rewrite bind_unfold. destruct (handshake_loop _ _) as [[r s2]|e]; [|done].
  by destruct (r =? 0).
Qed.
End connect.

(** C32: [Connect] returns with a result and a state exactly if that is one of
    its outcomes: no socket, no TCP connection, a handshake that fails, an
    established connection, or a certificate that is rejected: then the object is
    connected all the same.  Every outcome is reached with enough fuel. *)
Theorem tls_connect `{Target, MbedTLS, PtrArray, SocketPlatform W, !MbedSSL W} ip port s code s' :
  unconnected s →
  ((∃ fuel, Connect fuel ip port s = Ok (code, s')) ↔ connect_outcome ip port s code s') ∧
  (connect_outcome ip port s code s' →
     ∃ k, ∀ fuel, (k ≤ fuel)%nat → Connect fuel ip port s = Ok (code, s')).
Proof.
  intros Hun. assert (connect_outcome ip port s code s' →
     ∃ k, ∀ fuel, (k ≤ fuel)%nat → Connect fuel ip port s = Ok (code, s')) as Hc.
  { intros Ho. destruct (Z.eqb_spec (m_pSocket (this s)) 0) as [Hp|Hp].
    { destruct Ho; try done. exists 0%nat. intros fuel _. unfold Connect. rewrite bind_unfold. cbn [get].
      by rewrite Hp. }
    destruct Ho as [|n s1 _ _ E Hn|s1 n s2 _ _ E Hh Hn|s1 s2 _ _ E Hh Hv|s1 s2 s3 _ _ E Hh Hv El]; [done| | | |].
    - exists 0%nat. intros fuel _. rewrite Connect_run by done. rewrite E.
      by rewrite (proj2 (Z.eqb_neq n 0)).
    - apply handshake_loop_complete in Hh as [k Hh]. exists k. intros fuel Hf.
      rewrite Connect_run by done. rewrite E. cbn. rewrite Hh by done. by rewrite (proj2 (Z.eqb_neq n 0)).
    - apply handshake_loop_complete in Hh as [k Hh]. exists k. intros fuel Hf.
      rewrite Connect_run by done. rewrite E. cbn [Z.eqb]. rewrite Hh by done. cbn [Z.eqb].
      by rewrite finish_connect_run, Hv.
    - apply handshake_loop_complete in Hh as [k Hh]. exists k. intros fuel Hf.
      rewrite Connect_run by done. rewrite E. cbn [Z.eqb]. rewrite Hh by done. cbn [Z.eqb].
      rewrite finish_connect_run. cbv zeta. rewrite (proj2 (Z.eqb_neq _ 0)) by done. by rewrite El. }
  split; [|exact Hc]. split; [|intros Ho; destruct (Hc Ho) as [k Hk]; exists k; by apply Hk].
  intros [fuel E]. destruct (Z.eqb_spec (m_pSocket (this s)) 0) as [Hp|Hp].
  { unfold Connect in E. rewrite bind_unfold in E. cbn [get] in E. rewrite Hp in E. cbn in E.
    injection E as <- <-. by apply no_socket. }
  rewrite Connect_run in E by done. destruct (sock_op _ s) as [[n s1]|] eqn:E1; [|done].
  destruct (Z.eqb_spec n 0) as [->|Hn]; [|injection E as <- <-; by apply not_reached].
  destruct (handshake_loop _ _) as [[r s2]|] eqn:E2; [|done]. apply handshake_loop_sound in E2.
  destruct (Z.eqb_spec r 0) as [->|Hr]; [|injection E as <- <-; by eapply no_handshake].
  rewrite finish_connect_run in E. cbv zeta in E.
  destruct (Z.eqb_spec (u32 (ssl_get_verify_result (m_Context (this s2)))) 0) as [Hv|Hv].
  - injection E as <- <-. by eapply established.
  - destruct (obj_op _ _) as [[[] s3]|] eqn:El in E; [|done]. injection E as <- <-. by eapply rejected.
Qed.

(** * Concrete runs *)
Import TlsDemo.TlsDemo.

Definition is_ok {A} (r : res A) : bool := match r with Ok _ => true | Fault _ => false end.
Definition state_after {S A} (m : M S A) (s : S) : S :=
  match m s with Ok (_, s') => s' | Fault _ => s end.

Lemma state_after_run {S} (m : M S ()) s : is_ok (m s) = true → m s = Ok ((), state_after m s).
Proof. unfold state_after. by destruct (m s) as [[[] s']|]. Qed.

(** A connection with a configuration at the address 1, to a server that sends
    the result 0 of the verification, twice nothing, and some data. *)
Definition demo_objects (verify : Z) : objects (W := Script.t) :=
  state_after CTLSConfig (start [Some [verify]; Some []; Some []; Some (cstr "hello")]).
Definition demo_socket : M (objects (W := Script.t)) CTLSSocket := CTLSSocket_construct 7 6.
Definition demo_new (verify : Z) : tls (W := Script.t) :=
  match demo_socket (demo_objects verify) with
  | Ok (o, os) => mkTls o os
  | Fault _ => mkTls (mkTLSSocket 0 0 0 0 0 false) (demo_objects verify)
  end.
Definition demo_setup (verify : Z) : tls (W := Script.t) :=
  state_after (exec 5 (CallSetup 1)) (demo_new verify).
Definition demo_ip : IPAddr (W := Script.t) := [10; 0; 0; 1].
Definition demo_connect : tls_call (W := Script.t) := CallConnect demo_ip 443.
Definition demo_connected (verify : Z) : tls (W := Script.t) :=
  state_after (exec 5 demo_connect) (demo_setup verify).

Lemma usable_plain (os : objects (W := Script.t)) p c :
  configs os !! p = Some c → p ≠ 0 → ca_chain c = 0 → TlsConfig.rng c = 0 → usable os p.
Proof.
  intros Hc Hp Ech Er. exists (Some (c, None)). intros n. unfold used_config, find_object.
  rewrite (proj2 (Z.eqb_neq p 0)) by done. destruct os as [c1 c2 c3 c4 c5 n0]. cbn in Hc.
  rewrite bind_unfold, bind_unfold. cbn. rewrite Hc. cbn. by rewrite Ech, Er.
Qed.

Lemma demo_objects_ok verify : net_ok 0 (below (demo_objects verify)).
Proof. apply net_init_ok. by apply not_elem_of_nil. Qed.

Lemma demo_new_run :
  CTLSSocket_construct 7 IPPROTO_TCP (demo_objects 0) = Ok (this (demo_new 0), objs (demo_new 0)).
Proof.
  assert (is_ok (demo_socket (demo_objects 0)) = true) as Hok by (vm_compute; reflexivity).
  change (demo_socket (demo_objects 0) = Ok (this (demo_new 0), objs (demo_new 0))).
  unfold demo_new. by destruct (demo_socket (demo_objects 0)) as [[o os]|].
Qed.

Lemma demo_setup_step : step (demo_new 0) (demo_setup 0).
Proof.
  exists 5%nat, (CallSetup 1). split.
  - split; [vm_compute; reflexivity|]. split; [|done].
    apply (usable_plain _ 1 (mkSettings None 0 0 0 false)); [vm_compute; reflexivity|done..].
  - refine (state_after_run (exec 5 (CallSetup 1)) (demo_new 0) _). vm_compute. reflexivity.
Qed.

Lemma demo_steps : rtc step (demo_new 0) (demo_connected 0).
Proof.
  apply (rtc_l _ _ (demo_setup 0)); [exact demo_setup_step|apply rtc_once].
  exists 5%nat, demo_connect. split; [change (m_bConnected (this (demo_setup 0)) = false); vm_compute; reflexivity|].
  refine (state_after_run (exec 5 demo_connect) (demo_setup 0) _). vm_compute. reflexivity.
Qed.

Lemma demo_connected_true : m_bConnected (this (demo_connected 0)) = true.
Proof. vm_compute. reflexivity. Qed.

(** The handshake of the instance is never repeated. *)
Lemma demo_handshake_ends : handshake_ends (W := Script.t).
Proof.
  intros s. constructor. intros s1 E. exfalso. unfold handshake_round in E.
  apply bind_Ok in E as (n & s2 & E & Hn).
  assert (n = 0 ∨ n = -1) as [-> | ->]; [|discriminate Hn..].
  unfold ssl_call in E. apply bind_Ok in E as (s3 & s4 & _ & (conf & s5 & _ & ([a x] & s6 & E & Ea)%bind_Ok)%bind_Ok).
  apply bind_Ok in Ea as (u & s7 & _ & [= <- _]). cbn [run_io ssl_handshake TlsDemo.ssl TlsDemo.handshake] in E.
  apply bind_Ok in E as (m & s8 & _ & E). destruct (m <? 0); cbn [run_io] in E; [injection E as <- _; auto|].
  apply bind_Ok in E as ([r bs] & s9 & _ & E).
  destruct bs as [|v [|]]; injection E as <- _; auto.
Qed.

Lemma tls_safe_witness :
  handshake_ends (W := Script.t) ∧
  ends (handshake_ends (W := Script.t)) (λ fuel, exec fuel demo_connect) (λ _ s', tls_ok 1 s') (demo_setup 0) ∧
  ∃ s', CTLSSocket_destroy (demo_connected 0) = Ok ((), s') ∧ net_ok 1 (below (objs s')) ∧
    ¬ live (below (objs s')) (m_pSocket (this (demo_connected 0))).
Proof.
  assert (Hnew : mkTls (this (demo_new 0)) (objs (demo_new 0)) = demo_new 0) by (destruct (demo_new 0); reflexivity).
  split; [exact demo_handshake_ends|]. split.
  - apply (tls_safe 0 7 (demo_objects 0) (this (demo_new 0)) (objs (demo_new 0)) (demo_setup 0) demo_connect).
    + exact (demo_objects_ok 0).
    + lia.
    + exact demo_new_run.
    + rewrite Hnew. apply rtc_once, demo_setup_step.
    + change (m_bConnected (this (demo_setup 0)) = false). vm_compute. reflexivity.
  - apply (tls_safe 0 7 (demo_objects 0) (this (demo_new 0)) (objs (demo_new 0)) (demo_connected 0) (CallReceive 10 0)).
    + exact (demo_objects_ok 0).
    + lia.
    + exact demo_new_run.
    + rewrite Hnew. exact demo_steps.
    + split; [exact demo_connected_true|lia].
Defined.

Lemma demo_connected_ok : tls_ok 1 (demo_connected 0).
Proof.
  apply (steps_ok 1 (demo_new 0)); [apply _| |exact demo_steps].
  pose proof (wp_Ok _ _ _ _ _ _
    (construct_ok 0 (demo_objects 0) 7 (demo_objects_ok 0) ltac:(lia)) demo_new_run) as [Hok _].
  by destruct (demo_new 0).
Qed.

(** The blocking call waits for the data behind the empty results. *)
Lemma tls_receive_witness :
  (∃ r bs s', Receive 10 0 (demo_connected 0) = Ok ((r, bs), s') ∧
    (Z.of_nat (length bs) = Z.max 0 r ∧ r ≤ 10) ∧ Forall is_byte bs ∧ (r = 0 → 0 = MSG_DONTWAIT) ∧
    tls_ok 1 s' ∧ m_bConnected (this s') = true) ∧
  match Receive 10 0 (demo_connected 0) with Ok (r, _) => bool_decide (r = (5, cstr "hello")) | _ => false end
    = true ∧
  match Receive 10 64 (demo_connected 0) with Ok (r, _) => bool_decide (r = (0, [])) | _ => false end = true.
Proof.
  split; [|split; vm_compute; reflexivity].
  apply (tls_receive 1 (demo_connected 0) 10 0); [exact demo_connected_ok|exact demo_connected_true|lia].
Defined.

(** A server whose certificate is rejected with the flags 8. *)
Lemma tls_connect_witness :
  unconnected (demo_setup 8) ∧
  ((∃ fuel, Connect fuel demo_ip 443 (demo_setup 8) = Ok (-0x2700, demo_connected 8)) ↔
   connect_outcome demo_ip 443 (demo_setup 8) (-0x2700) (demo_connected 8)) ∧
  (connect_outcome demo_ip 443 (demo_setup 8) (-0x2700) (demo_connected 8) →
     ∃ k, ∀ fuel, (k ≤ fuel)%nat →
       Connect fuel demo_ip 443 (demo_setup 8) = Ok (-0x2700, demo_connected 8)) ∧
  match Connect 5 demo_ip 443 (demo_setup 8) with
  | Ok (r, s') => (r =? -0x2700) && m_bConnected (this s')
  | _ => false
  end = true.
Proof.
  assert (unconnected (demo_setup 8)) as Hun by (vm_compute; reflexivity).
  split; [exact Hun|]. split; [|split; [|vm_compute; reflexivity]];
    apply (tls_connect demo_ip 443 (demo_setup 8) (-0x2700) (demo_connected 8) Hun).
Defined.
