(* ===== verification/X509ChainProps.v ===== *)
(** Properties of the certificate files. *)
From stdpp Require Import base numbers list gmap option strings.
From S2P Require Import Prelude.
From S2P Require Import Libc.
From S2P Require Import Circle.
From S2P Require Import NetSockets.
From S2P Require Import TlsConfig.
From S2P Require Import X509CertChain.
From S2P Require Import NetProps.
From S2P Require Import TlsDemo.
Import Libc Net TlsConfig X509CertChain.

Lemma strstr_spec s needle : strstr s needle = true ↔ ∃ pre post, s = pre ++ needle ++ post.
Proof.
  induction s as [|c s IH]; cbn [strstr]; rewrite orb_true_iff, bool_decide_eq_true.
  - rewrite take_nil. split.
    + intros [<-|]; [|done]. by exists [], [].
    + intros (pre & post & E). symmetry in E. apply app_nil in E as [_ E]. apply app_nil in E as [-> _]. by left.
  - split.
    + intros [E|(pre & post & ->)%IH]; [|by exists (c :: pre), post].
      exists [], (drop (length needle) (c :: s)). cbn [app]. rewrite <-E at 1. by rewrite take_drop.
    + intros ([|x pre] & post & E).
      * left. cbn [app] in E. by rewrite E, take_app_length.
      * right. apply IH. exists pre, post. by simplify_eq/=.
Qed.

Section chain.
Context `{MbedTLS, PtrArray, SocketPlatform W, !MbedSSL W, X509Codes, FileSystem W, !FileSystemOk W}.

(** The world of the objects, and its update. *)
Definition world_of (s : objects (W := W)) : W := world (below s).
Definition in_world (w : W) (s : objects (W := W)) : objects := set_below (set_world w (below s)) s.

Lemma ask_run {A} (f : W → A * W) s a w :
  f (world_of s) = (a, w) → ask f s = Ok (a, in_world w s).
Proof using Type. unfold ask, net_op, zoom, world_op, env. unfold world_of. by intros ->. Qed.

(** The text of a file, up to its first zero, has the mark of the PEM format. *)
Definition is_pem (bs : list Z) : Prop :=
  ∃ pre post, until_nul bs = pre ++ cstr "-----BEGIN " ++ post.
#[export] Instance is_pem_dec bs : Decision (is_pem bs).
Proof using Type.
  refine (cast_if (decide (strstr (until_nul bs) (cstr "-----BEGIN ") = true))); unfold is_pem; by rewrite <-strstr_spec.
Defined.

(** What is parsed for the content of a file: mbed TLS wants a PEM text with
    its terminating zero, and data in DER format as it is. *)
Definition parsed_bytes (bs : list Z) : list Z := if decide (is_pem bs) then bs ++ [0] else bs.

Lemma until_nul_app bs : until_nul (bs ++ [0]) = until_nul bs.
Proof using Type. induction bs as [|b bs IH]; [done|]. cbn. destruct (b =? 0); [done|by rewrite IH]. Qed.

(** The buffer after the file is read, with its terminating zero. *)
Lemma buffer_run bs :
  Z.of_nat (length bs) < CERTIFICATE_MAX_SIZE →
  ∃ buf buf', wr_bytes (uninit (CERTIFICATE_MAX_SIZE + 1)) 0 bs = Ok buf ∧
    wr buf (Z.of_nat (length bs)) 0 = Ok buf' ∧ holds buf' 0 (bs ++ [0]).
Proof using Type.
  intros Hlen. assert (Z.of_nat (length (uninit (CERTIFICATE_MAX_SIZE + 1))) = 5001) as Hu
    by (unfold uninit; rewrite length_replicate; unfold CERTIFICATE_MAX_SIZE; lia).
  unfold CERTIFICATE_MAX_SIZE in Hlen.
  destruct (wr_bytes_Ok (uninit (CERTIFICATE_MAX_SIZE + 1)) 0 bs) as (buf & Ew & Hl & Hh & _); [lia|lia|].
  exists buf, (<[length bs := Some 0]> buf). split; [done|]. split.
  - unfold wr. rewrite wr_cell_Ok by lia. by rewrite Nat2Z.id.
  - apply holds_app. split.
    + eapply holds_frame; [exact Hh|]. intros j Hj. apply list_lookup_insert_ne. lia.
    + apply holds_cons. split; [|apply holds_nil; lia]. apply rd_Ok. split; [lia|].
      rewrite Z.add_0_l, Nat2Z.id. apply list_lookup_insert_eq. lia.
Qed.

Lemma parsed_bytes_run buf bs :
  holds buf 0 (bs ++ [0]) →
  c_string buf = Ok (until_nul bs) ∧
  rd_bytes buf 0 (Z.to_nat (if strstr (until_nul bs) (cstr "-----BEGIN ")
                           then Z.of_nat (length bs) + 1 else Z.of_nat (length bs))) = Ok (parsed_bytes bs).
Proof using Type.
  intros Hh. split; [by apply c_string_holds|]. unfold parsed_bytes.
  destruct (strstr (until_nul bs) (cstr "-----BEGIN ")) eqn:E.
  - rewrite decide_True by by apply strstr_spec.
    apply holds_rd_bytes in Hh. rewrite length_app in Hh. cbn in Hh. rewrite <-Hh. f_equal. lia.
  - rewrite decide_False by (intros Hp%strstr_spec; congruence).
    apply holds_app in Hh as [Hh _]. apply holds_rd_bytes in Hh. by rewrite Nat2Z.id.
Qed.

(** The outcome of [AddCertificateFile] on a file with the content [bs]. *)
Definition file_outcome (p : Z) (bs : list Z) (s : objects (W := W)) : res (Z * objects) :=
  if Z.of_nat (length bs) =? 0 then Ok (MBEDTLS_ERR_PK_FILE_IO_ERROR, s)
  else if Z.of_nat (length bs) >=? CERTIFICATE_MAX_SIZE then Ok (MBEDTLS_ERR_X509_BUFFER_TOO_SMALL, s)
  else AddCertificate p (parsed_bytes bs) s.

Lemma AddCertificateFile_run p name s f w1 bs w2 :
  fopen name (world_of s) = (Some f, w1) → fread f CERTIFICATE_MAX_SIZE w1 = (bs, w2) →
  AddCertificateFile p (Some name) s = file_outcome p bs (in_world (fclose f w2).2 s).
Proof using Type*.
  intros Ef Er. unfold AddCertificateFile. rewrite bind_unfold. cbn [assert_ bool_decide].
  unfold assert_. rewrite bool_decide_true by by eexists. rewrite bind_unfold. cbn [deref].
  rewrite (bind_run _ _ _ _ _ (ask_run _ s _ _ Ef)).
  rewrite (bind_run _ _ _ _ _ (ask_run _ (in_world w1 s) _ _ Er)).
  assert (Z.of_nat (length bs) ≤ CERTIFICATE_MAX_SIZE) as Hl.
  { pose proof (fread_length f CERTIFICATE_MAX_SIZE w1) as Hr. rewrite Er in Hr. by apply Hr. }
  destruct (wr_bytes_Ok (uninit (CERTIFICATE_MAX_SIZE + 1)) 0 bs) as (buf0 & Ew & _).
  { lia. } { unfold uninit. rewrite length_replicate. unfold CERTIFICATE_MAX_SIZE in *. lia. }
  rewrite bind_unfold. unfold lift_res at 1. rewrite Ew.
  destruct (fclose f w2) as [[] w3] eqn:Ec.
  rewrite (bind_run _ _ _ _ _ (ask_run _ (in_world w2 (in_world w1 s)) _ _ Ec)).
  change (in_world w3 (in_world w2 (in_world w1 s))) with (in_world w3 s). cbn [snd].
  unfold file_outcome. destruct (_ =? 0); [done|]. rewrite Z.geb_leb.
  destruct (Z.leb_spec CERTIFICATE_MAX_SIZE (Z.of_nat (length bs))) as [|Hlt]; [done|].
  destruct (buffer_run bs Hlt) as (buf & buf' & Ew' & Ew2 & Hh). rewrite Ew in Ew'. injection Ew' as <-.
  destruct (parsed_bytes_run _ _ Hh) as [Es Eb].
  rewrite bind_unfold. unfold lift_res at 1. rewrite Ew2. rewrite bind_unfold. unfold lift_res at 1.
  rewrite Es. rewrite bind_unfold. unfold lift_res. by rewrite Eb.
Qed.
End chain.

(** [AddCertificateFile] reads a file of any content into its buffer
    without a fault, closes it, and hands its bytes to the parser: with a
    terminating zero exactly if the text has the mark of the PEM format.  An
    empty file, and one of 5000 bytes or more, is refused before that; and a
    file that cannot be opened is an error. *)
Theorem cert_file `{MbedTLS, PtrArray, SocketPlatform W, !MbedSSL W, X509Codes, FileSystem W,
    !FileSystemOk W} p name s :
  match fopen name (world_of s) with
  | (None, w1) =>
      AddCertificateFile p (Some name) s = Ok (MBEDTLS_ERR_PK_FILE_IO_ERROR, in_world w1 s)
  | (Some f, w1) =>
      let '(bs, w2) := fread f CERTIFICATE_MAX_SIZE w1 in
      let s1 := in_world (fclose f w2).2 s in
      (bs = [] → AddCertificateFile p (Some name) s = Ok (MBEDTLS_ERR_PK_FILE_IO_ERROR, s1)) ∧
      (5000 ≤ Z.of_nat (length bs) →
         AddCertificateFile p (Some name) s = Ok (MBEDTLS_ERR_X509_BUFFER_TOO_SMALL, s1)) ∧
      (0 < Z.of_nat (length bs) < 5000 →
         (is_pem bs → AddCertificateFile p (Some name) s = AddCertificate p (bs ++ [0]) s1) ∧
         (¬ is_pem bs → AddCertificateFile p (Some name) s = AddCertificate p bs s1))
  end.
Proof.
  destruct (fopen name (world_of s)) as [[f|] w1] eqn:Ef.
  - destruct (fread f CERTIFICATE_MAX_SIZE w1) as [bs w2] eqn:Er. cbv zeta.
    rewrite (AddCertificateFile_run p name s f w1 bs w2 Ef Er). unfold file_outcome, parsed_bytes.
    split_and!; [by intros ->|intros Hl|intros Hl].
    + rewrite (proj2 (Z.eqb_neq _ 0)) by lia. unfold CERTIFICATE_MAX_SIZE. rewrite Z.geb_leb.
      by rewrite (proj2 (Z.leb_le _ _)) by lia.
    + rewrite (proj2 (Z.eqb_neq _ 0)) by lia. unfold CERTIFICATE_MAX_SIZE. rewrite Z.geb_leb.
      rewrite (proj2 (Z.leb_gt _ _)) by lia. split; intros Hp; [by rewrite decide_True|by rewrite decide_False].
  - unfold AddCertificateFile. rewrite bind_unfold. unfold assert_. rewrite bool_decide_true by by eexists.
    rewrite bind_unfold. cbn [deref]. by rewrite (bind_run _ _ _ _ _ (ask_run _ s _ _ Ef)).
Qed.

Section path.
Context `{MbedTLS, PtrArray, SocketPlatform W, !MbedSSL W, X509Codes, FileSystem W}.

(** [listed d w names w']: the calls of [readdir] from the world [w] on return
    the entries [names]. *)
Inductive listed (d : DIR) : W → list (list Z) → W → Prop :=
  | listed_none w : listed d w [] w
  | listed_more w name w1 names w2 :
      readdir d w = (Some name, w1) → listed d w1 names w2 → listed d w (name :: names) w2.

Lemma path_loop_skip p d names s w' fuel n :
  listed d (world_of s) names w' → Forall (λ x, is_certificate_name x = false) names →
  path_loop (length names + fuel) p d n s = path_loop fuel p d n (in_world w' s).
Proof using Type.
  intros Hl. remember (world_of s) as w eqn:Ew. revert s Ew.
  induction Hl as [w|w name w1 names w2 E Hl IH]; intros s -> Hn.
  - by destruct s as [? ? ? ? ? []].
  - apply Forall_cons in Hn as [Hname Hn]. cbn [length Nat.add path_loop].
    rewrite (bind_run _ _ _ _ _ (ask_run _ s _ _ E)), Hname. cbn [negb].
    rewrite (IH (in_world w1 s) eq_refl Hn). by destruct s as [? ? ? ? ? []].
Qed.
End path.

(** [AddCertificatePath] opens the file of an entry under the name of the
    entry alone, not under its path: when the first certificate of the
    directory is not a file of the current directory as well, the result is an
    error, whatever files there are below the path. *)
Theorem cert_path_cwd `{MbedTLS, PtrArray, SocketPlatform W, !MbedSSL W, X509Codes, FileSystem W}
    fuel p path s d w1 names w2 name w3 w4 :
  MBEDTLS_ERR_PK_FILE_IO_ERROR < 0 →
  opendir path (world_of s) = (Some d, w1) → listed d w1 names w2 →
  Forall (λ x, is_certificate_name x = false) names → is_certificate_name name = true →
  readdir d w2 = (Some name, w3) → fopen name w3 = (None, w4) →
  ∃ s', AddCertificatePath (length names + S fuel) p (Some path) s =
      Ok (MBEDTLS_ERR_PK_FILE_IO_ERROR, s') ∧ chains s' = chains s.
Proof.
  intros Hneg Eo Hl Hn Hc Er Ef. unfold AddCertificatePath. rewrite bind_unfold. unfold assert_.
  rewrite bool_decide_true by by eexists. rewrite bind_unfold. cbn [deref].
  rewrite (bind_run _ _ _ _ _ (ask_run _ s _ _ Eo)).
  rewrite (path_loop_skip p d names (in_world w1 s) w2) by done. cbn [path_loop].
  set (s2 := in_world w2 (in_world w1 s)).
  rewrite (bind_run _ _ _ _ _ (ask_run _ s2 _ _ Er)), Hc. cbn [negb].
  assert (AddCertificateFile p (Some name) (in_world w3 s2) =
    Ok (MBEDTLS_ERR_PK_FILE_IO_ERROR, in_world w4 (in_world w3 s2))) as Efile.
  { unfold AddCertificateFile. rewrite bind_unfold. unfold assert_. rewrite bool_decide_true by by eexists.
    rewrite bind_unfold. cbn [deref]. by rewrite (bind_run _ _ _ _ _ (ask_run _ (in_world w3 s2) _ _ Ef)). }
  rewrite (bind_run _ _ _ _ _ Efile), (proj2 (Z.ltb_lt _ _)) by done.
  set (s4 := in_world w4 _). destruct (CLogger_Write LogWarning "Cannot parse file: %s (%d)"
    [ArgS name; ArgZ MBEDTLS_ERR_PK_FILE_IO_ERROR] (world_of s4)) as [[] w5] eqn:El.
  rewrite (bind_run _ _ _ _ _ (ask_run _ s4 _ _ El)).
  destruct (closedir d w5) as [[] w6] eqn:Ecl.
  rewrite (bind_run _ _ _ _ _ (ask_run _ (in_world w5 s4) _ _ Ecl)). by eexists.
Qed.

(** * Concrete runs *)

(** A file system with a certificate below a path and one in the current
    directory.  A directory is the list of its entries; the log of events says
    how many of them have been read. *)
Module FileDemo.
Export TlsDemo.TlsDemo.
Definition pem : list Z := cstr "-----BEGIN CERTIFICATE-----".
Definition content (name : list Z) : option (list Z) :=
  if streq name (cstr "/certs/ca.pem") then Some pem
  else if streq name (cstr "local.der") then Some [48; 0; 1]
  else None.
Definition entry (d : list (list Z)) (w : Script.t) : option (list Z) * Script.t :=
  (d !! length (Script.events w), (Script.event "readdir" [] w).2).

#[export] Instance files : FileSystem Script.t := {|
  FILE := list Z;
  DIR := list (list Z);
  fopen name w := (content name, w);
  fread f n w := (take (Z.to_nat n) f, w);
  fclose _ w := ((), w);
  opendir path w :=
    (if streq path (cstr "/certs") then Some [cstr "README"; cstr "ca.pem"] else None, w);
  readdir := entry;
  closedir _ w := ((), w)
|}.
#[export] Instance files_ok : FileSystemOk Script.t.
Proof. split. intros f n w Hn. cbn. rewrite length_take. lia. Qed.

#[export] Instance x509_codes : X509Codes := {|
  MBEDTLS_ERR_PK_FILE_IO_ERROR := -0x3E00;
  MBEDTLS_ERR_X509_BUFFER_TOO_SMALL := -0x2980
|}.

(** A chain of certificates at the address 1. *)
Definition chain_objects : objects (W := Script.t) :=
  mkObjects ∅ {[1 := []]} ∅ ∅ 2 (net_init [] (Script.init [])).
Definition certs : DIR (W := Script.t) := [cstr "README"; cstr "ca.pem"].
Definition w0 : Script.t := Script.init [].
Definition next (w : Script.t) : Script.t := (Script.event "readdir" [] w).2.
End FileDemo.
Import FileDemo.

Lemma cert_file_witness :
  (let s := chain_objects in
   AddCertificateFile 1 (Some (cstr "/certs/ca.pem")) s = AddCertificate 1 (pem ++ [0]) s) ∧
  AddCertificateFile 1 (Some (cstr "local.der")) chain_objects =
    AddCertificate 1 [48; 0; 1] chain_objects.
Proof.
  pose proof (cert_file 1 (cstr "/certs/ca.pem") chain_objects) as (_ & _ & [Hpem _]); [by vm_compute|].
  pose proof (cert_file 1 (cstr "local.der") chain_objects) as (_ & _ & [_ Hder]); [by vm_compute|].
  split; [apply Hpem|apply Hder].
  - exists [], (cstr "CERTIFICATE-----"). by vm_compute.
  - intros Hp%strstr_spec. by vm_compute in Hp.
Defined.

(** The certificate [/certs/ca.pem] exists and is refused. *)
Lemma cert_path_cwd_witness :
  ∃ s', AddCertificatePath 2 1 (Some (cstr "/certs")) chain_objects = Ok (MBEDTLS_ERR_PK_FILE_IO_ERROR, s') ∧
    chains s' = chains chain_objects.
Proof.
  apply (cert_path_cwd 0 1 (cstr "/certs") chain_objects certs w0 [cstr "README"] (next w0)
    (cstr "ca.pem") (next (next w0)) (next (next w0))); try done.
  - eapply listed_more; [reflexivity|apply listed_none].
  - by repeat constructor.
Defined.
