(* ===== verification/TlsClientProps.v ===== *)
(** Properties of [CTLSSimpleClientSocket]: what its setup tells mbed TLS to
    verify, and how it ends. *)
From stdpp Require Import base numbers list gmap option strings.
From S2P Require Import Prelude.
From S2P Require Import Libc.
From S2P Require Import Circle.
From S2P Require Import NetSockets.
From S2P Require Import NetProps.
From S2P Require Import TlsConfig.
From S2P Require Import X509CertChain.
From S2P Require Import TlsSocket.
From S2P Require Import TlsSafety.
From S2P Require Import TlsClient.
From S2P Require Import TlsDemo.
From S2P Require Import TlsProps.
From S2P Require Import X509ChainProps.
Import Libc Net TlsConfig X509CertChain TlsClient.

(** * Runs that keep a part of the state *)

(** The returns of [m] satisfy [Q]; a fault is not excluded. *)
Definition any_fault (_ : fault) : Prop := True.

Section keeps.
Context `{Target, MbedTLS, PtrArray, SocketPlatform W, !MbedSSL W, X509Codes, FileSystem W}.

(** The certificates touch nothing but the chains and the world. *)
Definition only_chains (s s' : objects (W := W)) : Prop :=
  configs s' = configs s ∧ drbgs s' = drbgs s ∧ entropies s' = entropies s ∧
  ∃ w, below s' = set_world w (below s).

Lemma only_chains_refl s : only_chains s s.
Proof using Type. split_and!; try done. exists (world (below s)). by destruct (below s). Qed.

Lemma only_chains_trans s1 s2 s3 : only_chains s1 s2 → only_chains s2 s3 → only_chains s1 s3.
Proof using Type.
  intros (E1 & E2 & E3 & w & E4) (F1 & F2 & F3 & w' & F4).
  split_and!; [congruence..|]. exists w'. by rewrite F4, E4.
Qed.

Lemma ask_answer {A} (f : W → A * W) s (Q : A → objects → Prop) :
  (∀ a w, f (world_of s) = (a, w) → Q a (in_world w s)) → wp any_fault (ask f) Q s.
Proof using Type. intros HQ. unfold ask, net_op, world_op. wp_step. apply wp_env. exact HQ. Qed.

Lemma ask_keeps {A} (f : W → A * W) s (Q : A → objects → Prop) :
  (∀ a w, Q a (in_world w s)) → wp any_fault (ask f) Q s.
Proof using Type. intros HQ. apply ask_answer. intros a w _. apply HQ. Qed.

(** A step of a program that touches the chains and the world only. *)
Lemma ask_only {A} (f : W → A * W) s0 s (Q : A → objects → Prop) :
  only_chains s0 s → (∀ a s', only_chains s0 s' → Q a s') → wp any_fault (ask f) Q s.
Proof using Type.
  intros Hs0 HQ. apply ask_keeps. intros a w. apply HQ. eapply only_chains_trans; [exact Hs0|].
  split_and!; try done. by exists w.
Qed.

Lemma find_object_keeps {A} (t : objects → gmap Z A) p s (Q : A → objects → Prop) :
  (∀ x, t s !! p = Some x → p ≠ 0 → Q x s) → wp any_fault (find_object t p) Q s.
Proof using Type.
  intros HQ. unfold wp. destruct (find_object t p s) as [[x s']|] eqn:E; [|done].
  destruct (find_object_inv _ _ _ _ _ E) as (-> & Hx & Hp). by apply HQ.
Qed.

Lemma AddCertificate_keeps p bs s0 s :
  only_chains s0 s → wp any_fault (TlsConfig.AddCertificate p bs) (λ _ s', only_chains s0 s') s.
Proof using Type.
  intros Hs0. unfold TlsConfig.AddCertificate. wp_step. apply find_object_keeps. intros x _ _. wp_step.
  eapply ask_only; [exact Hs0|]. intros [n y] s1 Hs1. do 2 wp_step. by wp_step.
Qed.

Lemma AddCertificateFile_keeps p name s0 s :
  only_chains s0 s → wp any_fault (X509CertChain.AddCertificateFile p name) (λ _ s', only_chains s0 s') s.
Proof using Type.
  intros Hs0. unfold X509CertChain.AddCertificateFile. wp_step. apply wp_assert; [intros _|done].
  wp_step. apply wp_deref; [|done]. intros n _. wp_step. eapply ask_only; [exact Hs0|].
  intros [f|] s1 Hs1; [|by wp_step].
  wp_step. eapply ask_only; [exact Hs1|]. intros bs s2 Hs2. wp_step. apply wp_lift_res; [|done]. intros buf _.
  wp_step. eapply ask_only; [exact Hs2|]. intros _ s3 Hs3. apply wp_if; intros _; [by wp_step|].
  apply wp_if; intros _; [by wp_step|].
  do 3 (wp_step; apply wp_lift_res; [|done]; intros ? _). by apply AddCertificate_keeps.
Qed.

Lemma path_loop_keeps fuel p d n s0 s :
  only_chains s0 s → wp any_fault (path_loop fuel p d n) (λ _ s', only_chains s0 s') s.
Proof using Type.
  revert n s. induction fuel as [|fuel IH]; intros n s Hs0; [by apply wp_fail|]. cbn [path_loop].
  wp_step. eapply ask_only; [exact Hs0|]. intros [name|] s1 Hs1.
  - apply wp_if; intros _; [by apply IH|]. wp_step.
    eapply wp_mono; [by apply AddCertificateFile_keeps|]. intros r s2 Hs2. apply wp_if; intros _; [|by apply IH].
    wp_step. eapply ask_only; [exact Hs2|]. intros _ s3 Hs3. wp_step.
    eapply ask_only; [exact Hs3|]. intros _ s4 Hs4. by wp_step.
  - wp_step. eapply ask_only; [exact Hs1|]. intros _ s2 Hs2. by wp_step.
Qed.

Lemma AddCertificatePath_keeps fuel p path s0 s :
  only_chains s0 s →
  wp any_fault (X509CertChain.AddCertificatePath fuel p path) (λ _ s', only_chains s0 s') s.
Proof using Type.
  intros Hs0. unfold X509CertChain.AddCertificatePath. wp_step. apply wp_assert; [intros _|done].
  wp_step. apply wp_deref; [|done]. intros n _. wp_step. eapply ask_only; [exact Hs0|].
  intros [d|] s1 Hs1; [|by wp_step]. by apply path_loop_keeps.
Qed.

(** * Adding certificates *)

Inductive addition :=
  | AddBuffer (pBuffer : list Z)
  | AddFile (pFilename : list Z)
  | AddPath (fuel : nat) (pPath : list Z).

Definition run_addition (a : addition) : M (client (W := W)) Z :=
  match a with
  | AddBuffer bs => AddCertificate bs
  | AddFile name => AddCertificateFile (Some name)
  | AddPath fuel path => AddCertificatePath fuel (Some path)
  end.

(** Whether the result says that certificates have been added. *)
Definition has_added (a : addition) (r : Z) : bool :=
  match a with AddPath _ _ => 0 <? r | _ => r =? 0 end.

(** The results say together whether any have. *)
Fixpoint run_additions (l : list addition) : M (client (W := W)) bool :=
  match l with
  | [] => mret false
  | a :: l => r ← run_addition a; b ← run_additions l; mret (has_added a r || b)
  end.

Definition with_added (b : bool) (o : CTLSSimpleClientSocket (W := W)) : CTLSSimpleClientSocket :=
  mkSimple (base o) (m_pTLSSupport o) (m_Entropy o) (m_CTR_DRBG o) (m_CertChain o) (m_TLSConfig o)
           (m_bCertAdded o || b).

Lemma with_added_false o : with_added false o = o.
Proof using Type. unfold with_added. rewrite orb_false_r. by destruct o. Qed.

(** What an addition does to the object and its configuration. *)
Definition addition_post (b : bool) (s s' : client (W := W)) : Prop :=
  self s' = with_added b (self s) ∧ only_chains (others s) (others s').

Lemma member_keeps (m : M objects Z) (f : Z → bool) (k : Z → M client Z) s :
  wp any_fault m (λ _ os, only_chains (others s) os) (others s) →
  (∀ r s1, wp any_fault (k r) (λ r' s', r' = r ∧
     s' = if f r then set_added s1 else s1) s1) →
  wp any_fault (member m ≫= k) (λ r s', addition_post (f r) s s') s.
Proof using Type.
  intros Hm Hk. wp_step. unfold member. wp_step. eapply wp_mono; [exact Hm|]. intros r os Hos. cbv beta.
  eapply wp_mono; [apply Hk|]. intros r' s' [-> ->]. destruct (f r).
  - split; [|done]. unfold with_added. by rewrite orb_true_r.
  - split; [|done]. by rewrite with_added_false.
Qed.

Lemma run_addition_keeps a s :
  wp any_fault (run_addition a) (λ r s', addition_post (has_added a r) s s') s.
Proof using Type.
  destruct a as [bs|name|fuel path]; cbn [run_addition has_added].
  - unfold AddCertificate. wp_step. wp_step. apply member_keeps; [apply AddCertificate_keeps, only_chains_refl|].
    intros r s1. destruct (Z.eqb_spec r 0) as [->|]; cbn [negb]; [wp_step; by wp_step|by wp_step].
  - unfold AddCertificateFile. wp_step. wp_step. apply member_keeps; [apply AddCertificateFile_keeps, only_chains_refl|].
    intros r s1. destruct (Z.eqb_spec r 0) as [->|]; cbn [negb]; [wp_step; by wp_step|by wp_step].
  - unfold AddCertificatePath. wp_step. wp_step. apply member_keeps; [apply AddCertificatePath_keeps, only_chains_refl|].
    intros r s1. destruct (Z.leb_spec r 0).
    + rewrite (proj2 (Z.ltb_ge 0 r)) by done. by wp_step.
    + rewrite (proj2 (Z.ltb_lt 0 r)) by done. wp_step. by wp_step.
Qed.

Lemma run_additions_keeps l s :
  wp any_fault (run_additions l) (λ b s', addition_post b s s') s.
Proof using Type.
  revert s. induction l as [|a l IH]; intros s; cbn [run_additions].
  - wp_step. split; [by rewrite with_added_false|apply only_chains_refl].
  - wp_step. eapply wp_mono; [apply run_addition_keeps|]. intros r s1 [E1 C1]. wp_step.
    eapply wp_mono; [apply IH|]. intros b s2 [E2 C2]. wp_step.
    split; [|by eapply only_chains_trans]. rewrite E2, E1. unfold with_added. cbn. by rewrite orb_assoc.
Qed.
End keeps.

(** * The setup *)

Section setup.
Context `{Target, MbedTLS, PtrArray, SocketPlatform W, !MbedSSL W, !MbedSSLOk W, X509Codes, FileSystem W}.

Lemma wp_member {A} F (m : M objects A) (Q : A → client (W := W) → Prop) s :
  wp F m (λ a os, Q a (set_others os s)) (others s) → wp F (member m) Q s.
Proof using Type. apply wp_zoom. Qed.

Lemma configure_keeps p f s (Q : () → objects (W := W) → Prop) :
  (∀ c, configs s !! p = Some c → Q () (set_configs (<[p := f c]> (configs s)) s)) →
  wp any_fault (configure p f) Q s.
Proof using Type.
  intros HQ. unfold configure. wp_step. apply find_object_keeps. intros c Hc _. wp_step. by apply HQ.
Qed.

(** The settings of the object's own configuration. *)
Definition own_settings (s : client (W := W)) (v : conf_settings) : Prop :=
  ∃ c, configs (others s) !! m_TLSConfig (self s) = Some c ∧ conf_view c = v.

(** A step that changes the object's configuration by [f]. *)
Lemma configure_own s v f g (Q : () → client → Prop) :
  own_settings s v → (∀ c, conf_view c = v → conf_view (f c) = g) →
  (∀ s', self s' = self s → own_settings s' g → Q () s') →
  wp any_fault (member (configure (m_TLSConfig (self s)) f)) Q s.
Proof using Type.
  intros (c & Hc & Hv) Hf HQ. apply wp_member. apply configure_keeps. intros c' Hc'. apply HQ; [done|].
  exists (f c'). rewrite Hc in Hc'. injection Hc' as <-. split; [apply lookup_insert_eq|by apply Hf].
Qed.

Definition verification (o : CTLSSimpleClientSocket (W := W)) (sup : CTLSSimpleSupport) :
    conf_settings :=
  if m_bCertAdded o
  then mkSettings (Some MBEDTLS_SSL_VERIFY_REQUIRED) (GetCertProfile sup) (m_CertChain o) 0 false
  else mkSettings (Some MBEDTLS_SSL_VERIFY_NONE) 0 0 0 false.

Lemma set_verification_keeps s sup a (Q : () → client → Prop) :
  m_pTLSSupport (self s) = Some sup → own_settings s (mkSettings a 0 0 0 false) →
  (∀ s', self s' = self s → own_settings s' (verification (self s) sup) → Q () s') →
  wp any_fault set_verification Q s.
Proof using Type*.
  intros Hsup Hv HQ. unfold set_verification. wp_step. wp_step. unfold verification in HQ.
  destruct (m_bCertAdded (self s)).
  - wp_step. eapply (configure_own _ _ _ (mkSettings (Some MBEDTLS_SSL_VERIFY_REQUIRED) 0 0 0 false)); [exact Hv| |].
    { intros c E. by rewrite view_authmode, E. }
    intros s1 E1 Hv1. wp_step. apply wp_assert; [intros _|done]. wp_step.
    apply (wp_deref_Some _ _ sup); [done|]. wp_step. rewrite <-E1.
    eapply (configure_own _ _ _ (mkSettings (Some MBEDTLS_SSL_VERIFY_REQUIRED) (GetCertProfile sup) 0 0 false));
      [exact Hv1| |].
    { intros c E. by rewrite view_cert_profile, E. }
    intros s2 E2 Hv2. rewrite <-E2. eapply configure_own; [exact Hv2| |].
    { intros c E. by rewrite view_ca_chain, E. }
    intros s3 E3 Hv3. apply HQ; [congruence|]. rewrite E2, E1 in Hv3. exact Hv3.
  - eapply configure_own; [exact Hv| |exact HQ]. intros c E. by rewrite view_authmode, E.
Qed.

(** What [Setup] leaves in the configuration, and the pointer to it. *)
Definition setup_post (o : CTLSSimpleClientSocket (W := W)) (sup : CTLSSimpleSupport) (s' : client) : Prop :=
  own_settings s' (let v := verification o sup in
    mkSettings (authmode v) (cert_profile v) (ca_chain v) (m_CTR_DRBG o) true) ∧
  Tls.m_conf (base (self s')) = m_TLSConfig o ∧ m_TLSConfig (self s') = m_TLSConfig o ∧
  m_TLSConfig o ≠ 0 ∧ m_CertChain (self s') = m_CertChain o ∧ m_CTR_DRBG (self s') = m_CTR_DRBG o.

Lemma Setup_base_keeps s (Q : Z → client → Prop) (rest : Z → M (client (W := W)) Z) :
  (∀ s' n, n ≠ 0 → wp any_fault (rest n) Q s') →
  (∀ s' x, m_TLSConfig (self s) ≠ 0 → others s' = set_below (set_world x (below (others s))) (others s) →
     Tls.m_conf (base (self s')) = m_TLSConfig (self s) → m_TLSConfig (self s') = m_TLSConfig (self s) →
     m_CertChain (self s') = m_CertChain (self s) → m_CTR_DRBG (self s') = m_CTR_DRBG (self s) →
     wp any_fault (rest 0) Q s') →
  wp any_fault (inherited (Tls.Setup (m_TLSConfig (self s))) ≫= rest) Q s.
Proof using Type.
  intros Hfail Hok. wp_step. unfold inherited. wp_step. unfold Tls.Setup. wp_step. wp_step. wp_step.
  apply wp_assert; [intros _|done]. wp_step. unfold Tls.obj_op. wp_step.
  apply find_object_keeps. intros c _ Hp. wp_step. wp_step. apply ask_keeps. intros [n x] w.
  unfold Tls.change. do 2 wp_step. wp_step. destruct (Z.eqb_spec n 0) as [->|Hn]; [|by apply Hfail].
  by apply (Hok _ w).
Qed.

Lemma SetHostname_keeps name s o sup :
  setup_post o sup s →
  wp any_fault (inherited (Tls.SetHostname (Some name))) (λ _ s', setup_post o sup s') s.
Proof using Type.
  intros Hp. unfold inherited. wp_step. unfold Tls.SetHostname. wp_step. wp_step. wp_step.
  apply wp_assert; [intros _|done]. do 2 (eapply wp_run; [done|]). wp_step.
  unfold Tls.obj_op. wp_step. apply ask_keeps. intros [n x] w. unfold Tls.change. do 2 wp_step. by wp_step.
Qed.

Lemma Setup_keeps name pers s sup :
  m_pTLSSupport (self s) = Some sup → own_settings s (mkSettings None 0 0 0 false) →
  wp any_fault (Setup (Some name) pers) (λ r s', r = 0 → setup_post (self s) sup s') s.
Proof using Type*.
  intros Hsup (c & Hc & Hv). unfold Setup. wp_step. wp_step. wp_step. apply wp_member.
  unfold Seed_string. wp_step. apply wp_deref; [|done]. intros str _. unfold Seed. wp_step.
  apply find_object_keeps. intros e _ _. wp_step. unfold CEntropyContext_Get. wp_step. wp_step.
  apply wp_if; intros _; [|done]. wp_step. apply ask_keeps. intros n w.
  destruct (Z.eqb_spec n 0) as [_|Hn]; cbn [negb]; [|by wp_step].
  wp_step. apply wp_member. unfold SetDefaults. wp_step. apply find_object_keeps. intros c' Hc' _.
  change (configs (others s) !! m_TLSConfig (self s) = Some c') in Hc'. rewrite Hc in Hc'.
  injection Hc' as <-. wp_step. apply ask_answer. intros [d c2] w2 Ed. cbn [others set_others] in Ed. do 2 wp_step.
  pose proof (view_defaults MBEDTLS_SSL_IS_CLIENT MBEDTLS_SSL_TRANSPORT_STREAM MBEDTLS_SSL_PRESET_DEFAULT
    c (world_of (in_world w (others s)))) as Hview. rewrite Ed, Hv in Hview. cbn in Hview. wp_step.
  match goal with |- context [set_others ?x _] => set (s1 := set_others x (set_others (in_world w (others s)) s)) end.
  destruct (Z.eqb_spec d 0) as [_|Hn]; cbn [negb]; [|by wp_step]. wp_step.
  assert (own_settings s1 (mkSettings (authmode (conf_view c2)) 0 0 0 false)) as Hs1.
  { exists c2. split; [apply lookup_insert_eq|]. destruct (conf_view c2). cbn in *. by destruct_and?; subst. }
  eapply set_verification_keeps; [exact Hsup|exact Hs1|]. intros s2 E2 Hs2. wp_step.
  set (v := verification (self s1) sup) in Hs2. change (self s) with (self s1). rewrite <-E2.
  eapply (configure_own _ _ _ (mkSettings (authmode v) (cert_profile v) (ca_chain v) _ (debug_callback v)));
    [exact Hs2| |].
  { intros c3 E. by rewrite view_rng, E. }
  intros s3 E3 Hs3. wp_step. rewrite <-E3.
  eapply (configure_own _ _ _ (mkSettings (authmode v) (cert_profile v) (ca_chain v) _ true)); [exact Hs3| |].
  { intros c3 E. by rewrite view_dbg, E. }
  intros s4 E4 Hs4. rewrite <-E4. apply Setup_base_keeps.
  { intros s5 n5 Hn5. rewrite (proj2 (Z.eqb_neq n5 0)) by done. cbn [negb]. by wp_step. }
  intros s5 x Hp Eo Econf Ecf Ech Eg. cbn [Z.eqb negb]. wp_step. apply wp_assert_true; [done|].
  eapply wp_mono; [apply (SetHostname_keeps name s5 (self s4) sup)|by intros r s6].
  split; [|by split_and!]. destruct Hs4 as (c4 & Hc4 & Hv4). exists c4. rewrite Ecf, Eo. split; [exact Hc4|].
  rewrite Hv4. unfold v. by rewrite E4, E3, E2.
Qed.

Lemma net_op_any {A} (m : M net A) s (Q : A → objects (W := W) → Prop) :
  (∀ a n, Q a (set_below n s)) → wp any_fault (net_op m) Q s.
Proof using Type.
  intros HQ. unfold net_op. wp_step. unfold wp. destruct (m (below s)) as [[a n]|]; [apply HQ|done].
Qed.

(** A new object has a configuration without any settings. *)
Lemma construct_keeps sup proto os :
  wp any_fault (construct (Some sup) proto)
    (λ o os', own_settings (mkClient o os') (mkSettings None 0 0 0 false) ∧ m_pTLSSupport o = Some sup ∧
       m_bCertAdded o = false) os.
Proof using Type*.
  unfold construct. wp_step. apply (wp_deref_Some _ _ sup); [done|]. wp_step.
  unfold Tls.CTLSSocket_construct. wp_step. apply net_op_any. intros p n. wp_step.
  unfold CEntropyContext, CCTR_DRBG, CX509CertificateChain, TlsConfig.CTLSConfig, fresh.
  wp_step. repeat wp_step. split; [|done]. eexists. split; [apply lookup_insert_eq|apply view_init].
Qed.

Lemma set_objects_setup l name pers os o os1 b s2 s3 sup proto :
  construct (Some sup) proto os = Ok (o, os1) →
  run_additions l (mkClient o os1) = Ok (b, s2) → Setup (Some name) pers s2 = Ok (0, s3) →
  m_pTLSSupport o = Some sup ∧ m_bCertAdded (self s2) = b ∧ setup_post (self s2) sup s3.
Proof using Type*.
  intros Ec Ea Es. pose proof (wp_Ok _ _ _ _ _ _ (construct_keeps sup proto os) Ec) as (Hv & Hs & Hb).
  pose proof (wp_Ok _ _ _ _ _ _ (run_additions_keeps l _) Ea) as [E2 C2]. cbn in E2.
  split; [done|]. split; [by rewrite E2; cbn; rewrite Hb|].
  refine (wp_Ok _ _ _ _ _ _ (Setup_keeps name pers s2 sup _ _) Es eq_refl).
  - by rewrite E2.
  - destruct Hv as (c & Hc & Hv). exists c. rewrite E2. destruct C2 as [-> _]. done.
Qed.
End setup.


(** * The end *)

Section end_of_life.
Context `{Target, MbedTLS, PtrArray, SocketPlatform W, !MbedSSL W, !MbedSSLOk W, X509Codes, FileSystem W}.

(** The links of the object. *)
Definition same_conf (s s' : Tls.tls (W := W)) : Prop := Tls.m_conf (Tls.this s') = Tls.m_conf (Tls.this s).

Lemma obj_op_any {A} (m : M objects A) s (Q : A → Tls.tls (W := W) → Prop) :
  (∀ a os, Q a (Tls.set_objs os s)) → wp any_fault (Tls.obj_op m) Q s.
Proof using Type.
  intros HQ. unfold Tls.obj_op. wp_step. unfold wp. destruct (m (Tls.objs s)) as [[a n]|]; [apply HQ|done].
Qed.

Lemma run_io_conf {A} p (q : io W A) s : wp any_fault (Tls.run_io p q) (λ _ s', Tls.this s' = Tls.this s) s.
Proof using Type.
  revert s. induction q as [a|bs q IH|n q IH|f q IH]; intros s; cbn [Tls.run_io]; [by wp_step|..]; wp_step.
  - unfold Tls.SendCallback. wp_step. apply wp_assert; [intros _|done]. apply obj_op_any. intros n os.
    eapply wp_mono; [apply IH|]. by intros a s' ->.
  - unfold Tls.ReceiveCallback. wp_step. apply wp_assert; [intros _|done]. apply obj_op_any. intros r os.
    eapply wp_mono; [apply IH|]. by intros a s' ->.
  - apply obj_op_any. intros z os. eapply wp_mono; [apply IH|]. by intros a s' ->.
Qed.

Lemma ssl_call_conf {A} f s : wp any_fault (Tls.ssl_call (A := A) f) (λ _ s', same_conf s s') s.
Proof using Type.
  unfold Tls.ssl_call. wp_step. wp_step. wp_step. apply obj_op_any. intros conf os. wp_step.
  eapply wp_mono; [apply run_io_conf|]. intros [a c] s1 E1. unfold Tls.change. do 2 wp_step. wp_step.
  unfold same_conf. cbn. by rewrite E1.
Qed.

Lemma handshake_conf fuel s : wp any_fault (Tls.handshake_loop fuel) (λ _ s', same_conf s s') s.
Proof using Type.
  revert s. induction fuel as [|fuel IH]; intros s; [by apply wp_fail|]. cbn [Tls.handshake_loop].
  wp_step. eapply wp_mono; [apply ssl_call_conf|]. intros n s1 E1.
  apply wp_if; intros _; [by wp_step|]. apply wp_if; intros _; [by wp_step|].
  eapply wp_mono; [apply IH|]. intros r s2 E2. unfold same_conf in *. congruence.
Qed.

Lemma Connect_conf fuel ip port s : wp any_fault (Tls.Connect fuel ip port) (λ _ s', same_conf s s') s.
Proof using Type.
  unfold Tls.Connect. wp_step. wp_step. apply wp_if; intros _; [by wp_step|].
  wp_step. apply wp_assert; [intros _|done]. wp_step. apply obj_op_any. intros n os.
  apply wp_if; intros _; [by wp_step|]. unfold Tls.change. do 2 wp_step. wp_step.
  eapply wp_mono; [apply handshake_conf|]. intros r s1 E1. apply wp_if; intros _; [by wp_step|].
  unfold Tls.finish_connect, Tls.change. do 2 wp_step. wp_step. wp_step.
  apply wp_if; intros _; [|by wp_step]. wp_step. apply obj_op_any. intros u os2. by wp_step.
Qed.

Lemma destroyed_config s :
  Tls.m_bConnected (base (self s)) = true → Tls.m_conf (base (self s)) = m_TLSConfig (self s) →
  m_TLSConfig (self s) ≠ 0 → destroy s = Fault BadAccess.
Proof using Type.
  intros Hcon Hconf Hp. apply wp_faults. unfold destroy. wp_step. wp_step.
  wp_step. apply wp_member. unfold CTLSConfig_destroy. wp_step.
  wp_step. apply wp_member. unfold CX509CertificateChain_destroy. wp_step.
  wp_step. apply wp_member. unfold CCTR_DRBG_destroy. wp_step.
  wp_step. apply wp_member. unfold CEntropyContext_destroy. wp_step.
  unfold inherited. wp_step. unfold Tls.CTLSSocket_destroy. wp_step. wp_step. wp_step. cbn.
  rewrite Hcon. unfold Tls.ssl_call. wp_step. wp_step. wp_step. wp_step. unfold Tls.obj_op. wp_step.
  cbn. rewrite Hconf. unfold used_config. rewrite (proj2 (Z.eqb_neq _ 0)) by done. wp_step.
  unfold find_object. wp_step. wp_step. rewrite (proj2 (Z.eqb_neq _ 0)) by done. cbn.
  rewrite lookup_delete_eq. by apply wp_fail.
Qed.
End end_of_life.

(** The destructor of a connected object uses its configuration after its
    end: the members, the configuration among them, are destroyed before the
    destructor of the base class sends the closing message over the connection,
    for which mbed TLS reads the configuration.  This is the fate of every
    connection that [Connect] has established, the rejected ones included. *)
Theorem simple_destroy `{Target, MbedTLS, PtrArray, SocketPlatform W, !MbedSSL W, !MbedSSLOk W, X509Codes,
    FileSystem W} sup proto os o os1 additions added s2 name pers s3 fuel ip port r s4 :
  construct (Some sup) proto os = Ok (o, os1) →
  run_additions additions (mkClient o os1) = Ok (added, s2) →
  Setup (Some name) (Some pers) s2 = Ok (0, s3) →
  inherited (Tls.Connect fuel ip port) s3 = Ok (r, s4) →
  Tls.m_bConnected (base (self s4)) = true →
  destroy s4 = Fault BadAccess.
Proof.
  intros Ec Ea Es E Hcon.
  destruct (set_objects_setup _ _ _ _ _ _ _ _ _ _ _ Ec Ea Es) as (_ & _ & _ & Hconf & Hcf & Hp & _).
  assert (Tls.m_conf (base (self s4)) = Tls.m_conf (base (self s3)) ∧
          m_TLSConfig (self s4) = m_TLSConfig (self s3)) as [E1 E2].
  { apply (wp_Ok any_fault _ (λ _ s', Tls.m_conf (base (self s')) = Tls.m_conf (base (self s3)) ∧
      m_TLSConfig (self s') = m_TLSConfig (self s3)) _ _ _) with (2 := E). unfold inherited. wp_step.
    eapply wp_mono; [apply Connect_conf|]. intros r' t Ht. split; [exact Ht|done]. }
  apply destroyed_config; [done|congruence|congruence].
Qed.

(** * Concrete runs *)
Import FileDemo.

Definition support : CTLSSimpleSupport := mkSupport 7 1000.
Definition demo_start : objects (W := Script.t) := start [Some [0]; Some (cstr "hello")].
Definition demo_new_client : client (W := Script.t) :=
  match construct (Some support) 6 demo_start with
  | Ok (o, os) => mkClient o os
  | Fault _ => mkClient (mkSimple (Tls.mkTLSSocket 0 0 0 0 0 false) None 0 0 0 0 false) demo_start
  end.
Definition demo_additions : list addition := [AddFile (cstr "missing.pem"); AddFile (cstr "/certs/ca.pem")].
Definition demo_added : client (W := Script.t) := state_after (run_additions demo_additions) demo_new_client.
Definition demo_setup_client : client (W := Script.t) :=
  state_after (Setup (Some (cstr "server")) (Some (cstr "client"))) demo_added.
Definition demo_connected_client : client (W := Script.t) :=
  state_after (inherited (Tls.Connect 5 demo_ip 443)) demo_setup_client.

Definition value_is (r : res (Z * client (W := Script.t))) (z : Z) : bool :=
  match r with Ok (a, _) => a =? z | Fault _ => false end.
Lemma value_run m z (s : client (W := Script.t)) : value_is (m s) z = true → m s = Ok (z, state_after m s).
Proof. unfold state_after. destruct (m s) as [[a s']|]; [|done]. cbn. by intros ->%Z.eqb_eq. Qed.

Lemma demo_construct_run :
  construct (Some support) 6 demo_start = Ok (self demo_new_client, others demo_new_client).
Proof.
  assert (is_ok (construct (Some support) 6 demo_start) = true) as Hok by (vm_compute; reflexivity).
  unfold demo_new_client.
  by destruct (construct (Some support) 6 demo_start) as [[o os]|].
Qed.

Lemma demo_additions_run :
  run_additions demo_additions (mkClient (self demo_new_client) (others demo_new_client)) = Ok (true, demo_added).
Proof.
  assert (match run_additions demo_additions demo_new_client with Ok (b, _) => b | _ => false end = true) as Hb
    by (vm_compute; reflexivity).
  assert (mkClient (self demo_new_client) (others demo_new_client) = demo_new_client) as -> by by destruct demo_new_client.
  unfold demo_added, state_after. destruct (run_additions _ _) as [[[] s]|]; done.
Qed.

Lemma demo_setup_run :
  Setup (Some (cstr "server")) (Some (cstr "client")) demo_added = Ok (0, demo_setup_client).
Proof. unfold demo_setup_client. apply value_run. vm_compute. reflexivity. Qed.

Lemma demo_connect_run :
  inherited (Tls.Connect 5 demo_ip 443) demo_setup_client = Ok (0, demo_connected_client).
Proof.
  unfold demo_connected_client. apply value_run. vm_compute. reflexivity.
Qed.


Lemma simple_destroy_witness : destroy demo_connected_client = Fault BadAccess.
Proof.
  refine (simple_destroy support 6 demo_start (self demo_new_client) (others demo_new_client) demo_additions
    true demo_added (cstr "server") (cstr "client") demo_setup_client 5 demo_ip 443 0 demo_connected_client
    demo_construct_run demo_additions_run demo_setup_run _ _).
  - exact demo_connect_run.
  - vm_compute. reflexivity.
Defined.
