(* ===== verification/MbedModules.v ===== *)
(** The modules mbed TLS is configured with: the source of entropy of
    [entropymodule.cpp], the mutexes of [threadingmodule.cpp], and the class
    [CTLSSimpleSupport] that brings them up. *)
From stdpp Require Import base numbers list gmap option strings.
From S2P Require Import Prelude.
From S2P Require Import X509Profile.

(** The hardware random number generator and the class [CMutex] of Circle.
    [new] may fail. *)
Class MutexPlatform (W : Type) := {
  CMutex : Type;
  GetNumber : W → Z * W;
  new_CMutex : W → option CMutex * W;
  CMutex_delete : CMutex → W → () * W;
  CMutex_Acquire : CMutex → W → () * W;
  CMutex_Release : CMutex → W → () * W
}.
Class MutexPlatformOk (W : Type) `{MutexPlatform W} := {
  GetNumber_u32 w : is_u32 (GetNumber w).1
}.

Class ModuleCodes := {
  MBEDTLS_ERR_ENTROPY_SOURCE_FAILED : Z;
  MBEDTLS_ERR_THREADING_BAD_INPUT_DATA : Z
}.

Module Modules.
Section modules.
Context `{Target, ModuleCodes, MutexPlatform W}.

(** The state: the static members [s_pThis] and [m_nUseCount], whether mbed TLS
    has the functions of the threading module, the mutex structures of mbed TLS
    by address with the pointer each holds ([None] before its first use), the
    [CMutex] objects, the address of the next one, and the world. *)
Record modules := mkModules {
  s_pThis : Z;
  m_nUseCount : Z;
  alt_functions : bool;
  structures : gmap Z cell;
  mutexes : gmap Z CMutex;
  next_mutex : Z;
  rest : W
}.
Definition set_this (x : Z) (s : modules) : modules :=
  mkModules x (m_nUseCount s) (alt_functions s) (structures s) (mutexes s) (next_mutex s) (rest s).
Definition set_count (n : Z) (alt : bool) (s : modules) : modules :=
  mkModules (s_pThis s) n alt (structures s) (mutexes s) (next_mutex s) (rest s).
Definition set_structures (x : gmap Z cell) (s : modules) : modules :=
  mkModules (s_pThis s) (m_nUseCount s) (alt_functions s) x (mutexes s) (next_mutex s) (rest s).
Definition set_mutexes (x : gmap Z CMutex) (n : Z) (s : modules) : modules :=
  mkModules (s_pThis s) (m_nUseCount s) (alt_functions s) (structures s) x n (rest s).
Definition set_rest (x : W) (s : modules) : modules :=
  mkModules (s_pThis s) (m_nUseCount s) (alt_functions s) (structures s) (mutexes s) (next_mutex s) x.

Abbreviation MM := (M modules).

Definition on_world {A} (f : W → A * W) : MM A := env rest set_rest f.

(** ** [CEntropyModule] *)

(** The constructor, of the object at [this]. *)
Definition CEntropyModule (this : Z) : MM () := modify (set_this this).

(** [*(u32 * ) pOutput = n], on a little-endian machine. *)
Definition le32 (n : Z) : list Z := [n mod 256; n / 256 mod 256; n / 65536 mod 256; n / 16777216 mod 256].

(** The [for] loop, with the index of [pOutput] in the buffer. *)
Fixpoint poll_loop (fuel : nat) (nLength nResultLength pOutput : Z) (buf : list cell) :
    MM (Z * list cell) :=
  match fuel with
  | O => fail OutOfFuel
  | S fuel =>
      if nLength >=? 4 then
        s ← get;
        (if s_pThis s =? 0 then fail NullDeref else mret ());;
        n ← on_world GetNumber;
        buf ← lift_res (wr_bytes buf pOutput (le32 n));
        poll_loop fuel (nLength - 4) (nResultLength + 4) (pOutput + 4) buf
      else mret (nResultLength, buf)
  end.

(** The result, the buffer, and what is written to [*pResultLength]. *)
Definition EntropyPoll (pData nLength : Z) (buf : list cell) : MM (Z * list cell * option Z) :=
  assert_ (pData =? 0);;
  assert_ (nLength >=? 4);;
  if nLength <? 4 then mret (MBEDTLS_ERR_ENTROPY_SOURCE_FAILED, buf, None)
  else
    '(nResultLength, buf) ← poll_loop (S (Z.to_nat nLength)) nLength 0 0 buf;
    mret (0, buf, Some nResultLength).

Definition mbedtls_hardware_poll (pData nLength : Z) (buf : list cell) :
    MM (Z * list cell * option Z) := EntropyPoll pData nLength buf.

(** ** [CThreadingModule] *)

(** The count is an [int] that is incremented after it has been tested. *)
Definition CThreadingModule : MM () :=
  s ← get;
  put (set_count (s32 (m_nUseCount s + 1)) (if m_nUseCount s =? 0 then true else alt_functions s) s).
Definition CThreadingModule_destroy : MM () :=
  s ← get;
  assert_ (m_nUseCount s >? 0);;
  let n := m_nUseCount s - 1 in
  put (set_count n (if n =? 0 then false else alt_functions s) s).

(** [*ppMutex], and an assignment to it. *)
Definition structure_at (p : Z) : MM Z :=
  s ← get;
  match structures s !! p with
  | Some (Some v) => mret v
  | Some None => fail Uninit
  | None => fail BadAccess
  end.
Definition set_structure (p v : Z) : MM () :=
  s ← get;
  match structures s !! p with
  | Some _ => put (set_structures (<[p := Some v]> (structures s)) s)
  | None => fail BadAccess
  end.
Definition mutex_at (v : Z) : MM CMutex :=
  s ← get; match mutexes s !! v with Some m => mret m | None => fail BadAccess end.

Definition new_mutex : MM Z :=
  o ← on_world new_CMutex;
  match o with
  | None => mret 0
  | Some m =>
      s ← get;
      put (set_mutexes (<[next_mutex s := m]> (mutexes s)) (next_mutex s + 1) s);;
      mret (next_mutex s)
  end.

Definition mutex_init (mutex : Z) : MM () :=
  assert_ (negb (mutex =? 0));;
  v ← new_mutex;
  set_structure mutex v;;
  assert_ (negb (v =? 0)).

Definition mutex_free (mutex : Z) : MM () :=
  assert_ (negb (mutex =? 0));;
  v ← structure_at mutex;
  assert_ (negb (v =? 0));;
  m ← mutex_at v;
  on_world (CMutex_delete m);;
  modify (λ s, set_mutexes (delete v (mutexes s)) (next_mutex s) s);;
  set_structure mutex 0.

Definition with_mutex (mutex : Z) (f : CMutex → W → () * W) : MM Z :=
  if mutex =? 0 then mret MBEDTLS_ERR_THREADING_BAD_INPUT_DATA
  else
    v ← structure_at mutex;
    if v =? 0 then mret MBEDTLS_ERR_THREADING_BAD_INPUT_DATA
    else m ← mutex_at v; on_world (f m);; mret 0.
Definition mutex_lock (mutex : Z) : MM Z := with_mutex mutex CMutex_Acquire.
Definition mutex_unlock (mutex : Z) : MM Z := with_mutex mutex CMutex_Release.

(** ** [CTLSSimpleSupport] *)

(** The members of the environment; the two modules have no state of their
    own. *)
Record CTLSSimpleSupport := mkTLSSimpleSupport {
  m_pNetSubSystem : Z;
  m_CertProfile : X509Profile.profile
}.
(** The members are constructed in the order of their declaration and
    destroyed in the reverse order. *)
Definition CTLSSimpleSupport_construct (this pNetSubSystem : Z) (default : X509Profile.profile) :
    MM CTLSSimpleSupport :=
  CThreadingModule;;
  CEntropyModule this;;
  mret (mkTLSSimpleSupport pNetSubSystem (X509Profile.construct default)).
Definition CTLSSimpleSupport_destroy : MM () := CThreadingModule_destroy.
Definition GetNet (o : CTLSSimpleSupport) : Z := m_pNetSubSystem o.
Definition GetCertProfile (o : CTLSSimpleSupport) : X509Profile.profile := m_CertProfile o.
End modules.
End Modules.
