(* ===== verification/MbedModulesProps.v ===== *)
(** Properties of the modules of mbed TLS. *)
From stdpp Require Import base numbers list gmap option strings.
From S2P Require Import Prelude.
From S2P Require Import Libc.
From S2P Require Import MbedModules.
Import Modules.

(** * Entropy *)

Section entropy.
Context `{Target, ModuleCodes, MutexPlatform W, !MutexPlatformOk W}.

(** The next [n] numbers of the generator. *)
Fixpoint numbers (n : nat) (w : W) : list Z * W :=
  match n with
  | O => ([], w)
  | S n => let '(x, w) := GetNumber w in let '(xs, w) := numbers n w in (x :: xs, w)
  end.

(** The array after [memcpy] to its start. *)
Lemma wr_bytes_start buf bs :
  (length bs ≤ length buf)%nat → wr_bytes buf 0 bs = Ok ((Some <$> bs) ++ drop (length bs) buf).
Proof using Type.
  intros Hl. destruct (wr_bytes_Ok buf 0 bs) as (buf' & -> & Hl' & [_ Hh] & Hf); [lia|lia|]. f_equal.
  apply list_eq. intros i. destruct (decide (i < length bs)%nat) as [Hi|Hi].
  - rewrite lookup_app_l by by rewrite length_fmap. rewrite list_lookup_fmap.
    destruct (lookup_lt_is_Some_2 bs i Hi) as [b Hb]. rewrite Hb. exact (Hh i b Hb).
  - rewrite lookup_app_r by (rewrite length_fmap; lia). rewrite length_fmap, lookup_drop, Hf by lia.
    f_equal. lia.
Qed.

Lemma length_le32 x : length (le32 x) = 4%nat.
Proof using Type. done. Qed.

Lemma numbers_length n w : length (numbers n w).1 = n.
Proof using Type.
  revert w. induction n as [|n IH]; intros w; [done|]. cbn. destruct (GetNumber w) as [x w1].
  specialize (IH w1). destruct (numbers n w1) as [xs w2]. cbn in *. by rewrite IH.
Qed.

Lemma le32_length l : length (flat_map le32 l) = (4 * length l)%nat.
Proof using Type.
  induction l as [|x l IH]; [done|]. cbn [flat_map]. rewrite length_app, IH, length_le32. cbn. lia.
Qed.

Lemma poll_loop_run fuel m (rem pos : Z) buf s :
  s_pThis s ≠ 0 → (m < fuel)%nat → 0 ≤ pos → 4 * Z.of_nat m ≤ rem < 4 * Z.of_nat m + 4 →
  pos + rem ≤ Z.of_nat (length buf) →
  let '(xs, w) := numbers m (rest s) in
  ∃ buf', poll_loop fuel rem pos pos buf s = Ok ((pos + 4 * Z.of_nat m, buf'), set_rest w s) ∧
    wr_bytes buf pos (flat_map le32 xs) = Ok buf'.
Proof using Type.
  revert fuel rem pos buf s. induction m as [|m IH]; intros fuel rem pos buf s Hp Hf Hpos Hr Hl.
  - destruct fuel as [|fuel]; [lia|]. cbn [numbers poll_loop]. rewrite Z.geb_leb.
    rewrite (proj2 (Z.leb_gt _ _)) by lia. exists buf. split; [|done].
    rewrite Z.mul_0_r, Z.add_0_r. by destruct s.
  - destruct fuel as [|fuel]; [lia|]. cbn [numbers poll_loop]. rewrite Z.geb_leb.
    rewrite (proj2 (Z.leb_le _ _)) by lia. destruct (GetNumber (rest s)) as [x w1] eqn:Ex.
    destruct (wr_bytes_Ok buf pos (le32 x)) as (buf1 & Ew & Hl1 & _); [done|rewrite length_le32; lia|].
    specialize (IH fuel (rem - 4) (pos + 4) buf1 (set_rest w1 s)). cbn [rest set_rest] in IH.
    destruct (numbers m w1) as [xs w2] eqn:Exs.
    destruct IH as (buf2 & E2 & Ew2); [done|lia|lia|lia|lia|].
    exists buf2. split.
    + rewrite bind_unfold. cbn [get]. rewrite (proj2 (Z.eqb_neq _ 0)) by done.
      rewrite bind_unfold. cbn [mret M_ret]. unfold on_world, env. rewrite bind_unfold, Ex, bind_unfold.
      unfold lift_res. rewrite Ew, E2. destruct s. cbn.
      by replace (pos + 4 + 4 * Z.of_nat m) with (pos + 4 * Z.of_nat (S m)) by lia.
    + cbn [flat_map]. rewrite wr_bytes_app, Ew, length_le32. exact Ew2.
Qed.
End entropy.

(** For at least four bytes [EntropyPoll] ends without a fault and fills the
    longest part of the buffer it can with whole numbers of the generator, each
    drawn once, in order and in little-endian form; the rest of the buffer stays
    as it is and is not counted in the result.  A shorter request never gets the
    error code the code has for it: the assertion before it fails. *)
Theorem entropy_poll `{Target, ModuleCodes, MutexPlatform W, !MutexPlatformOk W} nLength buf s :
  s_pThis s ≠ 0 → 0 ≤ nLength ≤ Z.of_nat (length buf) →
  (4 ≤ nLength →
     let n := nLength / 4 in
     let '(xs, w) := numbers (Z.to_nat n) (rest s) in
     EntropyPoll 0 nLength buf s =
       Ok ((0, (Some <$> flat_map le32 xs) ++ drop (Z.to_nat (4 * n)) buf, Some (4 * n)), set_rest w s) ∧
     Forall (λ x, is_byte x) (flat_map le32 xs)) ∧
  (nLength < 4 → EntropyPoll 0 nLength buf s = Fault AssertFailed).
Proof.
  intros Hp Hl. split.
  - intros H4. cbv zeta. set (n := Z.to_nat (nLength / 4)).
    assert (4 * Z.of_nat n ≤ nLength < 4 * Z.of_nat n + 4) as Hn by (unfold n; zdiv).
    pose proof (poll_loop_run (S (Z.to_nat nLength)) n nLength 0 buf s Hp ltac:(lia) ltac:(lia) Hn ltac:(lia))
      as Hrun. pose proof (numbers_length n (rest s)) as Hlen.
    destruct (numbers n (rest s)) as [xs w]. cbn in Hlen. destruct Hrun as (buf' & E & Ew).
    rewrite wr_bytes_start in Ew by (rewrite le32_length; lia). injection Ew as <-. split.
    + unfold EntropyPoll. rewrite bind_unfold. cbn [assert_ Z.eqb]. unfold assert_. cbn [Z.eqb].
      rewrite bind_unfold, Z.geb_leb, (proj2 (Z.leb_le _ _)), (proj2 (Z.ltb_ge _ _)) by lia.
      rewrite (bind_run _ _ _ _ _ E). rewrite le32_length.
      replace (Z.to_nat (4 * (nLength / 4))) with (4 * length xs)%nat by (unfold n in *; lia).
      rewrite Z.add_0_l. by replace (4 * (nLength / 4)) with (4 * Z.of_nat n) by (unfold n; zdiv).
    + apply Forall_flat_map, Forall_true. intros x. repeat constructor; unfold is_u8; zdiv.
  - intros H4. unfold EntropyPoll. rewrite bind_unfold. cbn [assert_ Z.eqb]. unfold assert_. cbn [Z.eqb].
    by rewrite bind_unfold, Z.geb_leb, (proj2 (Z.leb_gt _ _)) by lia.
Qed.

(** * Mutexes *)

(** What mbed TLS may do with a mutex structure: it is raw before its first use,
    ready after its initialisation, and freed after [mutex_free]. *)
Inductive mutex_status := Raw | Ready | Freed.
#[export] Instance mutex_status_eq_dec : EqDecision mutex_status.
Proof. solve_decision. Defined.

Inductive mutex_op :=
  | MutexInit (p : Z)
  | MutexFree (p : Z)
  | MutexLock (p : Z)
  | MutexUnlock (p : Z).

Section mutex.
Context `{Target, ModuleCodes, MutexPlatform W}.

Definition run_mutex_op (o : mutex_op) : M (modules (W := W)) (option Z) :=
  match o with
  | MutexInit p => mutex_init p;; mret None
  | MutexFree p => mutex_free p;; mret None
  | MutexLock p => r ← mutex_lock p; mret (Some r)
  | MutexUnlock p => r ← mutex_unlock p; mret (Some r)
  end.

(** The specification: the operations on the statuses of the structures, and
    the results of locking and unlocking.  [None] is a use that is not
    allowed. *)
Definition use_result (st : gmap Z mutex_status) (p : Z) : option Z :=
  if p =? 0 then Some MBEDTLS_ERR_THREADING_BAD_INPUT_DATA
  else match st !! p with
       | Some Ready => Some 0
       | Some Freed => Some MBEDTLS_ERR_THREADING_BAD_INPUT_DATA
       | _ => None
       end.
Definition spec_mutex_op (o : mutex_op) (st : gmap Z mutex_status) :
    option (option Z * gmap Z mutex_status) :=
  match o with
  | MutexInit p =>
      match st !! p with Some Raw | Some Freed => Some (None, <[p := Ready]> st) | _ => None end
  | MutexFree p => match st !! p with Some Ready => Some (None, <[p := Freed]> st) | _ => None end
  | MutexLock p | MutexUnlock p => r ← use_result st p; Some (Some r, st)
  end.

Fixpoint run_mutex_ops (l : list mutex_op) : M (modules (W := W)) (list (option Z)) :=
  match l with
  | [] => mret []
  | o :: l => r ← run_mutex_op o; rs ← run_mutex_ops l; mret (r :: rs)
  end.
Fixpoint spec_mutex_ops (l : list mutex_op) (st : gmap Z mutex_status) :
    option (list (option Z) * gmap Z mutex_status) :=
  match l with
  | [] => Some ([], st)
  | o :: l =>
      '(r, st) ← spec_mutex_op o st;
      '(rs, st) ← spec_mutex_ops l st;
      Some (r :: rs, st)
  end.

(** The structures and the [CMutex] objects implement the statuses [st]: each
    ready structure has an object of its own, and there is no other object. *)
Record represents (st : gmap Z mutex_status) (s : modules (W := W)) : Prop := {
  rep_null : st !! 0 = None;
  rep_raw p : st !! p = Some Raw → structures s !! p = Some None;
  rep_freed p : st !! p = Some Freed → structures s !! p = Some (Some 0);
  rep_ready p : st !! p = Some Ready →
    ∃ v, structures s !! p = Some (Some v) ∧ v ≠ 0 ∧ is_Some (mutexes s !! v);
  rep_own p q v : st !! p = Some Ready → st !! q = Some Ready →
    structures s !! p = Some (Some v) → structures s !! q = Some (Some v) → p = q;
  rep_used v : is_Some (mutexes s !! v) →
    0 < v < next_mutex s ∧ ∃ p, st !! p = Some Ready ∧ structures s !! p = Some (Some v);
  rep_next : 0 < next_mutex s
}.

(** The fault of a failing allocation. *)
Definition out_of_memory (e : fault) : Prop := e = AssertFailed ∧ ∃ w, (new_CMutex w).1 = None.

Lemma represents_rest st s w : represents st s → represents st (set_rest w s).
Proof using Type. intros [? ? ? ? ? ? ?]. by split. Qed.

Lemma structure_at_run s p v : structures s !! p = Some (Some v) → structure_at p s = Ok (v, s).
Proof using Type. intros Hv. unfold structure_at. rewrite bind_unfold. cbn [get]. by rewrite Hv. Qed.

Lemma set_structure_run s p v :
  is_Some (structures s !! p) →
  set_structure p v s = Ok ((), set_structures (<[p := Some v]> (structures s)) s).
Proof using Type. intros [c Hc]. unfold set_structure. rewrite bind_unfold. cbn [get]. by rewrite Hc. Qed.

Lemma mutex_at_run s v m : mutexes s !! v = Some m → mutex_at v s = Ok (m, s).
Proof using Type. intros Hv. unfold mutex_at. rewrite bind_unfold. cbn [get]. by rewrite Hv. Qed.

(** The state after the initialisation of the structure [p]. *)
Definition with_new (p : Z) (m : CMutex) (s : modules (W := W)) : modules :=
  set_structures (<[p := Some (next_mutex s)]> (structures s))
    (set_mutexes (<[next_mutex s := m]> (mutexes s)) (next_mutex s + 1) s).

Lemma represents_new st s p m :
  represents st s → st !! p = Some Raw ∨ st !! p = Some Freed →
  represents (<[p := Ready]> st) (with_new p m s).
Proof using Type.
  intros [Hz Hraw Hfr Hrd Hown Hus Hnx] Hp.
  assert (p ≠ 0) as Hp0 by (intros ->; rewrite Hz in Hp; by destruct Hp).
  assert (∀ v, is_Some (mutexes s !! v) → v ≠ next_mutex s) as Hne.
  { intros v [? _]%Hus ->. lia. }
  assert (∀ q v, q ≠ p → st !! q = Some Ready → structures s !! q = Some (Some v) → v ≠ next_mutex s) as Hold.
  { intros q v _ Hq Hv. destruct (Hrd q Hq) as (v' & Hv' & _ & Hm). rewrite Hv in Hv'. simplify_eq. auto. }
  split; cbn.
  - by rewrite lookup_insert_ne.
  - intros q. destruct (decide (q = p)) as [->|Hq]; [by rewrite lookup_insert_eq|].
    rewrite !lookup_insert_ne by done. apply Hraw.
  - intros q. destruct (decide (q = p)) as [->|Hq]; [by rewrite lookup_insert_eq|].
    rewrite !lookup_insert_ne by done. apply Hfr.
  - intros q. destruct (decide (q = p)) as [->|Hq].
    + intros _. exists (next_mutex s). rewrite !lookup_insert_eq. split_and!; [done|lia|by eexists].
    + rewrite !lookup_insert_ne by done. intros (v & Hv & Hv0 & Hm)%Hrd. exists v.
      rewrite lookup_insert_ne by (apply not_eq_sym, Hne, Hm). done.
  - intros q1 q2 v. destruct (decide (q1 = p)) as [->|Hq1p], (decide (q2 = p)) as [->|Hq2p];
      rewrite ?lookup_insert_eq, ?lookup_insert_ne by done; intros Hq1 Hq2 E1 E2; simplify_eq; try done.
    + by destruct (Hold q2 (next_mutex s)).
    + by destruct (Hold q1 (next_mutex s)).
    + by eapply Hown.
  - intros v. destruct (decide (v = next_mutex s)) as [->|Hv].
    + intros _. split; [lia|]. exists p. by rewrite !lookup_insert_eq.
    + rewrite lookup_insert_ne by done. intros (Hlt & q & Hq & Eq)%Hus. split; [lia|]. exists q.
      assert (q ≠ p) by (intros ->; rewrite Hq in Hp; by destruct Hp).
      by rewrite !lookup_insert_ne.
  - lia.
Qed.

Lemma represents_freed st s p v :
  represents st s → st !! p = Some Ready → structures s !! p = Some (Some v) →
  represents (<[p := Freed]> st)
    (set_structures (<[p := Some 0]> (structures s)) (set_mutexes (delete v (mutexes s)) (next_mutex s) s)).
Proof using Type.
  intros [Hz Hraw Hfr Hrd Hown Hus Hnx] Hp Hv.
  assert (p ≠ 0) as Hp0 by (intros ->; by rewrite Hz in Hp).
  split; cbn; try done.
  - by rewrite lookup_insert_ne.
  - intros q. destruct (decide (q = p)) as [->|Hq]; [by rewrite lookup_insert_eq|].
    rewrite !lookup_insert_ne by done. apply Hraw.
  - intros q. destruct (decide (q = p)) as [->|Hq]; [by rewrite !lookup_insert_eq|].
    rewrite !lookup_insert_ne by done. apply Hfr.
  - intros q. destruct (decide (q = p)) as [->|Hq]; [by rewrite lookup_insert_eq|].
    rewrite !lookup_insert_ne by done. intros Hq'. destruct (Hrd q Hq') as (v' & Hv' & Hv0 & Hm).
    exists v'. split_and!; [done|done|]. rewrite lookup_delete_ne; [done|].
    intros ->. by apply Hq, (Hown q p v').
  - intros q1 q2 u. destruct (decide (q1 = p)) as [->|Hq1p], (decide (q2 = p)) as [->|Hq2p];
      rewrite ?lookup_insert_eq, ?lookup_insert_ne by done; try done. apply Hown.
  - intros u [m [Hne Hm]%lookup_delete_Some]. destruct (Hus u) as (Hlt & q & Hq & Eq); [by exists m|].
    split; [done|]. exists q. assert (q ≠ p) by (intros ->; rewrite Hv in Eq; by simplify_eq).
    by rewrite !lookup_insert_ne.
Qed.

Lemma mutex_init_ok st s p :
  represents st s → st !! p = Some Raw ∨ st !! p = Some Freed →
  wp out_of_memory (mutex_init p) (λ _ s', represents (<[p := Ready]> st) s') s.
Proof using Type.
  intros Hr Hp. unfold mutex_init, new_mutex. wp_step.
  apply wp_assert_true; [rewrite (proj2 (Z.eqb_neq p 0)); [done|]; intros ->;
    rewrite (rep_null _ _ Hr) in Hp; by destruct Hp|].
  assert (is_Some (structures s !! p)) as Hs.
  { destruct Hp as [Hp|Hp]; [apply (rep_raw _ _ Hr) in Hp|apply (rep_freed _ _ Hr) in Hp]; by eexists. }
  wp_step. wp_step. apply wp_env. intros [m|] w E.
  - wp_steps. unfold wp at 1. rewrite set_structure_run by done.
    pose proof (rep_next _ _ Hr). apply wp_assert_true; [cbn; by rewrite (proj2 (Z.eqb_neq _ 0)) by lia|].
    by apply (represents_new st (set_rest w s)); [apply represents_rest|].
  - wp_steps. unfold wp at 1. rewrite set_structure_run by done.
    apply wp_assert; [done|]. intros _. split; [done|]. exists (rest s). by rewrite E.
Qed.

Lemma mutex_free_ok st s p :
  represents st s → st !! p = Some Ready →
  wp out_of_memory (mutex_free p) (λ _ s', represents (<[p := Freed]> st) s') s.
Proof using Type.
  intros Hr Hp. destruct (rep_ready _ _ Hr _ Hp) as (v & Hv & Hv0 & [m Hm]). unfold mutex_free. wp_step.
  apply wp_assert_true; [rewrite (proj2 (Z.eqb_neq p 0)); [done|]; intros ->; by rewrite (rep_null _ _ Hr) in Hp|].
  eapply wp_run; [by apply structure_at_run|]. wp_step.
  apply wp_assert_true; [by rewrite (proj2 (Z.eqb_neq v 0))|].
  eapply wp_run; [by apply mutex_at_run|]. wp_step. apply wp_env. intros _ w _. do 2 wp_step.
  unfold wp. rewrite set_structure_run by (cbn; by eexists).
  by apply (represents_freed st (set_rest w s)); [apply represents_rest|..].
Qed.

Lemma with_mutex_ok st s p f r :
  represents st s → use_result st p = Some r →
  wp out_of_memory (with_mutex p f) (λ r' s', r' = r ∧ represents st s') s.
Proof using Type.
  intros Hr Hu. unfold use_result in Hu. unfold with_mutex. destruct (p =? 0); [wp_step; by simplify_eq|].
  destruct (st !! p) as [[]|] eqn:Hp; simplify_eq.
  - destruct (rep_ready _ _ Hr _ Hp) as (v & Hv & Hv0 & [m Hm]).
    eapply wp_run; [by apply structure_at_run|]. rewrite (proj2 (Z.eqb_neq v 0)) by done.
    eapply wp_run; [by apply mutex_at_run|]. wp_step. apply wp_env. intros _ w _. wp_step.
    split; [done|by apply represents_rest].
  - pose proof (rep_freed _ _ Hr _ Hp) as Hv. eapply wp_run; [by apply structure_at_run|].
    cbn [Z.eqb]. by wp_step.
Qed.

Lemma run_mutex_op_ok o st s r st' :
  represents st s → spec_mutex_op o st = Some (r, st') →
  wp out_of_memory (run_mutex_op o) (λ r' s', r' = r ∧ represents st' s') s.
Proof using Type.
  intros Hr Ho. destruct o as [p|p|p|p]; cbn [run_mutex_op spec_mutex_op] in *.
  - wp_step. destruct (st !! p) as [[]|] eqn:Hp; simplify_eq;
      (eapply wp_mono; [by apply (mutex_init_ok st); auto|]; intros ? s' Hs'; by wp_step).
  - wp_step. destruct (st !! p) as [[]|] eqn:Hp; simplify_eq.
    eapply wp_mono; [by apply (mutex_free_ok st)|]. intros ? s' Hs'. by wp_step.
  - destruct (use_result st p) as [x|] eqn:Hx; simplify_eq/=. wp_step.
    eapply wp_mono; [by apply (with_mutex_ok st')|]. intros r' s' [-> Hs']. by wp_step.
  - destruct (use_result st p) as [x|] eqn:Hx; simplify_eq/=. wp_step.
    eapply wp_mono; [by apply (with_mutex_ok st')|]. intros r' s' [-> Hs']. by wp_step.
Qed.
End mutex.

(** C20: the functions of the threading module implement the mutexes mbed TLS
    specifies: for every sequence of uses the specification allows, they return
    its results, a structure is usable exactly between its initialisation and
    its release, every ready structure has a [CMutex] of its own, and no other
    [CMutex] is left.  The one fault is the assertion that memory for a new
    mutex was there. *)
Theorem mutex_refinement `{Target, ModuleCodes, MutexPlatform W} ops st s rs st' :
  represents st s → spec_mutex_ops ops st = Some (rs, st') →
  match run_mutex_ops ops s with
  | Ok (rs', s') => rs' = rs ∧ represents st' s'
  | Fault e => out_of_memory (W := W) e
  end.
Proof.
  enough (represents st s → spec_mutex_ops ops st = Some (rs, st') →
    wp out_of_memory (run_mutex_ops ops) (λ rs' s', rs' = rs ∧ represents st' s') s) as Hw by exact Hw.
  revert st s rs. induction ops as [|o ops IH]; intros st s rs Hr Ho; cbn [run_mutex_ops spec_mutex_ops] in *.
  { simplify_eq. by wp_step. }
  destruct (spec_mutex_op o st) as [[r st1]|] eqn:E1; [|done].
  cbn [mbind option_bind] in Ho. destruct (spec_mutex_ops ops st1) as [[rs1 st2]|] eqn:E2; simplify_eq/=.
  wp_step. eapply wp_mono; [by apply (run_mutex_op_ok o st)|]. intros r' s1 [-> Hs1]. wp_step.
  eapply wp_mono; [by apply (IH st1)|]. intros rs' s2 [-> Hs2]. by wp_step.
Qed.

(** * A platform for concrete runs: a generator that counts, and mutexes with
    a log of their uses. *)
Module ModulesDemo.
#[export] Instance target : Target := aarch64.
#[export] Instance module_codes : ModuleCodes := {|
  MBEDTLS_ERR_ENTROPY_SOURCE_FAILED := -0x3C;
  MBEDTLS_ERR_THREADING_BAD_INPUT_DATA := -0x1C
|}.
#[export] Instance mutex_platform : MutexPlatform (list Z) := {|
  CMutex := ();
  GetNumber w := (u32 (0x01020304 + Z.of_nat (length w)), 0 :: w);
  new_CMutex w := (Some (), 1 :: w);
  CMutex_delete _ w := ((), 2 :: w);
  CMutex_Acquire _ w := ((), 3 :: w);
  CMutex_Release _ w := ((), 4 :: w)
|}.
#[export] Instance mutex_platform_ok : MutexPlatformOk (list Z).
Proof. split. intros w. apply u32_range. Qed.

(** Two raw structures at the addresses 8 and 16. *)
Definition two_structures : modules (W := list Z) :=
  mkModules 100 1 true {[8 := None; 16 := None]} ∅ 1 [].
Definition raw : gmap Z mutex_status := {[8 := Raw; 16 := Raw]}.

Lemma two_structures_ok : represents raw two_structures.
Proof.
  assert (∀ p x, raw !! p = Some x → x = Raw ∧ structures two_structures !! p = Some None) as Hr.
  { intros p x Hx. unfold raw in Hx.
    apply lookup_insert_Some in Hx as [[<- <-]|[_ Hx]]; [by split|].
    by apply lookup_singleton_Some in Hx as [<- <-]. }
  split; try done.
  - intros p Hp. by apply (Hr p Raw).
  - intros p Hp. by destruct (Hr p _ Hp).
  - intros p Hp. by destruct (Hr p _ Hp).
  - intros p q v Hp. by destruct (Hr p _ Hp).
  - intros v [m Hm]. cbn in Hm. by rewrite lookup_empty in Hm.
Qed.
End ModulesDemo.
Import ModulesDemo.

Lemma entropy_poll_witness :
  let '(xs, w) := numbers 2 [] in
  EntropyPoll 0 10 (replicate 10 (Some 0)) two_structures =
    Ok ((0, (Some <$> flat_map le32 xs) ++ [Some 0; Some 0], Some 8), set_rest w two_structures) ∧
  Forall (λ x, is_byte x) (flat_map le32 xs).
Proof. by apply (entropy_poll 10 (replicate 10 (Some 0)) two_structures). Defined.

Definition mutex_ops : list mutex_op :=
  [MutexInit 8; MutexLock 8; MutexInit 16; MutexUnlock 8; MutexFree 8; MutexLock 8; MutexLock 0; MutexInit 8].
Definition mutex_results : list (option Z) :=
  [None; Some 0; None; Some 0; None; Some (-0x1C); Some (-0x1C); None].

Lemma mutex_refinement_witness :
  match run_mutex_ops mutex_ops two_structures with
  | Ok (rs', s') => rs' = mutex_results ∧ represents {[8 := Ready; 16 := Ready]} s'
  | Fault e => out_of_memory (W := list Z) e
  end ∧
  match run_mutex_ops mutex_ops two_structures with Ok _ => true | Fault _ => false end = true.
Proof.
  split; [|by vm_compute].
  apply (mutex_refinement mutex_ops raw two_structures); [exact two_structures_ok|by vm_compute].
Defined.
