(* ===== verification/MqttSample.v ===== *)
(** The MQTT client sample, [samples/mbedtls/07-mqttclient]: the classes
    [CMQTTPublisher] and [CMQTTSubscriber], which are derived from
    [CMQTTClient].

    The members of a derived class are a part of the world of its base class,
    which cannot reach them, and its functions are the virtual functions of the
    base class. *)
From stdpp Require Import base numbers list gmap option strings.
From S2P Require Import Prelude.
From S2P Require Import Circle.
From S2P Require Import MqttSendPacket.
From S2P Require Import MqttReceivePacket.
From S2P Require Import MqttClient.
Import Mqtt Client.
Import (hints) SendPacket ReceivePacket.

(** * A world with the members of a derived class *)

Definition lift_op {D W A} (f : W → A * W) (u : D * W) : A * (D * W) :=
  let '(a, w) := f u.2 in (a, (u.1, w)).

#[export] Instance derived_platform {D W} `{Platform W} : Platform (D * W) := {|
  Sock := Sock;
  IPAddr := IPAddr;
  FRAME_BUFFER_SIZE := FRAME_BUFFER_SIZE;
  HZ := HZ;
  MSG_DONTWAIT := MSG_DONTWAIT;
  operator_new_array n := lift_op (operator_new_array n);
  CLogger_Write sev f args := lift_op (CLogger_Write sev f args);
  CString_Format := CString_Format;
  CTimer_GetTicks := lift_op CTimer_GetTicks;
  CScheduler_MsSleep n := lift_op (CScheduler_MsSleep n);
  CDNSClient_Resolve h := lift_op (CDNSClient_Resolve h);
  CIPAddress_Format := CIPAddress_Format;
  PropertyTag_Serial := lift_op PropertyTag_Serial;
  new_CSocket := lift_op new_CSocket;
  new_CTLSSimpleClientSocket := lift_op new_CTLSSimpleClientSocket;
  TLS_AddCertificatePath s p := lift_op (TLS_AddCertificatePath s p);
  TLS_Setup s h := lift_op (TLS_Setup s h);
  CNetSocket_Connect s ip p := lift_op (CNetSocket_Connect s ip p);
  CNetSocket_Send s bs fl := lift_op (CNetSocket_Send s bs fl);
  CNetSocket_Receive s n fl := lift_op (CNetSocket_Receive s n fl);
  CNetSocket_delete s := lift_op (CNetSocket_delete s)
|}.

Lemma lift_op_inv {D W A} (f : W → A * W) (u u' : D * W) a :
  lift_op f u = (a, u') → u'.1 = u.1 ∧ f u.2 = (a, u'.2).
Proof. unfold lift_op. destruct (f u.2) as [b w]. by intros [= <- <-]. Qed.

#[export] Instance derived_platform_ok {D W} `{Platform W, !PlatformOk W} : PlatformOk (D * W).
Proof.
  split.
  - exact (FRAME_BUFFER_SIZE_pos (W := W)).
  - exact (HZ_pos (W := W)).
  - intros w. cbn. unfold lift_op. pose proof (CTimer_GetTicks_u32 (W := W) w.2).
    by destruct (CTimer_GetTicks w.2).
  - intros s n fl w r bs w' [_ E]%lift_op_inv. exact (CNetSocket_Receive_len (W := W) _ _ _ _ _ _ _ E).
  - intros s n fl w r bs w' [_ E]%lift_op_inv. exact (CNetSocket_Receive_bytes (W := W) _ _ _ _ _ _ _ E).
  - exact (CString_Format_serial (W := W)).
Qed.

(** What the sample uses besides: the uptime in seconds, the temperature of the
    CPU in thousandths of a degree, if the firmware tells it, and the text of
    [CString::Format] for a temperature. *)
Class SamplePlatform (W : Type) := {
  CTimer_GetUptime : W → Z * W;
  PropertyTag_Temperature : W → option Z * W;
  CString_Format_temp : Z → list Z
}.

Class SamplePlatformOk (W : Type) `{SamplePlatform W} := {
  CTimer_GetUptime_u32 w : is_u32 (CTimer_GetUptime w).1;
  CString_Format_temp_bytes t :
    Forall is_byte (CString_Format_temp t) ∧ Z.of_nat (length (CString_Format_temp t)) < 2^16
}.

(** [mqttconfig.h]. *)
Definition MQTT_BROKER_HOSTNAME : list Z := cstr "test.mosquitto.org".
Definition MQTT_TLS_PORT : Z := 8883.
Definition PUB_CLIENT_ID : list Z := cstr "circle:pub:001".
Definition PUB_TOPIC : list Z := cstr "circle/status/json".
Definition SUB_CLIENT_ID : list Z := cstr "circle:sub:001".
Definition SUB_TOPIC : list Z := cstr "circle/status/json".
Definition MAX_PACKET_SIZE : Z := 1024.
Definition MAX_PACKETS_QUEUED : Z := 4.
Definition MAX_TOPIC_SIZE : Z := 256.

(** A string in double quotes. *)
Definition quoted (s : string) : string :=
  String (Ascii.ascii_of_nat 34) (s +:+ String (Ascii.ascii_of_nat 34) EmptyString).

Section derived.
Context `{Target, Platform W, PtrList, SamplePlatform W}.

(** [Connect (TRUE, ...)] with the default arguments of the samples. *)
Definition connect_default (CB : Callbacks (W := W)) (pClientIdentifier : list Z) :
    M CMQTTClient () :=
  Client.Connect CB true MQTT_BROKER_HOSTNAME MQTT_TLS_PORT (Some pClientIdentifier) None None
    60 true None 0 false [].

(** The base class and the members of the derived one are constructed, and the
    body of the constructor connects. *)
Definition construct_derived (bTopic bReceive : bool) (junk : CMQTTClient (W := W)) (u : W)
    (connect : M CMQTTClient ()) : res (() * CMQTTClient (W := W)) :=
  match Client.construct bTopic bReceive MAX_PACKET_SIZE MAX_PACKETS_QUEUED MAX_TOPIC_SIZE
          junk u with
  | Ok c => connect c
  | Fault e => Fault e
  end.
End derived.

(** * [mqttpublisher.cpp] *)
Module Publisher.
Section publisher.
Context `{Target, Platform W, PtrList, SamplePlatform W}.

(** The members of the class; the two times are not initialised by the
    constructor. *)
Record members := mkMembers {
  m_bTimerRunning : bool;
  m_nConnectTime : Z;
  m_nLastPublishTime : Z
}.

Abbreviation client := (CMQTTClient (W := members * W)).
Abbreviation P := (M client).

Definition members_of (c : client) : members := (world c).1.
Definition set_members (f : members → members) : P () :=
  modify (λ c, set_world (f (world c).1, (world c).2) c).
Definition set_m_bTimerRunning (x : bool) (m : members) : members :=
  mkMembers x (m_nConnectTime m) (m_nLastPublishTime m).
Definition set_m_nConnectTime (x : Z) (m : members) : members :=
  mkMembers (m_bTimerRunning m) x (m_nLastPublishTime m).
Definition set_m_nLastPublishTime (x : Z) (m : members) : members :=
  mkMembers (m_bTimerRunning m) (m_nConnectTime m) x.

Definition GetUptime : P Z := world_op (lift_op CTimer_GetUptime).

Definition OnConnect (bSessionPresent : bool) : P () :=
  log LogDebug "OnConnect (present %u)" [ArgZ (Z.b2z bSessionPresent)];;
  t ← GetUptime;
  set_members (set_m_nConnectTime t);;
  set_members (λ m, set_m_nLastPublishTime (m_nConnectTime m) m);;
  set_members (set_m_bTimerRunning true).

Definition OnDisconnect (Reason : TMQTTDisconnectReason) : P () :=
  set_members (set_m_bTimerRunning false);;
  log LogDebug "OnDisconnect (reason %u)" [ArgZ (Z.of_nat (reason_code Reason))].

(** The virtual functions as far as the functions [OnLoop] calls use them:
    these call [OnDisconnect] only. *)
Definition disconnecting : Callbacks (W := members * W) :=
  mkCallbacks (λ _, mret ()) OnDisconnect (λ _ _ _, mret ()) (mret ()).

(** In thousandths of a degree. *)
Definition GetTemperature : P Z :=
  o ← world_op (lift_op PropertyTag_Temperature);
  mret (default 0 o).

Definition OnLoop : P () :=
  c ← get;
  if negb (IsConnected c) || negb (m_bTimerRunning (members_of c)) then mret ()
  else
    t ← GetUptime;
    let nRunTime := u32 (t - m_nConnectTime (members_of c)) in
    if nRunTime >=? 120 then Client.Disconnect disconnecting false
    else if (nRunTime mod 30 =? 5) && negb (nRunTime =? m_nLastPublishTime (members_of c)) then
      set_members (set_m_nLastPublishTime nRunTime);;
      temp ← GetTemperature;
      Client.Publish disconnecting PUB_TOPIC (CString_Format_temp temp)
        MQTT_QOS_AT_LEAST_ONCE false
    else mret ().

(** The virtual functions of the class. *)
Definition callbacks : Callbacks (W := members * W) :=
  mkCallbacks OnConnect OnDisconnect (λ _ _ _, mret ()) OnLoop.

(** [CMQTTPublisher]; [junk] supplies what is not initialised. *)
Definition construct (bTopic bReceive : bool) (junk : client) (u : W) : res (() * client) :=
  construct_derived bTopic bReceive junk
    (set_m_bTimerRunning false (members_of junk), u)
    (connect_default callbacks PUB_CLIENT_ID).
End publisher.
End Publisher.

(** * [mqttsubscriber.cpp] *)
Module Subscriber.
Section subscriber.
Context `{Target, Platform W, PtrList, SamplePlatform W}.

Record members := mkMembers {
  m_bTimerRunning : bool;
  m_nConnectTime : Z
}.

Abbreviation client := (CMQTTClient (W := members * W)).
Abbreviation P := (M client).

Definition members_of (c : client) : members := (world c).1.
Definition set_members (f : members → members) : P () :=
  modify (λ c, set_world (f (world c).1, (world c).2) c).
Definition set_m_bTimerRunning (x : bool) (m : members) : members := mkMembers x (m_nConnectTime m).
Definition set_m_nConnectTime (x : Z) (m : members) : members := mkMembers (m_bTimerRunning m) x.

Definition GetUptime : P Z := world_op (lift_op CTimer_GetUptime).

Definition OnDisconnect (Reason : TMQTTDisconnectReason) : P () :=
  set_members (set_m_bTimerRunning false);;
  log LogDebug "OnDisconnect (reason %u)" [ArgZ (Z.of_nat (reason_code Reason))].

Definition disconnecting : Callbacks (W := members * W) :=
  mkCallbacks (λ _, mret ()) OnDisconnect (λ _ _ _, mret ()) (mret ()).

Definition OnConnect (bSessionPresent : bool) : P () :=
  log LogDebug "OnConnect (present %u)" [ArgZ (Z.b2z bSessionPresent)];;
  t ← GetUptime;
  set_members (set_m_nConnectTime t);;
  set_members (set_m_bTimerRunning true);;
  Client.Subscribe disconnecting SUB_TOPIC MQTT_QOS_EXACTLY_ONCE.

(** [char PayloadString[256]], which the payload is copied to. *)
Definition payload_string (pPayload : list Z) : res (list cell) :=
  let PayloadString := replicate 256 (Some 0) in
  let nPayloadLength := Z.of_nat (length pPayload) in
  if nPayloadLength >? 0 then
    let nPayloadLength := if nPayloadLength >? 255 then 255 else nPayloadLength in
    PayloadString ← wr_bytes PayloadString 0 (take (Z.to_nat nPayloadLength) pPayload);
    wr PayloadString nPayloadLength 0
  else Ok PayloadString.

Definition OnMessage (pTopic pPayload : list Z) (bRetain : bool) : P () :=
  PayloadString ← lift_res (payload_string pPayload);
  s ← lift_res (c_string PayloadString);
  log LogNotice ("OnMessage (" +:+ quoted "%s" +:+ ", " +:+ quoted "%s" +:+ ")")
    [ArgS pTopic; ArgS s].

Definition OnLoop : P () :=
  c ← get;
  if negb (IsConnected c) || negb (m_bTimerRunning (members_of c)) then mret ()
  else
    t ← GetUptime;
    let nRunTime := u32 (t - m_nConnectTime (members_of c)) in
    if nRunTime >=? 120 then Client.Disconnect disconnecting false else mret ().

Definition callbacks : Callbacks (W := members * W) := mkCallbacks OnConnect OnDisconnect OnMessage OnLoop.

Definition construct (bTopic bReceive : bool) (junk : client) (u : W) : res (() * client) :=
  construct_derived bTopic bReceive junk
    (set_m_bTimerRunning false (members_of junk), u)
    (connect_default callbacks SUB_CLIENT_ID).
End subscriber.
End Subscriber.
