(* ===== verification/MqttFrame.v ===== *)
(** A client with a derived class: the base class changes the members of the
    derived one only through the virtual functions.

    [R] is any preorder on the members that the virtual functions observe; it
    is then observed by everything the client does. *)
From stdpp Require Import base numbers list gmap option strings.
From S2P Require Import Prelude.
From S2P Require Import Circle.
From S2P Require Import MqttSendPacket.
From S2P Require Import MqttReceivePacket.
From S2P Require Import MqttClient.
From S2P Require Import MqttSample.
Import Mqtt Client.
Import (hints) SendPacket ReceivePacket.

Create HintDb keeps.

Section frame.
Context `{Target, Platform W, PtrList} {D : Type} (R : relation D) `{!PreOrder R}.
Abbreviation client := (CMQTTClient (W := D * W)).
Implicit Types c : client.

Definition keeps {A} (m : M client A) : Prop :=
  ∀ c a c', m c = Ok (a, c') → R (world c).1 (world c').1.

(** ** The constructs of the programs *)

Lemma keeps_ret {A} (a : A) : keeps (mret a).
Proof using Type*. by intros c b c' [= _ <-]. Qed.

Lemma keeps_bind {A B} (m : M client A) (f : A → M client B) :
  keeps m → (∀ a, keeps (f a)) → keeps (m ≫= f).
Proof using Type*.
  intros Hm Hf c b c' (a & c1 & E1 & E2)%bind_Ok. etrans; [by eapply Hm|by eapply Hf].
Qed.

Lemma keeps_get : keeps get.
Proof using Type*. by intros c b c' [= _ <-]. Qed.
Lemma keeps_gets {A} (f : client → A) : keeps (gets f).
Proof using Type*. by intros c b c' [= _ <-]. Qed.
Lemma keeps_fail {A} e : keeps (fail (A := A) e).
Proof using Type*. by intros c b c'. Qed.
Lemma keeps_assert b : keeps (assert_ b).
Proof using Type*. unfold assert_. intros c [] c'. destruct b; [by intros [= <-]|done]. Qed.
Lemma keeps_when (b : bool) m : keeps m → keeps (when b m).
Proof using Type*. destruct b; [done|intros _; apply keeps_ret]. Qed.
Lemma keeps_deref {A} (o : option A) : keeps (deref o).
Proof using Type*. unfold deref. intros c a c'. destruct o; [by intros [= _ <-]|done]. Qed.
Lemma keeps_lift_res {A} (r : res A) : keeps (lift_res r).
Proof using Type*. unfold lift_res. intros c a c'. destruct r; [by intros [= _ <-]|done]. Qed.
Lemma keeps_modify (f : client → client) : (∀ c, (world (f c)).1 = (world c).1) → keeps (modify f).
Proof using Type*. intros Hf c [] c' [= <-]. by rewrite Hf. Qed.
Lemma keeps_world_op {A} (f : W → A * W) : keeps (world_op (lift_op f)).
Proof using Type*.
  intros c a c'. unfold world_op, env. destruct (lift_op f (world c)) as [b u] eqn:E.
  intros [= _ <-]. apply lift_op_inv in E as [E _]. cbn. by rewrite E.
Qed.
Lemma keeps_rp_op {A} (m : M CMQTTReceivePacket A) : keeps (rp_op m).
Proof using Type*.
  intros c a c'. unfold rp_op, zoom. destruct (m _) as [[??]|]; [by intros [= _ <-]|done].
Qed.

(** A step of a proof by the structure of the program. *)
Ltac keeps_step :=
  lazymatch goal with
  | |- keeps (_ ≫= _) => apply keeps_bind; [|intros ?]
  | |- keeps (mret _) => apply keeps_ret
  | |- keeps get => apply keeps_get
  | |- keeps (gets _) => apply keeps_gets
  | |- keeps (fail _) => apply keeps_fail
  | |- keeps (assert_ _) => apply keeps_assert
  | |- keeps (when _ _) => apply keeps_when
  | |- keeps (deref _) => apply keeps_deref
  | |- keeps (lift_res _) => apply keeps_lift_res
  | |- keeps (modify _) => apply keeps_modify; intros ?; done
  | |- keeps (rp_op _) => apply keeps_rp_op
  | |- keeps (world_op _) => apply keeps_world_op
  | |- keeps (if ?b then _ else _) => destruct b
  | |- keeps (match ?x with _ => _ end) => destruct x
  | |- _ => solve [eauto with keeps]
  end; cbv beta zeta.
Ltac keeps_auto := cbv beta zeta; repeat keeps_step.

Lemma log_keeps sev f args : keeps (log sev f args).
Proof using Type*. apply keeps_world_op. Qed.
Lemma GetTicks_keeps : keeps GetTicks.
Proof using Type*. apply keeps_world_op. Qed.
Hint Resolve log_keeps GetTicks_keeps : keeps.

Lemma load_keeps a : keeps (load a).
Proof using Type*. unfold load. keeps_auto. Qed.
Hint Resolve load_keeps : keeps.
Lemma store_keeps a p : keeps (store a p).
Proof using Type*. unfold store. keeps_auto. Qed.
Lemma delete_packet_keeps o : keeps (delete_packet o).
Proof using Type*. unfold delete_packet. keeps_auto. Qed.
Hint Resolve store_keeps delete_packet_keeps : keeps.
Lemma at_packet_keeps a m : keeps (at_packet a m).
Proof using Type*. unfold at_packet. keeps_auto. Qed.
Lemma alloc_keeps p : keeps (alloc p).
Proof using Type*. by intros c a c' [= _ <-]. Qed.
Lemma make_packet_keeps t n : keeps (make_packet t n).
Proof using Type*. unfold make_packet. keeps_auto. Qed.
Hint Resolve at_packet_keeps alloc_keeps make_packet_keeps : keeps.
Lemma new_packet_keeps t n fill : keeps (new_packet t n fill).
Proof using Type*. unfold new_packet. keeps_auto. Qed.
Lemma delete_socket_keeps : keeps delete_socket.
Proof using Type*. unfold delete_socket. keeps_auto. Qed.
Hint Resolve new_packet_keeps delete_socket_keeps : keeps.

(** ** The queue and the identifier store *)

Lemma insert_position_keeps fuel q t pPrev pElement :
  keeps (insert_position fuel q t pPrev pElement).
Proof using Type*.
  revert pPrev pElement. induction fuel as [|fuel IH]; intros; cbn [insert_position]; keeps_auto.
Qed.
Hint Resolve insert_position_keeps : keeps.
Lemma InsertPacketIntoQueue_keeps a t : keeps (InsertPacketIntoQueue a t).
Proof using Type*. unfold InsertPacketIntoQueue. keeps_auto. Qed.
Lemma find_packet_keeps fuel q us pElement : keeps (find_packet fuel q us pElement).
Proof using Type*.
  revert pElement. induction fuel as [|fuel IH]; intros; cbn [find_packet]; keeps_auto.
Qed.
Hint Resolve InsertPacketIntoQueue_keeps find_packet_keeps : keeps.
Lemma RemovePacketFromQueue_keeps us : keeps (RemovePacketFromQueue us).
Proof using Type*. unfold RemovePacketFromQueue. keeps_auto. Qed.
Lemma cleanup_queue_keeps fuel pElement : keeps (cleanup_queue fuel pElement).
Proof using Type*.
  revert pElement. induction fuel as [|fuel IH]; intros; cbn [cleanup_queue]; keeps_auto.
Qed.
Lemma cleanup_store_keeps fuel pElement : keeps (cleanup_store fuel pElement).
Proof using Type*.
  revert pElement. induction fuel as [|fuel IH]; intros; cbn [cleanup_store]; keeps_auto.
Qed.
Hint Resolve RemovePacketFromQueue_keeps cleanup_queue_keeps cleanup_store_keeps : keeps.
Lemma CleanupQueue_keeps : keeps CleanupQueue.
Proof using Type*. unfold CleanupQueue. keeps_auto. Qed.
Lemma CleanupPacketIdentifierStore_keeps : keeps CleanupPacketIdentifierStore.
Proof using Type*. unfold CleanupPacketIdentifierStore. keeps_auto. Qed.
Lemma store_insert_keeps us : keeps (InsertPacketIdentifierIntoStore us).
Proof using Type*. unfold InsertPacketIdentifierIntoStore. keeps_auto. Qed.
Lemma store_test_keeps us : keeps (IsPacketIdentifierInStore us).
Proof using Type*. unfold IsPacketIdentifierInStore. keeps_auto. Qed.
Lemma store_remove_keeps us : keeps (RemovePacketIdentifierFromStore us).
Proof using Type*. unfold RemovePacketIdentifierFromStore. keeps_auto. Qed.
Hint Resolve CleanupQueue_keeps CleanupPacketIdentifierStore_keeps store_insert_keeps
  store_test_keeps store_remove_keeps : keeps.

(** ** The client *)

Record callbacks_keep (CB : Callbacks (W := D * W)) : Prop := {
  ck_OnConnect b : keeps (OnConnect CB b);
  ck_OnDisconnect r : keeps (OnDisconnect CB r);
  ck_OnMessage t p r : keeps (OnMessage CB t p r)
}.

Context (CB : Callbacks (W := D * W)).

Section closing.
Context (Hclose : ∀ r, keeps (OnDisconnect CB r)).
Hint Resolve Hclose : keeps.

Lemma CloseConnection_keeps r : keeps (CloseConnection CB r).
Proof using Type*. unfold CloseConnection. keeps_auto. Qed.
Hint Resolve CloseConnection_keeps : keeps.

Lemma start_timer_keeps n : keeps (start_timer n).
Proof using Type*. unfold start_timer. keeps_auto. Qed.
Hint Resolve start_timer_keeps : keeps.

Lemma keep_alive_sent_keeps t : keeps (keep_alive_sent t).
Proof using Type*. unfold keep_alive_sent. keeps_auto. Qed.
Hint Resolve keep_alive_sent_keeps : keeps.

(** Only the second part of the world takes part in sending. *)
Lemma Send_world sock p (u : D * W) b p' u' :
  SendPacket.Send sock (p, u) = Ok (b, (p', u')) → u'.1 = u.1.
Proof using Type*.
  unfold SendPacket.Send. rewrite bind_unfold. cbn [get].
  destruct (SendPacket.m_bError p); [by intros [= _ _ <-]|].
  destruct (_ =? 0); [by intros [= _ _ <-]|]. rewrite bind_unfold. unfold lift_res.
  destruct (SendPacket.finish _) as [[p1 bs]|]; [|done].
  destruct (CNetSocket_Send sock bs MSG_DONTWAIT u) as [n u1] eqn:E.
  apply lift_op_inv in E as [E _]. by intros [= _ _ <-].
Qed.

Lemma assert_Ok {S} b (s s' : S) u : assert_ b s = Ok (u, s') → s' = s.
Proof using Type. unfold assert_. destruct b; [by intros [= _ <-]|done]. Qed.
Lemma deref_Ok {S A} (o : option A) (s s' : S) a : deref o s = Ok (a, s') → s' = s.
Proof using Type. unfold deref. destruct o; [by intros [= _ <-]|done]. Qed.
Lemma lift_res_Ok {S A} (r : res A) (s s' : S) a : lift_res r s = Ok (a, s') → s' = s ∧ r = Ok a.
Proof using Type. unfold lift_res. destruct r; [by intros [= <- <-]|done]. Qed.

Lemma SendPacket__keeps p : keeps (SendPacket_ p).
Proof using Type*.
  intros c a c' (c0 & c1 & [= <- <-] & E)%bind_Ok. case_bool_decide; [by injection E as _ <-|].
  apply bind_Ok in E as ([] & c1 & ->%assert_Ok & E).
  apply bind_Ok in E as (sock & c1 & ->%deref_Ok & E).
  apply bind_Ok in E as ([b [p' u]] & c1 & [-> ES]%lift_res_Ok & E). apply Send_world in ES.
  apply bind_Ok in E as ([] & c1 & [= <-] & E). rewrite <-ES.
  change u with (world (set_world u c)). revert E. generalize (set_world u c). intros c2 E.
  eapply (λ h : keeps _, h c2 a c' E). keeps_auto.
Qed.
Hint Resolve SendPacket__keeps : keeps.

Lemma SendPacket_keeps a : keeps (SendPacket a).
Proof using Type*. unfold SendPacket. keeps_auto. Qed.
Lemma send_local_keeps t n fill : keeps (send_local t n fill).
Proof using Type*. unfold send_local. keeps_auto. Qed.
Lemma schedule_keeps a : keeps (schedule a).
Proof using Type*. unfold schedule. keeps_auto. Qed.
Lemma NextPacketIdentifier_keeps : keeps NextPacketIdentifier.
Proof using Type*. unfold NextPacketIdentifier. keeps_auto. Qed.
Hint Resolve SendPacket_keeps send_local_keeps schedule_keeps NextPacketIdentifier_keeps : keeps.

Lemma client_identifier_keeps o : keeps (client_identifier o).
Proof using Type*. unfold client_identifier. keeps_auto. Qed.
Lemma open_socket_keeps ssl host : keeps (open_socket ssl host).
Proof using Type*. unfold open_socket. keeps_auto. Qed.
Hint Resolve client_identifier_keeps open_socket_keeps : keeps.
Lemma start_session_keeps id user pw keep clean will qos retain payload :
  keeps (start_session CB id user pw keep clean will qos retain payload).
Proof using Type*. unfold start_session. keeps_auto. Qed.
Hint Resolve start_session_keeps : keeps.

Lemma Connect_keeps ssl host port id user pw keep clean will qos retain payload :
  keeps (Client.Connect CB ssl host port id user pw keep clean will qos retain payload).
Proof using Type*. unfold Client.Connect. keeps_auto. Qed.
Lemma Disconnect_keeps force : keeps (Client.Disconnect CB force).
Proof using Type*. unfold Client.Disconnect. keeps_auto. Qed.
Lemma send_and_schedule_keeps a qos us : keeps (send_and_schedule CB a qos us).
Proof using Type*. unfold send_and_schedule. keeps_auto. Qed.
Hint Resolve send_and_schedule_keeps : keeps.
Lemma Subscribe_keeps topic qos : keeps (Client.Subscribe CB topic qos).
Proof using Type*. unfold Client.Subscribe. keeps_auto. Qed.
Lemma Unsubscribe_keeps topic : keeps (Client.Unsubscribe CB topic).
Proof using Type*. unfold Client.Unsubscribe. keeps_auto. Qed.
Lemma Publish_keeps topic payload qos retain : keeps (Client.Publish CB topic payload qos retain).
Proof using Type*. unfold Client.Publish. keeps_auto. Qed.
End closing.

(** ** The task *)

Context (HCB : callbacks_keep CB).
Let Hclose := ck_OnDisconnect CB HCB.
Hint Resolve Hclose CloseConnection_keeps start_timer_keeps keep_alive_sent_keeps SendPacket_keeps
  send_local_keeps schedule_keeps send_and_schedule_keeps : keeps.
Hint Resolve ck_OnConnect ck_OnMessage : keeps.

Lemma deliver_keeps p n r : keeps (deliver CB p n r).
Proof using Type*. unfold deliver. keeps_auto. Qed.
Hint Resolve deliver_keeps : keeps.
Lemma publish_received_keeps q us p n r : keeps (publish_received CB q us p n r).
Proof using Type*. unfold publish_received, send_ack. keeps_auto. Qed.
Lemma publish_identifier_keeps q n : keeps (publish_identifier q n).
Proof using Type*. unfold publish_identifier. keeps_auto. Qed.
Hint Resolve publish_received_keeps publish_identifier_keeps : keeps.
Lemma HandlePublish_keeps : keeps (HandlePublish CB).
Proof using Type*. unfold HandlePublish, publish_after_topic. keeps_auto. Qed.
Lemma has_QoS_keeps o q : keeps (has_QoS o q).
Proof using Type*. unfold has_QoS. keeps_auto. Qed.
Lemma take_identifier_keeps : keeps take_identifier.
Proof using Type*. unfold take_identifier. keeps_auto. Qed.
Hint Resolve HandlePublish_keeps has_QoS_keeps take_identifier_keeps : keeps.
Lemma acknowledged_keeps q us : keeps (acknowledged CB q us).
Proof using Type*. unfold acknowledged. keeps_auto. Qed.
Hint Resolve acknowledged_keeps : keeps.

Lemma handle_packet_keeps : keeps (handle_packet CB).
Proof using Type*.
  unfold handle_packet, HandleConnAck, HandlePubAck, HandlePubRec, pubrec_received, HandlePubRel,
    HandlePubComp, HandleSubAck, HandleUnsubAck, HandlePingResp, send_ack. keeps_auto.
Qed.
Hint Resolve handle_packet_keeps : keeps.

Lemma receive_packet_keeps sock : keeps (receive_packet sock).
Proof using Type*.
  intros c a c'. unfold receive_packet, zoom.
  destruct (ReceivePacket.Receive sock (m_ReceivePacket c, world c)) as [[st [p u]]|] eqn:E; [|done].
  intros [= _ <-]. cbn. enough (u.1 = (world c).1) as -> by done. revert E.
  unfold ReceivePacket.Receive. rewrite bind_unfold. cbn [get].
  destruct (ReceivePacket.m_pBuffer _) as [buf|]; [|by intros [= _ _ <-]].
  destruct (_ >? _); [by intros [= _ _ <-]|].
  destruct (CNetSocket_Receive _ _ _ _) as [[n bs] u1] eqn:Er. apply lift_op_inv in Er as [Er _].
  intros (buf' & s1 & [-> _]%lift_res_Ok & E)%bind_Ok.
  apply bind_Ok in E as ([] & s2 & [= <-] & E). destruct (n <? 0); [by injection E as _ _ <-|].
  apply bind_Ok in E as ([] & s3 & [= <-] & E). revert E. unfold zoom. cbn [fst snd].
  destruct (ReceivePacket.parse _) as [[??]|]; [|done]. by intros [= _ _ <-].
Qed.
Hint Resolve receive_packet_keeps : keeps.

Lemma Receiver_keeps fuel : keeps (Receiver CB fuel).
Proof using Type*. induction fuel as [|fuel IH]; cbn [Receiver]; keeps_auto. Qed.
Lemma sender_loop_keeps fuel t pElement : keeps (sender_loop CB fuel t pElement).
Proof using Type*.
  revert pElement. induction fuel as [|fuel IH]; intros; cbn [sender_loop]; keeps_auto.
Qed.
Hint Resolve Receiver_keeps sender_loop_keeps : keeps.
Lemma Sender_keeps : keeps (Sender CB).
Proof using Type*. unfold Sender. keeps_auto. Qed.
Lemma KeepAliveHandler_keeps : keeps (KeepAliveHandler CB).
Proof using Type*. unfold KeepAliveHandler. keeps_auto. Qed.
Hint Resolve Sender_keeps KeepAliveHandler_keeps : keeps.

(** A round of the task up to the call of [OnLoop]. *)
Definition before_loop (fuel : nat) : M client () :=
  c ← get;
  if negb (bool_decide (m_ConnectStatus c = MQTTStatusDisconnected)) then
    Receiver CB fuel;;
    Sender CB;;
    KeepAliveHandler CB;;
    world_op (CScheduler_MsSleep 50)
  else world_op (CScheduler_MsSleep 200).

Lemma before_loop_keeps fuel : keeps (before_loop fuel).
Proof using Type*. unfold before_loop. keeps_auto. Qed.
End frame.
