(* ===== verification/MqttSampleProps.v ===== *)
(** Properties of the MQTT client sample: both clients are safe, when the
    publisher publishes, and what the subscriber shows. *)
From stdpp Require Import base numbers list gmap option strings.
From S2P Require Import Prelude.
From S2P Require Import Circle.
From S2P Require Import MqttSendPacket.
From S2P Require Import MqttSendSpec.
From S2P Require Import MqttReceivePacket.
From S2P Require Import MqttReceiveSpec.
From S2P Require Import MqttReadSpec.
From S2P Require Import MqttClient.
From S2P Require Import MqttQueueSpec.
From S2P Require Import MqttClientInv.
From S2P Require Import MqttClientPackets.
From S2P Require Import MqttClientSafety.
From S2P Require Import MqttClientTask.
From S2P Require Import MqttClientApi.
From S2P Require Import MqttClientLife.
From S2P Require Import MqttDemo.
From S2P Require Import MqttSample.
From S2P Require Import MqttFrame.
Import Mqtt Client.
Import (hints) SendPacket ReceivePacket Script ListPtrList Demo.

(** The faults a round of the task can end in, as for every client. *)
Definition round_faults (e : fault) : Prop := e = AssertFailed ∨ e = OutOfFuel.

(** ** The text of a message *)

(** What the subscriber shows of a payload: its first 255 bytes, up to a zero. *)
Definition shown (payload : list Z) : list Z := until_nul (take 255 payload).

Lemma payload_shown payload :
  ∃ cells, Subscriber.payload_string payload = Ok cells ∧ c_string cells = Ok (shown payload).
Proof.
  unfold Subscriber.payload_string. cbv zeta. set (n := Z.of_nat (length payload)).
  destruct (Z.gtb_spec n 0) as [Hn|Hn].
  - set (k := if n >? 255 then 255 else n).
    assert (Hk : k = Z.min n 255) by (unfold k; destruct (Z.gtb_spec n 255); lia).
    assert (Htk : take (Z.to_nat k) payload = take 255 payload).
    { rewrite Hk. destruct (decide (n ≤ 255)).
      - rewrite Z.min_l by lia. rewrite !take_ge by lia. done.
      - rewrite Z.min_r by lia. done. }
    assert (Hlen : Z.of_nat (length (take 255 payload)) = k) by (rewrite length_take; lia).
    rewrite Htk.
    destruct (wr_bytes_Ok (replicate 256 (Some 0)) 0 (take 255 payload)) as (b & E & Hl & Hh & _).
    { done. }
    { rewrite length_replicate. lia. }
    rewrite length_replicate in Hl.
    assert (Ew : wr b k 0 = Ok (<[Z.to_nat k := Some 0]> b)) by (apply wr_cell_Ok; lia).
    eexists. split; [rewrite E; exact Ew|]. apply c_string_holds, holds_app. split.
    + eapply holds_frame; [exact Hh|]. intros j Hj. apply list_lookup_insert_ne. lia.
    + rewrite Hlen. apply holds_cons. split; [|apply holds_nil; lia].
      apply rd_Ok. split; [lia|]. apply list_lookup_insert_eq. lia.
  - assert (payload = []) as -> by (destruct payload; [done|cbn in *; lia]). by eexists.
Qed.

(** * The virtual functions keep the invariant of the client *)
Section safety.
Context `{Target, Platform W, !PlatformOk W, PtrList, !PtrListOk, SamplePlatform W, !SamplePlatformOk W}.
Context (bTopic bReceive : bool) (F : fault → Prop).

Lemma any_world_op_Inv {D A} w X (c : CMQTTClient (W := D * W)) (f : D * W → A * (D * W)) :
  Inv bTopic bReceive w X c → wp F (world_op f) (λ _ c', Inv bTopic bReceive w X c') c.
Proof using Type*. intros Hc. apply wp_env. intros a u _. by eapply Inv_view. Qed.

Lemma set_world_Inv {D} w X (c : CMQTTClient (W := D * W)) (g : CMQTTClient (W := D * W) → D * W) :
  Inv bTopic bReceive w X c →
  wp F (modify (λ c, set_world (g c) c)) (λ _ c', Inv bTopic bReceive w X c') c.
Proof using Type*. intros Hc. wp_step. by eapply Inv_view. Qed.

Lemma topic_ok : c_str PUB_TOPIC.
Proof using Type*. by apply (bool_decide_unpack _). Qed.

Lemma temp_bytes t : bytes (CString_Format_temp t).
Proof using Type*.
  pose proof (CString_Format_temp_bytes t) as [Hb Hl]. split; [done|]. unfold fits_memory. lia.
Qed.

(** A step of a virtual function that changes only the world. *)
Ltac inv_steps :=
  repeat lazymatch goal with
  | |- wp _ (_ ≫= _) _ _ => apply wp_bind
  | |- wp _ (mret _) _ _ => apply wp_ret
  | |- wp _ (world_op _) _ _ =>
      eapply wp_mono; [apply any_world_op_Inv; eassumption|intros; cbv beta in *]
  | |- wp _ (modify _) _ _ => eapply wp_mono; [apply set_world_Inv; eassumption|intros; cbv beta in *]
  end; cbv beta in *; try eassumption.

Lemma publisher_disconnecting_ok : callbacks_ok bTopic bReceive F Publisher.disconnecting.
Proof using Type*.
  split; intros w X; intros; cbn; try by apply wp_ret.
  unfold Publisher.OnDisconnect, Publisher.set_members, log. inv_steps.
Qed.

Lemma subscriber_disconnecting_ok : callbacks_ok bTopic bReceive F Subscriber.disconnecting.
Proof using Type*.
  split; intros w X; intros; cbn; try by apply wp_ret.
  unfold Subscriber.OnDisconnect, Subscriber.set_members, log. inv_steps.
Qed.

Lemma publisher_ok : callbacks_ok bTopic bReceive F Publisher.callbacks.
Proof using Type*.
  split; intros w X; intros; cbn.
  - unfold Publisher.OnConnect, Publisher.set_members, Publisher.GetUptime, log. inv_steps.
  - by apply (cb_OnDisconnect _ _ _ _ publisher_disconnecting_ok).
  - by apply wp_ret.
  - unfold Publisher.OnLoop. wp_steps. apply wp_if; intros _; [by apply wp_ret|].
    unfold Publisher.GetUptime. inv_steps. cbv zeta.
    apply wp_if; intros _; [by apply (Disconnect_Inv _ _ _ _ publisher_disconnecting_ok)|].
    apply wp_if; intros _; [|by apply wp_ret].
    unfold Publisher.set_members, Publisher.GetTemperature. inv_steps.
    apply (Publish_Inv _ _ _ _ publisher_disconnecting_ok);
      [done|apply topic_ok|apply temp_bytes|done].
Qed.

Lemma subscriber_ok : callbacks_ok bTopic bReceive F Subscriber.callbacks.
Proof using Type*.
  split; intros w X; intros; cbn.
  - unfold Subscriber.OnConnect, Subscriber.set_members, Subscriber.GetUptime, log. inv_steps.
    apply (Subscribe_Inv _ _ _ _ subscriber_disconnecting_ok); [done|apply topic_ok|done].
  - by apply (cb_OnDisconnect _ _ _ _ subscriber_disconnecting_ok).
  - unfold Subscriber.OnMessage. wp_step.
    destruct (payload_shown pl) as (cells & E1 & E2). eapply wp_lift_Ok; [exact E1|].
    wp_step. eapply wp_lift_Ok; [exact E2|]. unfold log. inv_steps.
  - unfold Subscriber.OnLoop. wp_steps. apply wp_if; intros _; [by apply wp_ret|].
    unfold Subscriber.GetUptime. inv_steps. cbv zeta.
    apply wp_if; intros _; [|by apply wp_ret].
    by apply (Disconnect_Inv _ _ _ _ subscriber_disconnecting_ok).
Qed.
End safety.

Section derived_safe.
Context `{Target, Platform W, !PlatformOk W, PtrList, !PtrListOk}.

(** The constructor of a derived class: the base class is constructed, and the
    connection that the body starts keeps its invariant. *)
Lemma construct_derived_Inv CB bTopic bReceive junk u id :
  callbacks_ok bTopic bReceive no_fault CB → junk_ok junk → c_str id →
  ∃ c, construct_derived bTopic bReceive junk u (connect_default CB id) = Ok ((), c) ∧
    Inv bTopic bReceive false [] c.
Proof.
  intros HCB Hj Hid. unfold construct_derived.
  destruct (construct_Inv bTopic bReceive MAX_PACKET_SIZE MAX_PACKETS_QUEUED MAX_TOPIC_SIZE junk u Hj)
    as (c0 & E & Hc0); [by unfold sizes_ok, MAX_PACKET_SIZE, MAX_PACKETS_QUEUED, MAX_TOPIC_SIZE; lia|]. rewrite E.
  assert (Hst : m_ConnectStatus c0 = MQTTStatusDisconnected).
  { revert E. unfold Client.construct. destruct (ReceivePacket.construct _ _ _ _); [|done].
    by intros [= <-]. }
  destruct (wp_total _ _ _ (perform_Inv bTopic bReceive no_fault CB false [] c0
    (RConnect true MQTT_BROKER_HOSTNAME MQTT_TLS_PORT (Some id) None None 60 true None 0 false [])
    HCB Hc0 ltac:(split; [done|split; cbn; try done; by apply (bool_decide_unpack _)])))
    as ([] & c & E' & Hc).
  exists c. split; [exact E'|exact Hc].
Qed.

Lemma derived_reachable CB fuel bTopic bReceive c0 c :
  callbacks_ok bTopic bReceive round_faults CB → Inv bTopic bReceive false [] c0 →
  reachable CB fuel c0 c →
  Inv bTopic bReceive false [] c ∧
  ∀ o, step CB fuel c o → match o with Ok _ => True | Fault e => round_faults e end.
Proof.
  intros HCB Hc0 Hr. assert (HFa : round_faults AssertFailed) by by left.
  assert (HFf : round_faults OutOfFuel) by by right.
  pose proof (reachable_Inv CB fuel _ _ _ _ _ _ _ HCB HFa HFf Hc0 Hr) as Hc.
  split; [done|]. intros o Ho.
  pose proof (step_Inv CB fuel _ _ _ _ _ _ _ HCB HFa HFf Hc Ho) as Hst. by destruct o as [[??]|].
Qed.
End derived_safe.

(** * Concrete clients *)
Module SampleDemo.
#[export] Instance sample_platform : SamplePlatform Script.t := {|
  CTimer_GetUptime w := (u32 (Script.now w / 100), w);
  PropertyTag_Temperature w := (Some 45678, w);
  CString_Format_temp t := if t =? 45678 then cstr "45.7" else cstr "0.0"
|}.

#[export] Instance sample_platform_ok : SamplePlatformOk Script.t.
Proof.
  split.
  - intros w. apply u32_range.
  - intros t. cbn. destruct (t =? 45678); split; try done; by apply (bool_decide_unpack _).
Qed.

(** Objects before their construction, and a world in which a second is over. *)
Definition junk {D} (d : D) : CMQTTClient (W := D * Script.t) :=
  mkClient 0 0 None None MQTTStatusDisconnected [] 0 false 0 0 Demo.junk_packet pl_empty pl_empty
    ∅ 1 (d, Script.init []).

Lemma sample_junk_good {D} (d : D) : junk_ok (junk d).
Proof. split; cbn; [split|]; lia. Qed.

Definition publisher_junk := junk (Publisher.mkMembers true 99 99).
Definition subscriber_junk := junk (Subscriber.mkMembers true 99).

(** A client that waits for CONNACK, and one that is connected. *)
Definition pending {D} (o : res (() * CMQTTClient (W := D * Script.t)))
    (j : CMQTTClient (W := D * Script.t)) : CMQTTClient (W := D * Script.t) :=
  match o with Ok (_, c) => c | Fault _ => j end.
Definition publisher (u : Script.t) : CMQTTClient (W := Publisher.members * Script.t) :=
  set_world (Publisher.mkMembers true 0 0, u) $
  set_m_ConnectStatus MQTTStatusConnected
    (pending (Publisher.construct true true publisher_junk (Script.init [])) publisher_junk).
Definition subscriber : CMQTTClient (W := Subscriber.members * Script.t) :=
  set_world (Subscriber.mkMembers true 0, Script.init []) $
  set_m_ConnectStatus MQTTStatusConnected
    (pending (Subscriber.construct true true subscriber_junk (Script.init [])) subscriber_junk).

Lemma sample_connected_Inv {D} CB (d : D) u u' id :
  let c := pending (construct_derived true true (junk d) u (connect_default CB id)) (junk d) in
  callbacks_ok true true no_fault CB → c_str id → m_ConnectStatus c ≠ MQTTStatusDisconnected →
  Inv true true false [] (set_world u' (set_m_ConnectStatus MQTTStatusConnected c)).
Proof.
  intros c HCB Hid Hst. subst c.
  destruct (construct_derived_Inv CB true true (junk d) u id HCB (sample_junk_good d) Hid) as (c1 & E & Hc1).
  rewrite E in Hst |- *. eapply Inv_view; [apply Inv_status_connected; [exact Hc1|exact Hst]|done].
Qed.
End SampleDemo.
Import (hints) SampleDemo.

(** Both clients of the sample are safe, with the functions they override
    and the connection their constructors start: construction succeeds,
    whatever the allocations and the network do, and in every state that the
    task and permitted requests reach from there the invariant of the client
    holds and the next step ends in no other fault than an assertion of the
    receiver. *)
Theorem samples_safe `{Target, Platform W, !PlatformOk W, PtrList, !PtrListOk,
    SamplePlatform W, !SamplePlatformOk W} bTopic bReceive fuel jp js u :
  junk_ok jp → junk_ok js →
  (∃ c0, Publisher.construct bTopic bReceive jp u = Ok ((), c0) ∧
    ∀ c, reachable Publisher.callbacks fuel c0 c →
      Inv bTopic bReceive false [] c ∧
      ∀ o, step Publisher.callbacks fuel c o →
        match o with Ok _ => True | Fault e => round_faults e end) ∧
  (∃ c0, Subscriber.construct bTopic bReceive js u = Ok ((), c0) ∧
    ∀ c, reachable Subscriber.callbacks fuel c0 c →
      Inv bTopic bReceive false [] c ∧
      ∀ o, step Subscriber.callbacks fuel c o →
        match o with Ok _ => True | Fault e => round_faults e end).
Proof.
  intros Hp Hs. split.
  - destruct (construct_derived_Inv Publisher.callbacks bTopic bReceive jp
      (Publisher.set_m_bTimerRunning false (Publisher.members_of jp), u) PUB_CLIENT_ID)
      as (c0 & E & Hc0); [apply publisher_ok|done|by apply (bool_decide_unpack _)|].
    exists c0. split; [done|]. intros c. apply derived_reachable; [apply publisher_ok|done].
  - destruct (construct_derived_Inv Subscriber.callbacks bTopic bReceive js
      (Subscriber.set_m_bTimerRunning false (Subscriber.members_of js), u) SUB_CLIENT_ID)
      as (c0 & E & Hc0); [apply subscriber_ok|done|by apply (bool_decide_unpack _)|].
    exists c0. split; [done|]. intros c. apply derived_reachable; [apply subscriber_ok|done].
Qed.

Lemma samples_safe_witness :
  ∃ c p, Publisher.construct true true SampleDemo.publisher_junk (Script.init []) = Ok ((), p) ∧
    Subscriber.construct true true SampleDemo.subscriber_junk (Script.init []) = Ok ((), c) ∧
    Inv true true false [] p ∧ Inv true true false [] c.
Proof.
  destruct (samples_safe true true 10 SampleDemo.publisher_junk SampleDemo.subscriber_junk
    (Script.init []) (SampleDemo.sample_junk_good _) (SampleDemo.sample_junk_good _))
    as [(p & Ep & Hp) (c & Ec & Hc)].
  exists c, p. split; [exact Ep|]. split; [exact Ec|].
  split; [apply Hp|apply Hc]; constructor.
Defined.

(** * When the publisher publishes *)
Section schedule.
Context `{Target, Platform W, !PlatformOk W, PtrList, !PtrListOk, SamplePlatform W, !SamplePlatformOk W}.
Import Publisher.
Abbreviation client := (CMQTTClient (W := members * W)).
Implicit Types c : client.

(** What the base class can do to the members: leave them, stop the timer by
    [OnDisconnect], or start a session by [OnConnect]. *)
Definition left_or_stopped (m m' : members) : Prop := m' = m ∨ m_bTimerRunning m' = false.
Definition tracked (m m' : members) : Prop :=
  left_or_stopped m m' ∨ ∃ t, m' = mkMembers true t t.

#[export] Instance left_or_stopped_pre : PreOrder left_or_stopped.
Proof. split; [by left|]. intros m1 m2 m3 H12 [-> | ?]; [done|by right]. Qed.
#[export] Instance tracked_pre : PreOrder tracked.
Proof. split; [by left; left|]. intros m1 m2 m3 H12 [[-> | ?]|?]; [done|by left; right|by right]. Qed.

Lemma disconnecting_keeps r : keeps left_or_stopped (Client.OnDisconnect disconnecting r).
Proof.
  intros c [] c' E. cbn in E. unfold OnDisconnect in E.
  apply bind_Ok in E as ([] & c1 & [= <-] & E). right. revert E.
  unfold log, world_op, env. destruct (CLogger_Write _ _ _ _) as [[] u] eqn:El.
  apply lift_op_inv in El as [El _]. intros [= <-]. cbn. by rewrite El.
Qed.

(** The uptime a function reads that starts in this state. *)
Definition uptime c : Z := (CTimer_GetUptime (world c).2).1.

Lemma OnConnect_members b c u c' :
  Client.OnConnect callbacks b c = Ok (u, c') → ∃ t, members_of c' = mkMembers true t t.
Proof.
  cbn. unfold OnConnect. intros ([] & c1 & _ & E)%bind_Ok.
  apply bind_Ok in E as (t & c2 & _ & E). exists t. revert E. by intros [= _ <-].
Qed.

Lemma publisher_callbacks_keep : callbacks_keep tracked callbacks.
Proof.
  split.
  - intros b c u c' E. right. by eapply OnConnect_members.
  - intros r c u c' E. left. by eapply (disconnecting_keeps r).
  - intros t p r. apply keeps_ret. apply _.
Qed.

(** Between two calls of [OnLoop]: whatever the task does, and whatever the
    application calls. *)
Lemma publisher_frame fuel c c' u :
  before_loop callbacks fuel c = Ok (u, c') ∨ (∃ r, perform callbacks r c = Ok (u, c')) →
  tracked (members_of c) (members_of c').
Proof.
  assert (Hc : ∀ r, keeps tracked (Client.OnDisconnect callbacks r)).
  { apply publisher_callbacks_keep. }
  intros [E|[r E]].
  - by eapply (before_loop_keeps tracked callbacks publisher_callbacks_keep).
  - destruct r; cbn [perform] in E.
    + by eapply (Connect_keeps tracked callbacks Hc).
    + by eapply (Disconnect_keeps tracked callbacks Hc).
    + by eapply (Subscribe_keeps tracked callbacks Hc).
    + by eapply (Unsubscribe_keeps tracked callbacks Hc).
    + by eapply (Publish_keeps tracked callbacks Hc).
Qed.

(** A session: [session t0 ts c] says that [OnConnect] was called at the
    uptime [t0], that [OnLoop] has been called since at the uptimes [ts]
    (latest first), and that [c] is the state now.  The clock does not go
    back; between the calls of [OnLoop] the members stay, as
    [publisher_frame] says for all that the client does while the timer runs. *)
Definition latest (t0 : Z) (ts : list Z) : Z := default t0 (head ts).

Inductive session (t0 : Z) : list Z → client → Prop :=
  | session_start c : members_of c = mkMembers true t0 t0 → 0 ≤ t0 → session t0 [] c
  | session_idle ts c c' :
      session t0 ts c → members_of c' = members_of c → session t0 ts c'
  | session_loop ts c c' :
      session t0 ts c → IsConnected c = true → latest t0 ts ≤ uptime c →
      OnLoop c = Ok ((), c') → m_bTimerRunning (members_of c') = true →
      session t0 (uptime c :: ts) c'.

(** The calls at which a message is due: the seconds 5, 35, 65 and 95 of the
    session, each one once; a second equal to the uptime of the connection
    counts only if there was one before. *)
Definition seen (t0 : Z) (ts : list Z) (r : Z) : Prop :=
  r ∈ (λ t, t - t0) <$> ts ∧ r mod 30 = 5 ∧ r < 120.
Definition due (t0 : Z) (ts : list Z) (r : Z) : Prop :=
  r mod 30 = 5 ∧ r < 120 ∧ ¬ seen t0 ts r ∧ (r = t0 → ∃ r', seen t0 ts r').

(** The state of [OnLoop] after the clock has been read. *)
Definition after_uptime c : client :=
  set_world ((world c).1, (CTimer_GetUptime (world c).2).2) c.
Definition note_publication (r : Z) c : client :=
  set_world (set_m_nLastPublishTime r (world c).1, (world c).2) c.

Lemma OnLoop_run c :
  OnLoop c =
    if negb (IsConnected c) || negb (m_bTimerRunning (members_of c)) then Ok ((), c)
    else
      let r := u32 (uptime c - m_nConnectTime (members_of c)) in
      if r >=? 120 then Client.Disconnect disconnecting false (after_uptime c)
      else if (r mod 30 =? 5) && negb (r =? m_nLastPublishTime (members_of c)) then
        (temp ← GetTemperature;
         Client.Publish disconnecting PUB_TOPIC (CString_Format_temp temp)
           MQTT_QOS_AT_LEAST_ONCE false) (note_publication r (after_uptime c))
      else Ok ((), after_uptime c).
Proof.
  unfold OnLoop. rewrite bind_unfold. cbn [get].
  destruct (negb (IsConnected c) || _); [done|].
  assert (Et : GetUptime c = Ok (uptime c, after_uptime c)).
  { unfold GetUptime, world_op, env, lift_op, uptime, after_uptime.
    by destruct (CTimer_GetUptime (world c).2). }
  erewrite bind_run; [|exact Et]. cbv zeta. destruct (_ >=? 120); [done|].
  destruct (_ && _); [|done]. by erewrite bind_run.
Qed.

(** What a session knows of the members. *)
Record session_inv (t0 : Z) (ts : list Z) (m : members) : Prop := {
  si_connect : m_nConnectTime m = t0;
  si_first : 0 ≤ t0;
  si_latest : Forall (λ t, t0 ≤ t ≤ latest t0 ts) ts;
  si_last : (∀ r, seen t0 ts r → r ≤ m_nLastPublishTime m);
  si_which : seen t0 ts (m_nLastPublishTime m) ∨
    m_nLastPublishTime m = t0 ∧ (∀ r, seen t0 ts r → r = t0)
}.

Lemma seen_nil t0 r : ¬ seen t0 [] r.
Proof. intros [Hr _]. by apply elem_of_nil in Hr. Qed.

Lemma seen_cons t0 ts t r :
  seen t0 (t :: ts) r ↔ seen t0 ts r ∨ r = t - t0 ∧ r mod 30 = 5 ∧ r < 120.
Proof. unfold seen. rewrite fmap_cons, elem_of_cons. tauto. Qed.

Lemma seen_latest t0 ts m r : session_inv t0 ts m → seen t0 ts r → r ≤ latest t0 ts - t0.
Proof.
  intros [_ _ Hl _ _] [(t & -> & Ht)%list_elem_of_fmap _].
  rewrite Forall_forall in Hl. specialize (Hl t Ht). lia.
Qed.

(** The test of the code is the test on the history. *)
Lemma due_test t0 ts m t :
  session_inv t0 ts m → latest t0 ts ≤ t →
  (t - t0 < 120 ∧ (t - t0) mod 30 = 5 ∧ t - t0 ≠ m_nLastPublishTime m) ↔ due t0 ts (t - t0).
Proof.
  intros Hi Ht. pose proof Hi as [_ _ _ Hlast Hwhich].
  assert (Hle : ∀ r, seen t0 ts r → r ≤ t - t0).
  { intros r Hr. pose proof (seen_latest _ _ _ _ Hi Hr). lia. }
  unfold due. split.
  - intros (Hlt & H5 & Hne). split_and!; [done|done| |].
    + intros Hs. pose proof (Hlast _ Hs). destruct Hwhich as [Hw|[Hw1 Hw2]].
      * pose proof (Hle _ Hw). lia.
      * specialize (Hw2 _ Hs). lia.
    + intros E. destruct Hwhich as [Hw|[Hw1 _]]; [by eexists|lia].
  - intros (H5 & Hlt & Hns & Hfirst). split_and!; [done|done|]. intros E.
    destruct Hwhich as [Hw|[Hw1 Hw2]]; [by rewrite <-E in Hw|].
    destruct (Hfirst ltac:(lia)) as [r' Hr']. pose proof (Hw2 _ Hr'). subst r'.
    apply Hns. by rewrite E, Hw1.
Qed.

Lemma uptime_u32 c : is_u32 (uptime c).
Proof. apply CTimer_GetUptime_u32. Qed.

Lemma session_latest t0 ts m : session_inv t0 ts m → t0 ≤ latest t0 ts.
Proof.
  intros [_ _ Hl _ _]. unfold latest. destruct ts as [|t ts]; [done|].
  apply Forall_cons in Hl as [Hl _]. cbn. lia.
Qed.

Lemma runtime_u32 t0 ts m c :
  session_inv t0 ts m → latest t0 ts ≤ uptime c →
  u32 (uptime c - m_nConnectTime m) = uptime c - t0.
Proof.
  intros Hi Ht. pose proof (session_latest _ _ _ Hi). pose proof (uptime_u32 c).
  rewrite (si_connect _ _ _ Hi). apply u32_id. pose proof (si_first _ _ _ Hi). unfold_ints. lia.
Qed.

(** A call of [OnLoop] without a publication, and one with. *)
Lemma session_inv_quiet t0 ts m t :
  session_inv t0 ts m → latest t0 ts ≤ t → (seen t0 (t :: ts) (t - t0) → t - t0 = m_nLastPublishTime m) →
  session_inv t0 (t :: ts) m.
Proof.
  intros Hi Ht Hq. pose proof Hi as [Hc Hf Hl Hlast Hwhich]. pose proof (session_latest _ _ _ Hi).
  assert (Hs : ∀ r, seen t0 (t :: ts) r → seen t0 ts r ∨ r = m_nLastPublishTime m).
  { intros r Hr. pose proof Hr as [?|(E & _)]%seen_cons; [by left|right].
    rewrite E. apply Hq. by rewrite <-E. }
  split; [done|done| | |].
  - constructor; [cbn; lia|]. eapply Forall_impl; [exact Hl|]. cbn. lia.
  - intros r [?|?]%Hs; [by apply Hlast|lia].
  - destruct Hwhich as [Hw|[Hw1 Hw2]]; [left; apply seen_cons; by left|right].
    split; [done|]. intros r [?|?]%Hs; [by apply Hw2|lia].
Qed.

Lemma session_inv_published t0 ts m t :
  session_inv t0 ts m → latest t0 ts ≤ t → due t0 ts (t - t0) →
  session_inv t0 (t :: ts) (set_m_nLastPublishTime (t - t0) m).
Proof.
  intros Hi Ht (H5 & Hlt & _). pose proof Hi as [Hc Hf Hl _ _]. pose proof (session_latest _ _ _ Hi).
  split; [done|done| | |]; cbn [m_nLastPublishTime set_m_nLastPublishTime].
  - constructor; [cbn; lia|]. eapply Forall_impl; [exact Hl|]. cbn. lia.
  - intros r [Hr|(-> & _)]%seen_cons; [|lia]. pose proof (seen_latest _ _ _ _ Hi Hr). lia.
  - left. apply seen_cons. by right.
Qed.

Lemma publish_keeps temp_payload :
  keeps left_or_stopped (Client.Publish disconnecting PUB_TOPIC temp_payload MQTT_QOS_AT_LEAST_ONCE false).
Proof. apply Publish_keeps; [apply _|apply disconnecting_keeps]. Qed.

Lemma session_sound t0 ts c :
  session t0 ts c → m_bTimerRunning (members_of c) = true ∧ session_inv t0 ts (members_of c).
Proof.
  induction 1 as [c E H0'|ts c c' _ IH E|ts c c' _ [Hrun Hi] Hcon Ht E Hrun'].
  - rewrite E. split; [done|]. split; try done; [by intros r []%seen_nil|].
    right. split; [done|]. by intros r []%seen_nil.
  - by rewrite E.
  - split; [done|]. rewrite OnLoop_run, Hcon, Hrun in E. cbn [negb orb] in E. cbv zeta in E.
    rewrite (runtime_u32 t0 ts _ c Hi Ht) in E.
    pose proof (due_test t0 ts _ (uptime c) Hi Ht) as Hdue.
    assert (Hstay : ∀ m', left_or_stopped m' (members_of c') → members_of c' = m').
    { intros m' [?|?]; [done|congruence]. }
    destruct (Z.geb_spec (uptime c - t0) 120).
    + assert (members_of c' = members_of c) as ->.
      { apply Hstay. by eapply (Disconnect_keeps left_or_stopped disconnecting disconnecting_keeps _ _ _ _ E). }
      apply session_inv_quiet; [done|done|]. intros (_ & _ & ?). lia.
    + destruct (Z.eqb_spec ((uptime c - t0) mod 30) 5); cbn [andb] in E.
      2: { injection E as <-. apply session_inv_quiet; [done|done|]. by intros (_ & ? & _). }
      destruct (Z.eqb_spec (uptime c - t0) (m_nLastPublishTime (members_of c))); cbn [negb] in E.
      { injection E as <-. by apply session_inv_quiet. }
      apply bind_Ok in E as (temp & c1 & E1 & E2).
      assert (members_of c' = set_m_nLastPublishTime (uptime c - t0) (members_of c)) as ->.
      { apply Hstay. etrans; [|by eapply publish_keeps]. unfold GetTemperature in E1.
        apply bind_Ok in E1 as (o & c2 & E1 & [= _ <-]).
        by apply (keeps_world_op left_or_stopped PropertyTag_Temperature _ _ _ E1). }
      apply session_inv_published; [done|done|]. apply Hdue. split_and!; [lia|done|done].
Qed.

(** [Disconnect] ends the connection and calls [OnDisconnect]. *)
Lemma Disconnect_ends bTopic bReceive w X c :
  Inv bTopic bReceive w X c → m_ConnectStatus c ≠ MQTTStatusDisconnected →
  ∃ c', Client.Disconnect disconnecting false c = Ok ((), c') ∧
    m_ConnectStatus c' = MQTTStatusDisconnected ∧ m_bTimerRunning (members_of c') = false.
Proof.
  intros Hc Hst.
  destruct (wp_total (Client.Disconnect disconnecting false)
    (λ _ c', m_ConnectStatus c' = MQTTStatusDisconnected ∧ m_bTimerRunning (members_of c') = false) c)
    as ([] & c' & E & Hc'); [|eauto].
  unfold Client.Disconnect, default_packet_size. cbn [negb when]. wp_steps.
  eapply (send_local_spec bTopic bReceive no_fault w X); [done|lia|done|apply appends_nil|].
  intros b c1 Hc1 Hsteady _. wp_steps.
  assert (Hst1 : m_ConnectStatus c1 ≠ MQTTStatusDisconnected).
  { unfold steady in Hsteady. congruence. }
  eapply CloseConnection_spec; [apply Hc1|done|]. intros c2 _ [_ Hst2].
  cbn. unfold OnDisconnect, set_members. wp_steps. apply wp_env. intros [] u El.
  apply lift_op_inv in El as [El _]. split; [exact Hst2|]. unfold members_of. cbn. by rewrite El.
Qed.
End schedule.


(** A session that began at second 0, in second 35. *)
Definition demo_publisher : CMQTTClient (W := Publisher.members * Script.t) :=
  SampleDemo.publisher (Script.sleep 3500 (Script.init [])).2.

Lemma demo_publisher_Inv : Inv true true false [] demo_publisher.
Proof.
  unfold demo_publisher, SampleDemo.publisher, Publisher.construct.
  apply SampleDemo.sample_connected_Inv; [apply publisher_ok|by apply (bool_decide_unpack _)|by vm_compute].
Qed.


(** * Messages the subscriber receives *)

Definition show (topic payload : list Z) : list fmt_arg := [ArgS topic; ArgS (shown payload)].
Definition show_format : string :=
  "OnMessage (" +:+ quoted "%s" +:+ ", " +:+ quoted "%s" +:+ ")".

Lemma OnMessage_run `{Target, Platform W, PtrList, SamplePlatform W} topic payload retain
    (c : CMQTTClient (W := Subscriber.members * W)) :
  Subscriber.OnMessage topic payload retain c = log LogNotice show_format (show topic payload) c.
Proof.
  unfold Subscriber.OnMessage. destruct (payload_shown payload) as (cells & E1 & E2).
  erewrite bind_run; [|unfold lift_res; by rewrite E1].
  erewrite bind_run; [|unfold lift_res; by rewrite E2]. done.
Qed.

(** C36: what the subscriber makes of a message.  A PUBLISH packet with a topic
    and a payload that arrives with QoS 0 or 1 writes one line to the log, with
    the topic and the payload, of which the first 255 bytes up to a zero are
    shown; nothing outside the array on the stack is touched, however long the
    payload is.  With QoS 1 the packet is acknowledged with its identifier
    first, and if that fails nothing is shown and the connection ends. *)
Theorem subscriber_message `{Target, Platform W, !PlatformOk W, PtrList, !PtrListOk,
    SamplePlatform W} bTopic bReceive w X (c : CMQTTClient (W := Subscriber.members * W))
    fl content rest topic payload us :
  Inv bTopic bReceive w X c → arrived c MQTTPublish fl content rest →
  m_ConnectStatus c ≠ MQTTStatusDisconnected → ReceivePacket.flags_qos fl < 2 →
  read_publish (ReceivePacket.flags_qos fl) (m_nMaxTopicSize c + 1) content
    = PublishRead topic payload us →
  ∃ c1, read_buffers c c1 ∧
    let shows := (log LogNotice show_format (show (until_nul topic) payload);;
                  rp_op ReceivePacket.Complete) in
    if ReceivePacket.flags_qos fl =? 0 then handle_packet Subscriber.callbacks c = shows c1
    else ∃ b c2, send_ack MQTTPubAck us c1 = Ok (b, c2) ∧
      handle_packet Subscriber.callbacks c =
        if b then shows c2
        else (rp_op ReceivePacket.Complete;;
              CloseConnection Subscriber.callbacks MQTTDisconnectSendFailed) c2.
Proof.
  intros Hc Ha Hst Hq Hrd. pose proof Hc as [[_ (Hmt & _ & Htb & _) _ _ _ Hcc] _].
  destruct (Hcc Hst) as (_ & HbT & _). rewrite HbT in Htb. destruct Htb as (tb & Htb & Hl).
  pose proof (arrived_ok _ _ _ _ _ Ha) as [_ Hbytes].
  pose proof (HandlePublish_run Subscriber.callbacks _ _ _ _ _ Ha Htb Hl ltac:(lia)) as Hrun.
  cbv zeta in Hrun. rewrite Hrd in Hrun. destruct Hrun as (c1 & i & Hrb & Hready & Erun).
  exists c1. split; [done|]. cbv zeta.
  assert (Eh : handle_packet Subscriber.callbacks c = HandlePublish Subscriber.callbacks c).
  { unfold handle_packet. erewrite bind_run; [|done]. pose proof Ha as (Et & _).
    unfold ReceivePacket.GetType. by rewrite Et. }
  rewrite Eh, Erun. unfold publish_received, MQTT_QOS_AT_MOST_ONCE, MQTT_QOS_AT_LEAST_ONCE.
  destruct (Z.eqb_spec (ReceivePacket.flags_qos fl) 0) as [Hq0|Hq0].
  - rewrite !bind_unfold. erewrite deliver_run by done. cbn [OnMessage Subscriber.callbacks].
    by rewrite OnMessage_run.
  - pose proof (flags_qos_bound fl). replace (ReceivePacket.flags_qos fl) with 1 by lia.
    cbn [Z.eqb Pos.eqb].
    assert (Hus : is_u16 us) by by eapply read_publish_us.
    assert (Hack : wp no_fault (send_ack MQTTPubAck us) (λ _ c2, steady c2 = steady c1) c1).
    { apply (send_ack_spec bTopic bReceive no_fault w X); [by eapply read_buffers_Inv|done|done|].
      by intros. }
    destruct (wp_total _ _ _ Hack) as (b & c2 & Eack & Hst2).
    exists b, c2. split; [done|]. erewrite bind_run; [|exact Eack].
    destruct b; cbn [negb]; [|done].
    assert (Hready2 : ready c2 topic i payload rest).
    { eapply ready_other; [exact Hready| |]; unfold steady in Hst2; congruence. }
    rewrite !bind_unfold. erewrite deliver_run by done. cbn [OnMessage Subscriber.callbacks].
    by rewrite OnMessage_run.
Qed.

Definition demo_message : list Z := [0; 1; 116; 0; 9; 72; 105].

Definition demo_subscriber : CMQTTClient (W := Subscriber.members * Script.t) :=
  set_m_ReceivePacket
    (m_ReceivePacket (Demo.with_packet MQTTPublish 2 demo_message Demo.connected))
    SampleDemo.subscriber.

Lemma arrived_derived {D} c0 (c : CMQTTClient (W := D * Script.t)) t fl content rest :
  arrived c0 t fl content rest →
  arrived (set_m_ReceivePacket (m_ReceivePacket c0) c) t fl content rest.
Proof. done. Qed.

Lemma demo_subscriber_arrived : arrived demo_subscriber MQTTPublish 2 demo_message [].
Proof.
  apply arrived_derived, Demo.packet_arrives; [done|by apply (bool_decide_unpack _)|done].
Qed.

Lemma demo_subscriber_Inv : Inv true true false [] demo_subscriber.
Proof.
  apply Inv_rp; [|done| |done].
  - unfold SampleDemo.subscriber, Subscriber.construct.
    apply SampleDemo.sample_connected_Inv; [apply subscriber_ok|by apply (bool_decide_unpack _)|by vm_compute].
  - destruct demo_subscriber_arrived as (_ & _ & _ & _ & _ & hdr & [Hb _] & _). eauto.
Qed.

Lemma subscriber_message_witness :
  ∃ c1 b c2, read_buffers demo_subscriber c1 ∧ send_ack MQTTPubAck 9 c1 = Ok (b, c2) ∧
    handle_packet Subscriber.callbacks demo_subscriber =
      if b then (log LogNotice show_format [ArgS [116]; ArgS [72; 105]];;
                 rp_op ReceivePacket.Complete) c2
      else (rp_op ReceivePacket.Complete;;
            CloseConnection Subscriber.callbacks MQTTDisconnectSendFailed) c2.
Proof.
  assert (Est : m_ConnectStatus demo_subscriber ≠ MQTTStatusDisconnected) by (vm_compute; done).
  assert (Emt : m_nMaxTopicSize demo_subscriber = 256) by (vm_compute; reflexivity).
  destruct (subscriber_message true true false [] demo_subscriber 2 demo_message [] [116] [72; 105] 9)
    as (c1 & Hrb & b & c2 & E1 & E2).
  - apply demo_subscriber_Inv.
  - apply demo_subscriber_arrived.
  - exact Est.
  - reflexivity.
  - rewrite Emt. reflexivity.
  - exists c1, b, c2. split; [exact Hrb|]. split; [exact E1|exact E2].
Defined.
