(* ===== verification/ButtonTask.v ===== *)
(** The task that watches a push button: the class [CButtonTask] of the socket
    sample, [samples/06-socket/buttontask.cpp].

    Its functions run in three places: [Run] is the task, [InterruptHandler] and
    [TimerHandler] run in interrupts, at any point of the task, and [Terminate]
    is called by another task, while this one has given up the processor.  The
    pin, the kernel timers and the event belong to Circle; the timers and the
    event are interfaces here. *)
From stdpp Require Import base numbers list gmap option relations.
From S2P Require Import Prelude.

(** * What the class uses of Circle *)

(** Kernel timers: a timer has a handle that is not 0 and elapses at a time.
    [timer_map] is the abstract content, [elapsed] what the timer service does
    to it before it calls the handler.  Times are in ticks. *)
Class KernelTimers := {
  Timers : Type;
  no_timers : Timers;
  MSEC2HZ : Z → Z;
  StartKernelTimer : Z → Z → Timers → Z * Timers;
  CancelKernelTimer : Z → Timers → Timers;
  elapsed : Z → Timers → Timers;
  timer_map : Timers → gmap Z Z
}.

Class KernelTimersOk `{KernelTimers} := {
  no_timers_map : timer_map no_timers = ∅;
  MSEC2HZ_pos n : 0 < n → 0 ≤ MSEC2HZ n;
  StartKernelTimer_map now delay t :
    let '(h, t') := StartKernelTimer now delay t in
    h ≠ 0 ∧ timer_map t !! h = None ∧ timer_map t' = <[h := now + delay]> (timer_map t);
  CancelKernelTimer_map h t : timer_map (CancelKernelTimer h t) = delete h (timer_map t);
  elapsed_map h t : timer_map (elapsed h t) = delete h (timer_map t)
}.

Class SyncEvent := {
  CSynchronizationEvent : Type;
  event_init : CSynchronizationEvent;
  Event_Set : CSynchronizationEvent → CSynchronizationEvent;
  Event_Clear : CSynchronizationEvent → CSynchronizationEvent;
  GetState : CSynchronizationEvent → bool
}.

Class SyncEventOk `{SyncEvent} := {
  event_init_state : GetState event_init = false;
  Event_Set_state e : GetState (Event_Set e) = true;
  Event_Clear_state e : GetState (Event_Clear e) = false
}.

Module Button.
Inductive TGPIOLevel := LOW | HIGH.
#[export] Instance TGPIOLevel_eq_dec : EqDecision TGPIOLevel.
Proof. solve_decision. Defined.

Section button.
Context `{KernelTimers, SyncEvent}.

(** The members of the class that change. *)
Record CButtonTask := mkTask {
  m_Event : CSynchronizationEvent;
  m_bTerminate : bool;
  m_hTimer : Z
}.

(** What has happened, for the statement of properties: the handlers of the
    interrupts, the calls of the handler of the application, and [Terminate],
    with their times. *)
Inductive happening :=
  | Edge (t : Z)
  | Fired (t : Z) (level : TGPIOLevel)
  | Called (t : Z)
  | Terminated (t : Z).

(** The points of [Run] between which interrupts come: a point names the
    statement that is executed next.  The task gives up the processor at
    [AtWait], and in the handler of the application, [InHandler]. *)
Inductive point :=
  | AtConnect | AtEnable | AtLoop | AtClear | AtWait | AtTest | AtCall | InHandler
  | AtDisable | AtDisconnect | AtEnd.
#[export] Instance point_eq_dec : EqDecision point.
Proof. solve_decision. Defined.

(** The object, with the state of the timers, of the pin and its interrupt, the
    time, the point of [Run], and what has happened (latest first). *)
Record sys := mkSys {
  task : CButtonTask;
  timers : Timers;
  level : TGPIOLevel;
  connected : bool;
  edge_enabled : bool;
  now : Z;
  pc : point;
  history : list happening
}.

Definition set_task (x : CButtonTask) (s : sys) : sys :=
  mkSys x (timers s) (level s) (connected s) (edge_enabled s) (now s) (pc s) (history s).
Definition set_timers (x : Timers) (s : sys) : sys :=
  mkSys (task s) x (level s) (connected s) (edge_enabled s) (now s) (pc s) (history s).
Definition set_level (x : TGPIOLevel) (s : sys) : sys :=
  mkSys (task s) (timers s) x (connected s) (edge_enabled s) (now s) (pc s) (history s).
Definition set_connected (x : bool) (s : sys) : sys :=
  mkSys (task s) (timers s) (level s) x (edge_enabled s) (now s) (pc s) (history s).
Definition set_edge_enabled (x : bool) (s : sys) : sys :=
  mkSys (task s) (timers s) (level s) (connected s) x (now s) (pc s) (history s).
Definition set_now (x : Z) (s : sys) : sys :=
  mkSys (task s) (timers s) (level s) (connected s) (edge_enabled s) x (pc s) (history s).
Definition set_pc (x : point) (s : sys) : sys :=
  mkSys (task s) (timers s) (level s) (connected s) (edge_enabled s) (now s) x (history s).
Definition record (h : happening) (s : sys) : sys :=
  mkSys (task s) (timers s) (level s) (connected s) (edge_enabled s) (now s) (pc s)
    (h :: history s).

Definition set_m_Event (x : CSynchronizationEvent) (s : sys) : sys :=
  set_task (mkTask x (m_bTerminate (task s)) (m_hTimer (task s))) s.
Definition set_m_bTerminate (x : bool) (s : sys) : sys :=
  set_task (mkTask (m_Event (task s)) x (m_hTimer (task s))) s.
Definition set_m_hTimer (x : Z) (s : sys) : sys :=
  set_task (mkTask (m_Event (task s)) (m_bTerminate (task s)) x) s.

(** The constructor, with the pin at a level and before the task runs. *)
Definition construct (lv : TGPIOLevel) : sys :=
  mkSys (mkTask event_init false 0) no_timers lv false false 0 AtConnect [].

(** * The handlers *)

Definition InterruptHandler : M sys () :=
  modify (λ s, record (Edge (now s)) s);;
  s ← get;
  when (negb (m_hTimer (task s) =? 0))
    (modify (set_timers (CancelKernelTimer (m_hTimer (task s)) (timers s)));;
     modify (set_m_hTimer 0));;
  s ← get;
  let '(h, t) := StartKernelTimer (now s) (MSEC2HZ 50) (timers s) in
  modify (set_timers t);;
  modify (set_m_hTimer h).

Definition TimerHandler (hTimer : Z) : M sys () :=
  modify (λ s, record (Fired (now s) (level s)) s);;
  modify (set_m_hTimer 0);;
  s ← get;
  when (bool_decide (level s = LOW))
    (modify (λ s, set_m_Event (Event_Set (m_Event (task s))) s)).

(** [Terminate], up to the call of [Yield]. *)
Definition Terminate : M sys () :=
  modify (λ s, record (Terminated (now s)) s);;
  modify (set_m_bTerminate true);;
  modify (λ s, set_m_Event (Event_Set (m_Event (task s))) s).

(** * The task

    A step of [Run]; [None] when it waits, or has returned.  [bHandler] says
    that the pointer to the handler of the application is not null. *)
Context (bHandler : bool).

Definition Run_step (s : sys) : option (res (() * sys)) :=
  match pc s with
  | AtConnect => Some (Ok ((), set_pc AtEnable (set_connected true s)))
  | AtEnable => Some (Ok ((), set_pc AtLoop (set_edge_enabled true s)))
  | AtLoop => Some (Ok ((), set_pc (if negb (m_bTerminate (task s)) then AtClear else AtDisable) s))
  | AtClear => Some (Ok ((), set_pc AtWait (set_m_Event (Event_Clear (m_Event (task s))) s)))
  | AtWait => if GetState (m_Event (task s)) then Some (Ok ((), set_pc AtTest s)) else None
  | AtTest => Some (Ok ((), set_pc (if negb (m_bTerminate (task s)) then AtCall else AtLoop) s))
  | AtCall =>
      Some ((assert_ bHandler;; modify (λ s, set_pc InHandler (record (Called (now s)) s))) s)
  | InHandler => Some (Ok ((), set_pc AtLoop s))
  | AtDisable => Some (Ok ((), set_pc AtDisconnect (set_edge_enabled false s)))
  | AtDisconnect => Some (Ok ((), set_pc AtEnd (set_connected false s)))
  | AtEnd => None
  end.

(** * The steps of the system *)
Inductive action :=
  | ATask                 (** the task goes on *)
  | ATick                 (** time passes *)
  | AFall                 (** the pin falls: the interrupt, if it is enabled *)
  | ARise                 (** the pin rises *)
  | ATimer (h : Z)        (** a kernel timer that is due calls its handler *)
  | ATerminate.           (** another task calls [Terminate] *)

(** Whether the task has given up the processor, or has not started. *)
Definition yields (p : point) : bool :=
  match p with AtConnect | AtWait | InHandler => true | _ => false end.

(** The effect of an action; [None] when it is not possible. *)
Definition act (a : action) (s : sys) : option (res (() * sys)) :=
  match a with
  | ATask => Run_step s
  | ATick => Some (Ok ((), set_now (now s + 1) s))
  | AFall =>
      if bool_decide (level s = HIGH) then
        Some (when (connected s && edge_enabled s) InterruptHandler (set_level LOW s))
      else None
  | ARise => if bool_decide (level s = LOW) then Some (Ok ((), set_level HIGH s)) else None
  | ATimer h =>
      match timer_map (timers s) !! h with
      | Some t => if t <=? now s then Some (TimerHandler h (set_timers (elapsed h (timers s)) s))
                  else None
      | None => None
      end
  | ATerminate => if yields (pc s) then Some (Terminate s) else None
  end.

Definition step (a : action) (s s' : sys) : Prop := act a s = Some (Ok ((), s')).

Inductive reachable : sys → Prop :=
  | reachable_start lv : reachable (construct lv)
  | reachable_step a s s' : reachable s → step a s s' → reachable s'.

(** A run given by its actions. *)
Fixpoint exec (l : list action) (s : sys) : option sys :=
  match l with
  | [] => Some s
  | a :: l => match act a s with
              | Some (Ok (_, s')) => exec l s'
              | _ => None
              end
  end.
End button.
End Button.
