(* ===== verification/ButtonProps.v ===== *)
(** Properties of the button task: presses are debounced, reported at most once
    and, while the task waits, at least once; and [Terminate] ends the task. *)
From stdpp Require Import base numbers list gmap option relations.
From S2P Require Import Prelude.
From S2P Require Import ButtonTask.
Import Button.

Section props.
Context `{KernelTimers, !KernelTimersOk, SyncEvent, !SyncEventOk} (bHandler : bool).
Implicit Types (s : sys) (h : list happening).

(** ** What a history shows *)

(** The latest interrupt: an edge at a time, or a timer that fired. *)
Fixpoint last_interrupt h : option (Z * bool) :=
  match h with
  | [] => None
  | Edge t :: _ => Some (t, true)
  | Fired t _ :: _ => Some (t, false)
  | _ :: h => last_interrupt h
  end.

(** Every timer that fires belongs to an edge: the latest interrupt before it
    is an edge, at least 50 ms earlier. *)
Fixpoint debounced h : Prop :=
  match h with
  | [] => True
  | Fired t _ :: h =>
      (∃ t0, last_interrupt h = Some (t0, true) ∧ t0 + MSEC2HZ 50 ≤ t) ∧ debounced h
  | _ :: h => debounced h
  end.

(** The presses that were confirmed, and the calls of the handler. *)
Definition is_press (e : happening) : bool := match e with Fired _ LOW => true | _ => false end.
Definition is_call (e : happening) : bool := match e with Called _ => true | _ => false end.
Definition count (p : happening → bool) h : nat := length (List.filter p h).
Abbreviation presses := (count is_press).
Abbreviation calls := (count is_call).

(** ** The invariant *)

(** At most one timer runs: the one the object knows, for the latest edge. *)
Definition timer_inv s : Prop :=
  if m_hTimer (task s) =? 0 then timer_map (timers s) = ∅
  else ∃ t0, last_interrupt (history s) = Some (t0, true) ∧
         timer_map (timers s) = {[ m_hTimer (task s) := t0 + MSEC2HZ 50 ]}.

(** The presses the task is about to report. *)
Definition credit s : nat :=
  match pc s with
  | AtWait => if GetState (m_Event (task s)) && negb (m_bTerminate (task s)) then 1 else 0
  | AtTest => if m_bTerminate (task s) then 0 else 1
  | AtCall => 1
  | _ => 0
  end.

(** A task that is to end does not fall asleep again. *)
Definition ending_inv s : Prop :=
  m_bTerminate (task s) = true →
  pc s ≠ AtClear ∧ pc s ≠ AtCall ∧ (pc s = AtWait → GetState (m_Event (task s)) = true).

Definition exit_inv s : Prop :=
  match pc s with
  | AtDisable | AtDisconnect | AtEnd => m_bTerminate (task s) = true
  | _ => True
  end.

(** The part of the invariant that does not depend on the timer. *)
Record rest_inv s : Prop := {
  inv_debounced : debounced (history s);
  inv_credit : (calls (history s) + credit s ≤ presses (history s))%nat;
  inv_ending : ending_inv s;
  inv_exit : exit_inv s
}.
Definition inv s : Prop := timer_inv s ∧ rest_inv s.

Lemma construct_inv lv : inv (construct lv).
Proof using Type*. split; [apply no_timers_map|by split; cbn]. Qed.

Lemma rest_inv_same s s' :
  rest_inv s → history s' = history s → pc s' = pc s → m_Event (task s') = m_Event (task s) →
  m_bTerminate (task s') = m_bTerminate (task s) → rest_inv s'.
Proof using Type*.
  intros [Hd Hc He Hx] Eh Ep Ee Et.
  split; unfold credit, ending_inv, exit_inv in *; by rewrite ?Eh, ?Ep, ?Ee, ?Et.
Qed.

Lemma credit_bound s : (credit s ≤ 1)%nat.
Proof using Type*. unfold credit. repeat case_match; lia. Qed.

(** The interrupt of the pin leaves exactly one timer, for this edge. *)
Lemma InterruptHandler_inv s : inv s → wp no_fault InterruptHandler (λ _ s', inv s') s.
Proof using Type*.
  intros [Ht Hr]. unfold InterruptHandler. wp_steps.
  assert (Hstart : ∀ s1, timer_map (timers s1) = ∅ → last_interrupt (history s1) = Some (now s1, true) →
    rest_inv s1 →
    wp no_fault (s ← get;
      let '(h, t) := StartKernelTimer (now s) (MSEC2HZ 50) (timers s) in
      modify (set_timers t);; modify (set_m_hTimer h)) (λ _ s', inv s') s1).
  { intros s1 Hm Hl Hr1. wp_steps. pose proof (StartKernelTimer_map (now s1) (MSEC2HZ 50) (timers s1)) as Hs.
    destruct (StartKernelTimer _ _ _) as [h t]. destruct Hs as (Hh & _ & Hs). wp_steps. split.
    - unfold timer_inv. cbn. destruct (Z.eqb_spec h 0); [done|]. exists (now s1).
      split; [exact Hl|]. by rewrite Hs, Hm, insert_empty.
    - by eapply rest_inv_same. }
  assert (Hr1 : rest_inv (record (Edge (now s)) s)) by (destruct Hr; by split).
  unfold timer_inv in Ht. apply wp_when; cbn [task record]; intros E.
  - wp_steps. apply Hstart; [|done|by eapply rest_inv_same].
    cbn. rewrite CancelKernelTimer_map. destruct (Z.eqb_spec (m_hTimer (task s)) 0); [done|].
    destruct Ht as (t0 & _ & ->). apply delete_singleton_eq.
  - apply Hstart; [|done|done]. cbn. by destruct (m_hTimer (task s) =? 0).
Qed.

Lemma TimerHandler_inv s (h t : Z) :
  inv s → timer_map (timers s) !! h = Some t → t ≤ now s →
  wp no_fault (TimerHandler h) (λ _ s', inv s') (set_timers (elapsed h (timers s)) s).
Proof using Type*.
  intros [Ht Hr] Hh Hnow. unfold timer_inv in Ht.
  destruct (Z.eqb_spec (m_hTimer (task s)) 0) as [Eh|Eh]; [by rewrite Ht in Hh|].
  destruct Ht as (t0 & Hl & Hm). rewrite Hm in Hh. apply lookup_singleton_Some in Hh as [<- <-].
  unfold TimerHandler. wp_steps.
  assert (Hempty : timer_map (elapsed (m_hTimer (task s)) (timers s)) = ∅).
  { rewrite elapsed_map, Hm. apply delete_singleton_eq. }
  destruct Hr as [Hd Hc He Hx].
  assert (Hdeb : debounced (Fired (now s) (level s) :: history s)) by (cbn; eauto).
  apply wp_when; cbn [level set_m_hTimer set_task record set_timers]; intros E.
  - apply bool_decide_eq_true_1 in E. wp_steps. split; [exact Hempty|].
    split; [exact Hdeb| | |exact Hx].
    + match goal with |- (_ + credit ?x <= _)%nat => 
        pose proof (credit_bound x) as Hk; revert Hk; generalize (credit x) end.
      intros k Hk. unfold count in *. cbn. rewrite E. cbn. lia.
    + unfold ending_inv in *. cbn. rewrite Event_Set_state. naive_solver.
  - apply bool_decide_eq_false_1 in E. destruct (level s) eqn:El; [done|]. split; [exact Hempty|].
    split; [exact Hdeb|exact Hc|exact He|exact Hx].
Qed.

Lemma Terminate_inv s : yields (pc s) = true → inv s → wp no_fault Terminate (λ _ s', inv s') s.
Proof using Type*.
  intros Hy [Ht [Hd Hc He Hx]]. unfold Terminate. wp_steps. split; [exact Ht|].
  split; [exact Hd| | |].
  - unfold count, credit in *. cbn. destruct (pc s); cbn in *; try done; try lia.
    rewrite andb_false_r. lia.
  - unfold ending_inv. cbn. rewrite Event_Set_state. intros _. by destruct (pc s).
  - unfold exit_inv. cbn. by destruct (pc s).
Qed.

(** A step that only moves the task. *)
Lemma inv_move s s' :
  inv s → timers s' = timers s → m_hTimer (task s') = m_hTimer (task s) → history s' = history s →
  (credit s' ≤ credit s)%nat → ending_inv s' → exit_inv s' → inv s'.
Proof using Type*.
  intros [Ht [Hd Hc He Hx]] E1 E2 E3 Hcr He' Hx'. split; [unfold timer_inv in *; by rewrite E1, E2, E3|].
  split; rewrite ?E3; [done|lia|done|done].
Qed.

(** A step of the task. *)
Lemma Run_step_inv s r : inv s → Run_step bHandler s = Some r →
  match r with Ok (_, s') => inv s' | Fault e => e = AssertFailed ∧ bHandler = false end.
Proof using Type*.
  intros Hi E. pose proof Hi as [Ht [Hd Hc He Hx]]. unfold Run_step in E.
  unfold ending_inv, exit_inv in He, Hx.
  destruct (decide (pc s = AtCall)) as [Ep|Hncall].
  { rewrite Ep in E. injection E as <-. rewrite bind_unfold. unfold assert_.
    destruct bHandler; [|done]. split; [exact Ht|]. split; [exact Hd| | |done].
    - unfold credit in Hc. rewrite Ep in Hc. unfold count in *. cbn. lia.
    - unfold ending_inv. cbn. naive_solver. }
  destruct (pc s) eqn:Ep; simplify_eq/=; try (destruct (GetState (m_Event (task s))) eqn:Eg; simplify_eq/=);
    (eapply inv_move; [exact Hi|done..| | |]);
    unfold credit, ending_inv, exit_inv; cbn; rewrite ?Ep, ?Eg, ?Event_Clear_state; cbn;
    destruct (m_bTerminate (task s)); cbn; naive_solver lia.
Qed.

Lemma act_inv a s r : inv s → act bHandler a s = Some r →
  match r with Ok (_, s') => inv s' | Fault e => e = AssertFailed ∧ bHandler = false end.
Proof using Type*.
  intros Hi E.
  assert (Hwp : ∀ (m : M sys ()) s1, wp no_fault m (λ _ s', inv s') s1 → r = m s1 →
    match r with Ok (_, s') => inv s' | Fault e => e = AssertFailed ∧ bHandler = false end).
  { intros m s1 Hm ->. unfold wp in Hm. by destruct (m s1) as [[[] ?]|]. }
  assert (Hmove : ∀ s', r = Ok ((), s') → timers s' = timers s → task s' = task s →
    history s' = history s → pc s' = pc s →
    match r with Ok (_, s') => inv s' | Fault e => e = AssertFailed ∧ bHandler = false end).
  { intros s' -> E1 E2 E3 E4. pose proof Hi as [_ [_ _ He Hx]].
    eapply inv_move; [exact Hi|done|by rewrite E2|done|..];
      unfold credit, ending_inv, exit_inv in *; by rewrite ?E2, ?E4. }
  destruct a; cbn [act] in E.
  - by eapply Run_step_inv.
  - injection E as <-. by eapply Hmove.
  - case_bool_decide; [|done]. injection E as <-.
    assert (Hl : inv (set_level LOW s)) by by (destruct Hi as [? []]; split).
    destruct (connected s && edge_enabled s); cbn [when]; [|by eapply Hmove].
    eapply Hwp; [by apply InterruptHandler_inv|done].
  - case_bool_decide; [|done]. injection E as <-. by eapply Hmove.
  - destruct (timer_map (timers s) !! h) as [t|] eqn:Eh; [|done].
    destruct (Z.leb_spec t (now s)); [|done]. injection E as <-.
    eapply Hwp; [by eapply TimerHandler_inv|done].
  - destruct (yields (pc s)) eqn:Ey; [|done]. injection E as <-.
    eapply Hwp; [by apply Terminate_inv|done].
Qed.

Lemma button_reachable_inv s : reachable bHandler s → inv s.
Proof using Type*.
  induction 1 as [|a s s' _ IH E]; [apply construct_inv|]. by apply (act_inv a s _ IH E).
Qed.

(** ** Steps of the others *)

(** What can happen while the task does not run, [Terminate] apart. *)
Definition others (s s' : sys) : Prop :=
  ∃ a, a ≠ ATask ∧ a ≠ ATerminate ∧ step bHandler a s s'.

Lemma InterruptHandler_keeps s :
  wp no_fault InterruptHandler (λ _ s', pc s' = pc s ∧ m_Event (task s') = m_Event (task s) ∧
    m_bTerminate (task s') = m_bTerminate (task s) ∧
    history s' = Edge (now s) :: history s) s.
Proof using Type*.
  unfold InterruptHandler. wp_steps.
  apply wp_when; intros _; wp_steps; destruct (StartKernelTimer _ _ _) as [h t]; by wp_steps.
Qed.

Lemma TimerHandler_keeps (h : Z) s :
  wp no_fault (TimerHandler h) (λ _ s', pc s' = pc s ∧
    m_bTerminate (task s') = m_bTerminate (task s) ∧
    (GetState (m_Event (task s)) = true ∨ level s = LOW → GetState (m_Event (task s')) = true) ∧
    history s' = Fired (now s) (level s) :: history s) s.
Proof using Type*.
  unfold TimerHandler. wp_steps.
  apply wp_when; cbn [level set_m_hTimer set_task record]; intros E; wp_steps; split_and!; try done.
  - intros _. apply Event_Set_state.
  - apply bool_decide_eq_false_1 in E. by intros [?|?].
Qed.

(** The others leave the task at its point, and the event set. *)
Lemma others_keep s s' :
  rtc others s s' → pc s' = pc s ∧ m_bTerminate (task s') = m_bTerminate (task s) ∧
    (GetState (m_Event (task s)) = true → GetState (m_Event (task s')) = true) ∧
    calls (history s') = calls (history s).
Proof using Type*.
  induction 1 as [|s s1 s2 (a & Ha1 & Ha2 & E) _ IH]; [done|].
  enough (pc s1 = pc s ∧ m_bTerminate (task s1) = m_bTerminate (task s) ∧
    (GetState (m_Event (task s)) = true → GetState (m_Event (task s1)) = true) ∧
    calls (history s1) = calls (history s)) as (E1 & E2 & E3 & E4).
  { rewrite E1, E2, E4 in IH. naive_solver. }
  clear IH. unfold step in E. destruct a; cbn [act] in E; try done.
  - by simplify_eq.
  - case_bool_decide; [|done]. destruct (connected s && edge_enabled s); cbn [when] in E; injection E as E; [|by subst].
    pose proof (wp_Ok _ _ _ _ _ _ (InterruptHandler_keeps (set_level LOW s)) E)
      as (-> & -> & -> & ->). done.
  - case_bool_decide; by simplify_eq.
  - destruct (timer_map (timers s) !! h); [|done]. destruct (_ <=? _); [|done].
    injection E as E. pose proof (wp_Ok _ _ _ _ _ _ (TimerHandler_keeps h _) E) as (-> & -> & Hev & ->).
    split_and!; [done|done|by auto|by cbn; destruct (level s)].
Qed.

Lemma others_inv s s' : inv s → rtc others s s' → inv s'.
Proof using Type*.
  intros Hi. induction 1 as [|s s1 s2 (a & _ & _ & E) _ IH]; [done|]. apply IH.
  by apply (act_inv a s _ Hi E).
Qed.

(** ** The end of the task *)

(** The steps of the task that remain once it is to end. *)
Definition to_go (p : point) : nat :=
  match p with
  | AtConnect => 5 | AtEnable => 4
  | AtWait => 5 | AtTest => 4 | InHandler => 4
  | AtLoop => 3 | AtDisable => 2 | AtDisconnect => 1
  | AtClear => 0 | AtCall => 0 | AtEnd => 0
  end.

(** The task returns after at most [n] steps, whatever happens between them,
    and calls the handler in none of them. *)
Fixpoint ends (n : nat) s : Prop :=
  pc s = AtEnd ∨
  match n with
  | O => False
  | S n => ∀ s1, rtc others s s1 → ∃ s2, step bHandler ATask s1 s2 ∧
             calls (history s2) = calls (history s) ∧ ends n s2
  end.

Lemma ends_from n s :
  inv s → m_bTerminate (task s) = true → (to_go (pc s) ≤ n)%nat → ends n s.
Proof using Type*.
  revert s. induction n as [|n IH]; intros s Hi Ht Hn; pose proof Hi as [_ [_ _ He _]];
    destruct (He Ht) as (Hn1 & Hn2 & Hw).
  { left. by destruct (pc s); cbn in Hn; try lia. }
  destruct (decide (pc s = AtEnd)) as [|Hne]; [by left|]. right. intros s1 Hs1.
  destruct (others_keep s s1 Hs1) as (Ep & Et & Hev & Ec).
  pose proof (others_inv s s1 Hi Hs1) as Hi1.
  assert (Hstep : ∃ s2, Run_step bHandler s1 = Some (Ok ((), s2)) ∧ (to_go (pc s2) < to_go (pc s1))%nat ∧
    m_bTerminate (task s2) = true ∧ history s2 = history s1).
  { unfold Run_step. rewrite Ep, Et, Ht in *. destruct (pc s); try done; cbn [negb];
      try (eexists; split; [reflexivity|cbn; rewrite ?Et, ?Ep; split_and!; [lia|done|done]]).
    rewrite Hev by auto. eexists. split; [reflexivity|]. cbn. rewrite Et. by split_and!; [lia|..]. }
  destruct Hstep as (s2 & E & Hlt & Ht2 & Eh). exists s2. split; [exact E|].
  split; [by rewrite Eh|]. apply IH; [|done|rewrite Ep in Hlt; lia].
  exact (act_inv ATask s1 (Ok ((), s2)) Hi1 E).
Qed.
End props.

(** * Concrete runs *)
Module ButtonDemo.
#[export] Instance event : SyncEvent := {|
  CSynchronizationEvent := bool;
  event_init := false;
  Event_Set _ := true;
  Event_Clear _ := false;
  GetState b := b
|}.
#[export] Instance event_ok : SyncEventOk.
Proof. by split. Qed.

(** Handles are the least positive numbers that are free, ticks are 10 ms. *)
Definition fresh_handle (t : gmap Z Z) : Z := 1 + map_fold (λ h _ m, Z.max h m) 0 t.

Lemma fresh_handle_lt (t : gmap Z Z) : ∀ h, is_Some (t !! h) → h < fresh_handle t.
Proof.
  unfold fresh_handle. intros h Hh. enough (h ≤ map_fold (λ h _ m, Z.max h m) 0 t) by lia.
  revert h Hh. apply (map_fold_weak_ind (λ m t, ∀ h, is_Some (t !! h) → h ≤ m)).
  - intros h. rewrite lookup_empty. by intros [? ?].
  - intros i x m r _ IH h. destruct (decide (h = i)) as [->|]; [lia|].
    rewrite lookup_insert_ne by done. intros Hh%IH. lia.
Qed.

Lemma fresh_handle_pos (t : gmap Z Z) : 0 < fresh_handle t.
Proof.
  unfold fresh_handle. enough (0 ≤ map_fold (λ h _ m, Z.max h m) 0 t) by lia.
  apply (map_fold_weak_ind (λ m _, 0 ≤ m)); lia.
Qed.

#[export] Instance kernel_timers : KernelTimers := {|
  Timers := gmap Z Z;
  no_timers := ∅;
  MSEC2HZ n := n / 10;
  StartKernelTimer now delay t := (fresh_handle t, <[fresh_handle t := now + delay]> t);
  CancelKernelTimer h t := delete h t;
  elapsed h t := delete h t;
  timer_map t := t
|}.
#[export] Instance kernel_timers_ok : KernelTimersOk.
Proof.
  split; cbn; try done.
  - intros n Hn. apply Z.div_pos; lia.
  - intros now delay t. pose proof (fresh_handle_pos t). split_and!; [lia| |done].
    destruct (t !! fresh_handle t) eqn:E; [|done].
    pose proof (fresh_handle_lt t (fresh_handle t) ltac:(by eexists)). lia.
Qed.

(** The button is pressed for some ticks, and bounces once. *)
Definition press : list action := [AFall; ATick; ARise; AFall; ATick; ATick; ATick; ATick; ATick].
Definition start : list action := [ATask; ATask; ATask; ATask].

Lemma exec_reachable bHandler l s s' :
  reachable bHandler s → exec bHandler l s = Some s' → reachable bHandler s'.
Proof.
  revert s. induction l as [|a l IH]; intros s Hs E; cbn in E; [by simplify_eq|].
  destruct (act bHandler a s) as [[[[] s1]|]|] eqn:Ea; [|done..].
  eapply IH; [|exact E]. by eapply reachable_step.
Qed.

Definition run (l : list action) : sys := default (construct HIGH) (exec true l (construct HIGH)).

Lemma run_reachable l : reachable true (run l).
Proof.
  unfold run. destruct (exec true l (construct HIGH)) eqn:E; cbn; [|apply reachable_start].
  eapply exec_reachable; [apply reachable_start|exact E].
Qed.
End ButtonDemo.
Import (hints) ButtonDemo.

(** C9: debouncing.  Whatever the pin does, whenever interrupts come and the
    timers fire, and whenever another task terminates this one: at most one
    kernel timer runs for the object, the one whose handle it has stored, and it
    elapses 50 ms after the latest edge of the pin; every timer that has fired
    followed an edge by at least 50 ms, with no other edge or timer between; the
    handler of the application was called at most once for every press that was
    found to be still on when its timer fired; and no step faults, if there is a
    handler. *)
Theorem button_debounced `{KernelTimers, !KernelTimersOk, SyncEvent, !SyncEventOk} bHandler s :
  reachable bHandler s →
  (∀ h t, timer_map (timers s) !! h = Some t →
    h = m_hTimer (task s) ∧
    ∃ t0, last_interrupt (history s) = Some (t0, true) ∧ t = t0 + MSEC2HZ 50) ∧
  debounced (history s) ∧
  (count is_call (history s) ≤ count is_press (history s))%nat ∧
  ∀ a, bHandler = true → act bHandler a s ≠ None → ∃ s', step bHandler a s s'.
Proof.
  intros Hr. pose proof (button_reachable_inv bHandler s Hr) as Hi.
  pose proof Hi as [Ht [Hd Hc _ _]]. split_and!; [|done|lia|].
  - intros h t Hh. unfold timer_inv in Ht. destruct (m_hTimer (task s) =? 0); [by rewrite Ht in Hh|].
    destruct Ht as (t0 & Hl & Hm). rewrite Hm in Hh. apply lookup_singleton_Some in Hh as [<- <-]. eauto.
  - intros a Hb Ha. destruct (act bHandler a s) as [[[[] s']|e]|] eqn:E; [by exists s'| |done].
    destruct (act_inv bHandler a s _ Hi E). congruence.
Qed.

Lemma button_debounced_witness :
  let s := ButtonDemo.run (ButtonDemo.start ++ ButtonDemo.press ++ [ATimer 1; ATask; ATask; ATask]) in
  count is_press (history s) = 1%nat ∧ debounced (history s) ∧
  (count is_call (history s) ≤ count is_press (history s))%nat.
Proof.
  cbv zeta. split; [vm_compute; reflexivity|].
  destruct (button_debounced true
    (ButtonDemo.run (ButtonDemo.start ++ ButtonDemo.press ++ [ATimer 1; ATask; ATask; ATask])))
    as (_ & Hd & Hc & _); [apply ButtonDemo.run_reachable|]. split; [exact Hd|exact Hc].
Defined.


(** A press while the task waits, before and after its timer fires. *)
Definition demo_pressed : sys := ButtonDemo.run (ButtonDemo.start ++ ButtonDemo.press).
Definition demo_fired : sys :=
  ButtonDemo.run (ButtonDemo.start ++ ButtonDemo.press ++ [ATimer 1]).


(** C35: [Terminate] ends the task.  From any state that can be reached in which
    [Terminate] has been called, at most five steps of the task are left; each
    of them is possible when the task gets the processor, so that it does not
    sleep through its end, and none calls the handler of the application. *)
Theorem terminate_ends `{KernelTimers, !KernelTimersOk, SyncEvent, !SyncEventOk} bHandler s :
  reachable bHandler s → m_bTerminate (task s) = true → ends bHandler 5 s.
Proof.
  intros Hr Ht. apply ends_from; [by eapply button_reachable_inv|done|]. by destruct (pc s); cbn; lia.
Qed.

Lemma terminate_ends_witness :
  ends true 5 (ButtonDemo.run (ButtonDemo.start ++ [ATerminate])).
Proof.
  apply terminate_ends; [apply ButtonDemo.run_reachable|vm_compute; reflexivity].
Defined.

(** A press can be lost.  While the handler of the application runs for a
    first press, a second one is confirmed; [Run] clears the event before it
    waits again, and the second press is never reported. *)
Theorem press_lost :
  ∃ s, reachable true s ∧ count is_press (history s) = 2%nat ∧ count is_call (history s) = 1%nat ∧
    pc s = AtWait ∧ GetState (m_Event (task s)) = false ∧ timer_map (timers s) = ∅ ∧
    act true ATask s = None.
Proof.
  exists (ButtonDemo.run (ButtonDemo.start ++ ButtonDemo.press ++ [ATimer 1; ATask; ATask; ATask] ++
    [ARise] ++ ButtonDemo.press ++ [ATimer 1; ATask; ATask; ATask])).
  split; [apply ButtonDemo.run_reachable|]. by vm_compute.
Qed.

(** A timer can outlive the task: [Run] returns while a timer with a pointer to
    the object runs. *)
Lemma timer_outlives :
  ∃ s, reachable true s ∧ pc s = AtEnd ∧ timer_map (timers s) ≠ ∅.
Proof.
  exists (ButtonDemo.run (ButtonDemo.start ++ [AFall; ATerminate; ATask; ATask; ATask; ATask; ATask])).
  split; [apply ButtonDemo.run_reachable|]. by vm_compute.
Qed.
