(* ===== verification/SocketApp.v ===== *)
(** The web server of the socket sample, [samples/06-socket/kernel.cpp]: the
    event handlers it gives to Mongoose, the queue of messages the button tasks
    share with them, and a round of its loop.

    Mongoose, the JSON library and Circle are not part of the repository; what
    the code calls of them is the class [Mongoose].  A connection is named by
    its address. *)
From stdpp Require Import base numbers list gmap option strings pretty sorting.
From S2P Require Import Prelude.

(** The kinds of files [stat] distinguishes. *)
Inductive file_kind := Directory | Regular | OtherFile.
#[export] Instance file_kind_eq_dec : EqDecision file_kind.
Proof. solve_decision. Defined.

Class Mongoose (W : Type) := {
  mg_http_message : Type;
  uri : mg_http_message → list Z;
  mg_match : list Z → list Z → bool;
  mg_ws_upgrade : Z → mg_http_message → W → () * W;
  mg_http_reply : Z → Z → list Z → W → () * W;
  mg_http_serve_file : Z → mg_http_message → list Z → W → () * W;
  mg_ws_send : Z → list Z → W → () * W;
  json_dump : list (string * Z) → list Z;
  stat : list Z → W → option file_kind * W;
  GetClockRate : W → Z * W;
  GetTemperature : W → Z * W;
  GetSoCMaxTemp : Z;
  GetGPIOFanPin : Z;
  CPUThrottle_Update : W → () * W;
  Logger_Write : string → list Z → W → () * W;
  (** What was handed to [mg_ws_send], in order. *)
  ws_sent : W → list (Z * list Z)
}.

(** A pattern without special characters matches itself only; and only
    [mg_ws_send] sends. *)
Class MongooseOk (W : Type) `{Mongoose W} := {
  mg_match_plain s p :
    Forall (λ c, c ≠ 42 ∧ c ≠ 35 ∧ c ≠ 63) p → mg_match s p = bool_decide (s = p);
  mg_ws_send_sent c m w : ws_sent (mg_ws_send c m w).2 = ws_sent w ++ [(c, m)];
  mg_ws_upgrade_sent c hm w : ws_sent (mg_ws_upgrade c hm w).2 = ws_sent w;
  mg_http_reply_sent c n b w : ws_sent (mg_http_reply c n b w).2 = ws_sent w;
  mg_http_serve_file_sent c hm f w : ws_sent (mg_http_serve_file c hm f w).2 = ws_sent w;
  stat_sent f w : ws_sent (stat f w).2 = ws_sent w;
  GetClockRate_sent w : ws_sent (GetClockRate w).2 = ws_sent w;
  GetTemperature_sent w : ws_sent (GetTemperature w).2 = ws_sent w;
  CPUThrottle_Update_sent w : ws_sent (CPUThrottle_Update w).2 = ws_sent w;
  Logger_Write_sent f a w : ws_sent (Logger_Write f a w).2 = ws_sent w
}.

Module SocketApp.
Definition SVELTE_BUILD_DIR : list Z := cstr "circle-socket-app".
Definition SVELTE_FALLBACK_FILE : list Z := SVELTE_BUILD_DIR ++ cstr "/200.html".
Definition slash : Z := 47.
Definition newline : Z := 10.

(** [std::to_string] of a number that is not negative. *)
Definition to_string (n : Z) : list Z := cstr (pretty (Z.to_N n)).

Section app.
Context `{Mongoose W}.

(** [Acquire] and [Release] of the recursive [CMutex] count here how often it
    is held; whoever else wants it waits. *)
Record app := mkApp {
  ws_connections : gset Z;
  msg_queue : list (list Z);
  message_queue_mutex : Z;
  world : W
}.

Definition set_ws_connections (x : gset Z) (a : app) : app :=
  mkApp x (msg_queue a) (message_queue_mutex a) (world a).
Definition set_msg_queue (x : list (list Z)) (a : app) : app :=
  mkApp (ws_connections a) x (message_queue_mutex a) (world a).
Definition set_mutex (x : Z) (a : app) : app :=
  mkApp (ws_connections a) (msg_queue a) x (world a).
Definition set_world (x : W) (a : app) : app :=
  mkApp (ws_connections a) (msg_queue a) (message_queue_mutex a) x.

Abbreviation A := (M app).
Definition outside {B} (f : W → B * W) : A B := env world set_world f.

(** The body of a block with a [MutexHolder]. *)
Definition with_mutex {B} (body : A B) : A B :=
  modify (λ a, set_mutex (message_queue_mutex a + 1) a);;
  b ← body;
  a ← get;
  assert_ (message_queue_mutex a >? 0);;
  put (set_mutex (message_queue_mutex a - 1) a);;
  mret b.

Definition push (m : list Z) : A () := modify (λ a, set_msg_queue (msg_queue a ++ [m]) a).

Definition api_status (c : Z) (hm : mg_http_message) : A () :=
  rate ← outside GetClockRate;
  temp ← outside GetTemperature;
  let s := json_dump
    [("cpuSpeed", s32 rate); ("socMaxTemp", GetSoCMaxTemp); ("socCurrentTemp", temp);
     ("gpioFanPin", GetGPIOFanPin)]%string in
  outside (mg_http_reply c 200 (until_nul s ++ [newline])).

(** The search for the file of a request; [None] when there is none. *)
Definition find_file (uri_path : list Z) : A (option (list Z)) :=
  let file_path := SVELTE_BUILD_DIR ++ uri_path in
  k ← outside (stat (until_nul file_path));
  match k with
  | None => mret None
  | Some Directory =>
      let file_path :=
        if negb (default 0 (last file_path) =? slash) then file_path ++ [slash] else file_path in
      let file_path := file_path ++ cstr "index.html" in
      k ← outside (stat (until_nul file_path));
      mret (if bool_decide (k = Some Regular) then Some file_path else None)
  | Some k => mret (if bool_decide (k = Regular) then Some file_path else None)
  end.

Definition http_handler (c : Z) (hm : mg_http_message) : A () :=
  if mg_match (uri hm) (cstr "/ws") then
    outside (mg_ws_upgrade c hm);;
    modify (λ a, set_ws_connections ({[c]} ∪ ws_connections a) a)
  else if mg_match (uri hm) (cstr "/api/status") then api_status c hm
  else
    o ← find_file (uri hm);
    match o with
    | Some file_path => outside (mg_http_serve_file c hm (until_nul file_path))
    | None => outside (mg_http_serve_file c hm SVELTE_FALLBACK_FILE)
    end.

(** The text of a message from a client. *)
Definition client_message (c : Z) (data : list Z) : list Z :=
  cstr "From client " ++ to_string c ++ cstr ": " ++ data.

Definition websocket_handler (c : Z) (data : list Z) : A () :=
  with_mutex (push (client_message c data)).

(** The events [ev_handler] tells apart, with their data. *)
Inductive mg_event :=
  | MG_EV_ACCEPT
  | MG_EV_HTTP_MSG (hm : mg_http_message)
  | MG_EV_WS_MSG (data : list Z)
  | MG_EV_CLOSE
  | MG_EV_OTHER.

Definition ev_handler (c : Z) (ev : mg_event) : A () :=
  match ev with
  | MG_EV_ACCEPT => mret ()
  | MG_EV_HTTP_MSG hm => http_handler c hm
  | MG_EV_WS_MSG data => websocket_handler c data
  | MG_EV_CLOSE =>
      modify (λ a, set_ws_connections (ws_connections a ∖ {[c]}) a);;
      a ← get;
      outside (Logger_Write "Connection closed, %d active WebSocket connections remain"
                 [Z.of_nat (size (ws_connections a))])
  | MG_EV_OTHER => mret ()
  end.

Definition button_message (nGPIOPin : Z) : list Z :=
  cstr "Button pressed on GPIO pin " ++ to_string nGPIOPin.

Definition ButtonPressedHandler (nGPIOPin : Z) : A () :=
  with_mutex (push (button_message nGPIOPin)).

(** The elements of the [std::set], in ascending order. *)
Definition in_order (l : gset Z) : list Z := merge_sort Z.le (elements l).

(** [for (auto const conn : ws_connections)]. *)
Fixpoint send_all (conns : list Z) (message : list Z) : A () :=
  match conns with
  | [] => mret ()
  | conn :: conns => outside (mg_ws_send conn message);; send_all conns message
  end.

(** [while (!msg_queue.empty ())]; every round takes a message. *)
Fixpoint flush_loop (fuel : nat) : A () :=
  match fuel with
  | O => fail OutOfFuel
  | S fuel =>
      a ← get;
      match msg_queue a with
      | [] => mret ()
      | message :: rest =>
          put (set_msg_queue rest a);;
          send_all (in_order (ws_connections a)) message;;
          flush_loop fuel
      end
  end.

(** The part of a round of [Run] behind [mg_mgr_poll]. *)
Definition after_poll : A () :=
  with_mutex
    (a ← get;
     flush_loop (S (length (msg_queue a)));;
     outside CPUThrottle_Update).

(** What happens to the server: Mongoose calls the event handler from
    [mg_mgr_poll], a button task calls its handler, and the loop of [Run] goes
    on behind [mg_mgr_poll]. *)
Inductive occurrence :=
  | OEvent (c : Z) (ev : mg_event)
  | OButton (nGPIOPin : Z)
  | ORound.

Definition occur (o : occurrence) : A () :=
  match o with
  | OEvent c ev => ev_handler c ev
  | OButton n => ButtonPressedHandler n
  | ORound => after_poll
  end.

Fixpoint serve (l : list occurrence) : A () :=
  match l with
  | [] => mret ()
  | o :: l => occur o;; serve l
  end.

(** * [mongoose_log_fn]

    The characters of a line are collected in [buffer], and a newline writes
    them to the log. *)
Definition mongoose_log_fn (c : Z) : M (list Z * W) () :=
  '(buffer, w) ← get;
  if c =? newline then
    let '(_, w) := Logger_Write "%s" (until_nul buffer) w in put ([], w)
  else put (buffer ++ [c], w).
End app.
End SocketApp.
