(* ===== verification/SocketAppProps.v ===== *)
(** Properties of the web server of the socket sample: what every WebSocket
    client receives, the file a request is answered with, and the lines of the
    log. *)
From stdpp Require Import base numbers list gmap option strings pretty sorting.
From S2P Require Import Prelude.
From S2P Require Import SocketApp.
Import SocketApp.

Section props.
Context `{Mongoose W, !MongooseOk W}.
Implicit Types (a : app (W := W)) (c : Z) (q : list (list Z)).

(** The messages that were handed to a connection. *)
Definition received c (w : W) : list (list Z) := (filter (λ x, x.1 = c) (ws_sent w)).*2.

(** Operations that send nothing and leave the data of the server. *)
Definition quiet a a' : Prop :=
  ws_connections a' = ws_connections a ∧ msg_queue a' = msg_queue a ∧
  message_queue_mutex a' = message_queue_mutex a ∧ ws_sent (world a') = ws_sent (world a).

Lemma quiet_refl a : quiet a a.
Proof using Type. by split_and!. Qed.
Lemma quiet_trans a1 a2 a3 : quiet a1 a2 → quiet a2 a3 → quiet a1 a3.
Proof using Type. unfold quiet. intros (?&?&?&?) (?&?&?&?). split_and!; congruence. Qed.

Lemma outside_quiet {B} (f : W → B * W) a :
  (∀ w, ws_sent (f w).2 = ws_sent w) → wp no_fault (outside f) (λ _ a', quiet a a') a.
Proof using Type.
  intros Hf. apply wp_env. intros b w E. specialize (Hf (world a)). rewrite E in Hf. by split_and!.
Qed.

Lemma find_file_quiet p a : wp no_fault (find_file p) (λ _ a', quiet a a') a.
Proof using Type*.
  unfold find_file. cbv zeta. wp_step. eapply wp_mono; [apply outside_quiet; intros w; apply stat_sent|].
  intros k a1 Hq. cbv beta in Hq |- *. destruct k as [[]|]; try (by wp_steps).
  wp_step. eapply wp_mono; [apply outside_quiet; intros w; apply stat_sent|].
  intros k a2 Hq2. wp_steps. by eapply quiet_trans.
Qed.

Lemma mg_match_ws s : mg_match s (cstr "/ws") = bool_decide (s = cstr "/ws").
Proof using Type*. apply mg_match_plain. by apply (bool_decide_unpack _). Qed.
Lemma mg_match_status s : mg_match s (cstr "/api/status") = bool_decide (s = cstr "/api/status").
Proof using Type*. apply mg_match_plain. by apply (bool_decide_unpack _). Qed.

(** A request makes its connection a member if it is for [/ws]. *)
Definition joins (hm : mg_http_message) : bool := bool_decide (uri hm = cstr "/ws").

Lemma http_handler_spec c hm a :
  wp no_fault (http_handler c hm)
    (λ _ a', quiet (if joins hm then set_ws_connections ({[c]} ∪ ws_connections a) a else a) a') a.
Proof using Type*.
  unfold http_handler, joins. rewrite mg_match_ws, mg_match_status.
  case_bool_decide.
  { wp_step. eapply wp_mono; [apply outside_quiet; intros w; apply mg_ws_upgrade_sent|].
    intros [] a1 (E1 & E2 & E3 & E4). wp_steps. split_and!; cbn; congruence. }
  case_bool_decide.
  { unfold api_status. wp_step. eapply wp_mono; [apply outside_quiet, GetClockRate_sent|].
    intros r a1 Hq1. wp_step. eapply wp_mono; [apply outside_quiet, GetTemperature_sent|].
    intros t a2 Hq2. eapply wp_mono; [apply outside_quiet; intros w; apply mg_http_reply_sent|].
    intros [] a3 Hq3. exact (quiet_trans _ _ _ Hq1 (quiet_trans _ _ _ Hq2 Hq3)). }
  wp_step. eapply wp_mono; [apply find_file_quiet|]. intros o a1 Hq1.
  destruct o; (eapply wp_mono; [apply outside_quiet; intros w; apply mg_http_serve_file_sent|]);
    intros [] a2 Hq2; exact (quiet_trans _ _ _ Hq1 Hq2).
Qed.

Lemma with_mutex_push m a :
  0 ≤ message_queue_mutex a →
  wp no_fault (with_mutex (push m)) (λ _ a', quiet (set_msg_queue (msg_queue a ++ [m]) a) a') a.
Proof using Type.
  intros Hm. unfold with_mutex, push. wp_steps. apply wp_assert_true.
  { cbn. apply Z.gtb_lt. lia. }
  wp_steps. split_and!; cbn; try done. lia.
Qed.

(** ** Sending *)

Lemma received_snoc c w x w' :
  ws_sent w' = ws_sent w ++ [x] → received c w' = received c w ++ (if decide (x.1 = c) then [x.2] else []).
Proof using Type.
  intros E. unfold received. rewrite E, filter_app, fmap_app. f_equal.
  rewrite filter_cons, filter_nil. by destruct (decide (x.1 = c)).
Qed.

Lemma send_all_spec conns m a :
  NoDup conns →
  wp no_fault (send_all conns m) (λ _ a',
    ws_connections a' = ws_connections a ∧ msg_queue a' = msg_queue a ∧
    message_queue_mutex a' = message_queue_mutex a ∧
    ∀ c, received c (world a') = received c (world a) ++ if decide (c ∈ conns) then [m] else []) a.
Proof using Type*.
  revert a. induction conns as [|c0 conns IH]; intros a Hnd; cbn [send_all].
  { wp_steps. split_and!; try done. intros c. by rewrite decide_False, app_nil_r by apply not_elem_of_nil. }
  apply NoDup_cons in Hnd as [Hni Hnd]. wp_step. apply wp_env. intros [] w Es.
  pose proof (mg_ws_send_sent c0 m (world a)) as Hs. rewrite Es in Hs. cbn [snd] in Hs.
  eapply wp_mono; [by apply IH|]. intros [] a' (E1 & E2 & E3 & E4). split_and!; try done.
  intros c. rewrite E4. cbn [world set_world]. rewrite (received_snoc c _ _ _ Hs), <-app_assoc. cbn [fst snd].
  f_equal. destruct (decide (c0 = c)) as [->|Hne].
  - rewrite decide_False by done. rewrite decide_True by (apply elem_of_cons; by left). done.
  - destruct (decide (c ∈ conns)) as [Hc|Hc].
    + by rewrite decide_True by (apply elem_of_cons; by right).
    + rewrite decide_False; [done|]. intros [->|?]%elem_of_cons; done.
Qed.

Lemma in_order_elem l c : c ∈ in_order l ↔ c ∈ l.
Proof using Type. unfold in_order. by rewrite merge_sort_Permutation, elem_of_elements. Qed.
Lemma in_order_NoDup l : NoDup (in_order l).
Proof using Type. unfold in_order. rewrite merge_sort_Permutation. apply NoDup_elements. Qed.

(** The loop takes all messages, in order, and gives each to every member. *)
Lemma flush_spec fuel a :
  (length (msg_queue a) < fuel)%nat →
  wp no_fault (flush_loop fuel) (λ _ a',
    ws_connections a' = ws_connections a ∧ msg_queue a' = [] ∧
    message_queue_mutex a' = message_queue_mutex a ∧
    ∀ c, received c (world a') = received c (world a) ++
           if decide (c ∈ ws_connections a) then msg_queue a else []) a.
Proof using Type*.
  revert a. induction fuel as [|fuel IH]; intros a Hl; [lia|]. cbn [flush_loop]. wp_step. wp_step.
  destruct (msg_queue a) as [|m q] eqn:Eq.
  { wp_steps. split_and!; try done. intros c. destruct (decide _); by rewrite app_nil_r. }
  cbn [length] in Hl. wp_steps. eapply wp_mono; [apply send_all_spec, in_order_NoDup|].
  intros [] a1 (E1 & E2 & E3 & E4). cbn in E1, E2, E3, E4.
  eapply wp_mono; [apply IH; rewrite E2; lia|].
  intros [] a2 (F1 & F2 & F3 & F4). split_and!; try congruence.
  intros c. rewrite F4, E4, E1, E2, <-app_assoc. f_equal.
  destruct (decide (c ∈ ws_connections a)) as [Hc|Hc].
  - by rewrite decide_True by by apply in_order_elem.
  - rewrite decide_False by by rewrite in_order_elem. done.
Qed.

Lemma after_poll_spec a :
  0 ≤ message_queue_mutex a →
  wp no_fault after_poll (λ _ a',
    ws_connections a' = ws_connections a ∧ msg_queue a' = [] ∧
    message_queue_mutex a' = message_queue_mutex a ∧
    ∀ c, received c (world a') = received c (world a) ++
           if decide (c ∈ ws_connections a) then msg_queue a else []) a.
Proof using Type*.
  intros Hm. unfold after_poll, with_mutex. wp_steps. eapply wp_mono; [apply flush_spec; cbn; lia|].
  intros [] a1 (E1 & E2 & E3 & E4).
  eapply wp_mono; [apply outside_quiet; intros w; apply CPUThrottle_Update_sent|].
  intros [] a2 (F1 & F2 & F3 & F4). cbn in *. wp_steps. apply wp_assert_true; [apply Z.gtb_lt; lia|].
  wp_steps. split_and!; cbn; try congruence; [lia|].
  intros c. rewrite <-E4. unfold received. by rewrite F4.
Qed.

(** ** The chat from the view of a connection

    What a connection receives while the occurrences [l] happen: [member] says
    whether it is one of the WebSocket connections, [q] is the queue. *)
Fixpoint delivered c (member : bool) q (l : list occurrence) : list (list Z) :=
  match l with
  | [] => []
  | OEvent c' (MG_EV_HTTP_MSG hm) :: l => delivered c (member || (bool_decide (c' = c) && joins hm)) q l
  | OEvent c' (MG_EV_WS_MSG data) :: l => delivered c member (q ++ [client_message c' data]) l
  | OEvent c' MG_EV_CLOSE :: l => delivered c (member && negb (bool_decide (c' = c))) q l
  | OEvent c' _ :: l => delivered c member q l
  | OButton n :: l => delivered c member (q ++ [button_message n]) l
  | ORound :: l => (if member then q else []) ++ delivered c member [] l
  end.

(** The state after an occurrence, up to what the rest of the world has of it. *)
Definition after (o : occurrence) a a' : Prop :=
  message_queue_mutex a' = message_queue_mutex a ∧
  ∀ c l, received c (world a') ++ delivered c (bool_decide (c ∈ ws_connections a')) (msg_queue a') l
       = received c (world a) ++ delivered c (bool_decide (c ∈ ws_connections a)) (msg_queue a) (o :: l).

Lemma quiet_after o a b a' :
  quiet b a' → message_queue_mutex b = message_queue_mutex a → ws_sent (world b) = ws_sent (world a) →
  (∀ c l, delivered c (bool_decide (c ∈ ws_connections b)) (msg_queue b) l =
          delivered c (bool_decide (c ∈ ws_connections a)) (msg_queue a) (o :: l)) →
  after o a a'.
Proof using Type.
  intros (E1 & E2 & E3 & E4) Hm Hs Hd. split; [congruence|]. intros c l.
  rewrite E1, E2, Hd. unfold received. by rewrite E4, Hs.
Qed.

Lemma occur_spec o a : 0 ≤ message_queue_mutex a → wp no_fault (occur o) (λ _ a', after o a a') a.
Proof using Type*.
  intros Hm. destruct o as [c [ |hm|data| | ]|n| ]; cbn [occur ev_handler].
  - wp_steps. by eapply quiet_after; [apply quiet_refl|..].
  - eapply wp_mono; [apply http_handler_spec|]. intros [] a' Hq.
    eapply quiet_after; [exact Hq|by destruct (joins hm)..|]. intros d l. cbn [delivered].
    destruct (joins hm); [|by rewrite andb_false_r, orb_false_r]. cbn. rewrite andb_true_r. f_equal.
    rewrite (bool_decide_ext (d ∈ {[c]} ∪ ws_connections a) (c = d ∨ d ∈ ws_connections a)) by set_solver.
    rewrite bool_decide_or. apply orb_comm.
  - eapply wp_mono; [by apply with_mutex_push|]. intros [] a' Hq. by eapply quiet_after; [exact Hq|..].
  - wp_steps. eapply wp_mono; [apply outside_quiet; intros w; apply Logger_Write_sent|]. intros [] a' Hq.
    eapply quiet_after; [exact Hq|done..|]. intros d l. cbn [delivered]. f_equal. cbn.
    rewrite (bool_decide_ext (d ∈ ws_connections a ∖ {[c]}) (d ∈ ws_connections a ∧ ¬ c = d)) by set_solver.
    by rewrite bool_decide_and, bool_decide_not.
  - wp_steps. by eapply quiet_after; [apply quiet_refl|..].
  - eapply wp_mono; [by apply with_mutex_push|]. intros [] a' Hq. by eapply quiet_after; [exact Hq|..].
  - eapply wp_mono; [by apply after_poll_spec|]. intros [] a' (E1 & E2 & E3 & E4). split; [done|].
    intros c l. rewrite E1, E2, E4. cbn [delivered]. rewrite <-app_assoc. do 2 f_equal.
    by destruct (decide (c ∈ ws_connections a)); [rewrite bool_decide_eq_true_2|rewrite bool_decide_eq_false_2].
Qed.

Lemma serve_spec l a :
  0 ≤ message_queue_mutex a →
  wp no_fault (serve l) (λ _ a', message_queue_mutex a' = message_queue_mutex a ∧
    ∀ c, received c (world a') =
         received c (world a) ++ delivered c (bool_decide (c ∈ ws_connections a)) (msg_queue a) l) a.
Proof using Type*.
  revert a. induction l as [|o l IH]; intros a Hm; cbn [serve].
  { wp_steps. split; [done|]. intros c. by rewrite app_nil_r. }
  wp_step. eapply wp_mono; [by apply occur_spec|]. intros [] a1 [E1 E2].
  eapply wp_mono; [apply IH; lia|]. intros [] a2 [F1 F2]. split; [congruence|].
  intros c. by rewrite F2, E2.
Qed.
End props.

(** * A concrete server *)
Module SocketDemo.
(** The world is the list of what was sent; the directory of the application
    has an index file only. *)
#[export] Instance mongoose : Mongoose (list (Z * list Z)) := {|
  mg_http_message := list Z;
  uri s := s;
  mg_match s p := bool_decide (s = p);
  mg_ws_upgrade _ _ w := ((), w);
  mg_http_reply _ _ _ w := ((), w);
  mg_http_serve_file _ _ _ w := ((), w);
  mg_ws_send c m w := ((), w ++ [(c, m)]);
  json_dump _ := [];
  stat f w := (if bool_decide (f = SVELTE_BUILD_DIR ++ cstr "/index.html") then Some Regular else None, w);
  GetClockRate w := (1500000000, w);
  GetTemperature w := (40, w);
  GetSoCMaxTemp := 60;
  GetGPIOFanPin := 0;
  CPUThrottle_Update w := ((), w);
  Logger_Write _ _ w := ((), w);
  ws_sent w := w
|}.
#[export] Instance mongoose_ok : MongooseOk (list (Z * list Z)).
Proof. by split. Qed.

Definition start : app (W := list (Z * list Z)) := mkApp ∅ [] 0 [].

(** Two clients of which one leaves, and a button. *)
Definition chat : list (occurrence (W := list (Z * list Z))) :=
  [OEvent 8 (MG_EV_HTTP_MSG (cstr "/ws")); OEvent 9 (MG_EV_HTTP_MSG (cstr "/ws"));
   OEvent 8 (MG_EV_WS_MSG (cstr "hi")); ORound; OEvent 9 MG_EV_CLOSE; OButton 17; ORound].
End SocketDemo.
Import (hints) SocketDemo.

(** C10: what the clients of the chat receive.  Whatever events Mongoose reports,
    in any order, with presses of the buttons and rounds of the loop between
    them: the server handles them without a fault and with the mutex released
    again, and every connection is sent exactly the messages that are in the
    queue in the rounds in which it is a WebSocket connection - those of other
    clients, its own, and those of the buttons, each once and in the order in
    which they were put into the queue - and nothing after it was closed. *)
Theorem chat_broadcast `{Mongoose W, !MongooseOk W} (l : list occurrence) (a : app (W := W)) :
  0 ≤ message_queue_mutex a →
  ∃ a', serve l a = Ok ((), a') ∧ message_queue_mutex a' = message_queue_mutex a ∧
    ∀ c, received c (world a') =
         received c (world a) ++ delivered c (bool_decide (c ∈ ws_connections a)) (msg_queue a) l.
Proof.
  intros Hm. destruct (wp_total _ _ _ (serve_spec l a Hm)) as ([] & a' & E & Hm' & Hr). eauto.
Qed.

Lemma chat_broadcast_witness :
  ∃ a', serve SocketDemo.chat SocketDemo.start = Ok ((), a') ∧
    received 8 (world a') = [cstr "From client 8: hi"; cstr "Button pressed on GPIO pin 17"] ∧
    received 9 (world a') = [cstr "From client 8: hi"].
Proof.
  destruct (chat_broadcast SocketDemo.chat SocketDemo.start) as (a' & E & _ & Hr); [done|].
  exists a'. split; [exact E|]. rewrite !Hr. split; vm_compute; reflexivity.
Defined.

(** * The log *)

Fixpoint log_chars `{Mongoose W} (s : list Z) : M (list Z * W) () :=
  match s with
  | [] => mret ()
  | c :: s => mongoose_log_fn c;; log_chars s
  end.

(** Mongoose writes its log character by character: the lines of the text, and
    no others, are written to the log, each up to its first zero, and what is
    behind the last newline stays in the buffer. *)
Lemma mongoose_log_lines `{Mongoose W} (s buffer : list Z) (w : W) :
  newline ∉ buffer →
  ∃ lines rest, buffer ++ s = concat ((λ x, x ++ [newline]) <$> lines) ++ rest ∧
    Forall (λ x, newline ∉ x) (rest :: lines) ∧
    log_chars s (buffer, w) =
      Ok ((), (rest, foldl (λ w x, (Logger_Write "%s" (until_nul x) w).2) w lines)).
Proof.
  revert buffer w. induction s as [|c s IH]; intros buffer w Hb.
  { exists [], buffer. rewrite app_nil_r. split_and!; [done|by repeat constructor|done]. }
  cbn [log_chars]. destruct (Z.eqb_spec c newline) as [->|Hc].
  - destruct (IH [] (Logger_Write "%s" (until_nul buffer) w).2) as (lines & rest & E & Hall & Er);
      [apply not_elem_of_nil|].
    exists (buffer :: lines), rest. split_and!.
    + cbn. rewrite <-!app_assoc. cbn in E |- *. by rewrite E.
    + apply Forall_cons in Hall as [? ?]. by repeat constructor.
    + cbn [foldl]. rewrite <-Er. erewrite bind_run; [done|]. unfold mongoose_log_fn.
      rewrite bind_unfold. cbn [get]. rewrite Z.eqb_refl. by destruct (Logger_Write _ _ _).
  - destruct (IH (buffer ++ [c]) w) as (lines & rest & E & Hall & Er).
    { rewrite elem_of_app, list_elem_of_singleton. by intros [?|?]. }
    exists lines, rest. split_and!; [by rewrite <-E, <-app_assoc|done|].
    rewrite <-Er. erewrite bind_run; [done|]. unfold mongoose_log_fn.
    rewrite bind_unfold. cbn [get]. by rewrite (proj2 (Z.eqb_neq _ _) Hc).
Qed.
