(* ===== verification/SocketSample.v ===== *)
(** The whole socket sample, [samples/06-socket/kernel.cpp]: the set-up of [Run],
    and the system of the two button tasks and the server, which meet in the
    queue of messages. *)
From stdpp Require Import base numbers list gmap option strings.
From S2P Require Import Prelude.
From S2P Require Import ButtonTask.
From S2P Require Import SocketApp.
Import Button SocketApp.

(** What the set-up calls: the network, the GPIO manager, the network of the C
    library, the base class of a task, and Mongoose. *)
Class SocketSetup (W : Type) := {
  Net_Initialize : W → bool * W;
  GPIOManager_Initialize : W → bool * W;
  CGlueNetworkInit : W → () * W;
  CTask_construct : W → () * W;
  mg_log_set_fn : W → () * W;
  mg_mgr_init : W → () * W;
  mg_http_listen : list Z → W → () * W
}.

(** None of them sends a message. *)
Class SocketSetupOk (W : Type) `{Mongoose W, !SocketSetup W} := {
  Net_Initialize_sent w : ws_sent (Net_Initialize w).2 = ws_sent w;
  GPIOManager_Initialize_sent w : ws_sent (GPIOManager_Initialize w).2 = ws_sent w;
  CGlueNetworkInit_sent w : ws_sent (CGlueNetworkInit w).2 = ws_sent w;
  CTask_construct_sent w : ws_sent (CTask_construct w).2 = ws_sent w;
  mg_log_set_fn_sent w : ws_sent (mg_log_set_fn w).2 = ws_sent w;
  mg_mgr_init_sent w : ws_sent (mg_mgr_init w).2 = ws_sent w;
  mg_http_listen_sent s w : ws_sent (mg_http_listen s w).2 = ws_sent w
}.

Module SocketSample.
Definition GPIO_BUTTON_17 : Z := 17.
Definition GPIO_BUTTON_18 : Z := 18.

Section sample.
Context `{KernelTimers, SyncEvent, Mongoose W, !SocketSetup W}.

(** The button tasks by their pins, and the server. *)
Record sample := mkSample {
  buttons : gmap Z Button.sys;
  server : app (W := W)
}.
Definition set_button (pin : Z) (b : Button.sys) (s : sample) : sample :=
  mkSample (<[pin := b]> (buttons s)) (server s).
Definition set_server (a : app) (s : sample) : sample := mkSample (buttons s) a.

(** [new CButtonTask (nGPIOPin, ...)]; [lv] is the level of the pin. *)
Definition new_button (nGPIOPin : Z) (lv : TGPIOLevel) : M sample () :=
  zoom server set_server (outside CTask_construct);;
  modify (set_button nGPIOPin (construct lv)).

(** [Run] up to its loop; [lv] gives the levels of the pins. *)
Definition Run_setup (lv : Z → TGPIOLevel) : M sample () :=
  zoom server set_server (outside Net_Initialize);;
  zoom server set_server (outside GPIOManager_Initialize);;
  zoom server set_server (outside CGlueNetworkInit);;
  zoom server set_server (outside (Logger_Write "Compile time: " []));;
  new_button GPIO_BUTTON_17 (lv GPIO_BUTTON_17);;
  new_button GPIO_BUTTON_18 (lv GPIO_BUTTON_18);;
  zoom server set_server (outside mg_log_set_fn);;
  zoom server set_server (outside mg_mgr_init);;
  zoom server set_server (outside (mg_http_listen (cstr "http://0.0.0.0:80"))).

(** The static objects before [Run]. *)
Definition before_run (w : W) : sample := mkSample ∅ (mkApp ∅ [] 0 w).

(** ** The system

    Time passes for all buttons together.  A button task, its interrupts and its
    timers go on one by one; when the task calls its handler, that is
    [ButtonPressedHandler].  Mongoose reports an event, or the loop of [Run]
    goes on. *)
Inductive action :=
  | STick
  | SButton (nGPIOPin : Z) (a : Button.action)
  | SServer (o : occurrence (W := W)).

(** Time is not the business of a single button, and the tasks are never
    terminated. *)
Definition of_button (a : Button.action) : bool :=
  match a with ATick | ATerminate => false | _ => true end.
(** The handler of the buttons is called by their tasks only. *)
Definition of_server (o : occurrence (W := W)) : bool :=
  match o with OButton _ => false | _ => true end.

Definition calls_handler (a : Button.action) (b : Button.sys) : bool :=
  match a with ATask => bool_decide (pc b = AtCall) | _ => false end.

(** The occurrence at the server that an action brings about, and the new state;
    [None] when the action is not possible. *)
Definition act_sample (x : action) (s : sample) : option (res (option occurrence * sample)) :=
  match x with
  | STick => Some (Ok (None, mkSample ((λ b, set_now (now b + 1) b) <$> buttons s) (server s)))
  | SButton n a =>
      b ← buttons s !! n;
      if of_button a then
        r ← Button.act true a b;
        Some (match r with
              | Fault e => Fault e
              | Ok (_, b') =>
                  if calls_handler a b then
                    (zoom server set_server (ButtonPressedHandler n);; mret (Some (OButton n)))
                      (set_button n b' s)
                  else Ok (None, set_button n b' s)
              end)
      else None
  | SServer o =>
      if of_server o then
        Some ((zoom server set_server (occur o);; mret (Some o)) s)
      else None
  end.

(** What has happened at the server on the way to a state. *)
Inductive runs (s0 : sample) : list occurrence → sample → Prop :=
  | runs_start : runs s0 [] s0
  | runs_step l s x o s' :
      runs s0 l s → act_sample x s = Some (Ok (o, s')) → runs s0 (l ++ option_list o) s'.
End sample.
End SocketSample.
