(* ===== verification/SocketSampleProps.v ===== *)
(** Properties of the whole socket sample: what the clients receive of the
    buttons. *)
From stdpp Require Import base numbers list gmap option strings.
From S2P Require Import Prelude.
From S2P Require Import ButtonTask.
From S2P Require Import ButtonProps.
From S2P Require Import SocketApp.
From S2P Require Import SocketAppProps.
From S2P Require Import SocketSample.
Import Button SocketApp SocketSample.

(** Whether an occurrence is the message of the button on a pin. *)
Definition is_button `{Mongoose W} (pin : Z) (o : occurrence (W := W)) : bool :=
  match o with OButton n => n =? pin | _ => false end.
Definition button_messages `{Mongoose W} (pin : Z) (l : list (occurrence (W := W))) : nat :=
  length (List.filter (is_button pin) l).

(** The calls of the set-up and the handlers that send nothing. *)
Create HintDb setup.
#[export] Hint Resolve Net_Initialize_sent GPIOManager_Initialize_sent CGlueNetworkInit_sent
  CTask_construct_sent mg_log_set_fn_sent mg_mgr_init_sent mg_http_listen_sent Logger_Write_sent : setup.

Section sample.
Context `{KernelTimers, !KernelTimersOk, SyncEvent, !SyncEventOk, Mongoose W, !MongooseOk W,
  !SocketSetup W, !SocketSetupOk W}.

Lemma button_messages_app pin (l k : list (occurrence (W := W))) :
  button_messages pin (l ++ k) = (button_messages pin l + button_messages pin k)%nat.
Proof using Type. unfold button_messages. by rewrite List.filter_app, length_app. Qed.

Lemma serve_app l k (a : app (W := W)) :
  serve (l ++ k) a = (serve l;; serve k) a.
Proof using Type.
  revert a. induction l as [|o l IH]; intros a; [by rewrite bind_unfold|]. cbn [Datatypes.app serve].
  rewrite !bind_unfold. destruct (occur o a) as [[[] a1]|e]; [|done]. by rewrite IH, bind_unfold.
Qed.

(** A step of a button adds a call to its history exactly when the task calls
    its handler. *)
Lemma act_calls a b b' :
  act true a b = Some (Ok ((), b')) →
  count is_call (history b') = (count is_call (history b) + if calls_handler a b then 1 else 0)%nat.
Proof using Type*.
  intros E. destruct a as [| | | |h|]; cbn in E.
  - unfold Run_step in E. cbn [calls_handler]. destruct (pc b); cbn in E.
    7: { injection E as <-. rewrite bool_decide_eq_true_2 by done. unfold count. cbn. lia. }
    all: rewrite bool_decide_eq_false_2 by done; try destruct (GetState _); simplify_eq; unfold count; cbn; lia.
  - simplify_eq. unfold count. cbn. lia.
  - case_bool_decide; simplify_eq/=. destruct (connected b && edge_enabled b); cbn in *.
    + pose proof (InterruptHandler_keeps (set_level LOW b)) as Hk. unfold wp in Hk.
      destruct (InterruptHandler _) as [[[] s1]|]; simplify_eq. destruct Hk as (_ & _ & _ & ->).
      unfold count. cbn. lia.
    + injection E as <-. unfold count. cbn. lia.
  - case_bool_decide; simplify_eq. unfold count. cbn. lia.
  - destruct (timer_map (timers b) !! h); [|done]. destruct (_ <=? _); [|done]. injection E as E.
    pose proof (TimerHandler_keeps h (set_timers (elapsed h (timers b)) b)) as Hk. unfold wp in Hk.
    rewrite E in Hk. destruct Hk as (_ & _ & _ & ->). unfold count. cbn. lia.
  - destruct (yields (pc b)); [|done]. injection E as <-. unfold count. cbn. lia.
Qed.

(** What holds after the occurrences [l]: they are what the server has served,
    and every button has the history of a button task, with as many calls as
    messages; a pin without a button has no messages. *)
Definition button_sound (pin : Z) (l : list (occurrence (W := W))) (o : option Button.sys) : Prop :=
  match o with
  | Some b => reachable true b ∧ count is_call (history b) = button_messages pin l
  | None => button_messages pin l = 0%nat
  end.
Record sound (a0 : app) (l : list occurrence) (s : sample) : Prop := {
  sound_serve : serve l a0 = Ok ((), server s);
  sound_button pin : button_sound pin l (buttons s !! pin)
}.

Lemma sound_mutex a0 l s :
  sound a0 l s → 0 ≤ message_queue_mutex a0 → message_queue_mutex (server s) = message_queue_mutex a0.
Proof using Type*.
  intros Hs Hm. pose proof (wp_Ok _ _ _ _ _ _ (serve_spec l a0 Hm) (sound_serve _ _ _ Hs)) as [E _]. exact E.
Qed.

(** An occurrence at the server, brought about by an action or by none. *)
Lemma sound_occurred a0 l s o bs a' :
  sound a0 l s → occur o (server s) = Ok ((), a') →
  (∀ pin, button_sound pin (l ++ [o]) (bs !! pin)) → sound a0 (l ++ [o]) (mkSample bs a').
Proof using Type.
  intros Hs Ho Hb. split; [|exact Hb]. rewrite serve_app, (bind_run _ _ _ _ _ (sound_serve _ _ _ Hs)).
  cbn [serve]. by rewrite (bind_run _ _ _ _ _ Ho).
Qed.

Lemma sound_quiet a0 l s bs :
  sound a0 l s →
  (∀ pin, button_sound pin l (bs !! pin)) → sound a0 (l ++ []) (mkSample bs (server s)).
Proof using Type. intros Hs Hb. rewrite app_nil_r. by split; [apply Hs|]. Qed.

Lemma server_run o s :
  0 ≤ message_queue_mutex (server s) → ∃ a', occur o (server s) = Ok ((), a') ∧
    (zoom server set_server (occur o);; mret (Some o)) s = Ok (Some o, set_server a' s).
Proof using Type*.
  intros Hm. destruct (wp_total _ _ _ (occur_spec o (server s) Hm)) as ([] & a' & E & _).
  exists a'. split; [done|]. rewrite bind_unfold. unfold zoom. by rewrite E.
Qed.

(** The message of another pin, or none. *)
Lemma button_sound_other pin l o x :
  is_button pin o = false → button_sound pin l x → button_sound pin (l ++ [o]) x.
Proof using Type.
  intros Ho. unfold button_sound. rewrite button_messages_app. unfold button_messages at 2 4. cbn.
  rewrite Ho. cbn. by rewrite Nat.add_0_r.
Qed.

Lemma act_sample_sound a0 l s x r :
  sound a0 l s → 0 ≤ message_queue_mutex a0 → act_sample x s = Some r →
  ∃ o s', r = Ok (o, s') ∧ sound a0 (l ++ option_list o) s'.
Proof using Type*.
  intros Hs Hm E. pose proof (sound_mutex _ _ _ Hs Hm) as Hmx.
  destruct x as [|pin a|o]; cbn [act_sample] in E.
  - simplify_eq. eexists None, _. split; [done|]. apply sound_quiet; [done|]. intros pin.
    rewrite lookup_fmap. pose proof (sound_button _ _ _ Hs pin) as Hb.
    destruct (buttons s !! pin) as [b|]; [|done]. destruct Hb as [Hr Hc]. split; [|exact Hc].
    by apply (reachable_step true ATick b).
  - pose proof (sound_button _ _ _ Hs pin) as Hb.
    destruct (buttons s !! pin) as [b|]; [|done]. cbn in E. destruct (of_button a); [|done].
    destruct (act true a b) as [r1|] eqn:Ea; [|done]. cbn in E. destruct Hb as [Hr Hc].
    pose proof (act_inv true a b r1 (button_reachable_inv true b Hr) Ea) as Hi.
    destruct r1 as [[[] b']|e]; [|by destruct Hi].
    pose proof (act_calls a b b' Ea) as Hcalls. rewrite Hc in Hcalls.
    assert (reachable true b') as Hr' by by apply (reachable_step true a b).
    injection E as <-. destruct (calls_handler a b).
    + change (ButtonPressedHandler pin) with (occur (W := W) (OButton pin)).
      destruct (server_run (OButton pin) (set_button pin b' s)) as (a' & Eo & ->); [cbn; lia|].
      eexists _, _. split; [done|]. apply (sound_occurred a0 l s); [done|exact Eo|].
      intros q. cbn. destruct (decide (pin = q)) as [<-|Hq].
      * rewrite lookup_insert_eq. split; [done|]. rewrite Hcalls, button_messages_app.
        unfold button_messages at 3. cbn. by rewrite Z.eqb_refl.
      * rewrite lookup_insert_ne by done. apply button_sound_other; [by apply Z.eqb_neq|].
        apply (sound_button _ _ _ Hs).
    + eexists None, _. split; [done|]. apply sound_quiet; [done|].
      intros q. cbn. destruct (decide (pin = q)) as [<-|Hq].
      * rewrite lookup_insert_eq. split; [done|lia].
      * rewrite lookup_insert_ne by done. apply (sound_button _ _ _ Hs).
  - destruct (of_server o) eqn:Ho; [|done]. injection E as <-.
    destruct (server_run o s) as (a' & Eo & ->); [lia|]. eexists _, _. split; [done|].
    apply (sound_occurred a0 l s); [done|exact Eo|]. intros pin.
    apply button_sound_other; [by destruct o|apply (sound_button _ _ _ Hs)].
Qed.

Lemma act_sample_dom x s o s' :
  act_sample x s = Some (Ok (o, s')) → dom (buttons s') = dom (buttons s).
Proof using Type.
  intros E. destruct x as [|pin a|o']; cbn [act_sample] in E.
  - simplify_eq. cbn. apply dom_fmap_L.
  - destruct (buttons s !! pin) as [b|] eqn:Hb; [|done]. cbn in E. destruct (of_button a); [|done].
    destruct (act true a b) as [[[[] b']|e]|]; cbn in E; [|done..]. rewrite bind_unfold in E.
    assert (buttons s' = buttons (set_button pin b' s)) as ->.
    { destruct (calls_handler a b); [|congruence]. unfold zoom in E.
      destruct (ButtonPressedHandler _ _) as [[[] ?]|]; [|done]. by injection E as _ <-. }
    cbn. rewrite dom_insert_lookup_L; [done|by eexists].
  - destruct (of_server o'); [|done]. rewrite bind_unfold in E. unfold zoom in E.
    destruct (occur _ _) as [[[] ?]|]; [|done]. by injection E as _ <-.
Qed.

Lemma runs_dom s0 l s : runs s0 l s → dom (buttons s) = dom (buttons s0).
Proof using Type.
  induction 1 as [|l s x o s' _ IH E]; [done|]. rewrite <-IH. by eapply act_sample_dom.
Qed.

Lemma runs_sound s0 l s :
  0 ≤ message_queue_mutex (server s0) → sound (server s0) [] s0 → runs s0 l s → sound (server s0) l s.
Proof using Type*.
  intros Hm Hs0. induction 1 as [|l s x o s' _ IH E]; [done|].
  destruct (act_sample_sound _ _ _ _ _ IH Hm E) as (o' & s1 & Er & Hs). by simplify_eq.
Qed.

(** ** The set-up *)

(** The server is as before, and no message was sent; the buttons are [bs]. *)
Definition unsent (bs : gmap Z Button.sys) (s s' : sample) : Prop :=
  ws_sent (world (server s')) = ws_sent (world (server s)) ∧
  ws_connections (server s') = ws_connections (server s) ∧
  msg_queue (server s') = msg_queue (server s) ∧
  message_queue_mutex (server s') = message_queue_mutex (server s) ∧ buttons s' = bs.

Lemma unsent_trans bs1 bs2 s1 s2 s3 : unsent bs1 s1 s2 → unsent bs2 s2 s3 → unsent bs2 s1 s3.
Proof using Type. intros (?&?&?&?&?) (?&?&?&?&?). split_and!; congruence. Qed.

Lemma setup_call {B} (f : W → B * W) bs s0 s :
  unsent bs s0 s → (∀ w, ws_sent (f w).2 = ws_sent w) →
  wp no_fault (zoom server set_server (outside f)) (λ _ s', unsent bs s0 s') s.
Proof using Type.
  intros Hs Hf. apply wp_zoom, wp_env. intros b w E. specialize (Hf (world (server s))).
  rewrite E in Hf. destruct Hs as (?&?&?&?&?). split_and!; cbn in *; congruence.
Qed.

Lemma new_button_ok pin lv bs s0 s :
  unsent bs s0 s → wp no_fault (new_button pin lv) (λ _ s', unsent (<[pin := construct lv]> bs) s0 s') s.
Proof using Type*.
  intros Hs. unfold new_button. wp_step. eapply wp_mono; [apply (setup_call _ bs s0); auto with setup|].
  intros _ s1 (?&?&?&?&?). apply wp_modify. split_and!; cbn; congruence.
Qed.

(** The set-up succeeds: nothing is sent, nobody is connected, and the buttons
    are at their start. *)
Lemma Run_setup_ok lv w :
  wp no_fault (Run_setup lv) (λ _ s,
    unsent (<[18 := construct (lv 18)]> {[17 := construct (lv 17)]}) (before_run w) s) (before_run w).
Proof using Type*.
  assert (unsent ∅ (before_run w) (before_run w)) as Hs by done. revert Hs.
  generalize (before_run w) at 2 4. intros s Hs. unfold Run_setup.
  do 4 (wp_step; eapply wp_mono; [eapply setup_call; [exact Hs|auto with setup]|]; clear dependent s;
        intros ? s Hs; cbv beta in Hs |- *).
  do 2 (wp_step; eapply wp_mono; [eapply new_button_ok; exact Hs|]; clear dependent s;
        intros ? s Hs; cbv beta in Hs |- *).
  do 2 (wp_step; eapply wp_mono; [eapply setup_call; [exact Hs|auto with setup]|]; clear dependent s;
        intros ? s Hs; cbv beta in Hs |- *).
  eapply setup_call; [exact Hs|auto with setup].
Qed.

(** At the start nothing has happened. *)
Lemma setup_sound lv w s :
  unsent (<[18 := construct (lv 18)]> {[17 := construct (lv 17)]}) (before_run w) s →
  sound (server s) [] s.
Proof using Type.
  intros (_ & _ & _ & _ & Hb). split; [done|]. intros pin. rewrite Hb.
  destruct (decide (pin = 18)) as [->|H18].
  { rewrite lookup_insert_eq. split; [apply reachable_start|done]. }
  rewrite lookup_insert_ne by done.
  destruct (decide (pin = 17)) as [->|H17].
  { rewrite lookup_singleton_eq. split; [apply reachable_start|done]. }
  by rewrite lookup_singleton_ne.
Qed.
End sample.

(** C11: the whole sample.  The set-up of [Run] succeeds.  From there, whatever the
    pins, the timers, the tasks and Mongoose do and in whatever order: no step
    faults; every connection is sent exactly the messages that are in the queue
    in the rounds in which it is a WebSocket connection; and among the
    occurrences the server has seen, the messages of a button are as many as its
    task has called the handler, at most one for each press that was still on
    50 ms after its last edge, and there are none of other pins than 17 and
    18. *)
Theorem sample_messages `{KernelTimers, !KernelTimersOk, SyncEvent, !SyncEventOk, Mongoose W,
    !MongooseOk W, !SocketSetup W, !SocketSetupOk W} lv w :
  ∃ s0, Run_setup lv (before_run w) = Ok ((), s0) ∧ ∀ l s, runs s0 l s →
    (∀ x e, act_sample x s ≠ Some (Fault e)) ∧
    (∀ c, received c (world (server s)) = received c w ++ delivered c false [] l) ∧
    ∀ pin, match buttons s !! pin with
           | Some b =>
               (pin = GPIO_BUTTON_17 ∨ pin = GPIO_BUTTON_18) ∧ debounced (history b) ∧
               button_messages pin l = count is_call (history b) ∧
               (count is_call (history b) ≤ count is_press (history b))%nat
           | None => button_messages pin l = 0%nat
           end.
Proof.
  destruct (wp_total _ _ _ (Run_setup_ok lv w)) as ([] & s0 & E & Hu). exists s0. split; [done|].
  intros l s Hr. pose proof (setup_sound lv w s0 Hu) as H0s. destruct Hu as (Hsent & Hc & Hq & Hm & Hb).
  assert (0 ≤ message_queue_mutex (server s0)) as Hm0 by (rewrite Hm; done).
  pose proof (runs_sound s0 l s Hm0 H0s Hr) as Hs. split_and!.
  - intros x e Ee. destruct (act_sample_sound _ _ _ _ _ Hs Hm0 Ee) as (? & ? & ? & _). done.
  - intros c. pose proof (wp_Ok _ _ _ _ _ _ (serve_spec l (server s0) Hm0) (sound_serve _ _ _ Hs)) as [_ Hd].
    rewrite Hd, Hc, Hq. unfold received. by rewrite Hsent.
  - intros pin. pose proof (sound_button _ _ _ Hs pin) as Hp.
    destruct (buttons s !! pin) as [b|] eqn:Ep; [|done]. destruct Hp as [Hrb Hcalls].
    destruct (button_reachable_inv true b Hrb) as [_ [Hd Hcr _ _]]. split_and!; [|exact Hd|by symmetry|lia].
    assert (pin ∈ dom (buttons s)) as Hpin by by apply elem_of_dom_2 in Ep.
    rewrite (runs_dom _ _ _ Hr), Hb in Hpin. unfold GPIO_BUTTON_17, GPIO_BUTTON_18. set_solver.
Qed.

(** * A concrete run *)
Import (hints) ButtonProps.ButtonDemo.
Import (hints) SocketAppProps.SocketDemo.
Module SocketSampleDemo.
#[export] Instance socket_setup : SocketSetup (list (Z * list Z)) := {|
  Net_Initialize w := (true, w);
  GPIOManager_Initialize w := (true, w);
  CGlueNetworkInit w := ((), w);
  CTask_construct w := ((), w);
  mg_log_set_fn w := ((), w);
  mg_mgr_init w := ((), w);
  mg_http_listen _ w := ((), w)
|}.
#[export] Instance socket_setup_ok : SocketSetupOk (list (Z * list Z)).
Proof. by split. Qed.

(** A run given by its actions. *)
Fixpoint exec_sample (l : list action) (s : sample) : list occurrence * sample :=
  match l with
  | [] => ([], s)
  | x :: l =>
      match act_sample x s with
      | Some (Ok (o, s')) => let '(os, s'') := exec_sample l s' in (option_list o ++ os, s'')
      | _ => ([], s)
      end
  end.

Lemma exec_runs s0 l k s :
  runs s0 k s → runs s0 (k ++ (exec_sample l s).1) (exec_sample l s).2.
Proof.
  revert k s. induction l as [|x l IH]; intros k s Hr; cbn; [by rewrite app_nil_r|].
  destruct (act_sample x s) as [[[o s']|e]|] eqn:E; cbn; try by rewrite app_nil_r.
  specialize (IH (k ++ option_list o) s' ltac:(by eapply runs_step)).
  destruct (exec_sample l s') as [os s'']. cbn in *. by rewrite app_assoc.
Qed.

(** The sample at the start of the loop of [Run]. *)
Definition set_up : sample :=
  match Run_setup (λ _, HIGH) (before_run []) with Ok (_, s) => s | Fault _ => before_run [] end.
Lemma set_up_run : Run_setup (λ _, HIGH) (before_run []) = Ok ((), set_up).
Proof. vm_compute. reflexivity. Qed.

(** A client connects, and the first button is pressed, bounces, and is held
    down for 50 ms. *)
Definition press17 : list (action (W := list (Z * list Z))) :=
  SServer (OEvent 9 (MG_EV_HTTP_MSG (cstr "/ws"))) ::
  map (SButton 17) [ATask; ATask; ATask; ATask; AFall] ++ [STick] ++
  map (SButton 17) [ARise; AFall] ++ [STick; STick; STick; STick; STick] ++
  map (SButton 17) [ATimer 1; ATask; ATask; ATask] ++ [SServer ORound].
End SocketSampleDemo.
Import (hints) SocketSampleDemo.

Lemma sample_messages_witness :
  let '(l, s) := SocketSampleDemo.exec_sample SocketSampleDemo.press17 SocketSampleDemo.set_up in
  button_messages 17 l = 1%nat ∧ button_messages 18 l = 0%nat ∧
  received 9 (world (server s)) = [cstr "Button pressed on GPIO pin 17"].
Proof.
  pose proof (SocketSampleDemo.exec_runs SocketSampleDemo.set_up SocketSampleDemo.press17 [] _
    (runs_start _)) as Hr.
  destruct (SocketSampleDemo.exec_sample _ _) as [l s] eqn:E.
  destruct (sample_messages (λ _, HIGH) []) as (s0 & E0 & Hs).
  rewrite SocketSampleDemo.set_up_run in E0. injection E0 as <-.
  destruct (Hs l s Hr) as (_ & Hd & _). rewrite (Hd 9).
  assert (l = (SocketSampleDemo.exec_sample SocketSampleDemo.press17 SocketSampleDemo.set_up).1) as ->
    by by rewrite E.
  split_and!; vm_compute; reflexivity.
Defined.
