(* ===== verification/StdlibApp.v ===== *)
(** The application classes of [include/circle_stdlib_app.h], from [CStdlibApp]
    to [CStdlibAppNetwork], and the [main] function the samples share.

    The devices belong to Circle and its add-ons; they are the class
    [AppDevices], and [W] is their state. *)
From stdpp Require Import base numbers list option strings.
From S2P Require Import Prelude.

Class AppDevices (W : Type) := {
  Device : Type;
  mScreen : Device;
  Interrupt_Initialize : W → bool * W;
  Screen_Initialize : W → bool * W;
  Serial_Initialize : Z → W → bool * W;
  Options_LogDevice : list Z;
  GetDevice : list Z → W → option Device * W;
  Logger_Initialize : Device → W → bool * W;
  Timer_Initialize : W → bool * W;
  EMMC_Initialize : W → bool * W;
  f_mount : bool → list Z → Z → W → Z * W;
  USBHCI_Initialize : W → bool * W;
  Console_Initialize : W → bool * W;
  CGlueStdioInit : W → () * W;
  Logger_Write : string → list Z → W → () * W;
  WLAN_Initialize : W → bool * W;
  Net_Initialize : W → bool * W;
  WPASupplicant_Initialize : W → bool * W;
  Net_IsRunning : W → bool * W;
  Scheduler_Yield : W → () * W;
  CGlueNetworkInit : W → () * W;
  halt : W → () * W;
  reboot : W → () * W;
  EXIT_HALT : Z;
  EXIT_REBOOT : Z
}.

Module StdlibApp.
Definition FR_OK : Z := 0.
Definition CSTDLIBAPP_LEGACY_DEFAULT_PARTITION : list Z := cstr "emmc1-1".
Definition CSTDLIBAPP_DEFAULT_PARTITION : list Z := cstr "SD:".

Inductive TShutdownMode := ShutdownNone | ShutdownHalt | ShutdownReboot.
Inductive TNetDeviceType := NetDeviceTypeEthernet | NetDeviceTypeWLAN.
#[export] Instance TNetDeviceType_eq_dec : EqDecision TNetDeviceType.
Proof. solve_decision. Defined.

Section app.
Context `{AppDevices W}.

Definition call {A} (f : W → A * W) : M W A := λ w, let '(a, w) := f w in Ok (a, w).

(** The members of the classes that are set by their constructors. *)
Record app := mkApp {
  mpPartitionName : list Z;
  mDeviceType : TNetDeviceType
}.

(** * [CStdlibApp] *)
Definition CStdlibApp_Initialize : M W bool := call Interrupt_Initialize.
Definition CStdlibApp_Cleanup : M W () := mret ().

(** * [CStdlibAppScreen] *)
Definition CStdlibAppScreen_Initialize : M W bool :=
  b ← CStdlibApp_Initialize;
  if negb b then mret false else
  b ← call Screen_Initialize;
  if negb b then mret false else
  b ← call (Serial_Initialize 115200);
  if negb b then mret false else
  pTarget ← call (GetDevice Options_LogDevice);
  b ← call (Logger_Initialize (default mScreen pTarget));
  if negb b then mret false else
  call Timer_Initialize.
Definition CStdlibAppScreen_Cleanup : M W () := CStdlibApp_Cleanup.

(** * [CStdlibAppStdio] *)
(** The partition to mount; the old default name means the new one. *)
Definition partition_name (a : app) : list Z :=
  if bool_decide (mpPartitionName a = CSTDLIBAPP_LEGACY_DEFAULT_PARTITION)
  then CSTDLIBAPP_DEFAULT_PARTITION else mpPartitionName a.

Definition CStdlibAppStdio_Initialize (a : app) : M W bool :=
  b ← CStdlibAppScreen_Initialize;
  if negb b then mret false else
  b ← call EMMC_Initialize;
  if negb b then mret false else
  r ← call (f_mount true (partition_name a) 1);
  if negb (r =? FR_OK) then
    call (Logger_Write "Cannot mount partition: %s" (partition_name a));;
    mret false
  else
  b ← call USBHCI_Initialize;
  if negb b then mret false else
  b ← call Console_Initialize;
  if negb b then mret false else
  call CGlueStdioInit;;
  call (Logger_Write "Compile time: " []);;
  mret true.

Definition CStdlibAppStdio_Cleanup : M W () :=
  call (f_mount false [] 0);;
  CStdlibAppScreen_Cleanup.

(** * [CStdlibAppNetwork] *)
Definition InitializeNoWaitForActivate (a : app) : M W bool :=
  b ← CStdlibAppStdio_Initialize a;
  if negb b then mret false else
  b ← (if bool_decide (mDeviceType a = NetDeviceTypeWLAN) then call WLAN_Initialize else mret true);
  if negb b then mret false else
  b ← call Net_Initialize;
  if negb b then mret false else
  b ← (if bool_decide (mDeviceType a = NetDeviceTypeWLAN) then call WPASupplicant_Initialize
       else mret true);
  if negb b then mret false else
  mret true.

(** [while (!mNet.IsRunning ())]; the fuel bounds the rounds. *)
Fixpoint wait_for_network (fuel : nat) : M W () :=
  match fuel with
  | O => fail OutOfFuel
  | S fuel =>
      b ← call Net_IsRunning;
      if negb b then call Scheduler_Yield;; wait_for_network fuel else mret ()
  end.

Definition CStdlibAppNetwork_Initialize (fuel : nat) (a : app) : M W bool :=
  b ← InitializeNoWaitForActivate a;
  if negb b then mret false else
  wait_for_network fuel;;
  call CGlueNetworkInit;;
  mret true.

(** * [main]

    The virtual functions of the kernel class of an application. *)
Record Kernel := mkKernel {
  Kernel_Initialize : M W bool;
  Kernel_Run : M W TShutdownMode;
  Kernel_Cleanup : M W ()
}.

Definition main (k : Kernel) : M W Z :=
  b ← Kernel_Initialize k;
  if negb b then call halt;; mret EXIT_HALT
  else
    ShutdownMode ← Kernel_Run k;
    Kernel_Cleanup k;;
    match ShutdownMode with
    | ShutdownReboot => call reboot;; mret EXIT_REBOOT
    | _ => call halt;; mret EXIT_HALT
    end.
End app.
End StdlibApp.
