(* ===== verification/StdlibAppProps.v ===== *)
(** Properties of the application classes: the order of the initialisation. *)
From stdpp Require Import base numbers list option strings.
From S2P Require Import Prelude.
From S2P Require Import StdlibApp.
Import StdlibApp.

Section stages.
Context `{AppDevices W}.

(** A stage of the initialisation says whether it has succeeded. *)
Abbreviation stage := (W → bool * W).

Fixpoint run_stages (l : list stage) (w : W) : bool * W :=
  match l with
  | [] => (true, w)
  | f :: l => let '(b, w) := f w in if b then run_stages l w else (false, w)
  end.

Lemma run_stages_app l1 l2 w :
  run_stages (l1 ++ l2) w =
    let '(b, w) := run_stages l1 w in if b then run_stages l2 w else (false, w).
Proof.
  revert w. induction l1 as [|f l1 IH]; intros w; cbn; [done|]. by destruct (f w) as [[] w1].
Qed.

(** A step that cannot fail. *)
Definition always (f : W → () * W) : stage := λ w, (true, (f w).2).

(** The logger writes to the device the options name, or else to the screen. *)
Definition logger_stage : stage := λ w,
  let '(o, w) := GetDevice Options_LogDevice w in Logger_Initialize (default mScreen o) w.
(** A mount that fails is logged. *)
Definition mount_stage (a : app) : stage := λ w,
  let '(r, w) := f_mount true (partition_name a) 1 w in
  if r =? FR_OK then (true, w)
  else (false, (Logger_Write "Cannot mount partition: %s" (partition_name a) w).2).

Definition screen_stages : list stage :=
  [Interrupt_Initialize; Screen_Initialize; Serial_Initialize 115200; logger_stage; Timer_Initialize].
Definition stdio_stages (a : app) : list stage :=
  screen_stages ++
  [EMMC_Initialize; mount_stage a; USBHCI_Initialize; Console_Initialize; always CGlueStdioInit;
   always (Logger_Write "Compile time: " [])].
Definition network_stages (a : app) : list stage :=
  stdio_stages a ++
  match mDeviceType a with
  | NetDeviceTypeEthernet => [Net_Initialize]
  | NetDeviceTypeWLAN => [WLAN_Initialize; Net_Initialize; WPASupplicant_Initialize]
  end.

(** The classes run their stages. *)
Definition runs (m : M W bool) (l : list stage) : Prop := ∀ w, m w = Ok (run_stages l w).

Lemma runs_call f : runs (call f) [f].
Proof. intros w. unfold call. cbn. by destruct (f w) as [[] w1]. Qed.
Lemma runs_true : runs (mret true) [].
Proof. done. Qed.
Lemma runs_seq m k l1 l2 :
  runs m l1 → runs k l2 → runs (b ← m; if negb b then mret false else k) (l1 ++ l2).
Proof.
  intros Hm Hk w. rewrite bind_unfold, Hm, run_stages_app.
  destruct (run_stages l1 w) as [[] w1]; [apply Hk|done].
Qed.
Lemma runs_always f m l : runs m l → runs (call f;; m) (always f :: l).
Proof.
  intros Hm w. rewrite bind_unfold. unfold call, always. cbn. destruct (f w) as [[] w1]. apply Hm.
Qed.
Lemma runs_step f m l : runs m l → runs (b ← call f; if negb b then mret false else m) (f :: l).
Proof. intros Hm. apply (runs_seq (call f) m [f] l); [apply runs_call|done]. Qed.

Lemma screen_runs : runs CStdlibAppScreen_Initialize screen_stages.
Proof.
  unfold CStdlibAppScreen_Initialize, CStdlibApp_Initialize, screen_stages. do 3 apply runs_step.
  intros w. rewrite bind_unfold. unfold call at 1. cbn [run_stages]. unfold logger_stage.
  destruct (GetDevice _ w) as [o w1]. rewrite bind_unfold. unfold call at 1.
  destruct (Logger_Initialize _ w1) as [[] w2]; [apply runs_call|done].
Qed.

Lemma stdio_runs a : runs (CStdlibAppStdio_Initialize a) (stdio_stages a).
Proof.
  apply runs_seq; [apply screen_runs|]. apply runs_step.
  intros w. rewrite bind_unfold. unfold call at 1. cbn [run_stages]. unfold mount_stage at 1.
  destruct (f_mount _ _ _ w) as [r w1]. destruct (r =? FR_OK); cbn [negb].
  - revert w1. change (runs (b ← call USBHCI_Initialize;
      if negb b then mret false else
      b ← call Console_Initialize;
      if negb b then mret false else
      call CGlueStdioInit;; call (Logger_Write "Compile time: " []);; mret true)
      [USBHCI_Initialize; Console_Initialize; always CGlueStdioInit;
       always (Logger_Write "Compile time: " [])]).
    apply runs_step, runs_step, runs_always, runs_always, runs_true.
  - rewrite bind_unfold. unfold call. by destruct (Logger_Write _ _ w1) as [[] w2].
Qed.

Lemma network_runs a : runs (InitializeNoWaitForActivate a) (network_stages a).
Proof.
  apply runs_seq; [apply stdio_runs|]. destruct (mDeviceType a).
  - rewrite bool_decide_eq_false_2 by done.
    apply (runs_seq (mret true) _ [] [Net_Initialize]); [done|]. apply runs_step.
    apply (runs_seq (mret true) _ [] []); done.
  - rewrite bool_decide_eq_true_2 by done. apply runs_step, runs_step, runs_step, runs_true.
Qed.

(** A round of the loop that waits for the network. *)
Definition poll (w : W) : W := (Scheduler_Yield (Net_IsRunning w).2).2.

Lemma wait_round fuel w :
  wait_for_network (S fuel) w =
    if (Net_IsRunning w).1 then Ok ((), (Net_IsRunning w).2) else wait_for_network fuel (poll w).
Proof.
  cbn [wait_for_network]. rewrite bind_unfold. unfold call at 1, poll.
  destruct (Net_IsRunning w) as [[] w1]; cbn [negb fst snd]; [done|].
  rewrite bind_unfold. unfold call. by destruct (Scheduler_Yield w1) as [[] w2].
Qed.

Lemma wait_returns n fuel w :
  (Net_IsRunning (Nat.iter n poll w)).1 = true →
  (∀ i, (i < n)%nat → (Net_IsRunning (Nat.iter i poll w)).1 = false) → (n < fuel)%nat →
  wait_for_network fuel w = Ok ((), (Net_IsRunning (Nat.iter n poll w)).2).
Proof.
  revert w fuel. induction n as [|n IH]; intros w [|fuel] Hn Hb Hf; try lia; rewrite wait_round.
  - cbn in Hn |- *. by rewrite Hn.
  - pose proof (Hb 0%nat ltac:(lia)) as Hb0. cbn in Hb0. rewrite Hb0. clear Hb0. rewrite Nat.iter_succ_r in Hn |- *. apply IH; [done| |lia].
    intros i Hi. rewrite <-Nat.iter_succ_r. apply Hb. lia.
Qed.

Lemma wait_forever fuel w :
  (∀ i, (Net_IsRunning (Nat.iter i poll w)).1 = false) → wait_for_network fuel w = Fault OutOfFuel.
Proof.
  revert w. induction fuel as [|fuel IH]; intros w Hb; [done|]. rewrite wait_round.
  pose proof (Hb 0%nat) as Hb0. cbn in Hb0. rewrite Hb0. apply IH. intros i. rewrite <-Nat.iter_succ_r. apply Hb.
Qed.
End stages.

(** C39: the initialisation of a network application.  It is the list of its
    stages, run until the first that fails: the result says whether all have
    succeeded, and none behind a failure is run.  The loop that waits for the
    network then returns as soon as the network runs, after which the network
    of the C library is connected; it never returns when the network does not
    come up. *)
Theorem app_initialize `{AppDevices W} (a : app) (w : W) :
  InitializeNoWaitForActivate a w = Ok (run_stages (network_stages a) w) ∧
  (∀ fuel w1, run_stages (network_stages a) w = (false, w1) →
    CStdlibAppNetwork_Initialize fuel a w = Ok (false, w1)) ∧
  (∀ w1, run_stages (network_stages a) w = (true, w1) →
    (∀ n fuel, (Net_IsRunning (Nat.iter n poll w1)).1 = true →
      (∀ i, (i < n)%nat → (Net_IsRunning (Nat.iter i poll w1)).1 = false) → (n < fuel)%nat →
      CStdlibAppNetwork_Initialize fuel a w =
        Ok (true, (CGlueNetworkInit (Net_IsRunning (Nat.iter n poll w1)).2).2)) ∧
    ((∀ i, (Net_IsRunning (Nat.iter i poll w1)).1 = false) →
      ∀ fuel, CStdlibAppNetwork_Initialize fuel a w = Fault OutOfFuel)).
Proof.
  assert (Hrun : InitializeNoWaitForActivate a w = Ok (run_stages (network_stages a) w))
    by apply network_runs.
  unfold CStdlibAppNetwork_Initialize. split_and!; [done| |].
  - intros fuel w1 E. by rewrite bind_unfold, Hrun, E.
  - intros w1 E. split.
    + intros n fuel Hn Hb Hf. rewrite bind_unfold, Hrun, E. cbn [negb].
      rewrite bind_unfold, (wait_returns n fuel w1 Hn Hb Hf), bind_unfold. unfold call.
      by destruct (CGlueNetworkInit _) as [[] w2].
    + intros Hb fuel. rewrite bind_unfold, Hrun, E. cbn [negb].
      by rewrite bind_unfold, (wait_forever fuel w1 Hb).
Qed.

(** Devices that all work; the network runs from the third question on. *)
Module AppDemo.
Definition ok (w : nat) : bool * nat := (true, w).
Definition nothing (w : nat) : () * nat := ((), w).
#[export] Instance devices : AppDevices nat := {|
  Device := bool;
  mScreen := true;
  Interrupt_Initialize := ok;
  Screen_Initialize := ok;
  Serial_Initialize _ := ok;
  Options_LogDevice := [];
  GetDevice _ w := (None, w);
  Logger_Initialize _ := ok;
  Timer_Initialize := ok;
  EMMC_Initialize := ok;
  f_mount _ _ _ w := (0, w);
  USBHCI_Initialize := ok;
  Console_Initialize := ok;
  CGlueStdioInit := nothing;
  Logger_Write _ _ := nothing;
  WLAN_Initialize := ok;
  Net_Initialize := ok;
  WPASupplicant_Initialize := ok;
  Net_IsRunning w := (bool_decide (2 ≤ w)%nat, w);
  Scheduler_Yield w := ((), S w);
  CGlueNetworkInit := nothing;
  halt := nothing;
  reboot := nothing;
  EXIT_HALT := 0;
  EXIT_REBOOT := 1
|}.
Definition wlan : app := mkApp CSTDLIBAPP_DEFAULT_PARTITION NetDeviceTypeWLAN.
End AppDemo.
Import (hints) AppDemo.

Lemma app_initialize_witness :
  CStdlibAppNetwork_Initialize 3 AppDemo.wlan 0%nat = Ok (true, 2%nat).
Proof.
  destruct (app_initialize AppDemo.wlan 0%nat) as (_ & _ & Hok).
  destruct (Hok 0%nat eq_refl) as [Hn _]. apply (Hn 2%nat 3%nat); [reflexivity| |lia].
  intros [|[|i]] Hi; [reflexivity..|lia].
Defined.
