(* ===== verification/HttpsClient.v ===== *)
(** The third HTTPS client sample: [CKernel] of
    [samples/mbedtls/05-https-client3/kernel.cpp].  It gets a page over a
    [CTLSSimpleClientSocket] and prints its beginning. *)
From stdpp Require Import base numbers list gmap option strings.
From S2P Require Import Prelude.
From S2P Require Import Libc.
From S2P Require Import Circle.
From S2P Require Import NetSockets.
From S2P Require Import HttpClient.
From S2P Require Import TlsConfig.
From S2P Require Import X509CertChain.
From S2P Require Import TlsSocket.
From S2P Require Import TlsClient.
From S2P Require Import StdlibApp.
Import Libc Net TlsConfig X509CertChain TlsClient.

(** The standard output, to which [fputs] and [putchar] write as [printf] does,
    the messages of mbed TLS, and the scheduler. *)
Class HttpsWorld (W : Type) := {
  printf : string → list fmt_arg → W → () * W;
  mbedtls_strerror : Z → list Z;
  CScheduler_Sleep : Z → W → () * W
}.

Module HttpsClient.
Definition SERVER_NAME : list Z := cstr "elinux.org".
Definition SERVER_PORT : list Z := cstr "443".
Definition SERVER_PAGE : list Z := cstr "/Main_Page".

(** The end of a line of the output. *)
Definition newline : string := String (Ascii.ascii_of_nat 10) EmptyString.

(** The text [sprintf] writes to [Buffer]. *)
Definition request : list Z :=
  cstr "GET " ++ SERVER_PAGE ++ cstr " HTTP/1.1" ++ Http.CRLF ++ cstr "Host: " ++ SERVER_NAME ++
  Http.CRLF ++ Http.CRLF.

Section kernel.
Context `{Target, MbedTLS, PtrArray, SocketPlatform W, !MbedSSL W, X509Codes, FileSystem W,
  !HttpsWorld W}.

Abbreviation OM := (M (objects (W := W))).
Abbreviation T := (M (Tls.tls (W := W))).
Abbreviation C := (M (client (W := W))).

Definition say (format : string) (args : list fmt_arg) : T () := Tls.obj_op (ask (printf format args)).

(** The [while] loop over the received pieces. *)
Fixpoint receive_loop (fuel : nat) (Buffer : list cell) (nBytesReceived : Z) : T Z :=
  match fuel with
  | O => fail OutOfFuel
  | S fuel =>
      '(nResult, bs) ← Tls.Receive (Z.of_nat (length Buffer) - 1) 0;
      if nResult >? 0 then
        Buffer ← lift_res (wr_bytes Buffer 0 bs);
        assert_ (nResult <? Z.of_nat (length Buffer));;
        Buffer ← lift_res (wr Buffer nResult 0);
        (if nBytesReceived <? 200
         then text ← lift_res (c_string Buffer); say "%s" [ArgS text]
         else say "." []);;
        receive_loop fuel Buffer (s32 (nBytesReceived + nResult))
      else mret nResult
  end.

(** [GetDocument] behind [Setup]. *)
Definition transfer (fuel : nat) : T Z :=
  nResult ← Tls.Connect_host fuel (Some SERVER_NAME) (Some SERVER_PORT);
  if negb (nResult =? 0) then say ("Connect failed (%d)" +:+ newline) [ArgZ nResult];; mret nResult
  else
    Buffer ← lift_res (wr_bytes (uninit 1024) 0 (request ++ [0]));
    nResult ← Tls.Send request 0;
    if nResult <? 0 then say ("Send failed (%d)" +:+ newline) [ArgZ nResult];; mret nResult
    else
      nResult ← receive_loop fuel Buffer 0;
      say newline [];;
      mret (if negb (nResult =? -1) then nResult else 0).

(** The body of [GetDocument], on the socket that is its local variable. *)
Definition document (fuel : nat) : C Z :=
  nResult ← AddCertificatePath fuel (Some (cstr "/"));
  if nResult <=? 0 then
    inherited (say ("Invalid or no certificate (%d)" +:+ newline) [ArgZ nResult]);;
    mret (if nResult =? 0 then -1 else nResult)
  else
    nResult ← Setup_default (Some SERVER_NAME);
    if negb (nResult =? 0) then
      inherited (say ("SSL setup failed (%d)" +:+ newline) [ArgZ nResult]);; mret nResult
    else inherited (transfer fuel).

(** A block with a local object: its destructor runs at every [return]. *)
Definition with_local {A} (o : CTLSSimpleClientSocket (W := W)) (body : C A) : OM A :=
  λ os, match (a ← body; destroy;; mret a) (mkClient o os) with
        | Ok (a, s) => Ok (a, others s)
        | Fault e => Fault e
        end.

Definition GetDocument (fuel : nat) (m_TLSSupport : CTLSSimpleSupport) : OM Z :=
  Socket ← construct (Some m_TLSSupport) IPPROTO_TCP;
  with_local Socket (document fuel).

Definition PrintError (nErrorCode : Z) : OM () :=
  ask (printf ("%s" +:+ newline) [ArgS (mbedtls_strerror nErrorCode)]).

Definition Run (fuel : nat) (m_TLSSupport : CTLSSimpleSupport) : OM StdlibApp.TShutdownMode :=
  nResult ← GetDocument fuel m_TLSSupport;
  ask (printf ("GetDocument() returned %d" +:+ newline) [ArgZ nResult]);;
  (if negb (nResult =? 0) then PrintError nResult else mret ());;
  ask (CScheduler_Sleep 10);;
  mret StdlibApp.ShutdownHalt.
End kernel.
End HttpsClient.
