(* ===== verification/HttpsClientProps.v ===== *)
(** Properties of the third HTTPS client sample. *)
From stdpp Require Import base numbers list gmap option strings.
From S2P Require Import Prelude.
From S2P Require Import Libc.
From S2P Require Import Circle.
From S2P Require Import NetSockets.
From S2P Require Import NetInv.
From S2P Require Import TlsConfig.
From S2P Require Import X509CertChain.
From S2P Require Import TlsSocket.
From S2P Require Import TlsInv.
From S2P Require Import TlsSafety.
From S2P Require Import TlsClient.
From S2P Require Import TlsClientProps.
From S2P Require Import HttpsClient.
Import Libc Net TlsConfig Tls TlsClient HttpsClient.

(** * The transfer *)

Section transfer.
Context `{Target, MbedTLS, !MbedTLSOk, PtrArray, !PtrArrayOk, SocketPlatform W, !PlatformOk W,
  !MbedSSL W, !MbedSSLOk W, X509Codes, FileSystem W, !HttpsWorld W}.

(** Whether the socket is connected stays as it is. *)
Definition still (s s' : tls (W := W)) : Prop := m_bConnected (this s') = m_bConnected (this s).

Lemma say_ok k s f args :
  tls_ok k s → wp no_fault (say f args) (λ _ s', tls_ok k s' ∧ still s s') s.
Proof using Type. intros Hok. unfold say. apply wp_ask. intros _ w. split; [by apply tls_ok_world|done]. Qed.

Lemma Send_connected k s bs fl :
  tls_ok k s → m_bConnected (this s) = true →
  wp no_fault (Send bs fl) (λ _ s', tls_ok k s' ∧ still s s') s.
Proof using Type*.
  intros Hok Hcon. destruct (ok_connected _ _ Hok Hcon) as [Hp Hbio].
  destruct (tls_ok_object _ _ Hok Hp) as [o Ho]. unfold Send. wp_step. wp_step.
  eapply wp_run; [by unfold assert_; rewrite Hcon|].
  eapply wp_mono; [by apply (ssl_call_ok _ k s o)|]. intros a s' Hca.
  destruct (call_answer_ok _ _ _ _ _ _ Hok Ho Hca) as [Hok' (_ & _ & _ & E & _)]. done.
Qed.

Lemma Connect_connects fuel ip port s :
  wp any_fault (Tls.Connect fuel ip port) (λ r s', r = 0 → m_bConnected (this s') = true) s.
Proof using Type*.
  assert (MBEDTLS_ERR_SSL_ALLOC_FAILED < 0 ∧ MBEDTLS_ERR_X509_CERT_VERIFY_FAILED < 0) as [Ha Hv].
  { pose proof net_errors_neg as Hn. rewrite !Forall_cons in Hn. tauto. }
  unfold Tls.Connect. wp_step. wp_step. apply wp_if; intros _; [wp_step; lia|].
  wp_step. apply wp_assert; [intros _|done]. wp_step. apply obj_op_any. intros r os.
  destruct (Z.eqb_spec r 0) as [->|Hr]; cbn [negb]; [|wp_step; done].
  unfold change at 1. do 2 wp_step. wp_step. eapply wp_mono; [apply handshake_conf|].
  intros r s1 _. destruct (Z.eqb_spec r 0) as [->|Hr]; cbn [negb]; [|wp_step; done].
  unfold finish_connect, change. do 2 wp_step. wp_step. wp_step. apply wp_if; intros _.
  - wp_step. apply obj_op_any. intros _ os'. wp_step. lia.
  - by wp_step.
Qed.

Lemma Connect_host_connects fuel host port s :
  wp any_fault (Connect_host fuel (Some host) (Some port)) (λ r s', r = 0 → m_bConnected (this s') = true) s.
Proof using Type*.
  assert (MBEDTLS_ERR_NET_CONNECT_FAILED < 0 ∧ MBEDTLS_ERR_NET_UNKNOWN_HOST < 0) as [Hc Hu].
  { pose proof net_errors_neg as Hn. rewrite !Forall_cons in Hn. tauto. }
  unfold Connect_host. do 4 (eapply wp_run; [done|]). destruct (port_number port) as [p|]; [|wp_step; lia].
  wp_step. wp_step. wp_step. apply wp_assert; [intros _|done]. wp_step. apply obj_op_any.
  intros [ip|] os; [apply Connect_connects|]. wp_step. lia.
Qed.

(** A piece in the buffer, with the zero behind it. *)
Lemma piece_in_buffer buf bs r :
  0 < r → Z.of_nat (length bs) = r → r < Z.of_nat (length buf) →
  ∃ buf1 buf2, wr_bytes buf 0 bs = Ok buf1 ∧ length buf1 = length buf ∧ wr buf1 r 0 = Ok buf2 ∧
    length buf2 = length buf ∧ c_string buf2 = Ok (until_nul bs).
Proof using Type.
  intros Hr Hl Hb. destruct (wr_bytes_Ok buf 0 (bs ++ [0])) as (buf2 & E & Hl2 & Hh & _);
    [lia|rewrite length_app; cbn; lia|].
  rewrite wr_bytes_app in E. destruct (wr_bytes buf 0 bs) as [buf1|] eqn:E1; [|done].
  destruct (wr_bytes_Ok buf 0 bs) as (b & Eb & Hlb & _); [lia|lia|]. rewrite E1 in Eb. injection Eb as <-.
  rewrite Z.add_0_l, Hl in E. cbn [wr_bytes] in E. destruct (wr buf1 r 0) as [b2|] eqn:E2; [|done].
  injection E as ->. exists buf1, buf2. split_and!; try done. by apply c_string_holds.
Qed.

Lemma pieces_ok fuel k s buf n :
  BlockingSockets W → tls_ok k s → m_bConnected (this s) = true → (0 < length buf)%nat →
  wp (eq OutOfFuel) (receive_loop fuel buf n) (λ _ s', tls_ok k s') s.
Proof using Type*.
  intros Hbl. revert s buf n. induction fuel as [|fuel IH]; intros s buf n Hok Hcon Hb; [by apply wp_fail|].
  cbn [receive_loop]. wp_step. eapply wp_mono; [apply wp_no_fault; apply (Receive_ok k); try done; lia|].
  intros [r bs] s1 (Hok1 & (_ & _ & _ & Hc1 & _) & (Hl & Hr) & _). cbn in Hl, Hr.
  destruct (Z.gtb_spec r 0) as [Hpos|]; [|by wp_step].
  destruct (piece_in_buffer buf bs r) as (buf1 & buf2 & E1 & Hl1 & E2 & Hl2 & E3); [lia..|].
  wp_step. apply (wp_lift_Ok _ _ buf1); [done|]. wp_step. apply wp_assert_true; [apply Z.ltb_lt; lia|].
  wp_step. apply (wp_lift_Ok _ _ buf2); [done|]. wp_step.
  assert (∀ m : M tls (), wp no_fault m (λ _ s', tls_ok k s' ∧ still s1 s') s1 →
    wp (eq OutOfFuel) m (λ _ s2, wp (eq OutOfFuel) (receive_loop fuel buf2 (s32 (n + r)))
      (λ _ s', tls_ok k s') s2) s1) as Hnext.
  { intros m Hm. eapply wp_mono; [apply wp_no_fault, Hm|]. intros _ s2 [Hok2 Hst]. apply IH; [done| |lia].
    unfold still in Hst. congruence. }
  apply wp_if; intros _; apply Hnext.
  - wp_step. apply (wp_lift_Ok _ _ (until_nul bs)); [done|]. by apply say_ok.
  - by apply say_ok.
Qed.

(** Behind [Setup] nothing can go wrong: from a socket that is set up the
    connection is made, the request is sent, and the pieces of the answer are
    printed, without a fault and whatever the server does.  The text of the
    request and every piece fit into the buffer. *)
Lemma transfer_ok fuel k s :
  BlockingSockets W → tls_ok k s → unconnected s → m_pNetSubSystem (this s) ≠ 0 →
  wp (eq OutOfFuel) (transfer fuel) (λ _ s', tls_ok k s') s.
Proof using Type*.
  intros Hbl Hok Hun Hnet. unfold transfer. wp_step.
  eapply wp_mono; [eapply wp_conj; [exact (proj1 (Connect_host_ok' k s _ _ Hok Hun Hnet) fuel)|apply Connect_host_connects]|].
  intros r s1 [Hok1 Hcon]. destruct (Z.eqb_spec r 0) as [->|Hr]; cbn [negb].
  - wp_step. destruct (wr_bytes_Ok (uninit 1024) 0 (request ++ [0])) as (buf & E & Hl & _);
      [lia|by vm_compute|]. apply (wp_lift_Ok _ _ buf); [done|]. wp_step.
    eapply wp_mono; [apply wp_no_fault, (Send_connected k); [done|by apply Hcon]|].
    intros n s2 [Hok2 Hst]. apply wp_if; intros _.
    + wp_step. eapply wp_mono; [apply wp_no_fault, (say_ok k); done|]. intros _ s3 [Hok3 _]. by wp_step.
    + wp_step. eapply wp_mono; [apply (pieces_ok fuel k); try done|].
      * unfold still in Hst. by rewrite Hst, Hcon.
      * rewrite Hl. unfold uninit. rewrite length_replicate. lia.
      * intros r s3 Hok3. wp_step. eapply wp_mono; [apply wp_no_fault, (say_ok k); done|].
        intros _ s4 [Hok4 _]. by wp_step.
  - wp_step. eapply wp_mono; [apply wp_no_fault, (say_ok k); done|]. intros _ s2 [Hok2 _]. by wp_step.
Qed.
End transfer.

(** * The document *)

Section document.
Context `{Target, MbedTLS, !MbedTLSOk, PtrArray, !PtrArrayOk, SocketPlatform W, !PlatformOk W,
  !MbedSSL W, !MbedSSLOk W, X509Codes, FileSystem W, !HttpsWorld W}.

(** A socket without a configuration depends on the sockets below only. *)
Lemma tls_ok_below k (b : CTLSSocket (W := W)) os os' w :
  tls_ok k (mkTls b os) → m_conf b = 0 → below os' = set_world w (below os) → tls_ok k (mkTls b os').
Proof using Type.
  intros [Hn Hs Hc _] Hconf E. split; cbn in *.
  - rewrite E. by apply net_ok_world.
  - intros Hp. destruct (Hs Hp) as [Hl Hu]. rewrite E. by split.
  - exact Hc.
  - rewrite Hconf. by exists None.
Qed.

Lemma same_world (n : net (W := W)) : n = set_world (world n) n.
Proof using Type. by destruct n. Qed.

Lemma construct_sound k sup os :
  net_ok k (below os) → k < 2^31 - 1 →
  wp no_fault (construct (Some sup) IPPROTO_TCP)
    (λ o os', tls_ok (k + 1) (mkTls (base o) os') ∧ m_bConnected (base o) = false ∧
       m_conf (base o) = 0) os.
Proof using Type*.
  intros Hn Hk. unfold construct. wp_step. apply (wp_deref_Some _ _ sup); [done|]. wp_step.
  eapply wp_mono; [by apply construct_ok|]. intros b os1 (Hok & Hun & _ & Hconf).
  unfold CEntropyContext, CCTR_DRBG, CX509CertificateChain, TlsConfig.CTLSConfig, fresh.
  wp_step. repeat wp_step. split_and!; [|exact Hun|exact Hconf].
  eapply tls_ok_below; [exact Hok|exact Hconf|]. cbn. apply same_world.
Qed.

(** The destructor of an object that was not connected. *)
Lemma destroy_unconnected k s :
  tls_ok k (as_tls s) → m_conf (base (self s)) = 0 →
  wp no_fault destroy (λ _ s', net_ok k (below (others s')) ∧
    ¬ live (below (others s')) (Tls.m_pSocket (base (self s)))) s.
Proof using Type*.
  intros Hok Hconf. unfold destroy. wp_step. wp_step.
  wp_step. apply wp_member. unfold CTLSConfig_destroy. wp_step.
  wp_step. apply wp_member. unfold CX509CertificateChain_destroy. wp_step.
  wp_step. apply wp_member. unfold CCTR_DRBG_destroy. wp_step.
  wp_step. apply wp_member. unfold CEntropyContext_destroy. wp_step.
  unfold inherited. wp_step.
  match goal with |- wp _ _ _ ?x => set (t := x) end.
  assert (tls_ok k t) as Ht.
  { eapply (tls_ok_below k (base (self s)) (others s)); [exact Hok|exact Hconf|]. cbn. apply same_world. }
  eapply wp_mono; [by apply (CTLSSocket_destroy_ok k t)|]. intros _ t' (Hn & Hl & _). by split.
Qed.
End document.

(** What becomes of [GetDocument].  If the root directory has no certificate it
    returns -1, or the error code of the search, after the local socket has been
    destroyed, which deletes the socket below it and leaves the table of sockets
    in order.  If there is a certificate, [Setup] is called without its optional
    parameter and takes the length of a null pointer. *)
Theorem get_document `{Target, MbedTLS, !MbedTLSOk, PtrArray, !PtrArrayOk, SocketPlatform W, !PlatformOk W,
    !MbedSSL W, !MbedSSLOk W, X509Codes, FileSystem W, !HttpsWorld W} fuel sup k os o os1 r s2 :
  net_ok k (below os) → k < 2^31 - 1 →
  construct (Some sup) IPPROTO_TCP os = Ok (o, os1) →
  AddCertificatePath fuel (Some (cstr "/")) (mkClient o os1) = Ok (r, s2) →
  if r <=? 0 then
    ∃ os', GetDocument fuel sup os = Ok (if r =? 0 then -1 else r, os') ∧
      net_ok (k + 1) (below os') ∧ ¬ live (below os') (Tls.m_pSocket (base o))
  else GetDocument fuel sup os = Fault NullDeref.
Proof.
  intros Hn Hk Ec Ea.
  pose proof (wp_Ok _ _ _ _ _ _ (construct_sound k sup os Hn Hk) Ec) as (Hok & Hun & Hconf).
  pose proof (wp_Ok _ _ _ _ _ _ (run_addition_keeps (AddPath fuel (cstr "/")) (mkClient o os1)) Ea)
    as [Es (_ & _ & _ & w & Ew)]. cbn [self others has_added] in Es, Ew.
  unfold GetDocument. rewrite (bind_run _ _ _ _ _ Ec). unfold with_local.
  destruct (Z.leb_spec r 0) as [Hr|Hr].
  - rewrite (proj2 (Z.ltb_ge 0 r)) in Es by done. rewrite with_added_false in Es.
    assert (tls_ok (k + 1) (as_tls s2)) as Hok2.
    { unfold as_tls. rewrite Es. by eapply tls_ok_below. }
    assert (wp no_fault (a ← document fuel; destroy;; mret a)
      (λ a s, a = (if r =? 0 then -1 else r) ∧ net_ok (k + 1) (below (others s)) ∧
         ¬ live (below (others s)) (Tls.m_pSocket (base o))) (mkClient o os1)) as Hw.
    { wp_step. unfold document. eapply wp_run; [exact Ea|]. rewrite (proj2 (Z.leb_le _ _)) by done.
      wp_step. unfold inherited, say. wp_step. apply wp_ask. intros _ w'. wp_step. wp_step.
      eapply wp_mono; [apply (destroy_unconnected (k + 1))|].
      - apply (tls_ok_world (k + 1) (as_tls s2) w' Hok2).
      - cbn. by rewrite Es.
      - intros _ s3 [Hn3 Hl3]. wp_step. split; [done|]. split; [done|]. cbn in Hl3. by rewrite Es in Hl3. }
    destruct (wp_total _ _ _ Hw) as (a & s & E & -> & Hn3 & Hl3). rewrite E. eauto.
  - rewrite bind_unfold. unfold document. rewrite bind_unfold, Ea, (proj2 (Z.leb_gt _ _)) by done. done.
Qed.
