(* ===== verification/TlsProgram.v ===== *)
(** What the C programs of the TLS samples share: the functions of mbed TLS the
    programs [ssl_client1.c] and [ssl_server.c] call, on their local variables.

    The structures of mbed TLS are local variables of [tlsmain].  The function
    [mbedtls_*_init] makes a variable an object of the tables of [TlsConfig], or
    of the record below, and [mbedtls_*_free] takes it out of it, so that a use
    before the one or behind the other is a fault.  The sockets below are those
    of [NetSockets]. *)
From stdpp Require Import base numbers list gmap option strings.
From S2P Require Import Prelude.
From S2P Require Import Libc.
From S2P Require Import Circle.
From S2P Require Import NetSockets.
From S2P Require Import TlsConfig.
From S2P Require Import HttpsClient.
From S2P Require Import StdlibApp.
Import Libc Net TlsConfig HttpsClient.

(** The functions and constants of mbed TLS that only these programs use.
    [x509_crt_next] is the rest of a chain behind its first certificate. *)
Class MbedProgram (W : Type) `{!MbedSSL W} := {
  pk_context : Type;
  MBEDTLS_SSL_IS_SERVER : Z;
  MBEDTLS_SSL_VERIFY_OPTIONAL : Z;
  MBEDTLS_ERR_SSL_PEER_CLOSE_NOTIFY : Z;
  MBEDTLS_ERR_NET_CONN_RESET : Z;
  mbedtls_test_cas_pem : list Z;
  mbedtls_test_srv_crt : list Z;
  mbedtls_test_srv_key : list Z;
  debug_set_threshold : Z → W → () * W;
  pk_init : pk_context;
  pk_parse_key : pk_context → list Z → W → (Z * pk_context) * W;
  x509_crt_next : x509_crt → option x509_crt;
  ssl_conf_session_cache : ssl_config → ssl_config;
  ssl_conf_own_cert : x509_crt → pk_context → ssl_config → W → (Z * ssl_config) * W;
  ssl_session_reset : option (ssl_config * option x509_crt) → ssl_context → W → (Z * ssl_context) * W;
  ssl_get_ciphersuite : ssl_context → list Z
}.

(** The settings these functions do not concern stay; the names of the cipher
    suites are short; and [mbedtls_ssl_write] has no code of its own for a
    connection that was reset by the peer. *)
Class MbedProgramOk (W : Type) `{MbedTLS, MbedProgram W} := {
  view_session_cache c : conf_view (ssl_conf_session_cache c) = conf_view c;
  view_own_cert x k c w : conf_view (ssl_conf_own_cert x k c w).1.2 = conf_view c;
  close_notify_neg : MBEDTLS_ERR_SSL_PEER_CLOSE_NOTIFY < 0;
  ciphersuite_length c : (length (ssl_get_ciphersuite c) ≤ 128)%nat;
  conn_reset_code : MBEDTLS_ERR_NET_CONN_RESET < 0 ∧
    Forall (λ e, e ≠ MBEDTLS_ERR_NET_CONN_RESET) [MBEDTLS_ERR_NET_SEND_FAILED;
      MBEDTLS_ERR_NET_INVALID_CONTEXT; MBEDTLS_ERR_SSL_WANT_READ; MBEDTLS_ERR_SSL_WANT_WRITE];
  write_conn_reset bs c x r y :
    returns (λ n, n ≠ MBEDTLS_ERR_NET_CONN_RESET) (λ a, a.1 ≠ MBEDTLS_ERR_NET_CONN_RESET)
      (ssl_write bs c x) (r, y) →
    r ≠ MBEDTLS_ERR_NET_CONN_RESET
}.

Module TlsProgram.
(** The addresses of the local variables; [next_certificate] is that of the
    certificate behind the first one of the chain. *)
Definition entropy : Z := 1.
Definition ctr_drbg : Z := 2.
Definition conf : Z := 3.
Definition certificate : Z := 4.
Definition next_certificate : Z := 5.

Definition BUF_SIZE : Z := 1024.

Section program.
Context `{Target, MbedTLS, PtrArray, SocketPlatform W, !MbedSSL W, !MbedProgram W, !HttpsWorld W}.

(** The variable [ssl], with the pointers mbed TLS keeps in it to the
    configuration (0 before [mbedtls_ssl_setup]) and to the context of the
    callbacks (0 before [mbedtls_ssl_set_bio]). *)
Record connection := mkConnection {
  context : ssl_context;
  conf_of : Z;
  bio_of : Z
}.

(** The variables: [ssl], [pkey] and [cache] where they are initialised, whether
    the configuration points to the certificate and key of the program and to
    the cache, [buf], and the other structures with the sockets below. *)
Record program := mkProgram {
  ssl : option connection;
  pkey : option pk_context;
  cache : bool;
  own_cert : bool;
  session_cache : bool;
  buf : list cell;
  objs : objects (W := W)
}.
Definition set_ssl (x : option connection) (s : program) : program :=
  mkProgram x (pkey s) (cache s) (own_cert s) (session_cache s) (buf s) (objs s).
Definition set_pkey (x : option pk_context) (s : program) : program :=
  mkProgram (ssl s) x (cache s) (own_cert s) (session_cache s) (buf s) (objs s).
Definition set_cache (x : bool) (s : program) : program :=
  mkProgram (ssl s) (pkey s) x (own_cert s) (session_cache s) (buf s) (objs s).
Definition set_links (own cached : bool) (s : program) : program :=
  mkProgram (ssl s) (pkey s) (cache s) own cached (buf s) (objs s).
Definition set_buf (x : list cell) (s : program) : program :=
  mkProgram (ssl s) (pkey s) (cache s) (own_cert s) (session_cache s) x (objs s).
Definition set_objs (x : objects) (s : program) : program :=
  mkProgram (ssl s) (pkey s) (cache s) (own_cert s) (session_cache s) (buf s) x.

Abbreviation P := (M program).

Definition obj_op {A} (m : M objects A) : P A := zoom objs set_objs m.
Definition sock_op {A} (m : M (net (W := W)) A) : P A := obj_op (net_op m).
Definition ask {A} (f : W → A * W) : P A := obj_op (TlsConfig.ask f).
Definition say (format : string) (args : list fmt_arg) : P () := ask (printf format args).

(** A message of two lines, as the programs print them for an error. *)
Definition say_failed (what : string) (ret : Z) : P () :=
  say (" failed" +:+ newline +:+ what +:+ newline) [ArgZ ret].

(** ** Parts of a program that may leave it

    [Some g] is a [goto], [None] the way to the next statement. *)
Definition then_ {G} (m : P (option G)) (k : P G) : P G :=
  r ← m; match r with Some g => mret g | None => k end.

(** ** The structures *)

Definition mbedtls_ssl_init : P () := modify (set_ssl (Some (mkConnection ssl_init 0 0))).
Definition the_ssl : P connection :=
  s ← get; match ssl s with Some c => mret c | None => fail BadAccess end.
Definition set_context (c : connection) (x : ssl_context) : P () :=
  modify (set_ssl (Some (mkConnection x (conf_of c) (bio_of c)))).
Definition mbedtls_ssl_free : P () :=
  c ← the_ssl; ask (ssl_free (context c));; modify (set_ssl None).

(** The variables that are objects of [TlsConfig]. *)
Definition mbedtls_ssl_config_init : P () :=
  obj_op (modify (λ o, set_configs (<[conf := ssl_config_init]> (configs o)) o)).
Definition mbedtls_ssl_config_free : P () :=
  obj_op (find_object configs conf;; CTLSConfig_destroy conf).

Definition mbedtls_x509_crt_init : P () :=
  obj_op (modify (λ o, set_chains (<[certificate := x509_crt_init]> (chains o)) o)).
Definition mbedtls_x509_crt_parse (bytes : list Z) : P Z := obj_op (AddCertificate certificate bytes).
(** [srvcert.next]: the rest of the chain is an object that lives as long. *)
Definition certificate_next : P Z :=
  x ← obj_op (find_object chains certificate);
  match x509_crt_next x with
  | None => mret 0
  | Some y =>
      obj_op (modify (λ o, set_chains (<[next_certificate := y]> (chains o)) o));;
      mret next_certificate
  end.
Definition mbedtls_x509_crt_free : P () :=
  obj_op (find_object chains certificate;; CX509CertificateChain_destroy certificate;;
          CX509CertificateChain_destroy next_certificate).

(** A generator has no entropy context until it is seeded. *)
Definition mbedtls_ctr_drbg_init : P () :=
  obj_op (modify (λ o, set_drbgs (<[ctr_drbg := 0]> (drbgs o)) o)).
Definition mbedtls_ctr_drbg_seed (pers : list Z) : P Z :=
  obj_op (find_object drbgs ctr_drbg;;
          e ← CEntropyContext_Get entropy;
          modify (λ o, set_drbgs (<[ctr_drbg := e]> (drbgs o)) o);;
          TlsConfig.ask (ctr_drbg_seed ctr_drbg e pers)).
Definition mbedtls_ctr_drbg_free : P () :=
  obj_op (find_object drbgs ctr_drbg;; CCTR_DRBG_destroy ctr_drbg).

Definition mbedtls_entropy_init : P () :=
  obj_op (modify (λ o, set_entropies ({[entropy]} ∪ entropies o) o)).
Definition mbedtls_entropy_free : P () :=
  obj_op (CEntropyContext_Get entropy;; CEntropyContext_destroy entropy).

Definition mbedtls_pk_init : P () := modify (set_pkey (Some pk_init)).
Definition the_key : P pk_context :=
  s ← get; match pkey s with Some k => mret k | None => fail BadAccess end.
Definition mbedtls_pk_parse_key (key : list Z) : P Z :=
  k ← the_key;
  '(n, k) ← ask (pk_parse_key k key);
  modify (set_pkey (Some k));;
  mret n.
Definition mbedtls_pk_free : P () := the_key;; modify (set_pkey None).

Definition mbedtls_ssl_cache_init : P () := modify (set_cache true).
Definition the_cache : P () := s ← get; if cache s then mret () else fail BadAccess.
Definition mbedtls_ssl_cache_free : P () := the_cache;; modify (set_cache false).

(** ** The configuration *)

Definition mbedtls_ssl_config_defaults (endpoint : Z) : P Z :=
  obj_op (SetDefaults conf endpoint MBEDTLS_SSL_TRANSPORT_STREAM MBEDTLS_SSL_PRESET_DEFAULT).
Definition mbedtls_ssl_conf_authmode (m : Z) : P () := obj_op (SetAuthMode conf m).
Definition mbedtls_ssl_conf_ca_chain (p : Z) : P () := obj_op (SetCA_Chain conf p).
Definition mbedtls_ssl_conf_rng (p : Z) : P () := obj_op (SetRNG conf p).
Definition mbedtls_ssl_conf_dbg : P () := obj_op (SetDebugCallback conf true).
Definition mbedtls_ssl_conf_session_cache : P () :=
  obj_op (configure conf ssl_conf_session_cache);; modify (λ s, set_links (own_cert s) true s).
Definition mbedtls_ssl_conf_own_cert : P Z :=
  x ← obj_op (find_object chains certificate);
  k ← the_key;
  c ← obj_op (find_object configs conf);
  '(n, c) ← ask (ssl_conf_own_cert x k c);
  obj_op (modify (λ o, set_configs (<[conf := c]> (configs o)) o));;
  modify (λ s, set_links true (session_cache s) s);;
  mret n.

(** The configuration of a context with everything it points to, which has to
    be alive. *)
Definition linked_config (p : Z) : P (option (ssl_config * option x509_crt)) :=
  c ← obj_op (used_config p);
  s ← get;
  (if own_cert s then obj_op (find_object chains certificate);; the_key;; mret () else mret ());;
  (if session_cache s then the_cache else mret ());;
  mret c.

(** ** The context *)

(** mbed TLS keeps the pointer to the configuration when it succeeds. *)
Definition mbedtls_ssl_setup : P Z :=
  c ← the_ssl;
  f ← obj_op (find_object configs conf);
  '(n, x) ← ask (ssl_setup f (context c));
  modify (set_ssl (Some (mkConnection x (if n =? 0 then conf else 0) (bio_of c))));;
  mret n.
Definition mbedtls_ssl_set_hostname (name : list Z) : P Z :=
  c ← the_ssl;
  '(n, x) ← ask (ssl_set_hostname name (context c));
  set_context c x;;
  mret n.
Definition mbedtls_ssl_set_bio (ctx : Z) : P () :=
  c ← the_ssl; modify (set_ssl (Some (mkConnection (context c) (conf_of c) ctx))).
Definition mbedtls_ssl_session_reset : P Z :=
  c ← the_ssl;
  f ← linked_config (conf_of c);
  '(n, x) ← ask (ssl_session_reset f (context c));
  set_context c x;;
  mret n.

(** A function of mbed TLS at work: its callbacks are [mbedtls_net_send] and
    [mbedtls_net_recv] with the context of [mbedtls_ssl_set_bio]. *)
Fixpoint run_io {A} (ctx : Z) (p : io W A) : P A :=
  match p with
  | Ret a => mret a
  | CallSend bs k => n ← sock_op (mbedtls_net_send ctx bs); run_io ctx (k n)
  | CallRecv n k => r ← sock_op (mbedtls_net_recv ctx n); run_io ctx (k r)
  | Outside f k => z ← ask f; run_io ctx (k z)
  end.
Definition ssl_call {A}
    (f : option (ssl_config * option x509_crt) → ssl_context → io W (A * ssl_context)) : P A :=
  c ← the_ssl;
  cfg ← linked_config (conf_of c);
  (if bio_of c =? 0 then fail NullDeref else mret ());;
  '(a, x) ← run_io (bio_of c) (f cfg (context c));
  set_context c x;;
  mret a.

Definition mbedtls_ssl_handshake : P Z := ssl_call ssl_handshake.
Definition mbedtls_ssl_close_notify : P Z := ssl_call ssl_close_notify.
Definition mbedtls_ssl_get_verify_result : P Z :=
  c ← the_ssl; mret (u32 (ssl_get_verify_result (context c))).
Definition mbedtls_ssl_get_ciphersuite : P (list Z) :=
  c ← the_ssl; mret (ssl_get_ciphersuite (context c)).

(** [mbedtls_ssl_read (&ssl, buf, len)] and [mbedtls_ssl_write (&ssl, buf, len)] *)
Definition mbedtls_ssl_read (len : Z) : P Z :=
  '(n, bs) ← ssl_call (ssl_read len);
  s ← get;
  b ← lift_res (wr_bytes (buf s) 0 bs);
  modify (set_buf b);;
  mret n.
Definition mbedtls_ssl_write (len : Z) : P Z :=
  s ← get;
  bs ← lift_res (rd_bytes (buf s) 0 (Z.to_nat len));
  ssl_call (ssl_write bs).

(** ** The buffer *)

(** [memset (buf, 0, sizeof (buf))] *)
Definition clear_buf : P () := modify (set_buf (replicate (Z.to_nat BUF_SIZE) (Some 0))).
(** [sprintf] of a text to [buf], with its result. *)
Definition print_to_buf (text : list Z) : P Z :=
  s ← get;
  b ← lift_res (wr_bytes (buf s) 0 (text ++ [0]));
  modify (set_buf b);;
  mret (Z.of_nat (length text)).
(** The text in [buf], as an argument of [printf]. *)
Definition buf_text : P (list Z) := s ← get; lift_res (c_string (buf s)).

(** ** What both programs do *)

Definition wants (ret : Z) : bool := (ret =? MBEDTLS_ERR_SSL_WANT_READ) || (ret =? MBEDTLS_ERR_SSL_WANT_WRITE).

(** The loops around a call, which is repeated until its result is good or not
    one of the two codes for a repetition: the last result. *)
Definition call_step (good : Z → bool) (f : P Z) : P (option Z) :=
  ret ← f;
  if good ret then mret (Some ret)
  else if negb (wants ret) then mret (Some ret)
  else mret None.
Definition call_until (good : Z → bool) (f : P Z) (fuel : nat) : P Z := loop (call_step good f) fuel.

(** The message at the labels, [#ifdef MBEDTLS_ERROR_C]. *)
Definition print_last_error (ret : Z) : P () :=
  if negb (ret =? 0)
  then say ("Last error was: %d - %s" +:+ newline +:+ newline) [ArgZ ret; ArgS (mbedtls_strerror ret)]
  else mret ().

(** [Run] of the kernels of these samples, with the program. *)
Definition Run (tlsmain : P Z) : P StdlibApp.TShutdownMode :=
  ret ← tlsmain;
  say ("tlsmain() returned %d" +:+ newline) [ArgZ ret];;
  ask (CScheduler_Sleep 10);;
  mret StdlibApp.ShutdownHalt.
End program.
End TlsProgram.
