(* ===== verification/TlsClient1.v ===== *)
(** The first TLS client sample, [samples/mbedtls/01-https-client1]: the program
    [ssl_client1.c].  The numbers of the sections are those of its comments;
    [Exit ret] stands for [goto exit] with this value of [ret].  The texts of
    the messages are printed, and the output is not buffered. *)
From stdpp Require Import base numbers list gmap option strings.
From S2P Require Import Prelude.
From S2P Require Import Libc.
From S2P Require Import Circle.
From S2P Require Import NetSockets.
From S2P Require Import TlsConfig.
From S2P Require Import HttpsClient.
From S2P Require Import TlsProgram.
From S2P Require Import StdlibApp.
Import Libc Net TlsProgram.

Module TlsClient1.
(** The address of the local variable [server_fd]. *)
Definition server_fd : Z := 8.

Definition SERVER_PORT : list Z := cstr "443".
Definition SERVER_NAME : list Z := cstr "elinux.org".
Definition GET_REQUEST : list Z :=
  cstr "GET /Main_Page HTTP/1.1" ++ [13; 10] ++ cstr "Host: " ++ SERVER_NAME ++ [13; 10; 13; 10].
Definition pers : list Z := cstr "ssl_client1".
Definition DEBUG_LEVEL : Z := 1.

Abbreviation newline := HttpsClient.newline.

Section client.
Context `{Target, MbedTLS, PtrArray, SocketPlatform W, !MbedSSL W, !MbedProgram W, !HttpsWorld W}.
Abbreviation P := (M (program (W := W))).

(** 0. The random number generator and the session data *)
Definition initialize : P () :=
  ask (debug_set_threshold DEBUG_LEVEL);;
  sock_op (mbedtls_net_init server_fd);;
  mbedtls_ssl_init;;
  mbedtls_ssl_config_init;;
  mbedtls_x509_crt_init;;
  mbedtls_ctr_drbg_init;;
  say (newline +:+ "  . Seeding the random number generator...") [];;
  mbedtls_entropy_init.
Definition seed : P (option Z) :=
  ret ← mbedtls_ctr_drbg_seed pers;
  if negb (ret =? 0) then say_failed "  ! mbedtls_ctr_drbg_seed returned %d" ret;; mret (Some ret)
  else say (" ok" +:+ newline) [];; mret None.

(** 0. Certificates *)
Definition load : P (option Z) :=
  say "  . Loading the CA root certificate ..." [];;
  ret ← mbedtls_x509_crt_parse mbedtls_test_cas_pem;
  if ret <? 0
  then say_failed ("  !  mbedtls_x509_crt_parse returned -0x%x" +:+ newline) (s32 (- ret));; mret (Some ret)
  else say (" ok (%d skipped)" +:+ newline) [ArgZ ret];; mret None.

(** 1. The connection *)
Definition start_connection : P (option Z) :=
  say "  . Connecting to tcp/%s/%s..." [ArgS SERVER_NAME; ArgS SERVER_PORT];;
  ret ← sock_op (mbedtls_net_connect server_fd (Some SERVER_NAME) (Some SERVER_PORT) MBEDTLS_NET_PROTO_TCP);
  if negb (ret =? 0)
  then say_failed ("  ! mbedtls_net_connect returned %d" +:+ newline) ret;; mret (Some ret)
  else say (" ok" +:+ newline) [];; mret None.

(** 2. Setup *)
Definition configure : P (option Z) :=
  say "  . Setting up the SSL/TLS structure..." [];;
  ret ← mbedtls_ssl_config_defaults MBEDTLS_SSL_IS_CLIENT;
  if negb (ret =? 0)
  then say_failed ("  ! mbedtls_ssl_config_defaults returned %d" +:+ newline) ret;; mret (Some ret)
  else
    say (" ok" +:+ newline) [];;
    mbedtls_ssl_conf_authmode MBEDTLS_SSL_VERIFY_OPTIONAL;;
    mbedtls_ssl_conf_ca_chain certificate;;
    mbedtls_ssl_conf_rng ctr_drbg;;
    mbedtls_ssl_conf_dbg;;
    mret None.
Definition setup : P (option Z) :=
  ret ← mbedtls_ssl_setup;
  if negb (ret =? 0)
  then say_failed ("  ! mbedtls_ssl_setup returned %d" +:+ newline) ret;; mret (Some ret)
  else
    ret ← mbedtls_ssl_set_hostname SERVER_NAME;
    if negb (ret =? 0)
    then say_failed ("  ! mbedtls_ssl_set_hostname returned %d" +:+ newline) ret;; mret (Some ret)
    else mbedtls_ssl_set_bio server_fd;; mret None.

(** 4. Handshake *)
Definition handshake (fuel : nat) : P (option Z) :=
  say "  . Performing the SSL/TLS handshake..." [];;
  ret ← call_until (λ ret, ret =? 0) mbedtls_ssl_handshake fuel;
  if negb (ret =? 0)
  then say_failed ("  ! mbedtls_ssl_handshake returned -0x%x" +:+ newline) (s32 (- ret));; mret (Some ret)
  else say (" ok" +:+ newline) [];; mret None.

(** 5. The certificate of the server.  The result is printed and not used. *)
Definition verify : P () :=
  say "  . Verifying peer X.509 certificate..." [];;
  flags ← mbedtls_ssl_get_verify_result;
  if negb (flags =? 0) then
    say (" failed" +:+ newline) [];;
    say ("%s" +:+ newline) [ArgS (cstr (x509_crt_verify_info 512 "  ! " flags))]
  else say (" ok" +:+ newline) [].

(** 3. The GET request *)
Definition write_request (fuel : nat) : P (option Z) :=
  say "  > Write to server:" [];;
  len ← print_to_buf GET_REQUEST;
  ret ← call_until (λ ret, 0 <? ret) (mbedtls_ssl_write len) fuel;
  if ret <=? 0 then say_failed ("  ! mbedtls_ssl_write returned %d" +:+ newline) ret;; mret (Some ret)
  else
    text ← buf_text;
    say (" %d bytes written" +:+ newline +:+ newline +:+ "%s") [ArgZ ret; ArgS text];;
    mret None.

(** 7. The HTTP response: a round of the loop, and the last value of [ret]. *)
Definition read_piece : P (option Z) :=
  clear_buf;;
  ret ← mbedtls_ssl_read (BUF_SIZE - 1);
  if wants ret then mret None
  else if ret =? MBEDTLS_ERR_SSL_PEER_CLOSE_NOTIFY then mret (Some ret)
  else if ret <? 0 then
    say ("failed" +:+ newline +:+ "  ! mbedtls_ssl_read returned %d" +:+ newline +:+ newline) [ArgZ ret];;
    mret (Some ret)
  else if ret =? 0 then say (newline +:+ newline +:+ "EOF" +:+ newline +:+ newline) [];; mret (Some ret)
  else
    text ← buf_text;
    say (" %d bytes read" +:+ newline +:+ newline +:+ "%s") [ArgZ ret; ArgS text];;
    mret None.
Definition read_loop (fuel : nat) : P Z := loop read_piece fuel.
Definition read_response (fuel : nat) : P Z :=
  say "  < Read from server:" [];;
  ret ← read_loop fuel;
  mbedtls_ssl_close_notify;;
  mret ret.

(** From the seeding to the label [exit]. *)
Definition body (fuel : nat) : P Z :=
  then_ seed (then_ load (then_ start_connection (then_ configure (then_ setup (then_ (handshake fuel)
    (verify;; then_ (write_request fuel) (read_response fuel))))))).

Definition exit_label (ret : Z) : P Z :=
  print_last_error ret;;
  sock_op (mbedtls_net_free server_fd);;
  mbedtls_x509_crt_free;;
  mbedtls_ssl_free;;
  mbedtls_ssl_config_free;;
  mbedtls_ctr_drbg_free;;
  mbedtls_entropy_free;;
  mret ret.

Definition tlsmain (fuel : nat) : P Z := initialize;; ret ← body fuel; exit_label ret.

(** [CKernel::Run] of [kernel.cpp] *)
Definition Run (fuel : nat) : P StdlibApp.TShutdownMode := TlsProgram.Run (tlsmain fuel).
End client.
End TlsClient1.
