(* ===== verification/TlsServer1.v ===== *)
(** The first TLS server sample, [samples/mbedtls/03-https-server1]: the program
    [ssl_server.c].  The numbers of the sections are those of its comments.  A
    [goto] is a value of [goto], and what is between the label [reset] and the
    next jump is one round. *)
From stdpp Require Import base numbers list gmap option strings.
From S2P Require Import Prelude.
From S2P Require Import Libc.
From S2P Require Import Circle.
From S2P Require Import NetSockets.
From S2P Require Import TlsConfig.
From S2P Require Import HttpsClient.
From S2P Require Import TlsProgram.
From S2P Require Import StdlibApp.
Import Libc Net TlsProgram.

Module TlsServer1.
(** The addresses of the local variables. *)
Definition listen_fd : Z := 8.
Definition client_fd : Z := 9.

Definition pers : list Z := cstr "ssl_server".
Definition DEBUG_LEVEL : Z := 0.
(** [sprintf] of [HTTP_RESPONSE] with the name of a cipher suite *)
Definition HTTP_RESPONSE (ciphersuite : list Z) : list Z :=
  cstr "HTTP/1.0 200 OK" ++ [13; 10] ++ cstr "Content-Type: text/html" ++ [13; 10; 13; 10] ++
  cstr "<h2>mbed TLS Test Server</h2>" ++ [13; 10] ++
  cstr "<p>Successful connection using: " ++ ciphersuite ++ cstr "</p>" ++ [13; 10].

Abbreviation newline := HttpsClient.newline.

(** A jump to one of the two labels, with the value of [ret]. *)
Inductive goto :=
  | Reset (ret : Z)
  | Exit (ret : Z).

Section server.
Context `{Target, MbedTLS, PtrArray, SocketPlatform W, !MbedSSL W, !MbedProgram W, !HttpsWorld W}.
Abbreviation P := (M (program (W := W))).

Definition initialize : P () :=
  sock_op (mbedtls_net_init listen_fd);;
  sock_op (mbedtls_net_init client_fd);;
  mbedtls_ssl_init;;
  mbedtls_ssl_config_init;;
  mbedtls_ssl_cache_init;;
  mbedtls_x509_crt_init;;
  mbedtls_pk_init;;
  mbedtls_entropy_init;;
  mbedtls_ctr_drbg_init;;
  ask (debug_set_threshold DEBUG_LEVEL).

(** 1. The certificates and the private RSA key *)
Definition load : P (option goto) :=
  say (newline +:+ "  . Loading the server cert. and key...") [];;
  ret ← mbedtls_x509_crt_parse mbedtls_test_srv_crt;
  if negb (ret =? 0)
  then say_failed ("  !  mbedtls_x509_crt_parse returned %d" +:+ newline) ret;; mret (Some (Exit ret))
  else
    ret ← mbedtls_x509_crt_parse mbedtls_test_cas_pem;
    if negb (ret =? 0)
    then say_failed ("  !  mbedtls_x509_crt_parse returned %d" +:+ newline) ret;; mret (Some (Exit ret))
    else
      ret ← mbedtls_pk_parse_key mbedtls_test_srv_key;
      if negb (ret =? 0)
      then say_failed ("  !  mbedtls_pk_parse_key returned %d" +:+ newline) ret;; mret (Some (Exit ret))
      else say (" ok" +:+ newline) [];; mret None.

(** 2. The listening TCP socket *)
Definition listen : P (option goto) :=
  say "  . Bind on https://localhost:443/ ..." [];;
  ret ← sock_op (mbedtls_net_bind listen_fd None (Some (cstr "443")) MBEDTLS_NET_PROTO_TCP);
  if negb (ret =? 0)
  then say_failed ("  ! mbedtls_net_bind returned %d" +:+ newline) ret;; mret (Some (Exit ret))
  else say (" ok" +:+ newline) [];; mret None.

(** 3. The random number generator *)
Definition seed : P (option goto) :=
  say "  . Seeding the random number generator..." [];;
  ret ← mbedtls_ctr_drbg_seed pers;
  if negb (ret =? 0)
  then say_failed "  ! mbedtls_ctr_drbg_seed returned %d" ret;; mret (Some (Exit ret))
  else say (" ok" +:+ newline) [];; mret None.

(** 4. Setup *)
Definition configure : P (option goto) :=
  say "  . Setting up the SSL data...." [];;
  ret ← mbedtls_ssl_config_defaults MBEDTLS_SSL_IS_SERVER;
  if negb (ret =? 0)
  then say_failed ("  ! mbedtls_ssl_config_defaults returned %d" +:+ newline) ret;; mret (Some (Exit ret))
  else
    mbedtls_ssl_conf_rng ctr_drbg;;
    mbedtls_ssl_conf_dbg;;
    mbedtls_ssl_conf_session_cache;;
    next ← certificate_next;
    mbedtls_ssl_conf_ca_chain next;;
    mret None.
Definition setup : P (option goto) :=
  ret ← mbedtls_ssl_conf_own_cert;
  if negb (ret =? 0)
  then say_failed ("  ! mbedtls_ssl_conf_own_cert returned %d" +:+ newline) ret;; mret (Some (Exit ret))
  else
    ret ← mbedtls_ssl_setup;
    if negb (ret =? 0)
    then say_failed ("  ! mbedtls_ssl_setup returned %d" +:+ newline) ret;; mret (Some (Exit ret))
    else say (" ok" +:+ newline) [];; mret None.

(** ** A round *)

(** 3. Wait until a client connects *)
Definition wait_for_client : P (option goto) :=
  sock_op (mbedtls_net_free client_fd);;
  mbedtls_ssl_session_reset;;
  say "  . Waiting for a remote connection ..." [];;
  '(ret, _, _) ← sock_op (mbedtls_net_accept listen_fd client_fd false 0 false);
  if negb (ret =? 0)
  then say_failed ("  ! mbedtls_net_accept returned %d" +:+ newline) ret;; mret (Some (Exit ret))
  else mbedtls_ssl_set_bio client_fd;; say (" ok" +:+ newline) [];; mret None.

(** 5. Handshake *)
Definition handshake (fuel : nat) : P (option goto) :=
  say "  . Performing the SSL/TLS handshake..." [];;
  ret ← call_until (λ ret, ret =? 0) mbedtls_ssl_handshake fuel;
  if negb (ret =? 0)
  then say_failed ("  ! mbedtls_ssl_handshake returned %d" +:+ newline) ret;; mret (Some (Reset ret))
  else say (" ok" +:+ newline) [];; mret None.

(** 6. The HTTP request, of which one piece is read and printed *)
Definition read_piece : P (option ()) :=
  clear_buf;;
  ret ← mbedtls_ssl_read (BUF_SIZE - 1);
  if wants ret then mret None
  else if ret <=? 0 then
    (if ret =? MBEDTLS_ERR_SSL_PEER_CLOSE_NOTIFY
     then say (" connection was closed gracefully" +:+ newline) []
     else if ret =? MBEDTLS_ERR_NET_CONN_RESET
     then say (" connection was reset by peer" +:+ newline) []
     else say (" mbedtls_ssl_read returned -0x%x" +:+ newline) [ArgZ (s32 (- ret))]);;
    mret (Some ())
  else
    text ← buf_text;
    say (" %d bytes read" +:+ newline +:+ newline +:+ "%s") [ArgZ ret; ArgS text];;
    mret (Some ()).
Definition read_loop (fuel : nat) : P () := loop read_piece fuel.
Definition read_request (fuel : nat) : P () := say "  < Read from client:" [];; read_loop fuel.

(** 7. The 200 response *)
Definition write_response (fuel : nat) : P (option goto) :=
  say "  > Write to client:" [];;
  suite ← mbedtls_ssl_get_ciphersuite;
  len ← print_to_buf (HTTP_RESPONSE suite);
  ret ← call_until (λ ret, 0 <? ret) (mbedtls_ssl_write len) fuel;
  if ret <=? 0 then
    if ret =? MBEDTLS_ERR_NET_CONN_RESET then
      say (" failed" +:+ newline +:+ "  ! peer closed the connection" +:+ newline +:+ newline) [];;
      mret (Some (Reset ret))
    else
      say_failed ("  ! mbedtls_ssl_write returned %d" +:+ newline) ret;; mret (Some (Exit ret))
  else
    text ← buf_text;
    say (" %d bytes written" +:+ newline +:+ newline +:+ "%s" +:+ newline) [ArgZ ret; ArgS text];;
    mret None.

Definition close (fuel : nat) : P goto :=
  say "  . Closing the connection..." [];;
  ret ← call_until (λ ret, 0 <=? ret) mbedtls_ssl_close_notify fuel;
  if ret <? 0
  then say_failed ("  ! mbedtls_ssl_close_notify returned %d" +:+ newline) ret;; mret (Reset ret)
  else say (" ok" +:+ newline) [];; mret (Reset 0).

(** What is behind the label [reset]. *)
Definition round (fuel : nat) (ret : Z) : P goto :=
  print_last_error ret;;
  then_ wait_for_client (then_ (handshake fuel)
    (read_request fuel;; then_ (write_response fuel) (close fuel))).

(** The first [n] rounds: [None] when the program goes on behind them, and the
    value of [ret] when it has left them. *)
Fixpoint serve (n fuel : nat) (ret : Z) : P (option Z) :=
  match n with
  | O => mret None
  | S n =>
      g ← round fuel ret;
      match g with
      | Reset ret => serve n fuel ret
      | Exit ret => mret (Some ret)
      end
  end.

(** From the first message to the label [reset]. *)
Definition start : P goto :=
  then_ load (then_ listen (then_ seed (then_ configure (then_ setup (mret (Reset 0)))))).

Definition exit_label (ret : Z) : P Z :=
  print_last_error ret;;
  sock_op (mbedtls_net_free client_fd);;
  sock_op (mbedtls_net_free listen_fd);;
  mbedtls_x509_crt_free;;
  mbedtls_pk_free;;
  mbedtls_ssl_free;;
  mbedtls_ssl_config_free;;
  mbedtls_ssl_cache_free;;
  mbedtls_ctr_drbg_free;;
  mbedtls_entropy_free;;
  mret ret.

(** The program up to the end of its round [n]: [None] when it goes on. *)
Definition tlsmain (n fuel : nat) : P (option Z) :=
  initialize;;
  g ← start;
  ret ← match g with Reset ret => serve n fuel ret | Exit ret => mret (Some ret) end;
  match ret with
  | Some ret => ret ← exit_label ret; mret (Some ret)
  | None => mret None
  end.

(** [CKernel::Run] of [kernel.cpp] *)
Definition Run (n fuel : nat) : P (option StdlibApp.TShutdownMode) :=
  ret ← tlsmain n fuel;
  match ret with
  | Some ret => mode ← TlsProgram.Run (mret ret); mret (Some mode)
  | None => mret None
  end.
End server.
End TlsServer1.
