(* ===== verification/NetOwner.v ===== *)
(** One context of a program and the connection it names: what a program has
    added to the sockets it found when it started.

    [owner k s0 c s] is a resource in the sense of an abstract specification: the
    state [s] is [s0] but for the world and the context [c], which has no
    connection, or one of which the object is the only new one. *)
From stdpp Require Import base numbers list gmap option strings.
From S2P Require Import Prelude.
From S2P Require Import Libc.
From S2P Require Import Circle.
From S2P Require Import NetSockets.
From S2P Require Import NetInv.
From S2P Require Import NetSafety.
From S2P Require Import NetProps.
Import Libc Net.

Section owner.
Context `{Target, MbedTLS, !MbedTLSOk, PtrArray, !PtrArrayOk, SocketPlatform W, !PlatformOk W}.

(** What is left as it was for the others. *)
Record others_kept (s0 : net (W := W)) (c : Z) (s : net) : Prop := {
  kept_contexts c' : c' ≠ c → contexts s !! c' = contexts s0 !! c';
  kept_slots h q : live s0 q → slot s0 h q → slot s h q
}.

Definition holds_none (s0 : net (W := W)) (c : Z) (s : net) : Prop :=
  contexts s !! c = Some (-1) ∧ heap s = heap s0.
Definition holds_one (s0 : net (W := W)) (c : Z) (s : net) : Prop :=
  ∃ p o fd, heap s0 !! p = None ∧ heap s = <[p := o]> (heap s0) ∧ contexts s !! c = Some fd ∧ slot s fd p.

Record owner (k : Z) (s0 : net) (c : Z) (s : net) : Prop := {
  own_net : net_ok k s;
  own_others : others_kept s0 c s;
  own_heap : holds_none s0 c s ∨ holds_one s0 c s
}.
Definition closed (k : Z) (s0 : net) (c : Z) (s : net) : Prop := owner k s0 c s ∧ holds_none s0 c s.

Lemma owner_mono k k' s0 c s : k ≤ k' → owner k s0 c s → owner k' s0 c s.
Proof using Type. intros Hk [Hn Ho Hh]. split; [by eapply net_ok_mono|done..]. Qed.

Lemma owner_context k s0 c s : owner k s0 c s → is_Some (contexts s !! c).
Proof using Type. intros [_ _ [[Hc _]|(p & o & fd & _ & _ & Hc & _)]]; by eexists. Qed.

Lemma owner_world k s0 c s w : owner k s0 c s → owner k s0 c (set_world w s).
Proof using Type.
  intros [Hn [Hc Hs] Hh]. split; [by apply net_ok_world|by split|].
  destruct Hh as [Hh|(p & o & fd & Hh)]; [by left|]. right. by exists p, o, fd.
Qed.

Lemma closed_world k s0 c s w : closed k s0 c s → closed k s0 c (set_world w s).
Proof using Type. intros [Hown Hn]. split; [by apply owner_world|done]. Qed.

Lemma closed_start k s c : net_ok k s → contexts s !! c = Some (-1) → closed k s c s.
Proof using Type. intros Hn Hc. split; [|done]. split; [done|by split|by left]. Qed.

(** A new local variable that is a context. *)
Lemma new_context_run k s c :
  net_ok k s → c ≠ 0 → contexts s !! c = None →
  ∃ s', mbedtls_net_init c s = Ok ((), s') ∧ s' = set_contexts (<[c := -1]> (contexts s)) s ∧ net_ok k s'.
Proof using Type.
  intros [Hn Hobj Hsl Hsz Hcs Hd] Hc Hnew. eexists. split; [|split; [done|]].
  { unfold mbedtls_net_init, assert_. rewrite bind_unfold, (proj2 (Z.eqb_neq c 0)) by done. done. }
  split; cbn; try done.
  - intros c1 fd1. destruct (decide (c1 = c)) as [->|Hne].
    + rewrite lookup_insert_eq. intros ?. simplify_eq. by auto.
    + rewrite lookup_insert_ne by done. apply Hcs.
  - intros c1 c2 fd1 fd2 p E1 E2 S1 S2.
    assert (∀ c' fd', <[c := -1]> (contexts s) !! c' = Some fd' → slot s fd' p → contexts s !! c' = Some fd')
      as Hold.
    { intros c' fd'. destruct (decide (c' = c)) as [->|Hne].
      - rewrite lookup_insert_eq. intros [= <-] [? _]. lia.
      - by rewrite lookup_insert_ne. }
    intros Hl. exact (Hd _ _ _ _ _ (Hold _ _ E1 S1) (Hold _ _ E2 S2) S1 S2 Hl).
Qed.

(** ** New connections *)

(** The states that differ from a state with no connection in the table and the
    world and have the connection [p] in the context. *)
Lemma owner_new k s0 c s s' p o fd :
  closed k s0 c s → net_ok (k + 2) s' → heap s' = <[p := o]> (heap s) → heap s !! p = None →
  (∀ c', c' ≠ c → contexts s' !! c' = contexts s !! c') →
  (∀ h q, live s q → slot s h q → slot s' h q) →
  (contexts s' !! c = Some fd) → slot s' fd p → owner (k + 2) s0 c s'.
Proof using Type.
  intros [[Hn [Hc Hs] _] [_ Hh0]] Hn' Hh Hnew Hc' Hs' Hfd Hp. split; [done| |].
  - split; [intros c' Hne; rewrite Hc' by done; by apply Hc|].
    intros h q Hq Hslot. apply Hs'; [|by apply Hs]. unfold live. by rewrite Hh0.
  - right. exists p, o, fd. rewrite <-Hh0. by split_and!.
Qed.

Lemma created_keeps k s s' sock p o h q :
  net_ok k s → created s s' sock p o → live s q → slot s h q → slot s' h q.
Proof using Type.
  intros Hok (_ & _ & _ & _ & _ & _ & i & _ & Ha) Hq [Hh Hv]. split; [done|].
  eapply added_keeps; [exact Ha|done|by eapply live_pos].
Qed.

(** The part of [mbedtls_net_connect] and [mbedtls_net_bind] that makes the
    socket. *)
Lemma new_context_socket_owner k s0 c s :
  closed k s0 c s → k < 2^31 - 2 →
  wp no_fault (new_context_socket c)
    (λ p s', owner (k + 2) s0 c s' ∧ (p = 0 ∨ ∃ o, heap s' !! p = Some o)) s.
Proof using Type*.
  intros Hcl Hk. pose proof Hcl as [Hown [Hc0 Hh0]]. pose proof (own_net _ _ _ _ Hown) as Hok.
  unfold new_context_socket, new_CAdaptedSocket. wp_step. wp_step. apply wp_env. intros b w _.
  apply wp_if; intros _.
  { wp_step. rewrite Z.eqb_refl. wp_step. split; [|by left]. apply owner_world. eapply owner_mono; [|done]. lia. }
  wp_step. apply wp_env. intros sock w' _. set (s1 := set_world w' _).
  assert (net_ok k s1) as Hok1 by by do 2 apply net_ok_world.
  destruct (construct_run k s1 sock Hok1) as (p & s2 & o & E & Hok2 & Hcr); [lia|].
  eapply wp_run; [exact E|]. wp_step. apply wp_assert_true; [apply Z.eqb_refl|]. wp_step.
  pose proof (created_heap _ _ _ _ _ Hcr) as Ho. pose proof (created_slot _ _ _ _ _ _ Hok2 Hcr) as Hs.
  pose proof (live_pos _ _ _ Hok2 (ex_intro _ _ Ho)) as Hp. destruct (Z.eqb_spec p 0); [done|].
  wp_step. apply wp_assert_true.
  { apply (ok_contexts _ _ Hok) in Hc0 as [Hc0 _]. by rewrite (proj2 (Z.eqb_neq c 0)). }
  eapply wp_run.
  { unfold GetHandle. rewrite (bind_run _ _ _ _ _ (load_run _ _ _ _ Hok2 Ho)). unfold assert_.
    rewrite bind_unfold, Z.geb_leb, (proj2 (Z.leb_le _ _)) by apply Hs. done. }
  pose proof Hcr as (_ & Hh & Hctx & _). change (contexts s1) with (contexts s) in Hctx.
  change (heap s1) with (heap s) in Hh.
  destruct (set_context_run (k + 1) s2 c (m_nHandle o) p Hok2) as (s3 & E3 & Hok3 & ->).
  { rewrite Hctx. by eexists. }
  { right. split_and!; [done|by exists o|]. intros c' fd' _ Hc'. rewrite Hctx in Hc'.
    by eapply (created_unnamed k s1); [|exact Hcr|exact Hc']. }
  eapply wp_run; [exact E3|]. wp_step. apply wp_assert_true; [rewrite Z.geb_leb; apply Z.leb_le, Hs|].
  wp_step. split; [|right; by exists o].
  eapply (owner_new k s0 c s _ p o (m_nHandle o)); [done|by eapply net_ok_mono; [|done]; lia|done| | | | |done].
  - destruct Hcr as (-> & _). exact (fresh_address _ _ Hok).
  - intros c' Hne. cbn. rewrite lookup_insert_ne by done. by rewrite Hctx.
  - intros h q Hq Hslot. by apply (created_keeps k s1 s2 sock p o).
  - apply lookup_insert_eq.
Qed.

Lemma connect_owner k s0 c s host port proto :
  closed k s0 c s → k < 2^31 - 2 →
  wp no_fault (mbedtls_net_connect c (Some host) (Some port) proto) (λ _, owner (k + 2) s0 c) s.
Proof using Type*.
  intros Hcl Hk. assert (owner (k + 2) s0 c s) as Hown by (eapply owner_mono; [|apply Hcl]; lia).
  unfold mbedtls_net_connect. apply wp_if; intros _; [by wp_step|]. wp_step.
  eapply wp_mono; [by apply new_context_socket_owner|]. intros p s1 (Hown1 & Hp).
  destruct (Z.eqb_spec p 0) as [->|Hp0]; [by wp_step|]. destruct Hp as [?|[o Ho]]; [done|].
  eapply wp_mono; [by eapply (Connect_host_ok (k + 2)); [apply Hown1|]|]. intros r s2 (w & ->).
  by apply owner_world.
Qed.

Lemma bind_owner k s0 c s ip port proto :
  closed k s0 c s → k < 2^31 - 2 →
  wp no_fault (mbedtls_net_bind c ip (Some port) proto) (λ _, owner (k + 2) s0 c) s.
Proof using Type*.
  intros Hcl Hk. assert (owner (k + 2) s0 c s) as Hown by (eapply owner_mono; [|apply Hcl]; lia).
  unfold mbedtls_net_bind. apply wp_if; intros _; [by wp_step|]. apply wp_if; intros _; [by wp_step|]. wp_step.
  eapply wp_mono; [by apply new_context_socket_owner|]. intros p s1 (Hown1 & Hp).
  destruct (Z.eqb_spec p 0) as [->|Hp0]; [by wp_step|]. destruct Hp as [?|[o Ho]]; [done|].
  eapply wp_mono; [by eapply (Bind_ok (k + 2)); [apply Hown1|]|]. intros r s2 (w & ->).
  by apply owner_world.
Qed.

(** ** Data and the end *)

Lemma same_slot (s : net (W := W)) c fd fd' p q :
  contexts s !! c = Some fd → contexts s !! c = Some fd' → slot s fd p → slot s fd' q → p = q.
Proof using Type. intros E1 E2 [_ Hp] [_ Hq]. congruence. Qed.

(** A call that changes the buffer of the connection and the world. *)
Lemma owner_object k s0 c s fd p o o' w :
  owner k s0 c s → contexts s !! c = Some fd → slot s fd p → heap s !! p = Some o →
  same_object o o' → rx_ok o' → owner k s0 c (set_heap (<[p := o']> (heap s)) (set_world w s)).
Proof using Type.
  intros [Hn [Hc Hs] Hh] Hfd Hp Ho Hso Hrx. split; [by eapply net_ok_filled|by split|].
  destruct Hh as [[Hc1 _]|(q & x & fd' & Hnew & Hh & Hc1 & Hq)].
  { destruct Hp as [? _]. simplify_eq. lia. }
  pose proof (same_slot _ _ _ _ _ _ Hfd Hc1 Hp Hq) as <-.
  right. exists p, o', fd'. split_and!; [done| |done|apply Hq..]. cbn. by rewrite Hh, insert_insert_eq.
Qed.

Lemma use_owner {A} k s0 c s (m : Z → M net A) (code : A) (R : A → Prop) :
  owner k s0 c s → R code →
  (∀ p o, heap s !! p = Some o → wp no_fault (m p) (λ r s', R r ∧ ∃ o' w, rx_ok o' ∧ same_object o o' ∧
     s' = set_heap (<[p := o']> (heap s)) (set_world w s)) s) →
  wp no_fault (p ← context_socket c; if p =? 0 then mret code else m p) (λ r s', R r ∧ owner k s0 c s') s.
Proof using Type*.
  intros Hown Hcode Hm. destruct (owner_context _ _ _ _ Hown) as [fd Hfd].
  eapply (wp_socket no_fault k s c fd (λ p, if p =? 0 then mret code else m p)); [apply Hown|exact Hfd| |].
  - intros _. rewrite Z.eqb_refl. by wp_step.
  - intros p o Hs Ho Hp. destruct (Z.eqb_spec p 0) as [|_]; [done|].
    eapply wp_mono; [by apply Hm|]. intros r s' (Hr & o' & w & Hrx & Hso & ->). split; [done|].
    by eapply owner_object.
Qed.

(** The codes of the callbacks: an error of [mbedtls_net_send] is one of two. *)
Definition sent (n : Z) : Prop :=
  0 ≤ n ∨ n = MBEDTLS_ERR_NET_SEND_FAILED ∨ n = MBEDTLS_ERR_NET_INVALID_CONTEXT.
Definition got (r : Z * list Z) : Prop :=
  0 ≤ r.1 ∨ r.1 = MBEDTLS_ERR_SSL_WANT_READ ∨ r.1 = MBEDTLS_ERR_NET_INVALID_CONTEXT.

Lemma send_owner k s0 c s bs :
  owner k s0 c s → wp no_fault (mbedtls_net_send c bs) (λ n s', sent n ∧ owner k s0 c s') s.
Proof using Type*.
  intros Hown. apply use_owner; [done|by right; right|]. intros p o Ho. unfold Send.
  pose proof (own_net _ _ _ _ Hown) as Hok.
  eapply wp_run; [by eapply load_run|]. wp_step. apply wp_env. intros r w _. wp_step. split.
  - unfold sent. destruct (Z.ltb_spec r 0); auto.
  - exists o, w. split_and!; [exact (object_rx _ _ _ _ Hok Ho)|done..|by apply unchanged_object].
Qed.

Lemma received_got k fl bs n w : is_u32 n → got (received (W := W) k fl bs n w).1.1.
Proof using Type.
  intros Hn. unfold received, taken, got. unfold is_u32 in Hn.
  case_decide; [|cbn; lia]. destruct (CNetSocket_Receive _ _ _ w) as [[r rx] w1].
  destruct (r =? 0); [cbn; auto|]. destruct (Z.ltb_spec r 0); cbn; lia.
Qed.

Lemma recv_owner k s0 c s n :
  owner k s0 c s → wp no_fault (mbedtls_net_recv c n) (λ r s', got r ∧ owner k s0 c s') s.
Proof using Type*.
  intros Hown. apply use_owner; [done|by right; right|]. intros p o Ho.
  pose proof (own_net _ _ _ _ Hown) as Hok. destruct (object_rx _ _ _ _ Hok Ho) as [bs Hb].
  pose proof (Receive_run k s p o bs (u32 n) Hok Ho Hb (u32_range n)) as Hr.
  pose proof (received_got (m_pSocket o) (rx_flags o) bs (u32 n) (world s) (u32_range n)) as Hg.
  destruct (received _ _ _ _ _) as [[res rest] w]. destruct Hr as (o' & E & Hb' & Hso).
  unfold wp. rewrite E. split; [done|]. exists o', w. split_and!; [by exists rest|apply Hso..|done].
Qed.

Lemma deleted_keeps k s s' p o h q :
  net_ok k s → heap s !! p = Some o → view s' = <[Z.to_nat (m_nHandle o) := 0]> (view s) →
  q ≠ p → slot s h q → slot s' h q.
Proof using Type.
  intros Hok Ho Hv Hq [Hh Hs]. split; [done|]. rewrite Hv, list_lookup_insert_ne; [done|].
  apply (ok_objects _ _ Hok) in Ho as (_ & [_ Hp] & _). intros E. rewrite E in Hp. by simplify_eq.
Qed.

Lemma free_owner k s0 c s :
  owner k s0 c s → wp no_fault (mbedtls_net_free c) (λ _, closed k s0 c) s.
Proof using Type*.
  intros Hown. pose proof Hown as [Hn [Hc Hs] Hh]. destruct (owner_context _ _ _ _ Hown) as [fd Hfd].
  destruct (net_free_run _ _ _ _ Hn Hfd) as [[-> E]|(p & o & w & a & Hp & Ho & Ha & E)];
    unfold wp; rewrite E.
  - destruct (set_context_run k s c (-1) 0 Hn) as (s' & _ & Hn' & ->); [by eexists|by left|].
    assert (holds_none s0 c (set_contexts (<[c := -1]> (contexts s)) s)) as Hnone.
    { split; [apply lookup_insert_eq|]. destruct Hh as [[_ Hh]|(p & o & fd & _ & _ & Hfd' & [? _])]; [done|].
      simplify_eq. lia. }
    split; [|done]. split; [done| |by left]. split; [|done].
    intros c' Hne. cbn. rewrite lookup_insert_ne by done. by apply Hc.
  - destruct Hh as [[Hfd' _]|(q & x & fd' & Hnew & Hh & Hfd' & Hq)].
    { destruct Hp as [? _]. simplify_eq. lia. }
    pose proof (same_slot _ _ _ _ _ _ Hfd Hfd' Hp Hq) as <-.
    assert (holds_none s0 c (freed s c p w a)) as Hnone.
    { split; [apply lookup_insert_eq|]. cbn. by rewrite Hh, delete_insert_id. }
    split; [|done]. split; [by eapply net_ok_freed| |by left]. split.
    + intros c' Hne. cbn. rewrite lookup_insert_ne by done. by apply Hc.
    + intros h q Hq0 Hslot. eapply (deleted_keeps k s _ p o); [done|done|exact Ha| |by apply Hs].
      intros ->. destruct Hq0 as [y Hy]. by rewrite Hnew in Hy.
Qed.

(** ** A second context that accepts connections *)

Lemma accept_owner k s0 b c s :
  closed k s0 c s → k < 2^31 - 2 → b ≠ c → is_Some (contexts s0 !! b) →
  wp no_fault (mbedtls_net_accept b c false 0 false)
    (λ r s', owner (k + 2) s0 c s' ∧ (r.1.1 = 0 → holds_one s0 c s') ∧ r.1.1 ≤ 0) s.
Proof using Type*.
  intros Hcl Hk Hbc [fdb Hb]. pose proof Hcl as [Hown [Hc0 Hh0]]. pose proof Hown as [Hok [Hc Hsl] _].
  assert (owner (k + 2) s0 c s) as Hown2 by (eapply owner_mono; [|done]; lia).
  pose proof net_errors_neg as Hneg. rewrite !Forall_cons in Hneg.
  rewrite <-(Hc b Hbc) in Hb. unfold mbedtls_net_accept. cbn [andb].
  eapply wp_socket; [done|exact Hb| |].
  { intros _. rewrite Z.eqb_refl. wp_step. split_and!; [done|cbn; lia|cbn; lia]. }
  intros p o _ Ho Hp. destruct (Z.eqb_spec p 0) as [|_]; [done|]. unfold Accept.
  wp_step. eapply wp_run; [by eapply load_run|]. wp_step. apply wp_env. intros [[sock addr]|] w _.
  2: { wp_step. rewrite (proj2 (Z.ltb_lt _ _)) by lia. wp_step.
       split_and!; [by apply owner_world|cbn; lia|cbn; lia]. }
  wp_step. unfold new_accepted. wp_step. apply wp_env. intros b0 w1 _. apply wp_if; intros _.
  { wp_step. rewrite Z.eqb_refl. wp_step. apply wp_env. intros [] w2 _. wp_step.
    rewrite (proj2 (Z.ltb_lt _ _)) by lia. wp_step.
    split_and!; [by do 3 apply owner_world|cbn; lia|cbn; lia]. }
  set (s1 := set_world w1 _). assert (net_ok k s1) as Hok1 by by do 2 apply net_ok_world.
  destruct (construct_run k s1 sock Hok1) as (q & s2 & o1 & E & Hok2 & Hcr); [lia|].
  unfold wp at 1. rewrite E. pose proof (created_heap _ _ _ _ _ Hcr) as Ho1.
  pose proof (live_pos _ _ _ Hok2 (ex_intro _ _ Ho1)) as Hq. destruct (Z.eqb_spec q 0); [done|].
  destruct (AddSocket_ok (k + 1) s2 q o1 Hok2) as (j & a & Ea & Ha & Hok3); [lia|done|].
  eapply wp_run; [exact Ea|]. wp_step. apply wp_assert_true; [rewrite Z.geb_leb; apply Z.leb_le; lia|].
  wp_step. rewrite (proj2 (Z.ltb_ge _ _)) by lia. wp_step. apply wp_assert_true.
  { apply (ok_contexts _ _ Hok) in Hc0 as [Hc0 _]. by rewrite (proj2 (Z.eqb_neq c 0)). }
  pose proof Hcr as (Hqn & Hh & Hctx & _). change (contexts s1) with (contexts s) in Hctx.
  change (heap s1) with (heap s) in Hh.
  assert (slot (set_array a s2) (Z.of_nat j) q) as Hj.
  { split; [lia|]. rewrite Nat2Z.id. apply Ha. }
  destruct (set_context_run (k + 1 + 1) (set_array a s2) c (Z.of_nat j) q Hok3) as (s3 & E3 & Hok4 & ->).
  { cbn. rewrite Hctx. by eexists. }
  { right. split_and!; [done|by exists o1|]. intros c' fd' _ Hc'. cbn in Hc'. rewrite Hctx in Hc'. intros Hs'.
    eapply (created_unnamed k s1); [done|exact Hcr|exact Hc'|].
    eapply (added_back (k + 1)); [done|exact Ha|by rewrite Hctx|exact Hs']. }
  eapply wp_run; [exact E3|]. wp_step. replace (k + 1 + 1) with (k + 2) in Hok4 by lia.
  assert (heap s !! q = None) as Hnew by (rewrite Hqn; exact (fresh_address _ _ Hok)).
  split_and!; [| |done].
  - eapply (owner_new k s0 c s _ q o1 (Z.of_nat j)); [done|done|done|done| | |apply lookup_insert_eq|done].
    + intros c' Hne. cbn. rewrite lookup_insert_ne by done. by rewrite Hctx.
    + intros h x Hx Hslot. assert (slot s2 h x) as [Hh2 Hv2] by by apply (created_keeps k s1 s2 sock q o1).
      split; [done|]. eapply added_keeps; [exact Ha|done|by eapply (live_pos k)].
  - intros _. exists q, o1, (Z.of_nat j). rewrite <-Hh0. split_and!; [done|done|apply lookup_insert_eq|apply Hj..].
Qed.

(** A connection that is closed while others are open: the owner of the second
    context gives the first one back. *)
Lemma owner_below k k' s0 s1 c1 c2 s :
  owner k s0 c1 s1 → closed k' s1 c2 s → c1 ≠ c2 → contexts s0 !! c2 = Some (-1) → owner k' s0 c1 s.
Proof using Type.
  intros [Hn1 [Hc1 Hs1] Hh1] [[Hn [Hc Hs] _] [Hc2 Hh]] Hne Hc20. split; [done| |].
  - split.
    + intros c' Hc'. destruct (decide (c' = c2)) as [->|]; [congruence|]. rewrite Hc by done. by apply Hc1.
    + intros h q Hq Hslot. apply Hs; [|by apply Hs1]. destruct Hh1 as [[_ E]|(p & o & fd & Hnew & E & _)];
        unfold live; rewrite E; [done|]. rewrite lookup_insert_ne; [done|].
      intros ->. destruct Hq as [x Hx]. by rewrite Hnew in Hx.
  - destruct Hh1 as [[Hfd E]|(p & o & fd & Hnew & E & Hfd & Hp)].
    + left. split; [by rewrite Hc|congruence].
    + right. exists p, o, fd. split_and!; [done|congruence|by rewrite Hc|..];
      (apply Hs; [|done]; unfold live; rewrite E, lookup_insert_eq; by eexists).
Qed.
End owner.
