(* ===== verification/TlsProgramProps.v ===== *)
(** The structures of a TLS program and what its calls of mbed TLS do to them. *)
From stdpp Require Import base numbers list gmap option strings.
From S2P Require Import Prelude.
From S2P Require Import Libc.
From S2P Require Import Circle.
From S2P Require Import NetSockets.
From S2P Require Import NetInv.
From S2P Require Import NetOwner.
From S2P Require Import TlsConfig.
From S2P Require Import TlsInv.
From S2P Require Import HttpsClient.
From S2P Require Import TlsProgram.
Import Libc Net TlsConfig TlsProgram.

Section props.
Context `{Target, MbedTLS, !MbedTLSOk, PtrArray, !PtrArrayOk, SocketPlatform W, !PlatformOk W,
  !MbedSSL W, !MbedSSLOk W, !MbedProgram W, !MbedProgramOk W, !HttpsWorld W}.

(** * The structures *)

(** A configuration points to structures that are alive; the generator has been
    seeded with the entropy context of the program. *)
Definition conf_linked (o : objects (W := W)) (c : ssl_config) : Prop :=
  (ca_chain (conf_view c) = 0 ∨ is_Some (chains o !! ca_chain (conf_view c))) ∧
  (rng (conf_view c) = 0 ∨ rng (conf_view c) = ctr_drbg ∧ drbgs o = {[ctr_drbg := entropy]}).

(** All structures are initialised and not freed; [sv] says whether the program
    has a key and a cache, as the server does, and [b] is the context of the
    callbacks. *)
Record structures (sv : bool) (b : Z) (s : program (W := W)) : Prop := {
  st_ssl : ∃ c, ssl s = Some c ∧ (conf_of c = 0 ∨ conf_of c = conf) ∧ bio_of c = b;
  st_conf : ∃ c, configs (objs s) = {[conf := c]} ∧ conf_linked (objs s) c;
  st_chains : is_Some (chains (objs s) !! certificate) ∧
    ∀ p, is_Some (chains (objs s) !! p) → p = certificate ∨ p = next_certificate;
  st_drbg : ∃ e, drbgs (objs s) = {[ctr_drbg := e]};
  st_entropy : entropies (objs s) = {[entropy]};
  st_pkey : if sv then is_Some (pkey s) else pkey s = None;
  st_cache : cache s = sv;
  st_links : sv = false → own_cert s = false ∧ session_cache s = false;
  st_buf : Z.of_nat (length (buf s)) = BUF_SIZE
}.

(** No structure is alive. *)
Definition no_structures (s : program (W := W)) : Prop :=
  ssl s = None ∧ pkey s = None ∧ cache s = false ∧ configs (objs s) = ∅ ∧ chains (objs s) = ∅ ∧
  drbgs (objs s) = ∅ ∧ entropies (objs s) = ∅.

(** A program that is about to start. *)
Definition unstarted (s : program (W := W)) : Prop :=
  no_structures s ∧ own_cert s = false ∧ session_cache s = false ∧ buf s = uninit BUF_SIZE.

(** The same program on other sockets. *)
Definition with_net (n : net) (s : program (W := W)) : program := set_objs (set_below n (objs s)) s.

Lemma structures_net sv b s n : structures sv b s → structures sv b (with_net n s).
Proof using Type. intros [Hs Hc Hx Hd He Hp Hk Hl Hb]. by split. Qed.

Lemma structures_ssl sv b b' s c :
  structures sv b s → (conf_of c = 0 ∨ conf_of c = conf) → bio_of c = b' →
  structures sv b' (set_ssl (Some c) s).
Proof using Type. intros [Hs Hc Hx Hd He Hp Hk Hl Hb] Hconf Hbio. split; try done. by exists c. Qed.

Lemma structures_buf sv b s x :
  structures sv b s → Z.of_nat (length x) = BUF_SIZE → structures sv b (set_buf x s).
Proof using Type. intros [Hs Hc Hx Hd He Hp Hk Hl Hb] Hlen. by split. Qed.

Lemma structures_conf sv b s c :
  structures sv b s → conf_linked (objs s) c →
  structures sv b (set_objs (set_configs (<[conf := c]> (configs (objs s))) (objs s)) s).
Proof using Type.
  intros [Hs (c0 & Hc & _) Hx Hd He Hp Hk Hl Hb] Hlink. split; try done.
  exists c. split; [|done]. cbn. by rewrite Hc, insert_singleton_eq.
Qed.

Lemma structures_chain sv b s p x :
  structures sv b s → p = certificate ∨ p = next_certificate →
  structures sv b (set_objs (set_chains (<[p := x]> (chains (objs s))) (objs s)) s).
Proof using Type.
  assert (∀ (m : gmap Z x509_crt) q, is_Some (m !! q) → is_Some (<[p := x]> m !! q)) as Hmore.
  { intros m q Hq. destruct (decide (q = p)) as [->|]; [|by rewrite lookup_insert_ne].
    rewrite lookup_insert_eq. by eexists. }
  intros [Hs (c0 & Hc & Hch & Hr) [Hx Hx'] Hd He Hp Hk Hl Hb] Hp'. split; try done.
  - exists c0. split; [done|]. split; [|done]. destruct Hch as [?|Hch]; [by left|right]. by apply Hmore.
  - split; [by apply Hmore|]. intros q. cbn. destruct (decide (q = p)) as [->|]; [done|].
    rewrite lookup_insert_ne by done. apply Hx'.
Qed.

(** * Calls *)

(** What a program may know about the sockets below while mbed TLS is at work
    with the context [ctx]. *)
Record stable (N : net (W := W) → Prop) (ctx : Z) : Prop := {
  stable_world w n : N n → N (set_world w n);
  stable_send bs n : N n → wp no_fault (mbedtls_net_send ctx bs) (λ a n', sent a ∧ N n') n;
  stable_recv len n : N n → wp no_fault (mbedtls_net_recv ctx len) (λ a n', got a ∧ N n') n
}.

Lemma owner_stable k n0 c : stable (owner k n0 c) c.
Proof using Type*.
  split; [intros w n; apply owner_world|intros bs n; apply send_owner|intros len n; apply recv_owner].
Qed.

Definition world_closed (N : net (W := W) → Prop) : Prop := ∀ w n, N n → N (set_world w n).

(** The structures are alive and the sockets below as [N] says. *)
Definition prog (N : net → Prop) (sv : bool) (b : Z) (s : program (W := W)) : Prop :=
  structures sv b s ∧ N (below (objs s)).

Lemma prog_mono (N N' : net → Prop) sv b s : (∀ n, N n → N' n) → prog N sv b s → prog N' sv b s.
Proof using Type. intros HN [Hs Hn]. split; auto. Qed.

Lemma wp_prog_ask {A} F (f : W → A * W) (Q : A → program → Prop) s :
  (∀ a w, Q a (with_net (set_world w (below (objs s))) s)) → wp F (ask f) Q s.
Proof using Type.
  intros HQ. unfold ask, obj_op, TlsConfig.ask, net_op, world_op. do 2 wp_step. apply wp_env. intros a w _. apply HQ.
Qed.

Lemma wp_sock {A} F (m : M net A) (Q : A → program → Prop) s :
  wp F m (λ a n, Q a (with_net n s)) (below (objs s)) → wp F (sock_op m) Q s.
Proof using Type. intros Hm. unfold sock_op, obj_op, net_op. do 2 wp_step. exact Hm. Qed.

Lemma with_net_below s : with_net (below (objs s)) s = s.
Proof using Type. destruct s as [c1 c2 c3 c4 c5 c6 o]. by destruct o. Qed.

Lemma obj_run {A} (m : M objects A) s a o : m (objs s) = Ok (a, o) → obj_op m s = Ok (a, set_objs o s).
Proof using Type. unfold obj_op, zoom. by intros ->. Qed.

Lemma objs_same s : set_objs (objs s) s = s.
Proof using Type. by destruct s. Qed.

Lemma prog_world N sv b s w :
  world_closed N → prog N sv b s → prog N sv b (with_net (set_world w (below (objs s))) s).
Proof using Type. intros HN [Hs Hn]. split; [by apply structures_net|by apply HN]. Qed.

(** Nothing has changed but the context and the sockets below. *)
Definition still (N : net → Prop) (sv : bool) (b : Z) (s s' : program (W := W)) : Prop :=
  prog N sv b s' ∧ buf s' = buf s ∧ ∃ n, objs s' = set_below n (objs s).

Lemma still_refl N sv b s : prog N sv b s → still N sv b s s.
Proof using Type.
  intros Hs. split; [done|]. split; [done|]. exists (below (objs s)). by destruct (objs s).
Qed.

Lemma still_trans N sv b s s1 s2 : still N sv b s s1 → still N sv b s1 s2 → still N sv b s s2.
Proof using Type.
  intros (_ & E1 & n1 & F1) (Hs & E2 & n2 & F2). split; [done|]. split; [congruence|].
  exists n2. rewrite F2, F1. done.
Qed.

(** The messages. *)

Lemma prog_say_ok N sv b s F f args :
  world_closed N → prog N sv b s → wp F (say f args) (λ _, still N sv b s) s.
Proof using Type.
  intros HN Hs. apply wp_prog_ask. intros _ w. split; [by apply prog_world|]. split; [done|by eexists].
Qed.

Lemma wp_say {A} N sv b s F f args (k : () → M program A) Q :
  world_closed N → prog N sv b s → (∀ s', still N sv b s s' → wp F (k ()) Q s') →
  wp F (say f args ≫= k) Q s.
Proof using Type.
  intros HN Hs Hk. wp_step. eapply wp_mono; [by apply (prog_say_ok N sv b)|]. intros [] s' Hs'. by apply Hk.
Qed.

Lemma print_last_error_ok N sv b s F ret :
  world_closed N → prog N sv b s → wp F (print_last_error ret) (λ _, still N sv b s) s.
Proof using Type.
  intros HN Hs. unfold print_last_error. apply wp_if; intros _; [by apply prog_say_ok|].
  wp_step. by apply still_refl.
Qed.

(** ** The configuration of a call *)

Lemma find_run {A} (table : objects (W := W) → gmap Z A) p o x :
  p ≠ 0 → table o !! p = Some x → find_object table p o = Ok (x, o).
Proof using Type.
  intros Hp Hx. unfold find_object. rewrite bind_unfold. cbn [get].
  by rewrite (proj2 (Z.eqb_neq p 0)), Hx by done.
Qed.

Lemma used_config_run sv b s p :
  structures sv b s → (p = 0 ∨ p = conf) → ∃ r, used_config p (objs s) = Ok (r, objs s).
Proof using Type.
  intros [Hs (c & Hc & Hch & Hr) Hx Hd He _ _ _ _] [->| ->]; [by exists None|]. unfold used_config.
  change (conf =? 0) with false. cbv iota.
  rewrite (bind_run _ _ _ _ _ (find_run configs conf (objs s) c ltac:(done) ltac:(by rewrite Hc))). cbv zeta.
  assert (∃ r, (if ca_chain (conf_view c) =? 0 then mret None
    else x ← find_object chains (ca_chain (conf_view c)); mret (Some x)) (objs s) = Ok (r, objs s)) as [r Er].
  { destruct (Z.eqb_spec (ca_chain (conf_view c)) 0) as [|Hne]; [by eexists|].
    destruct Hch as [?|[x Hch]]; [done|]. rewrite (bind_run _ _ _ _ _ (find_run _ _ _ _ Hne Hch)). by eexists. }
  rewrite (bind_run _ _ _ _ _ Er). exists (Some (c, r)).
  destruct (Z.eqb_spec (rng (conf_view c)) 0) as [|Hne]; [done|]. destruct Hr as [?|[-> Hr]]; [done|].
  rewrite bind_unfold, (bind_run _ _ _ _ _ (find_run drbgs ctr_drbg (objs s) entropy ltac:(done) ltac:(by rewrite Hr))).
  unfold CEntropyContext_Get. rewrite bind_unfold, bind_unfold. cbn [get].
  rewrite bool_decide_true; [done|]. rewrite He. set_solver.
Qed.

Lemma linked_config_run sv b s p :
  structures sv b s → (p = 0 ∨ p = conf) → ∃ r, linked_config p s = Ok (r, s).
Proof using Type.
  intros Hs Hp. destruct (used_config_run _ _ _ _ Hs Hp) as [r Er]. exists r. unfold linked_config.
  rewrite (bind_run _ _ _ _ _ (obj_run _ _ _ _ Er)), objs_same, bind_unfold. cbn [get].
  pose proof Hs as [_ _ [[x Hx] _] _ _ Hkey Hcache Hl _].
  assert ((if own_cert s then obj_op (find_object chains certificate);; the_key;; mret () else mret ()) s =
    Ok ((), s)) as E1.
  { destruct (own_cert s) eqn:Eo; [|done]. destruct sv; [|by destruct (Hl eq_refl)].
    rewrite (bind_run _ _ _ _ _ (obj_run _ _ _ _ (find_run chains certificate _ x ltac:(done) Hx))), objs_same.
    destruct Hkey as [key Hkey]. unfold the_key. rewrite bind_unfold, bind_unfold. cbn [get]. by rewrite Hkey. }
  rewrite (bind_run _ _ _ _ _ E1).
  assert ((if session_cache s then the_cache else mret ()) s = Ok ((), s)) as E2.
  { destruct (session_cache s) eqn:Eo; [|done]. destruct sv; [|by destruct (Hl eq_refl)].
    unfold the_cache. rewrite bind_unfold. cbn [get]. by rewrite Hcache. }
  by rewrite (bind_run _ _ _ _ _ E2).
Qed.

Lemma the_ssl_run sv b s :
  structures sv b s →
  ∃ c, the_ssl s = Ok (c, s) ∧ ssl s = Some c ∧ (conf_of c = 0 ∨ conf_of c = conf) ∧ bio_of c = b.
Proof using Type.
  intros [(c & Hc & Hp & Hb) _ _ _ _ _ _ _ _]. exists c. split_and!; try done.
  unfold the_ssl. rewrite bind_unfold. cbn [get]. by rewrite Hc.
Qed.

(** A change of the context that keeps its pointers. *)
Lemma set_context_ok N sv b s c x F :
  prog N sv b s → (conf_of c = 0 ∨ conf_of c = conf) → bio_of c = b →
  wp F (set_context c x) (λ _, still N sv b s) s.
Proof using Type.
  intros [Hs Hn] Hp Hb. unfold set_context. wp_step. split; [split; [by eapply structures_ssl|done]|].
  split; [done|]. exists (below (objs s)). cbn. by destruct (objs s).
Qed.

(** ** mbed TLS at work *)

Lemma prog_run_io_ok {A} (p : io W A) N ctx s :
  stable N ctx → N (below (objs s)) →
  wp no_fault (run_io ctx p) (λ a s', returns sent got p a ∧ ∃ n, N n ∧ s' = with_net n s) s.
Proof using Type.
  intros HN. revert s. induction p as [a|bs q IH|len q IH|f q IH]; intros s Hs; cbn [run_io].
  - wp_step. split; [constructor|]. exists (below (objs s)). by rewrite with_net_below.
  - wp_step. apply wp_sock. eapply wp_mono; [by apply (stable_send _ _ HN)|]. intros r n [Hr Hn].
    eapply wp_mono; [by apply IH|]. intros a s' (Hret & n' & Hn' & ->). split; [by econstructor|].
    by exists n'.
  - wp_step. apply wp_sock. eapply wp_mono; [by apply (stable_recv _ _ HN)|]. intros r n [Hr Hn].
    eapply wp_mono; [by apply IH|]. intros a s' (Hret & n' & Hn' & ->). split; [by econstructor|].
    by exists n'.
  - wp_step. apply wp_prog_ask. intros z w. eapply wp_mono; [apply IH; by apply (stable_world _ _ HN)|].
    intros a s' (Hret & n' & Hn' & ->). split; [by econstructor|]. by exists n'.
Qed.

(** A call of a function of mbed TLS on the connection. *)
Lemma prog_ssl_call_ok {A} f N sv b s :
  prog N sv b s → stable N b → b ≠ 0 →
  wp no_fault (ssl_call (A := A) f)
    (λ a s', still N sv b s s' ∧ ∃ cfg c y, returns sent got (f cfg c) (a, y)) s.
Proof using Type.
  intros [Hs Hn] HN Hb. destruct (the_ssl_run _ _ _ Hs) as (c & E & Hc & Hp & Hbio).
  destruct (linked_config_run _ _ _ _ Hs Hp) as [cfg Ecfg].
  unfold ssl_call. eapply wp_run; [exact E|]. eapply wp_run; [exact Ecfg|].
  rewrite Hbio, (proj2 (Z.eqb_neq b 0)) by done. wp_step. wp_step.
  wp_step. eapply wp_mono; [by apply (prog_run_io_ok _ N b)|]. intros [a y] s' (Hret & n & Hn' & ->).
  wp_step. eapply wp_mono; [apply (set_context_ok N sv b); [|done|done]|].
  { split; [by apply structures_net|done]. }
  intros [] s' (Hs' & Hbuf & n' & Ho). wp_step. split; [|by eexists _, _, _].
  split; [done|]. split; [done|]. exists n'. by rewrite Ho.
Qed.

(** What leaves the program, or goes on. *)
Lemma wp_then {G} F (m : M (program (W := W)) (option G)) k (Q : G → program → Prop) s :
  wp F m (λ r s', match r with Some g => Q g s' | None => wp F k Q s' end) s → wp F (then_ m k) Q s.
Proof using Type.
  intros Hm. unfold then_. wp_step. eapply wp_mono; [exact Hm|]. intros [g|] s'; [|done]. intros Hg. by wp_step.
Qed.

(** ** Parts of a program with loops *)

Section ends.
Variable T : Prop.

Lemma ends_then {G} (m : nat → M (program (W := W)) (option G)) k R (Q : G → program → Prop) s :
  ends T m R s →
  (∀ r s', R r s' → match r with Some g => Q g s' | None => ends T k Q s' end) →
  ends T (λ fuel, then_ (m fuel) (k fuel)) Q s.
Proof using Type.
  intros Hm Hk. unfold then_.
  apply (ends_bind T m (λ fuel r, match r with Some g => mret g | None => k fuel end) R); [done|].
  intros [g|] s' Hr; [|exact (Hk _ _ Hr)]. apply ends_const. wp_step. exact (Hk _ _ Hr).
Qed.

(** The same for a section without a loop. *)
Lemma ends_section {G} (m : M (program (W := W)) (option G)) k R (Q : G → program → Prop) s :
  wp no_fault m R s →
  (∀ r s', R r s' → match r with Some g => Q g s' | None => ends T k Q s' end) →
  ends T (λ fuel, then_ m (k fuel)) Q s.
Proof using Type. intros Hm. apply (ends_then (λ _, m)). by apply ends_const. Qed.

(** The loops around a call that may want to be repeated. *)
Lemma ends_call_until good f (I : program (W := W) → Prop) (R : Z → Prop) s :
  (∀ s, I s → wp no_fault f (λ r s', I s' ∧ R r) s) → I s → (T → finite (call_step good f)) →
  ends T (call_until good f) (λ r s', I s' ∧ R r ∧ (good r = true ∨ wants r = false)) s.
Proof using Type.
  intros Hf Hs Hfin. apply (ends_loop T _ I); [|done|done]. clear s Hs. intros s Hs. unfold call_step.
  wp_step. eapply wp_mono; [by apply Hf|]. intros r s' [Hs' Hr].
  destruct (good r) eqn:Hg; [wp_step; auto|]. destruct (wants r) eqn:Hw; cbn [negb]; by wp_step; auto.
Qed.

Lemma ends_say {A} N sv b s f args (k : nat → () → M (program (W := W)) A) Q :
  world_closed N → prog N sv b s → (∀ s', still N sv b s s' → ends T (λ fuel, k fuel ()) Q s') →
  ends T (λ fuel, say f args ≫= k fuel) Q s.
Proof using Type.
  intros HN Hs Hk. apply ends_step. eapply wp_mono; [by apply (prog_say_ok N sv b)|]. intros [] s' Hs'. by apply Hk.
Qed.
End ends.

(** ** Data *)

Lemma call_kept {A} f N sv b s :
  prog N sv b s → stable N b → b ≠ 0 → wp no_fault (ssl_call (A := A) f) (λ _, still N sv b s) s.
Proof using Type.
  intros Hs HN Hb. eapply wp_mono; [by apply (prog_ssl_call_ok f N sv b)|]. intros a s' [Hs' _]. done.
Qed.

(** A text in the buffer. *)
Definition text_in (text : list Z) (s : program (W := W)) : Prop := holds (buf s) 0 (text ++ [0]).

Lemma print_to_buf_ok N sv b s text F :
  prog N sv b s → Z.of_nat (length text) < BUF_SIZE →
  wp F (print_to_buf text)
    (λ len s', prog N sv b s' ∧ len = Z.of_nat (length text) ∧ text_in text s') s.
Proof using Type.
  intros [Hs Hn] Hlen. pose proof (st_buf _ _ _ Hs) as Hb. unfold print_to_buf. wp_step. wp_step.
  destruct (wr_bytes_Ok (buf s) 0 (text ++ [0])) as (x & E & Hl & Hh & _);
    [lia|rewrite length_app; cbn [length]; lia|].
  wp_step. apply (wp_lift_Ok _ _ x); [done|]. wp_step. wp_step. wp_step.
  split; [|done]. split; [|done]. apply structures_buf; [done|lia].
Qed.

Lemma buf_text_ok F text (Q : list Z → program (W := W) → Prop) s :
  text_in text s → Q (until_nul text) s → wp F buf_text Q s.
Proof using Type.
  intros Ht HQ. unfold buf_text. wp_step. wp_step. apply (wp_lift_Ok _ _ (until_nul text)); [|done].
  by apply c_string_holds.
Qed.

Lemma still_text N sv b s s' text : still N sv b s s' → text_in text s → text_in text s'.
Proof using Type. intros (_ & E & _). unfold text_in. by rewrite E. Qed.

(** The text in the buffer is written; the code is not that of a connection that
    was reset by the peer. *)
Lemma write_ok N sv b s text :
  prog N sv b s → stable N b → b ≠ 0 → text_in text s →
  wp no_fault (mbedtls_ssl_write (Z.of_nat (length text)))
    (λ r s', still N sv b s s' ∧ r ≠ MBEDTLS_ERR_NET_CONN_RESET) s.
Proof using Type*.
  intros Hs HN Hb Ht. unfold mbedtls_ssl_write. wp_step. wp_step. wp_step.
  apply (wp_lift_Ok _ _ text).
  { rewrite Nat2Z.id. apply holds_rd_bytes. by apply holds_app in Ht as [Ht _]. }
  eapply wp_mono; [by apply (prog_ssl_call_ok _ N sv b)|]. intros r s' (Hs' & cfg & c & y & Hret).
  split; [done|]. eapply write_conn_reset, returns_mono; [| |exact Hret].
  all: pose proof conn_reset_code as (Hneg & Hall); rewrite !Forall_cons in Hall.
  - intros n [?|[->| ->]]; [lia|tauto..].
  - intros [n bs] [?|[->| ->]]; cbn in *; [lia|tauto..].
Qed.

(** A buffer of zeros into which [n] bytes are read. *)
Lemma read_ok N sv b s :
  prog N sv b s → stable N b → b ≠ 0 → buf s = replicate (Z.to_nat BUF_SIZE) (Some 0) →
  wp no_fault (mbedtls_ssl_read (BUF_SIZE - 1))
    (λ r s', prog N sv b s' ∧ ∃ bs, Z.of_nat (length bs) = Z.max 0 r ∧ r < BUF_SIZE ∧ text_in bs s') s.
Proof using Type*.
  intros Hs HN Hb Hz. unfold mbedtls_ssl_read. wp_step.
  eapply wp_mono; [by apply (prog_ssl_call_ok _ N sv b)|]. intros [r bs] s' (([Hs' Hn'] & Hbuf & _) & cfg & c & y & Hret).
  assert (Z.of_nat (length bs) = Z.max 0 r ∧ r ≤ BUF_SIZE - 1) as [Hl Hr].
  { destruct (read_length (BUF_SIZE - 1) cfg c r bs y) as (? & ? & _); [|done|done].
    eapply returns_mono; [| |exact Hret]; done. }
  wp_step. wp_step. unfold BUF_SIZE in *.
  destruct (wr_bytes_Ok (buf s') 0 bs) as (x & E & Hlx & Hh & Hf);
    [lia|rewrite Hbuf, Hz, length_replicate; lia|].
  wp_step. apply (wp_lift_Ok _ _ x); [done|]. wp_step. wp_step. wp_step.
  split; [|exists bs; split_and!; [done|lia|]].
  - split; [|done]. apply structures_buf; [done|]. rewrite Hlx. exact (st_buf _ _ _ Hs').
  - unfold text_in. cbn [buf set_buf]. apply holds_app. split; [done|]. apply holds_cons.
    split; [|apply holds_nil; lia]. apply rd_Ok. split; [lia|].
    rewrite Hf by lia. rewrite Hbuf, Hz. apply lookup_replicate_2. lia.
Qed.

Lemma clear_buf_ok N sv b s F :
  prog N sv b s →
  wp F clear_buf (λ _ s', prog N sv b s' ∧ buf s' = replicate (Z.to_nat BUF_SIZE) (Some 0)) s.
Proof using Type. intros [Hs Hn]. unfold clear_buf. wp_step. split; [split; [by apply structures_buf|done]|done]. Qed.

(** ** Setting up *)

Definition seeded (s : program (W := W)) : Prop := drbgs (objs s) = {[ctr_drbg := entropy]}.

Lemma still_seeded N sv b s s' : still N sv b s s' → seeded s → seeded s'.
Proof using Type. intros (_ & _ & n & E). unfold seeded. by rewrite E. Qed.

(** An operation of the objects whose run is known. *)
Lemma wp_obj {A} F (m : M objects A) (Q : A → program → Prop) s :
  wp F m (λ a o, Q a (set_objs o s)) (objs s) → wp F (obj_op m) Q s.
Proof using Type. intros Hm. unfold obj_op. wp_step. exact Hm. Qed.

Lemma wp_find {A B} F (table : objects (W := W) → gmap Z A) p x (k : A → M objects B) Q o :
  p ≠ 0 → table o !! p = Some x → wp F (k x) Q o → wp F (find_object table p ≫= k) Q o.
Proof using Type. intros Hp Hx Hk. eapply wp_run; [by apply find_run|done]. Qed.

Lemma wp_objs_ask {A} F (f : W → A * W) (Q : A → objects → Prop) o :
  (∀ a w, f (world (below o)) = (a, w) → Q a (set_below (set_world w (below o)) o)) →
  wp F (TlsConfig.ask f) Q o.
Proof using Type.
  intros HQ. unfold TlsConfig.ask, net_op, world_op. wp_step. apply wp_env. intros a w E. by apply HQ.
Qed.

Lemma seed_ok N sv b s pers F :
  world_closed N → prog N sv b s →
  wp F (mbedtls_ctr_drbg_seed pers) (λ _ s', prog N sv b s' ∧ seeded s') s.
Proof using Type.
  intros HN [Hs Hn]. pose proof Hs as [Hssl (c & Hc & Hch & Hr) Hx (e & Hd) He Hp Hk Hl Hb].
  unfold mbedtls_ctr_drbg_seed. apply wp_obj. eapply wp_find; [done|by rewrite Hd|].
  unfold CEntropyContext_Get. wp_step. wp_step. wp_step. rewrite bool_decide_true by (rewrite He; set_solver).
  wp_step. wp_step. wp_step. apply wp_objs_ask. intros ret w _.
  assert (∀ m, m = {[ctr_drbg := e]} → <[ctr_drbg := entropy]> m = ({[ctr_drbg := entropy]} : gmap Z Z)) as Hm.
  { intros m ->. apply insert_singleton_eq. }
  split; [split|by apply Hm].
  - split; try done.
    + exists c. split; [done|]. split; [done|]. destruct Hr as [?|[? _]]; [by left|right].
      split; [done|]. by apply Hm.
    + exists entropy. by apply Hm.
  - by apply HN.
Qed.

Lemma parse_ok N sv b s bytes F :
  world_closed N → prog N sv b s →
  wp F (mbedtls_x509_crt_parse bytes)
    (λ _ s', prog N sv b s' ∧ (seeded s → seeded s')) s.
Proof using Type.
  intros HN [Hs Hn]. destruct (st_chains _ _ _ Hs) as [[x Hx] _]. unfold mbedtls_x509_crt_parse, AddCertificate.
  apply wp_obj. eapply wp_find; [done|exact Hx|]. wp_step. apply wp_objs_ask. intros [n y] w _.
  wp_step. wp_step. wp_step. split; [|done]. split; [|by apply HN].
  apply (structures_chain _ _ _ certificate y (structures_net _ _ _ (set_world w (below (objs s))) Hs)). by left.
Qed.

(** The configuration is changed in a way that keeps what it points to. *)
Lemma configure_ok N sv b s (f : ssl_config → ssl_config) F :
  prog N sv b s → (∀ c, conf_linked (objs s) c → conf_linked (objs s) (f c)) →
  wp F (obj_op (configure conf f)) (λ _ s', prog N sv b s' ∧ buf s' = buf s ∧
    objs s' = set_configs (configs (objs s')) (objs s)) s.
Proof using Type.
  intros [Hs Hn] Hf. destruct (st_conf _ _ _ Hs) as (c & Hc & Hlink). unfold configure. apply wp_obj.
  eapply wp_find; [done|by rewrite Hc|]. wp_step. split; [|done]. split; [|done].
  apply structures_conf; [done|auto].
Qed.

Lemma seeded_configs s s' : objs s' = set_configs (configs (objs s')) (objs s) → seeded s → seeded s'.
Proof using Type. unfold seeded. by intros ->. Qed.

Lemma linked_view o c c' :
  ca_chain (conf_view c') = ca_chain (conf_view c) → rng (conf_view c') = rng (conf_view c) →
  conf_linked o c → conf_linked o c'.
Proof using Type. unfold conf_linked. by intros -> ->. Qed.

Lemma defaults_ok N sv b s e F :
  world_closed N → prog N sv b s →
  wp F (mbedtls_ssl_config_defaults e) (λ _ s', prog N sv b s' ∧ (seeded s → seeded s')) s.
Proof using Type*.
  intros HN [Hs Hn]. destruct (st_conf _ _ _ Hs) as (c & Hc & Hlink).
  unfold mbedtls_ssl_config_defaults, SetDefaults. apply wp_obj.
  eapply wp_find; [done|by rewrite Hc|]. wp_step. apply wp_objs_ask. intros [n c'] w E.
  wp_step. wp_step. wp_step. split; [|done]. split; [|by apply HN].
  apply (structures_conf _ _ _ c' (structures_net _ _ _ (set_world w (below (objs s))) Hs)).
  destruct (view_defaults e MBEDTLS_SSL_TRANSPORT_STREAM MBEDTLS_SSL_PRESET_DEFAULT c
              (world (below (objs s)))) as (_ & E1 & E2 & _).
  rewrite E in E1, E2. cbn [fst snd] in E1, E2. by eapply linked_view.
Qed.

(** A setting, as a step of a longer program. *)
Lemma wp_configure {A} F (f : ssl_config → ssl_config) (k : () → M program A) (Q : A → program → Prop) N sv b s :
  prog N sv b s → (∀ c, conf_linked (objs s) c → conf_linked (objs s) (f c)) →
  (∀ s', prog N sv b s' → buf s' = buf s → objs s' = set_configs (configs (objs s')) (objs s) → wp F (k ()) Q s') →
  wp F (obj_op (configure conf f) ≫= k) Q s.
Proof using Type.
  intros Hs Hf Hk. wp_step. eapply wp_mono; [by apply (configure_ok N sv b)|].
  intros [] s' (Hs' & Hb & Ho). by apply Hk.
Qed.

Lemma authmode_linked (o : objects (W := W)) m c : conf_linked o c → conf_linked o (ssl_conf_authmode m c).
Proof using Type*. apply linked_view; by rewrite view_authmode. Qed.
Lemma dbg_linked (o : objects (W := W)) d c : conf_linked o c → conf_linked o (ssl_conf_dbg d c).
Proof using Type*. apply linked_view; by rewrite view_dbg. Qed.
Lemma cache_linked (o : objects (W := W)) c : conf_linked o c → conf_linked o (ssl_conf_session_cache c).
Proof using Type*. apply linked_view; by rewrite view_session_cache. Qed.
Lemma chain_linked (o : objects (W := W)) p c :
  p = 0 ∨ is_Some (chains o !! p) → conf_linked o c → conf_linked o (ssl_conf_ca_chain p c).
Proof using Type*. intros Hp [_ Hr]. split; by rewrite view_ca_chain. Qed.
Lemma rng_linked (o : objects (W := W)) c :
  drbgs o = {[ctr_drbg := entropy]} → conf_linked o c → conf_linked o (ssl_conf_rng ctr_drbg c).
Proof using Type*. intros Hd [Hc _]. split; rewrite view_rng; [done|by right]. Qed.

Lemma setup_ok N sv b s F :
  world_closed N → prog N sv b s →
  wp F mbedtls_ssl_setup (λ _ s', still N sv b s s') s.
Proof using Type.
  intros HN Hp. pose proof Hp as [Hs Hn]. destruct (the_ssl_run _ _ _ Hs) as (c & E & Hc & Hconf & Hbio).
  destruct (st_conf _ _ _ Hs) as (f & Hf & _). unfold mbedtls_ssl_setup. eapply wp_run; [exact E|].
  eapply wp_run; [apply obj_run, (find_run configs conf _ f); [done|by rewrite Hf]|]. rewrite objs_same.
  wp_step. apply wp_prog_ask. intros [n x] w. wp_step. wp_step. wp_step.
  split; [|split; [done|by eexists]]. split; [|by apply HN].
  eapply structures_ssl; [by apply structures_net| |exact Hbio]. cbn. destruct (n =? 0); auto.
Qed.

Lemma set_hostname_ok N sv b s name F :
  world_closed N → prog N sv b s → wp F (mbedtls_ssl_set_hostname name) (λ _ s', still N sv b s s') s.
Proof using Type.
  intros HN Hp. pose proof Hp as [Hs Hn]. destruct (the_ssl_run _ _ _ Hs) as (c & E & Hc & Hconf & Hbio).
  unfold mbedtls_ssl_set_hostname. eapply wp_run; [exact E|]. wp_step. apply wp_prog_ask. intros [n x] w. wp_step.
  eapply wp_mono; [apply (set_context_ok N sv b); [by apply prog_world|done|done]|].
  intros [] s' (Hs' & Hb & n' & Ho). wp_step. split; [done|]. split; [done|]. exists n'. by rewrite Ho.
Qed.

Lemma session_reset_ok N sv b s F :
  world_closed N → prog N sv b s → wp F mbedtls_ssl_session_reset (λ _ s', still N sv b s s') s.
Proof using Type.
  intros HN Hp. pose proof Hp as [Hs Hn]. destruct (the_ssl_run _ _ _ Hs) as (c & E & Hc & Hconf & Hbio).
  destruct (linked_config_run _ _ _ _ Hs Hconf) as [cfg Ecfg].
  unfold mbedtls_ssl_session_reset. eapply wp_run; [exact E|]. eapply wp_run; [exact Ecfg|].
  wp_step. apply wp_prog_ask. intros [n x] w. wp_step.
  eapply wp_mono; [apply (set_context_ok N sv b); [by apply prog_world|done|done]|].
  intros [] s' (Hs' & Hb & n' & Ho). wp_step. split; [done|]. split; [done|]. exists n'. by rewrite Ho.
Qed.

Lemma set_bio_ok N sv b s ctx F :
  prog N sv b s → wp F (mbedtls_ssl_set_bio ctx) (λ _ s', prog N sv ctx s' ∧ (seeded s → seeded s')) s.
Proof using Type.
  intros [Hs Hn]. destruct (the_ssl_run _ _ _ Hs) as (c & E & Hc & Hconf & Hbio).
  unfold mbedtls_ssl_set_bio. eapply wp_run; [exact E|]. wp_step. split; [|done]. split; [|done].
  by eapply structures_ssl.
Qed.

(** ** The server's certificate *)

Lemma structures_key b s k : structures true b s → structures true b (set_pkey (Some k) s).
Proof using Type. intros [Hs Hc Hx Hd He Hp Hk Hl Hb]. by split; try by eexists. Qed.

Lemma structures_links b s own cached : structures true b s → structures true b (set_links own cached s).
Proof using Type. intros [Hs Hc Hx Hd He Hp Hk Hl Hb]. by split. Qed.

Lemma the_key_run b s : structures true b s → ∃ k, the_key s = Ok (k, s).
Proof using Type.
  intros Hs. destruct (st_pkey _ _ _ Hs) as [k Hk]. exists k. unfold the_key. rewrite bind_unfold. cbn [get].
  by rewrite Hk.
Qed.

Lemma parse_key_ok N b s key F :
  world_closed N → prog N true b s → wp F (mbedtls_pk_parse_key key) (λ _ s', prog N true b s') s.
Proof using Type.
  intros HN [Hs Hn]. destruct (the_key_run _ _ Hs) as [k E]. unfold mbedtls_pk_parse_key.
  eapply wp_run; [exact E|]. wp_step. apply wp_prog_ask. intros [n k'] w. wp_step. wp_step. wp_step.
  split; [by apply structures_key, structures_net|by apply HN].
Qed.

(** The rest of the chain is alive when there is one. *)
Lemma next_certificate_ok N sv b s F :
  prog N sv b s →
  wp F certificate_next
    (λ p s', prog N sv b s' ∧ (seeded s → seeded s') ∧ (p = 0 ∨ is_Some (chains (objs s') !! p))) s.
Proof using Type.
  intros [Hs Hn]. destruct (st_chains _ _ _ Hs) as [[x Hx] _]. unfold certificate_next.
  eapply wp_run; [by apply obj_run, (find_run chains certificate)|]. rewrite objs_same.
  destruct (x509_crt_next x) as [y|].
  - wp_step. apply wp_obj. wp_step. wp_step. split; [|split; [done|right; cbn; rewrite lookup_insert_eq; by eexists]].
    split; [|done]. apply structures_chain; [done|by right].
  - wp_step. split; [by split|]. split; [done|by left].
Qed.

Lemma own_cert_ok N b s F :
  world_closed N → prog N true b s → wp F mbedtls_ssl_conf_own_cert (λ _ s', prog N true b s') s.
Proof using Type*.
  intros HN [Hs Hn]. destruct (st_chains _ _ _ Hs) as [[x Hx] _]. destruct (the_key_run _ _ Hs) as [k E].
  destruct (st_conf _ _ _ Hs) as (c & Hc & Hlink). unfold mbedtls_ssl_conf_own_cert.
  eapply wp_run; [by apply obj_run, (find_run chains certificate)|]. rewrite objs_same.
  eapply wp_run; [exact E|].
  eapply wp_run; [apply obj_run, (find_run configs conf _ c); [done|by rewrite Hc]|]. rewrite objs_same.
  unfold ask. wp_step. apply wp_obj, wp_objs_ask. intros [n c'] w Ew. wp_step. apply wp_obj. wp_step. wp_step. wp_step.
  wp_step. split; [|by apply HN]. apply structures_links.
  apply (structures_conf _ _ _ c' (structures_net _ _ _ (set_world w (below (objs s))) Hs)).
  pose proof (view_own_cert x k c (world (below (objs s)))) as Hv. rewrite Ew in Hv. cbn [fst snd] in Hv.
  eapply linked_view; [by rewrite Hv|by rewrite Hv|exact Hlink].
Qed.

(** * The end *)

(** The functions [mbedtls_*_free] behind each other; the server has two more. *)
Lemma free_certificate_run s x :
  chains (objs s) !! certificate = Some x →
  mbedtls_x509_crt_free s =
  Ok ((), set_objs (set_chains (delete next_certificate (delete certificate (chains (objs s)))) (objs s)) s).
Proof using Type.
  intros Hx. unfold mbedtls_x509_crt_free, obj_op, zoom.
  by rewrite (bind_run _ _ _ _ _ (find_run chains certificate _ x ltac:(done) Hx)).
Qed.

Lemma no_chains sv b s :
  structures sv b s → delete next_certificate (delete certificate (chains (objs s))) = ∅.
Proof using Type.
  intros Hs. destruct (st_chains _ _ _ Hs) as [_ Hall]. apply map_empty. intros p.
  apply eq_None_not_Some. rewrite !lookup_delete_is_Some. intros (Hn & Hc & Hp).
  destruct (Hall p Hp) as [->| ->]; congruence.
Qed.

Lemma free_config_run s c :
  configs (objs s) = {[conf := c]} →
  mbedtls_ssl_config_free s = Ok ((), set_objs (set_configs ∅ (objs s)) s).
Proof using Type.
  intros Hc. unfold mbedtls_ssl_config_free, obj_op, zoom.
  rewrite (bind_run _ _ _ _ _ (find_run configs conf _ c ltac:(done) ltac:(by rewrite Hc))).
  unfold CTLSConfig_destroy, modify. by rewrite Hc, delete_singleton_eq.
Qed.

Lemma free_drbg_run s e :
  drbgs (objs s) = {[ctr_drbg := e]} →
  mbedtls_ctr_drbg_free s = Ok ((), set_objs (set_drbgs ∅ (objs s)) s).
Proof using Type.
  intros Hc. unfold mbedtls_ctr_drbg_free, obj_op, zoom.
  rewrite (bind_run _ _ _ _ _ (find_run drbgs ctr_drbg _ e ltac:(done) ltac:(by rewrite Hc))).
  unfold CCTR_DRBG_destroy, modify. by rewrite Hc, delete_singleton_eq.
Qed.

Lemma free_entropy_run s :
  entropies (objs s) = {[entropy]} →
  mbedtls_entropy_free s = Ok ((), set_objs (set_entropies ∅ (objs s)) s).
Proof using Type.
  intros He. unfold mbedtls_entropy_free, obj_op, zoom. unfold CEntropyContext_Get, CEntropyContext_destroy.
  rewrite bind_unfold, bind_unfold. cbn [get]. rewrite bool_decide_true by (rewrite He; set_solver).
  unfold modify. cbn. rewrite He. by replace ({[entropy]} ∖ {[entropy]} : gset Z) with (∅ : gset Z) by set_solver.
Qed.

Lemma free_ssl_run s c :
  ssl s = Some c →
  ∃ w, mbedtls_ssl_free s = Ok ((), set_ssl None (with_net (set_world w (below (objs s))) s)).
Proof using Type.
  intros Hc. assert (the_ssl s = Ok (c, s)) as E.
  { unfold the_ssl. rewrite bind_unfold. cbn [get]. by rewrite Hc. }
  exists (ssl_free (context c) (world (below (objs s)))).2.
  unfold mbedtls_ssl_free. rewrite (bind_run _ _ _ _ _ E), bind_unfold.
  unfold ask, obj_op, TlsConfig.ask, net_op, zoom, world_op, env.
  by destruct (ssl_free (context c) (world (below (objs s)))) as [[] w].
Qed.

(** * The sockets below *)

(** The sockets when the context of the program is a local variable. *)
Definition with_context (c : Z) (n : net (W := W)) : net := set_contexts (<[c := -1]> (contexts n)) n.

(** All structures are gone, and the context has no connection. *)
Definition ended (k : Z) (n0 : net (W := W)) (c : Z) (s : program) : Prop :=
  no_structures s ∧ closed k n0 c (below (objs s)).
End props.
