(* ===== verification/TlsProgramDemo.v ===== *)
(** Instances for concrete runs of the TLS programs: an output that is the log,
    and a stand-in for mbed TLS that sends and receives in plain text.  Its
    context counts how often the handshake still wants to be repeated, and how
    many pieces the peer is still going to send, which its answer in the
    handshake says. *)
From stdpp Require Import base numbers list gmap option strings.
From S2P Require Import Prelude.
From S2P Require Import Libc.
From S2P Require Import Circle.
From S2P Require Import NetSockets.
From S2P Require Import NetInv.
From S2P Require Import NetProps.
From S2P Require Import TlsConfig.
From S2P Require Import TlsInv.
From S2P Require Import TlsDemo.
From S2P Require Import HttpsClient.
From S2P Require Import TlsProgram.
From S2P Require Import TlsProgramProps.
Import Libc Net TlsConfig TlsProgram TlsDemo.

Module TlsProgramDemo.
#[export] Instance output : HttpsWorld Script.t := {|
  printf := Script.write_log LogNotice;
  mbedtls_strerror _ := cstr "error";
  CScheduler_Sleep n := Script.sleep n
|}.

Definition settings : Type := option (conf_settings * option (list (list Z))).
Definition handshake (c : settings) (x : nat * nat) : io Script.t (Z * (nat * nat)) :=
  match x.1 with
  | S again => Ret (MBEDTLS_ERR_SSL_WANT_READ, (again, x.2))
  | O =>
      CallSend [22] (λ n, if n <? 0 then Ret (-1, x) else
      CallRecv 1 (λ r, match r.2 with [pieces] => Ret (0, (O, Z.to_nat pieces)) | _ => Ret (-1, x) end))
  end.
Definition read (n : Z) (c : settings) (x : nat * nat) : io Script.t ((Z * list Z) * (nat * nat)) :=
  match x.2 with
  | O => Ret ((0, []), x)
  | S pieces =>
      CallRecv n (λ r, if r.1 <? 0 then Ret ((-1, []), (x.1, pieces))
                       else let bs := u8 <$> take (Z.to_nat n) r.2 in
                            Ret ((Z.of_nat (length bs), bs), (x.1, pieces)))
  end.
Definition no_want (n : Z) : Z := if wants n then -1 else n.

#[export] Instance ssl : MbedSSL Script.t := {|
  ssl_context := nat * nat;
  ssl_config := conf_settings;
  x509_crt := list (list Z);
  MBEDTLS_SSL_IS_CLIENT := 0;
  MBEDTLS_SSL_TRANSPORT_STREAM := 0;
  MBEDTLS_SSL_PRESET_DEFAULT := 0;
  MBEDTLS_SSL_VERIFY_NONE := 0;
  MBEDTLS_SSL_VERIFY_REQUIRED := 2;
  conf_view c := c;
  ssl_config_init := mkSettings None 0 0 0 false;
  ssl_config_defaults _ _ _ c w := ((0, c), w);
  ssl_conf_authmode m c := mkSettings (Some m) (cert_profile c) (ca_chain c) (rng c) (debug_callback c);
  ssl_conf_cert_profile x c := mkSettings (authmode c) x (ca_chain c) (rng c) (debug_callback c);
  ssl_conf_ca_chain x c := mkSettings (authmode c) (cert_profile c) x (rng c) (debug_callback c);
  ssl_conf_rng x c := mkSettings (authmode c) (cert_profile c) (ca_chain c) x (debug_callback c);
  ssl_conf_dbg b c := mkSettings (authmode c) (cert_profile c) (ca_chain c) (rng c) b;
  x509_crt_init := [];
  x509_crt_parse ch bs w := ((0, ch ++ [bs]), w);
  x509_crt_verify_info _ _ _ := "x509: not verified"%string;
  ctr_drbg_seed _ _ _ w := (0, w);
  ssl_init := (2, 0)%nat;
  ssl_free _ w := ((), w);
  ssl_setup _ x w := ((0, x), w);
  ssl_set_hostname _ x w := ((0, x), w);
  ssl_get_verify_result _ := 0;
  ssl_handshake := handshake;
  ssl_read := read;
  ssl_write bs _ x := CallSend bs (λ n, Ret (no_want n, x));
  ssl_close_notify _ x := CallSend [21] (λ n, Ret (no_want n, x))
|}.

(** The three ways through [read]. *)
Lemma read_returns F G n c x r bs y :
  returns F G (read n c x) ((r, bs), y) →
  (x.2 = O ∧ r = 0 ∧ bs = [] ∧ y = x) ∨
  ∃ p got, x.2 = S p ∧ y = (x.1, p) ∧
    (r = -1 ∧ bs = [] ∨ bs = u8 <$> take (Z.to_nat n) got ∧ r = Z.of_nat (length bs)).
Proof.
  unfold read. destruct (x.2) as [|p]; intros Hr; inversion Hr as [| |? ? a ? _ Hk|]; subst; [by left|].
  right. revert Hk. destruct (a.1 <? 0); intros Hk; inversion Hk; subst; exists p, a.2; auto.
Qed.

#[export] Instance ssl_ok : MbedSSLOk Script.t.
Proof.
  split; try done.
  - intros n c x r bs y Hr Hn. apply read_returns in Hr as [(_ & -> & -> & _)|(p & got & _ & _ & Hr)].
    + cbn. split_and!; [lia|done|done].
    + destruct Hr as [[-> ->]|[-> ->]]; [cbn; split_and!; [lia|lia|done]|].
      rewrite length_fmap, length_take. split_and!; [lia|lia|].
      apply Forall_fmap, Forall_true. intros b. apply u8_range.
  - intros n c x r bs y Hr. apply read_returns in Hr as [(_ & -> & _)|(p & got & _ & _ & Hr)]; [done|].
    destruct Hr as [[-> _]|[_ ->]]; [done|]. cbn. lia.
Qed.

#[export] Instance programs : MbedProgram Script.t := {|
  pk_context := list Z;
  MBEDTLS_SSL_IS_SERVER := 1;
  MBEDTLS_SSL_VERIFY_OPTIONAL := 1;
  MBEDTLS_ERR_SSL_PEER_CLOSE_NOTIFY := -0x7880;
  MBEDTLS_ERR_NET_CONN_RESET := -0x50;
  mbedtls_test_cas_pem := cstr "CA";
  mbedtls_test_srv_crt := cstr "server";
  mbedtls_test_srv_key := cstr "key";
  debug_set_threshold _ w := ((), w);
  pk_init := [];
  pk_parse_key _ key w := ((0, key), w);
  x509_crt_next chain := match chain with _ :: y :: ys => Some (y :: ys) | _ => None end;
  ssl_conf_session_cache c := c;
  ssl_conf_own_cert _ _ c w := ((0, c), w);
  ssl_session_reset _ _ w := ((0, (1, 0)%nat), w);
  ssl_get_ciphersuite _ := cstr "TLS-NULL"
|}.

#[export] Instance programs_ok : MbedProgramOk Script.t.
Proof.
  split; try done.
  - intros c. cbn. lia.
  - split; [done|]. repeat constructor; done.
  - intros bs c x r y Hr. inversion Hr as [|? ? n ? Hn Hk| |]; subst.
    inversion Hk; subst. unfold no_want. by case_match.
Qed.

(** ** The loops of the programs end *)

(** A number that gets smaller with each round. *)
Lemma finite_measure {A} (step : M (program (W := Script.t)) (option A)) (size : program → nat) :
  (∀ s s1, step s = Ok (None, s1) → (size s1 < size s)%nat) → finite step.
Proof.
  intros Hstep. assert (∀ n s, (size s < n)%nat → Acc (λ s1 s, step s = Ok (None, s1)) s) as Hn.
  { induction n as [|n IH]; intros s Hs; [lia|]. constructor. intros s1 Hs1%Hstep. apply IH. lia. }
  intros s. apply (Hn (S (size s))). lia.
Qed.

Lemma obj_ssl {A} (m : M objects A) s a s1 : obj_op m s = Ok (a, s1) → TlsProgram.ssl s1 = TlsProgram.ssl s.
Proof. unfold obj_op, zoom. destruct (m (objs s)) as [[]|]; [|done]. by intros [= _ <-]. Qed.

Lemma run_io_returns {A} ctx (p : io Script.t A) s a s1 :
  run_io ctx p s = Ok (a, s1) → returns (λ _, True) (λ _, True) p a.
Proof.
  revert s. induction p as [x|bs k IH|n k IH|f k IH]; cbn; intros s Hr.
  - injection Hr as -> _. constructor.
  - apply bind_Ok in Hr as (n & s2 & _ & Hr). econstructor; [done|eauto].
  - apply bind_Ok in Hr as (r & s2 & _ & Hr). econstructor; [done|eauto].
  - apply bind_Ok in Hr as (z & s2 & _ & Hr). econstructor. eauto.
Qed.

(** The context of the connection of a program. *)
Definition counts (s : program (W := Script.t)) : nat * nat :=
  match TlsProgram.ssl s with Some c => context c | None => (O, O) end.

Lemma ssl_call_counts {A} f s (a : A) s1 :
  ssl_call f s = Ok (a, s1) →
  ∃ cfg, returns (λ _, True) (λ _, True) (f cfg (counts s)) (a, counts s1).
Proof.
  unfold ssl_call. intros (c & s2 & Ec & (cfg & s3 & _ & (u & s4 & _ & ([b x] & s5 & Er & Hr)%bind_Ok)%bind_Ok)%bind_Ok)%bind_Ok.
  apply bind_Ok in Hr as (u2 & s6 & E6 & [= <- <-]). injection E6 as _ <-. exists cfg.
  unfold the_ssl in Ec. rewrite bind_unfold in Ec. cbn [get] in Ec.
  unfold counts at 1. destruct (TlsProgram.ssl s); [|done]. injection Ec as -> _. cbn.
  by eapply run_io_returns.
Qed.

Lemma call_step_again good f (s s1 : program (W := Script.t)) :
  call_step good f s = Ok (None, s1) → ∃ ret, f s = Ok (ret, s1) ∧ wants ret = true.
Proof.
  unfold call_step. intros (ret & s2 & E & Hr)%bind_Ok. destruct (good ret); [done|].
  destruct (wants ret) eqn:Hw; [|done]. injection Hr as <-. eauto.
Qed.

Lemma wants_no_want n : wants (no_want n) = false.
Proof. unfold no_want. by destruct (wants n) eqn:E. Qed.

Lemma handshake_finite good : finite (call_step good mbedtls_ssl_handshake).
Proof.
  apply (finite_measure _ (λ s, (counts s).1)). intros s s1 (ret & E & Hw)%call_step_again.
  apply ssl_call_counts in E as [cfg Hr]. destruct (counts s) as [[|again] pieces]; cbn in Hr |- *.
  - inversion Hr as [|? ? n ? _ Hk| |]; subst. clear Hr. revert Hk.
    destruct (n <? 0); intros Hk; [by inversion Hk; subst|].
    inversion Hk as [| |? ? r ? _ Hk'|]; subst. clear Hk. revert Hk'.
    by destruct r as [? [|? [|]]]; intros Hk'; inversion Hk'; subst.
  - inversion Hr as [a E| | |]. cbn. lia.
Qed.

Lemma write_finite good len : finite (call_step good (mbedtls_ssl_write len)).
Proof.
  apply (finite_measure _ (λ _, O)). intros s s1 (ret & E & Hw)%call_step_again.
  apply bind_Ok in E as (s2 & s3 & _ & (bs & s4 & _ & E)%bind_Ok).
  apply ssl_call_counts in E as [cfg Hr]. inversion Hr as [|? ? n ? _ Hk| |]; subst.
  inversion Hk; subst. by rewrite wants_no_want in Hw.
Qed.

Lemma close_finite good : finite (call_step good mbedtls_ssl_close_notify).
Proof.
  apply (finite_measure _ (λ _, O)). intros s s1 (ret & E & Hw)%call_step_again.
  apply ssl_call_counts in E as [cfg Hr]. inversion Hr as [|? ? n ? _ Hk| |]; subst.
  inversion Hk; subst. by rewrite wants_no_want in Hw.
Qed.

(** A call to read takes one piece, or says that there is none. *)
Lemma read_counts len s (r : Z) s1 :
  (clear_buf;; mbedtls_ssl_read len) s = Ok (r, s1) →
  wants r = false ∧ ((counts s).2 = O ∧ r = 0 ∨ (counts s).2 = S (counts s1).2).
Proof.
  intros (u & s2 & E2 & ([n bs] & s3 & E3 & (s4 & s5 & E4 & (b & s6 & E6 & (v & s7 & E7 & Er)%bind_Ok)%bind_Ok)%bind_Ok)%bind_Ok)%bind_Ok.
  injection E2 as _ <-. injection E4 as <- <-. injection Er as -> <-. injection E7 as _ <-.
  assert (s6 = s3) as -> by (revert E6; unfold lift_res; destruct (wr_bytes _ _ _); [|done]; by intros [= _ ->]).
  apply ssl_call_counts in E3 as [cfg Hr]. change (counts (set_buf _ s)) with (counts s) in Hr.
  change (counts (set_buf b s3)) with (counts s3).
  apply read_returns in Hr as [(E & -> & _ & _)|(p & got & E & -> & Hr)].
  - split; [done|by left].
  - split; [|by right]. destruct Hr as [[-> _]|[_ ->]]; [done|].
    unfold wants. rewrite !(proj2 (Z.eqb_neq _ _)); [done|cbn; lia..].
Qed.

(** A program before its first statement, with a script for its connections. *)
Definition start (w : Script.t) : program (W := Script.t) :=
  mkProgram None None false false false (uninit BUF_SIZE)
    (mkObjects ∅ ∅ ∅ ∅ 1 (net_init [] w)).

Lemma start_unstarted w : unstarted (start w).
Proof. by split_and!. Qed.

Lemma start_net w : net_ok 0 (below (objs (start w))).
Proof. apply net_init_ok. by intros ?%elem_of_nil. Qed.

(** A peer that closes after the pieces [rx], and a connection that takes [n]
    calls of [Send]. *)
Definition peer (rx : list (option (list Z))) (n : nat) : Script.t :=
  Script.mk rx [] (Some n) 0 [] 0 0 [].
End TlsProgramDemo.
