(* ===== verification/TlsClient1Props.v ===== *)
(** Properties of the first TLS client sample. *)
From stdpp Require Import base numbers list gmap option strings.
From S2P Require Import Prelude.
From S2P Require Import Libc.
From S2P Require Import Circle.
From S2P Require Import NetSockets.
From S2P Require Import NetInv.
From S2P Require Import NetOwner.
From S2P Require Import TlsConfig.
From S2P Require Import HttpsClient.
From S2P Require Import TlsProgram.
From S2P Require Import TlsProgramProps.
From S2P Require Import TlsClient1.
From S2P Require Import TlsDemo.
From S2P Require Import TlsProgramDemo.
Import Libc Net TlsConfig TlsProgram TlsClient1.

Section client.
Context `{Target, MbedTLS, !MbedTLSOk, PtrArray, !PtrArrayOk, SocketPlatform W, !PlatformOk W,
  !MbedSSL W, !MbedSSLOk W, !MbedProgram W, !MbedProgramOk W, !HttpsWorld W}.

Lemma client1_initialize_ok k s :
  unstarted s → net_ok k (below (objs s)) → contexts (below (objs s)) !! server_fd = None →
  wp no_fault initialize
    (λ _ s', prog (closed k (with_context server_fd (below (objs s))) server_fd) false 0 s') s.
Proof using Type*.
  intros ((E1 & E2 & E3 & E4 & E5 & E6 & E7) & E8 & E9 & E10) Hn Hc.
  destruct s as [c1 c2 c3 c4 c5 c6 [o1 o2 o3 o4 o5 n]]. cbn in *. subst.
  set (n0 := with_context server_fd n). unfold initialize. wp_step. apply wp_prog_ask. intros _ w. wp_step. apply wp_sock.
  destruct (new_context_run k n server_fd) as (n1 & _ & -> & Hn1); [done|done|done|].
  destruct (new_context_run k (set_world w n) server_fd) as (n1 & E & -> & _); [by apply net_ok_world|done|done|].
  unfold wp at 1. cbn [below objs with_net set_objs set_below]. rewrite E. clear E.
  unfold mbedtls_ssl_init, mbedtls_ssl_config_init, mbedtls_x509_crt_init, mbedtls_ctr_drbg_init,
    mbedtls_entropy_init.
  wp_step. wp_step. do 3 (wp_step; apply wp_obj; wp_step).
  wp_step. apply wp_prog_ask. intros _ w1. apply wp_obj. wp_step.
  split; cbn.
  - split; cbn; rewrite ?insert_empty; try done.
    + eexists. split; [done|]. split; [by left|done].
    + exists ssl_config_init. split; [done|]. unfold conf_linked. rewrite view_init. split; by left.
    + split; [by eexists|]. intros p [? [[= <-] _]%lookup_singleton_Some]. by left.
    + by eexists.
  - apply (closed_world _ _ _ n0 w1). by apply closed_start; [|apply lookup_insert_eq].
Qed.

(** ** The sections of the program

    A section leaves the program or goes on, and the structures are as they
    were. *)
Definition next (N : net (W := W) → Prop) (b : Z) (r : option Z) (s : program) : Prop :=
  prog N false b s ∧ (r = None → seeded s).

(** The end of a section: an error message, or another message. *)
Lemma wp_report N b s (c : bool) fmt (ret shown : Z) (m : M program ()) F :
  world_closed N → prog N false b s → seeded s → wp F m (λ _, still N false b s) s →
  wp F (if c then say_failed fmt shown;; mret (Some ret) else m;; mret None) (next N b) s.
Proof using Type.
  intros HN Hs Hse Hm. apply wp_if; intros ->.
  - unfold say_failed. apply (wp_say N false b); [done|done|]. intros s' [Hs' _]. wp_step. by split.
  - wp_step. eapply wp_mono; [exact Hm|]. intros [] s' Hst. wp_step. split; [apply Hst|]. intros _.
    by eapply still_seeded.
Qed.

Lemma client1_seed_section N b s F :
  world_closed N → prog N false b s → wp F seed (next N b) s.
Proof using Type.
  intros HN Hs. unfold seed. wp_step. eapply wp_mono; [by apply (seed_ok N false b)|].
  intros ret s1 [Hs1 Hse]. apply wp_report; [done|done|done|by apply prog_say_ok].
Qed.

Lemma client1_load_section N b s F :
  world_closed N → prog N false b s → seeded s → wp F load (next N b) s.
Proof using Type.
  intros HN Hs Hse. unfold load. apply (wp_say N false b); [done|done|]. intros s1 Hs1.
  wp_step. eapply wp_mono; [apply (parse_ok N false b); [done|apply Hs1]|].
  intros ret s2 [Hs2 Hk]. assert (seeded s2) as Hse2 by by eapply Hk, still_seeded.
  apply wp_report; [done|done|done|by apply prog_say_ok].
Qed.

Lemma client1_configure_section N b s F :
  world_closed N → prog N false b s → seeded s → wp F configure (next N b) s.
Proof using Type*.
  intros HN Hs Hse. unfold configure. apply (wp_say N false b); [done|done|]. intros s1 Hs1.
  wp_step. eapply wp_mono; [apply (defaults_ok N false b); [done|apply Hs1]|].
  intros ret s2 [Hs2 Hk]. assert (seeded s2) as Hse2 by by eapply Hk, still_seeded.
  apply wp_if; intros _.
  { unfold say_failed. apply (wp_say N false b); [done|done|]. intros s' [Hs' _]. wp_step. by split. }
  apply (wp_say N false b); [done|done|]. intros s3 Hs3. pose proof (still_seeded _ _ _ _ _ Hs3 Hse2) as Hse3.
  apply (wp_configure _ _ _ _ N false b); [apply Hs3|intros c; apply authmode_linked|]. intros s4 Hs4 _ Ho4.
  apply (wp_configure _ _ _ _ N false b); [done| |].
  { intros c. apply chain_linked. right. by apply (st_chains _ _ _ (proj1 Hs4)). }
  intros s5 Hs5 _ Ho5. apply (seeded_configs _ _ Ho4), (seeded_configs _ _ Ho5) in Hse3 as Hse5.
  apply (wp_configure _ _ _ _ N false b); [done|intros c; by apply rng_linked|]. intros s6 Hs6 _ Ho6.
  apply (wp_configure _ _ _ _ N false b); [done|intros c; apply dbg_linked|]. intros s7 Hs7 _ Ho7.
  wp_step. split; [done|]. intros _. by apply (seeded_configs _ _ Ho7), (seeded_configs _ _ Ho6).
Qed.

Lemma client1_setup_section N s F :
  world_closed N → prog N false 0 s → seeded s →
  wp F setup (λ r s', (r = None → prog N false server_fd s') ∧ ∃ b, prog N false b s') s.
Proof using Type.
  assert (∀ b s (fmt : string) (ret : Z), world_closed N → prog N false b s →
    wp F (say_failed fmt ret;; mret (Some ret))
      (λ (r : option Z) s', (r = None → prog N false server_fd s') ∧ ∃ b, prog N false b s') s) as Hfail.
  { intros b s' fmt ret HN Hs. unfold say_failed. apply (wp_say N false b); [done|done|].
    intros s1 [Hs1 _]. wp_step. split; [done|by exists b]. }
  intros HN Hs Hse. unfold setup. wp_step. eapply wp_mono; [by apply (setup_ok N false 0)|].
  intros ret s1 [Hs1 _]. apply wp_if; intros _; [by eapply Hfail|].
  wp_step. eapply wp_mono; [by apply (set_hostname_ok N false 0)|].
  intros ret2 s2 [Hs2 _]. apply wp_if; intros _; [by eapply Hfail|].
  wp_step. eapply wp_mono; [by apply (set_bio_ok N false 0)|]. intros [] s3 [Hs3 _]. wp_step.
  split; [done|by eexists].
Qed.

(** The calls of the program do not have to be repeated for ever, and the server
    does not send for ever. *)
Definition patient : Prop :=
  finite (S := program (W := W)) (call_step (λ ret, ret =? 0) mbedtls_ssl_handshake) ∧
  (∀ len, finite (S := program (W := W)) (call_step (λ ret, 0 <? ret) (mbedtls_ssl_write len))) ∧
  finite (S := program (W := W)) read_piece.

Lemma client1_handshake_section N b s :
  stable N b → b ≠ 0 → prog N false b s → ends patient handshake (λ _ s', prog N false b s') s.
Proof using Type.
  intros HN Hb Hs. pose proof (stable_world _ _ HN) as Hw. unfold handshake.
  apply (ends_say _ N false b); [done|done|]. intros s1 [Hs1 _].
  eapply ends_bind; [apply (ends_call_until _ _ _ (prog N false b) (λ _, True)); [|done|by intros []]|].
  { intros s2 Hs2. eapply wp_mono; [by apply (call_kept _ N false b)|]. intros r s3 [Hs3 _]. done. }
  intros ret s2 (Hs2 & _). apply ends_const. apply wp_if; intros _; apply (wp_say N false b); try done;
    intros s3 [Hs3 _]; by wp_step.
Qed.

Lemma verify_section N b s F :
  world_closed N → prog N false b s → wp F verify (λ _ s', prog N false b s') s.
Proof using Type.
  intros HN Hs. unfold verify. apply (wp_say N false b); [done|done|]. intros s1 [Hs1 _].
  wp_step. unfold mbedtls_ssl_get_verify_result.
  destruct (the_ssl_run _ _ _ (proj1 Hs1)) as (c & E & _). eapply wp_run; [exact E|]. wp_step.
  apply wp_if; intros _.
  - apply (wp_say N false b); [done|done|]. intros s2 [Hs2 _].
    eapply wp_mono; [by apply (prog_say_ok N false b)|]. intros _ s3 [Hs3 _]. done.
  - eapply wp_mono; [by apply (prog_say_ok N false b)|]. intros _ s3 [Hs3 _]. done.
Qed.

Lemma request_length : Z.of_nat (length GET_REQUEST) < BUF_SIZE.
Proof using Type. by vm_compute. Qed.

Lemma client1_write_section N b s :
  stable N b → b ≠ 0 → prog N false b s → ends patient write_request (λ _ s', prog N false b s') s.
Proof using Type*.
  intros HN Hb Hs. pose proof (stable_world _ _ HN) as Hw. unfold write_request.
  apply (ends_say _ N false b); [done|done|]. intros s1 [Hs1 _].
  apply ends_step. eapply wp_mono; [apply (print_to_buf_ok N false b); [done|apply request_length]|].
  intros len s2 (Hs2 & -> & Ht2). eapply ends_bind.
  { apply (ends_call_until _ _ _ (λ s, prog N false b s ∧ text_in GET_REQUEST s) (λ _, True)); [|done|].
    - intros s3 [Hs3 Ht3]. eapply wp_mono; [by apply (write_ok N false b)|]. intros r s4 [Hs4 _].
      split; [|done]. split; [apply Hs4|by eapply still_text].
    - intros (_ & Hwr & _). apply Hwr. }
  intros ret s3 ([Hs3 Ht3] & _). apply ends_const. apply wp_if; intros _.
  - apply (wp_say N false b); [done|done|]. intros s4 [Hs4 _]. by wp_step.
  - wp_step. eapply buf_text_ok; [done|]. apply (wp_say N false b); [done|done|]. intros s4 [Hs4 _]. by wp_step.
Qed.

Lemma client1_read_piece_ok N b s :
  stable N b → b ≠ 0 → prog N false b s →
  wp no_fault read_piece
    (λ r s', prog N false b s' ∧ match r with Some ret => ret ≤ 0 ∧ wants ret = false | None => True end) s.
Proof using Type*.
  intros HN Hb Hs. pose proof (stable_world _ _ HN) as Hw. unfold read_piece.
  wp_step. eapply wp_mono; [by apply (clear_buf_ok N false b)|]. intros [] s1 [Hs1 Hz].
  wp_step. eapply wp_mono; [by apply (read_ok N false b)|].
  intros r s2 (Hs2 & bs & Hl & Hr & Ht). destruct (wants r) eqn:Ewant; [by wp_step|].
  destruct (Z.eqb_spec r MBEDTLS_ERR_SSL_PEER_CLOSE_NOTIFY) as [E|_].
  { wp_step. split_and!; [done| |done]. rewrite E. pose proof close_notify_neg. lia. }
  destruct (Z.ltb_spec r 0).
  { apply (wp_say N false b); [done|done|]. intros s3 [Hs3 _]. wp_step. split_and!; [done|lia|done]. }
  destruct (Z.eqb_spec r 0).
  { apply (wp_say N false b); [done|done|]. intros s3 [Hs3 _]. wp_step. split_and!; [done|lia|done]. }
  wp_step. eapply buf_text_ok; [done|]. apply (wp_say N false b); [done|done|]. intros s3 [Hs3 _]. by wp_step.
Qed.

Lemma client1_read_loop_ok N b s :
  stable N b → b ≠ 0 → prog N false b s →
  ends patient read_loop (λ r s', prog N false b s' ∧ r ≤ 0 ∧ wants r = false) s.
Proof using Type*.
  intros HN Hb Hs. apply (ends_loop _ _ (prog N false b)); [|done|by intros (_ & _ & ?)].
  intros s1 Hs1. eapply wp_mono; [by apply (client1_read_piece_ok N b)|]. by intros [r|] s' [Hs' Hr].
Qed.

Lemma read_section N b s :
  stable N b → b ≠ 0 → prog N false b s → ends patient read_response (λ r s', prog N false b s' ∧ r ≤ 0) s.
Proof using Type*.
  intros HN Hb Hs. pose proof (stable_world _ _ HN) as Hw. unfold read_response.
  apply (ends_say _ N false b); [done|done|]. intros s1 [Hs1 _].
  eapply ends_bind; [by apply (client1_read_loop_ok N b)|]. intros r s2 (Hs2 & Hr & _). apply ends_const.
  wp_step. eapply wp_mono; [by apply (call_kept _ N false b)|]. intros _ s3 [Hs3 _]. by wp_step.
Qed.

(** ** The label [exit] *)

Lemma client1_exit_ok k n0 b s ret :
  prog (owner k n0 server_fd) false b s →
  wp no_fault (exit_label ret) (λ r s', r = ret ∧ ended k n0 server_fd s') s.
Proof using All.
  intros Hs. pose proof (owner_stable k n0 server_fd) as HN. pose proof (stable_world _ _ HN) as Hw.
  unfold exit_label. wp_step. eapply wp_mono; [by apply (print_last_error_ok (owner k n0 server_fd) false b)|].
  intros [] s1 [[Hs1 Hn1] _]. wp_step. apply wp_sock. eapply wp_mono; [by apply free_owner|]. intros [] n2 Hn2.
  pose proof (structures_net _ _ _ n2 Hs1) as Hs2. set (s2 := with_net n2 s1) in *.
  pose proof Hs2 as [(c & Hc & Hcp & Hcb) (f & Hf & _) [[x Hx] _] [e He] Hent Hkey Hcache Hl _].
  eapply wp_run; [exact (free_certificate_run s2 x Hx)|]. rewrite (no_chains _ _ _ Hs2).
  set (s3 := set_objs _ s2). destruct (free_ssl_run s3 c Hc) as [w E3].
  eapply wp_run; [exact E3|]. eapply wp_run; [by apply (free_config_run _ f)|].
  eapply wp_run; [by apply (free_drbg_run _ e)|]. eapply wp_run; [by apply free_entropy_run|]. wp_step.
  split; [done|]. split; [by split_and!|]. by apply closed_world.
Qed.

(** From the first section to the last one. *)
Lemma body_ok k n0 s :
  k < 2^31 - 2 → prog (closed k n0 server_fd) false 0 s →
  ends patient body (λ _ s', ∃ b, prog (owner (k + 2) n0 server_fd) false b s') s.
Proof using All.
  intros Hk Hs. set (N := owner (k + 2) n0 server_fd).
  assert (world_closed (closed k n0 server_fd)) as Hw0 by (intros w n; apply closed_world).
  pose proof (owner_stable (k + 2) n0 server_fd) as HN. pose proof (stable_world _ _ HN) as Hw.
  assert (∀ n, closed k n0 server_fd n → N n) as Hcl.
  { intros n [Hn _]. eapply owner_mono; [|exact Hn]. lia. }
  unfold body. eapply ends_section; [by apply (client1_seed_section (closed k n0 server_fd) 0)|].
  intros [r|] s1 [Hs1 Hse1]; [exists 0; by eapply prog_mono|]. specialize (Hse1 eq_refl).
  eapply ends_section; [by apply (client1_load_section (closed k n0 server_fd) 0)|].
  intros [r|] s2 [Hs2 Hse2]; [exists 0; by eapply prog_mono|]. specialize (Hse2 eq_refl).
  apply (ends_section _ _ _ (next N 0)).
  { unfold start_connection. apply (wp_say (closed k n0 server_fd) false 0); [done|done|].
    intros s3 Hs3. pose proof (still_seeded _ _ _ _ _ Hs3 Hse2) as Hse3. destruct Hs3 as [[Hst3 Hn3] _].
    wp_step. apply wp_sock. eapply wp_mono; [apply (connect_owner k n0); [exact Hn3|done]|].
    intros ret n Hn. assert (prog N false 0 (with_net n s3)) as Hs4 by (split; [by apply structures_net|done]).
    apply wp_report; [done|done|done|by apply prog_say_ok]. }
  intros [r|] s3 [Hs3 Hse3]; [by exists 0|]. specialize (Hse3 eq_refl).
  eapply ends_section; [by apply (client1_configure_section N 0)|].
  intros [r|] s4 [Hs4 Hse4]; [by exists 0|]. specialize (Hse4 eq_refl).
  eapply ends_section; [by apply (client1_setup_section N)|].
  intros [r|] s5 [Hs5 Hb]; [done|]. specialize (Hs5 eq_refl).
  eapply ends_then; [by apply (client1_handshake_section N server_fd)|].
  intros [r|] s6 Hs6; [by exists server_fd|].
  apply ends_step. eapply wp_mono; [by apply (verify_section N server_fd)|]. intros [] s7 Hs7.
  eapply ends_then; [by apply (client1_write_section N server_fd)|].
  intros [r|] s8 Hs8; [by exists server_fd|].
  eapply ends_mono; [by apply (read_section N server_fd)|]. intros r s9 [Hs9 _]. by exists server_fd.
Qed.
End client.

(** C22: the first TLS client sample cleans up after itself.  Whichever function
    fails on its way, and whatever the server and mbed TLS answer, the program
    uses no structure before its initialisation and none after its end, its
    accesses to the buffer are in bounds and read what was written, and when it
    returns it has freed every structure and its connection: the objects and the
    table of the sockets below are those of before, and no other context is
    touched.  It returns if mbed TLS does not ask for ever to repeat a call and
    the server does not send for ever ([patient]): with all amounts of fuel from
    some one on, and the same result. *)
Theorem client1_cleans_up `{Target, MbedTLS, !MbedTLSOk, PtrArray, !PtrArrayOk, SocketPlatform W, !PlatformOk W,
    !MbedSSL W, !MbedSSLOk W, !MbedProgram W, !MbedProgramOk W, !HttpsWorld W} k s :
  unstarted s → net_ok k (below (objs s)) → k < 2^31 - 2 →
  contexts (below (objs s)) !! server_fd = None →
  ends (patient (W := W)) tlsmain
    (λ _ s', no_structures s' ∧ net_ok (k + 2) (below (objs s')) ∧
       heap (below (objs s')) = heap (below (objs s)) ∧
       contexts (below (objs s')) = <[server_fd := -1]> (contexts (below (objs s)))) s.
Proof.
  intros Hun Hn Hk Hc. unfold tlsmain. apply ends_step.
  eapply wp_mono; [by apply client1_initialize_ok|]. intros [] s1 Hs1.
  eapply ends_bind; [by apply body_ok|]. intros ret s2 [b Hs2]. apply ends_const.
  eapply wp_mono; [by apply (client1_exit_ok (k + 2) (with_context server_fd (below (objs s))) b)|].
  intros r s3 (_ & Hgone & [[Hn3 [Hctx _] _] [Hc3 Hh]]).
  split_and!; try done. apply map_eq. intros c. destruct (decide (c = server_fd)) as [->|Hne].
  - by rewrite Hc3, lookup_insert_eq.
  - rewrite Hctx by done. cbn. by rewrite !lookup_insert_ne.
Qed.

Import TlsDemo TlsProgramDemo.

(** The peer of [TlsProgramDemo] sends as many pieces as it has said. *)
Lemma client1_patient : patient (W := Script.t).
Proof.
  split_and!; [apply handshake_finite|intros len; apply write_finite|].
  apply (finite_measure _ (λ s, (counts s).2)). intros s s1 E. unfold read_piece in E.
  apply bind_Ok in E as (u & s2 & E2 & (ret & s3 & E3 & E)%bind_Ok).
  destruct (read_counts (BUF_SIZE - 1) s ret s3) as (Hw & Hp); [by rewrite (bind_run _ _ _ _ _ E2)|].
  rewrite Hw in E. destruct (ret =? _); [done|]. destruct (ret <? 0); [by apply bind_Ok in E as (? & ? & _ & ?)|].
  destruct (Z.eqb_spec ret 0); [by apply bind_Ok in E as (? & ? & _ & ?)|].
  destruct Hp as [[_ ->]|Hp]; [done|]. apply bind_Ok in E as (text & s4 & E4 & (v & s5 & E5 & [= <-])%bind_Ok).
  apply obj_ssl in E5. unfold counts in Hp |- *. rewrite E5.
  assert (s4 = s3) as -> by
    (revert E4; unfold buf_text, lift_res; rewrite bind_unfold; cbn [get]; destruct (c_string _); [|done]; by intros [= _ ->]).
  lia.
Qed.

(** The handshake is called three times before it is completed; the server says
    that it will answer with two pieces, answers and closes. *)
Lemma client1_cleans_up_witness :
  let s := start (peer [Some [2]; Some (cstr "HTTP/1.1 "); Some (cstr "200 OK")] 9) in
  unstarted s ∧ net_ok 0 (below (objs s)) ∧ contexts (below (objs s)) !! server_fd = None ∧
  (patient (W := Script.t) ∧ ∃ n r s', ∀ fuel, (n ≤ fuel)%nat → tlsmain fuel s = Ok (r, s')) ∧
  ∃ s', tlsmain 5 s = Ok (0, s') ∧ Script.closed (world (below (objs s'))) = 1%nat ∧
    no_structures s' ∧ heap (below (objs s')) = heap (below (objs s)).
Proof.
  set (s := start _). split; [apply start_unstarted|].
  split; [apply start_net|]. split; [done|].
  assert (match tlsmain 5 s with Ok (r, s') => (r =? 0) && (Script.closed (world (below (objs s'))) =? 1)%nat
          | Fault _ => false end = true) as Hrun by (by vm_compute).
  destruct (client1_cleans_up 0 s) as [Hw Hreturns].
  - apply start_unstarted.
  - apply start_net.
  - lia.
  - done.
  - specialize (Hw 5%nat). destruct (Hreturns client1_patient) as (n & r0 & s0 & _ & Hn).
    split; [split; [exact client1_patient|by exists n, r0, s0]|]. clear Hn.
    destruct (tlsmain 5 s) as [[r s']|] eqn:E; [|discriminate Hrun].
    apply andb_true_iff in Hrun as [->%Z.eqb_eq Hcl%Nat.eqb_eq].
    destruct (wp_Ok _ _ _ _ _ _ Hw E) as (Hgone & _ & Hh & _). clear Hw E.
    exists s'. split; [reflexivity|]. split; [exact Hcl|]. split; [exact Hgone|exact Hh].
Defined.
