(* ===== verification/TlsServer1Props.v ===== *)
(** Properties of the first TLS server sample. *)
From stdpp Require Import base numbers list gmap option strings.
From S2P Require Import Prelude.
From S2P Require Import Libc.
From S2P Require Import Circle.
From S2P Require Import NetSockets.
From S2P Require Import NetInv.
From S2P Require Import NetOwner.
From S2P Require Import TlsConfig.
From S2P Require Import HttpsClient.
From S2P Require Import TlsProgram.
From S2P Require Import TlsProgramProps.
From S2P Require Import TlsServer1.
From S2P Require Import TlsDemo.
From S2P Require Import TlsProgramDemo.
Import Libc Net TlsConfig TlsProgram TlsServer1.

Section server.
Context `{Target, MbedTLS, !MbedTLSOk, PtrArray, !PtrArrayOk, SocketPlatform W, !PlatformOk W,
  !MbedSSL W, !MbedSSLOk W, !MbedProgram W, !MbedProgramOk W, !HttpsWorld W}.

(** The sockets with the two contexts of the program. *)
Definition with_contexts (n : net (W := W)) : net := with_context client_fd (with_context listen_fd n).

Lemma server1_initialize_ok k s :
  unstarted s → net_ok k (below (objs s)) →
  contexts (below (objs s)) !! listen_fd = None → contexts (below (objs s)) !! client_fd = None →
  wp no_fault initialize
    (λ _ s', prog (closed k (with_contexts (below (objs s))) listen_fd) true 0 s') s.
Proof using Type*.
  intros ((E1 & E2 & E3 & E4 & E5 & E6 & E7) & E8 & E9 & E10) Hn Hl Hc.
  destruct s as [c1 c2 c3 c4 c5 c6 [o1 o2 o3 o4 o5 n]]. cbn in *. subst.
  set (n0 := with_contexts n). unfold initialize.
  destruct (new_context_run k n listen_fd) as (n1 & E & -> & Hn1); [done|done|done|].
  destruct (new_context_run k (with_context listen_fd n) client_fd) as (n2 & E' & -> & Hn2);
    [done|done|cbn; by rewrite lookup_insert_ne|].
  wp_step. apply wp_sock. unfold wp at 1. cbn [below objs with_net set_objs set_below]. rewrite E. clear E.
  wp_step. apply wp_sock. unfold wp at 1. cbn [below objs with_net set_objs set_below]. fold (with_context listen_fd n). rewrite E'. clear E'.
  unfold mbedtls_ssl_init, mbedtls_ssl_config_init, mbedtls_x509_crt_init, mbedtls_ctr_drbg_init,
    mbedtls_entropy_init, mbedtls_ssl_cache_init, mbedtls_pk_init.
  wp_step. wp_step. wp_step. apply wp_obj. wp_step. wp_step. wp_step. wp_step. apply wp_obj. wp_step.
  wp_step. wp_step. do 2 (wp_step; apply wp_obj; wp_step). apply wp_prog_ask. intros _ w.
  split; cbn.
  - split; cbn; rewrite ?insert_empty; try done.
    + eexists. split; [done|]. split; [by left|done].
    + exists ssl_config_init. split; [done|]. unfold conf_linked. rewrite view_init. split; by left.
    + split; [by eexists|]. intros p [? [[= <-] _]%lookup_singleton_Some]. by left.
    + by eexists.
  - apply (closed_world _ _ _ n0 w). apply closed_start; [exact Hn2|].
    unfold n0, with_contexts, with_context. cbn. by rewrite lookup_insert_ne, lookup_insert_eq.
Qed.

(** ** The sections before the label [reset] *)

Definition next (N : net (W := W) → Prop) (r : option goto) (s : program) : Prop :=
  prog N true 0 s ∧ match r with Some (Exit _) => True | Some (Reset _) => False | None => seeded s end.

Lemma wp_exit N s fmt (ret : Z) F :
  world_closed N → prog N true 0 s → wp F (say_failed fmt ret;; mret (Some (Exit ret))) (next N) s.
Proof using Type.
  intros HN Hs. unfold say_failed. apply (wp_say N true 0); [done|done|]. intros s' [Hs' _]. wp_step. by split.
Qed.

(** A section that does not need the generator. *)
Definition next' (N : net (W := W) → Prop) (r : option goto) (s : program) : Prop :=
  prog N true 0 s ∧ match r with Some (Reset _) => False | _ => True end.

Lemma next_weaken N r s : next N r s → next' N r s.
Proof using Type. intros [Hs Hr]. split; [done|]. by destruct r as [[]|]. Qed.

Lemma server1_load_section N s F : world_closed N → prog N true 0 s → wp F load (next' N) s.
Proof using Type.
  intros HN Hs. unfold load. apply (wp_say N true 0); [done|done|]. intros s1 Hs1.
  wp_step. eapply wp_mono; [apply (parse_ok N true 0); [done|apply Hs1]|]. intros ret s2 [Hs2 _].
  apply wp_if; intros _; [by eapply wp_mono; [apply wp_exit|intros; by apply next_weaken]|].
  wp_step. eapply wp_mono; [by apply (parse_ok N true 0)|]. intros ret3 s3 [Hs3 _].
  apply wp_if; intros _; [by eapply wp_mono; [apply wp_exit|intros; by apply next_weaken]|].
  wp_step. eapply wp_mono; [by apply (parse_key_ok N 0)|]. intros ret4 s4 Hs4.
  apply wp_if; intros _; [by eapply wp_mono; [apply wp_exit|intros; by apply next_weaken]|].
  apply (wp_say N true 0); [done|done|]. intros s5 [Hs5 _]. by wp_step.
Qed.

Lemma server1_seed_section N s F : world_closed N → prog N true 0 s → wp F seed (next N) s.
Proof using Type.
  intros HN Hs. unfold seed. apply (wp_say N true 0); [done|done|]. intros s1 [Hs1 _].
  wp_step. eapply wp_mono; [by apply (seed_ok N true 0)|]. intros ret s2 [Hs2 Hse].
  apply wp_if; intros _; [by apply wp_exit|]. apply (wp_say N true 0); [done|done|]. intros s3 Hs3. wp_step.
  split; [apply Hs3|by eapply still_seeded].
Qed.

Lemma server1_configure_section N s F :
  world_closed N → prog N true 0 s → seeded s → wp F configure (next N) s.
Proof using Type*.
  intros HN Hs Hse. unfold configure. apply (wp_say N true 0); [done|done|]. intros s1 Hs1.
  wp_step. eapply wp_mono; [apply (defaults_ok N true 0); [done|apply Hs1]|].
  intros ret s2 [Hs2 Hk]. assert (seeded s2) as Hse2 by by eapply Hk, still_seeded.
  apply wp_if; intros _; [by apply wp_exit|].
  apply (wp_configure _ _ _ _ N true 0); [done|intros c; by apply rng_linked|]. intros s3 Hs3 _ Ho3.
  apply (wp_configure _ _ _ _ N true 0); [done|intros c; apply dbg_linked|]. intros s4 Hs4 _ Ho4.
  apply (seeded_configs _ _ Ho3), (seeded_configs _ _ Ho4) in Hse2 as Hse4.
  unfold mbedtls_ssl_conf_session_cache. wp_step.
  apply (wp_configure _ _ _ _ N true 0); [done|intros c; apply cache_linked|]. intros s5 Hs5 _ Ho5.
  apply (seeded_configs _ _ Ho5) in Hse4 as Hse5. wp_step.
  wp_step. eapply wp_mono; [apply (next_certificate_ok N true 0)|].
  { destruct Hs5 as [Hs5 Hn5]. split; [|exact Hn5]. by apply structures_links. }
  intros p s6 (Hs6 & Hd6 & Hp). assert (seeded s6) as Hse6 by by apply Hd6.
  apply (wp_configure _ _ _ _ N true 0); [done|intros c; by apply chain_linked|]. intros s7 Hs7 _ Ho7.
  wp_step. split; [done|]. by apply (seeded_configs _ _ Ho7).
Qed.

Lemma server1_setup_section N s F : world_closed N → prog N true 0 s → wp F setup (next' N) s.
Proof using Type*.
  intros HN Hs. unfold setup. wp_step. eapply wp_mono; [by apply (own_cert_ok N 0)|]. intros ret s1 Hs1.
  apply wp_if; intros _; [by eapply wp_mono; [apply wp_exit|intros; by apply next_weaken]|].
  wp_step. eapply wp_mono; [by apply (setup_ok N true 0)|]. intros ret2 s2 [Hs2 _].
  apply wp_if; intros _; [by eapply wp_mono; [apply wp_exit|intros; by apply next_weaken]|].
  apply (wp_say N true 0); [done|done|]. intros s3 [Hs3 _]. by wp_step.
Qed.

(** ** A round *)

(** What a jump says of [ret]: the program ends with an error of
    [mbedtls_net_accept], or with what [mbedtls_ssl_write] returned. *)
Definition jump_ok (g : goto) : Prop :=
  match g with Reset _ => True | Exit ret => ret ≤ 0 end.

Definition goes_on (N : net (W := W) → Prop) (b : Z) (r : option goto) (s : program) : Prop :=
  (∃ b', prog N true b' s ∧ (r = None → b' = b)) ∧ match r with Some g => jump_ok g | None => True end.

Lemma wait_ok k n1 b s :
  prog (owner k n1 client_fd) true b s → k < 2^31 - 2 → is_Some (contexts n1 !! listen_fd) →
  wp no_fault wait_for_client (goes_on (owner (k + 2) n1 client_fd) client_fd) s.
Proof using All.
  intros Hs Hk Hl. assert (world_closed (closed k n1 client_fd)) as Hw0 by (intros w n; apply closed_world).
  pose proof (stable_world _ _ (owner_stable (k + 2) n1 client_fd)) as Hw. set (N := owner (k + 2) n1 client_fd) in *.
  unfold wait_for_client. wp_step. apply wp_sock. eapply wp_mono; [apply free_owner, Hs|]. intros [] n2 Hn2.
  assert (prog (closed k n1 client_fd) true b (with_net n2 s)) as Hs2
    by (split; [apply structures_net, Hs|done]).
  wp_step. eapply wp_mono; [by apply (session_reset_ok (closed k n1 client_fd) true b)|]. intros _ s3 [Hs3 _].
  apply (wp_say (closed k n1 client_fd) true b); [done|done|]. intros s4 [[Hst4 Hn4] _].
  wp_step. apply wp_sock. eapply wp_mono; [by apply accept_owner|]. intros [[ret ip] len] n5 (Hn5 & _ & Hret).
  cbn in Hret. assert (prog N true b (with_net n5 s4)) as Hs5 by (split; [by apply structures_net|done]).
  destruct (Z.eqb_spec ret 0) as [->|Hr0]; cbn [negb].
  - wp_step. eapply wp_mono; [by apply (set_bio_ok N true b)|]. intros [] s6 [Hs6 _].
    apply (wp_say N true client_fd); [done|done|]. intros s7 [Hs7 _]. wp_step. split; [|done]. by exists client_fd.
  - unfold say_failed. apply (wp_say N true b); [done|done|]. intros s6 [Hs6 _]. wp_step.
    split; [by exists b|]. exact Hret.
Qed.

(** The calls for one client do not have to be repeated for ever. *)
Definition patient : Prop :=
  finite (S := program (W := W)) (call_step (λ ret, ret =? 0) mbedtls_ssl_handshake) ∧
  finite (S := program (W := W)) read_piece ∧
  (∀ len, finite (S := program (W := W)) (call_step (λ ret, 0 <? ret) (mbedtls_ssl_write len))) ∧
  finite (S := program (W := W)) (call_step (λ ret, 0 <=? ret) mbedtls_ssl_close_notify).

Section connected.
Variables (N : net (W := W) → Prop) (b : Z).
Hypotheses (HN : stable N b) (Hb : b ≠ 0).

Lemma wp_go (g : goto) fmt ret s F :
  prog N true b s → jump_ok g → wp F (say_failed fmt ret;; mret (Some g)) (goes_on N b) s.
Proof using HN.
  intros Hs Hg. pose proof (stable_world _ _ HN) as Hw. unfold say_failed.
  apply (wp_say N true b); [done|done|]. intros s1 [Hs1 _]. wp_step. split; [by exists b|done].
Qed.

Lemma server1_handshake_section s :
  prog N true b s → ends patient handshake (goes_on N b) s.
Proof using HN Hb.
  intros Hs. pose proof (stable_world _ _ HN) as Hw. unfold handshake.
  apply (ends_say _ N true b); [done|done|]. intros s1 [Hs1 _].
  eapply ends_bind; [apply (ends_call_until _ _ _ (prog N true b) (λ _, True)); [|done|by intros []]|].
  { intros s2 Hs2. eapply wp_mono; [by apply (call_kept _ N true b)|]. intros r s3 [Hs3 _]. done. }
  intros ret s2 (Hs2 & _). apply ends_const. apply wp_if; intros _; [by apply wp_go|].
  apply (wp_say N true b); [done|done|]. intros s3 [Hs3 _]. wp_step. split; [by exists b|done].
Qed.

Lemma server1_read_piece_ok s :
  prog N true b s → wp no_fault read_piece (λ _ s', prog N true b s') s.
Proof using All.
  intros Hs. pose proof (stable_world _ _ HN) as Hw. unfold read_piece.
  assert (∀ s fmt args, prog N true b s → wp no_fault (say fmt args) (λ _ s', prog N true b s') s) as Hsay.
  { intros s0 fmt args Hs0. eapply wp_mono; [by apply (prog_say_ok N true b)|]. intros _ s1 [Hs1 _]. done. }
  wp_step. eapply wp_mono; [by apply (clear_buf_ok N true b)|]. intros [] s1 [Hs1 Hz].
  wp_step. eapply wp_mono; [by apply (read_ok N true b)|]. intros r s2 (Hs2 & bs & Hl & Hr & Ht).
  apply wp_if; intros _; [by wp_step|]. apply wp_if; intros _.
  - wp_step. eapply wp_mono; [repeat (apply wp_if; intros _); by apply Hsay|]. intros [] s3 Hs3. by wp_step.
  - wp_step. eapply buf_text_ok; [done|]. wp_step. eapply wp_mono; [by apply Hsay|]. intros [] s3 Hs3. by wp_step.
Qed.

Lemma server1_read_section s :
  prog N true b s → ends patient read_request (λ _ s', prog N true b s') s.
Proof using All.
  intros Hs. pose proof (stable_world _ _ HN) as Hw. unfold read_request.
  apply (ends_say _ N true b); [done|done|]. intros s0 [Hs0 _].
  apply (ends_loop _ _ (prog N true b)); [|done|by intros (_ & ? & _)]. intros s1 Hs1.
  eapply wp_mono; [by apply server1_read_piece_ok|]. by intros [[]|] s' Hs'.
Qed.

Lemma response_length c : Z.of_nat (length (HTTP_RESPONSE (ssl_get_ciphersuite c))) < BUF_SIZE.
Proof using MbedProgramOk0.
  pose proof (ciphersuite_length c) as Hl. unfold HTTP_RESPONSE, BUF_SIZE. rewrite !length_app.
  set (l := length (ssl_get_ciphersuite c)) in *. clearbody l. cbn. lia.
Qed.

(** The response is written, or the program ends: the code for a connection that
    was reset by the peer is not among those of the callbacks. *)
Lemma server1_write_section s :
  prog N true b s →
  ends patient write_response
    (λ r s', prog N true b s' ∧ match r with Some (Exit ret) => ret ≤ 0 | Some (Reset _) => False | None => True end) s.
Proof using All.
  intros Hs. pose proof (stable_world _ _ HN) as Hw. unfold write_response.
  apply (ends_say _ N true b); [done|done|]. intros s1 [Hs1 _].
  unfold mbedtls_ssl_get_ciphersuite. destruct (the_ssl_run _ _ _ (proj1 Hs1)) as (c & E & _).
  apply ends_step. eapply wp_run; [exact E|]. wp_step. set (text := HTTP_RESPONSE _).
  apply ends_step. eapply wp_mono; [apply (print_to_buf_ok N true b); [done|apply response_length]|].
  intros len s2 (Hs2 & -> & Ht2). eapply ends_bind.
  { apply (ends_call_until _ _ _ (λ s, prog N true b s ∧ text_in text s) (λ r, r ≠ MBEDTLS_ERR_NET_CONN_RESET));
      [|done|].
    - intros s3 [Hs3 Ht3]. eapply wp_mono; [by apply (write_ok N true b)|]. intros r s4 [Hs4 Hr].
      split; [|done]. split; [apply Hs4|by eapply still_text].
    - intros (_ & _ & Hwr & _). apply Hwr. }
  intros ret s3 ([Hs3 Ht3] & Hret & _). apply ends_const. destruct (Z.leb_spec ret 0).
  - rewrite (proj2 (Z.eqb_neq _ _)) by done. unfold say_failed.
    apply (wp_say N true b); [done|done|]. intros s4 [Hs4 _]. by wp_step.
  - wp_step. eapply buf_text_ok; [done|]. apply (wp_say N true b); [done|done|]. intros s4 [Hs4 _]. by wp_step.
Qed.

Lemma close_section s :
  prog N true b s → ends patient close (λ g s', prog N true b s' ∧ jump_ok g) s.
Proof using HN Hb.
  intros Hs. pose proof (stable_world _ _ HN) as Hw. unfold close.
  apply (ends_say _ N true b); [done|done|]. intros s1 [Hs1 _].
  eapply ends_bind; [apply (ends_call_until _ _ _ (prog N true b) (λ _, True)); [|done|by intros (_ & _ & _ & ?)]|].
  { intros s2 Hs2. eapply wp_mono; [by apply (call_kept _ N true b)|]. intros r s3 [Hs3 _]. done. }
  intros ret s2 (Hs2 & _). apply ends_const. apply wp_if; intros _; unfold say_failed;
    apply (wp_say N true b); try done; intros s3 [Hs3 _]; by wp_step.
Qed.
End connected.

Lemma server1_round_ok k n1 b s ret :
  prog (owner k n1 client_fd) true b s → k < 2^31 - 2 → is_Some (contexts n1 !! listen_fd) →
  ends patient (λ fuel, round fuel ret)
    (λ g s', (∃ b', prog (owner (k + 2) n1 client_fd) true b' s') ∧ jump_ok g) s.
Proof using All.
  intros Hs Hk Hl. pose proof (owner_stable k n1 client_fd) as HN0.
  pose proof (owner_stable (k + 2) n1 client_fd) as HN. pose proof (stable_world _ _ HN) as Hw.
  set (N := owner (k + 2) n1 client_fd) in *. unfold round. apply ends_step.
  eapply wp_mono; [apply (print_last_error_ok (owner k n1 client_fd) true b); [exact (stable_world _ _ HN0)|done]|].
  intros [] s1 [Hs1 _]. eapply ends_section; [by apply (wait_ok k n1 b)|].
  intros [g|] s2 [(b2 & Hs2 & Hb2) Hg]; [eauto|]. rewrite (Hb2 eq_refl) in Hs2.
  eapply ends_then; [by apply (server1_handshake_section N client_fd)|].
  intros [g|] s3 [(b3 & Hs3 & Hb3) Hg3]; [eauto|]. rewrite (Hb3 eq_refl) in Hs3.
  eapply (ends_bind _ read_request); [by apply (server1_read_section N client_fd)|]. intros [] s5 Hs5.
  eapply ends_then; [by apply (server1_write_section N client_fd)|].
  intros [[r|r]|] s6 [Hs6 Hr]; [done|eauto|].
  eapply ends_mono; [by apply (close_section N client_fd)|]. intros g s7 [Hs7 Hg7]. eauto.
Qed.

Lemma serve_ok n k n1 b s ret :
  prog (owner k n1 client_fd) true b s → k + 2 * Z.of_nat n < 2^31 - 2 →
  is_Some (contexts n1 !! listen_fd) →
  ends patient (λ fuel, serve n fuel ret)
    (λ r s', (∃ b', prog (owner (k + 2 * Z.of_nat n) n1 client_fd) true b' s') ∧
       match r with Some ret => ret ≤ 0 | None => True end) s.
Proof using All.
  revert k b s ret. induction n as [|n IH]; intros k b s ret Hs Hk Hl.
  { apply ends_const. cbn [serve]. wp_step. split; [|done]. exists b. by replace (k + 2 * Z.of_nat 0) with k by lia. }
  cbn [serve]. eapply (ends_bind _ (λ fuel, round fuel ret)); [apply (server1_round_ok k n1 b); [exact Hs|lia|done]|].
  intros [r|r] s1 [(b1 & Hs1) Hr].
  - replace (k + 2 * Z.of_nat (S n)) with (k + 2 + 2 * Z.of_nat n) in * by lia.
    by apply (IH (k + 2) b1).
  - apply ends_const. wp_step. split; [|exact Hr]. exists b1. eapply prog_mono; [|exact Hs1].
    intros m. apply owner_mono. lia.
Qed.

(** ** From the start to the label [exit] *)

Lemma server1_start_ok k n0 s :
  k < 2^31 - 2 → prog (closed k n0 listen_fd) true 0 s →
  wp no_fault start
    (λ g s', prog (owner (k + 2) n0 listen_fd) true 0 s' ∧ match g with Reset ret => ret = 0 | _ => True end) s.
Proof using All.
  intros Hk Hs. set (N := owner (k + 2) n0 listen_fd).
  assert (world_closed (closed k n0 listen_fd)) as Hw0 by (intros w n; apply closed_world).
  pose proof (stable_world _ _ (owner_stable (k + 2) n0 listen_fd)) as Hw. change (world_closed N) in Hw.
  assert (∀ n, closed k n0 listen_fd n → N n) as Hcl.
  { intros n [Hn _]. eapply owner_mono; [|exact Hn]. lia. }
  unfold start. apply wp_then. eapply wp_mono; [by apply (server1_load_section (closed k n0 listen_fd))|].
  intros [[r|r]|] s1 [Hs1 Hr]; [done|split; [by eapply prog_mono|done]|].
  apply wp_then. apply (wp_mono _ _ (next' N)).
  { unfold listen. apply (wp_say (closed k n0 listen_fd) true 0); [done|done|]. intros s2 [[Hst2 Hn2] _].
    wp_step. apply wp_sock. eapply wp_mono; [apply (bind_owner k n0); [exact Hn2|done]|]. intros ret n Hn.
    assert (prog N true 0 (with_net n s2)) as Hs3 by (split; [by apply structures_net|done]).
    apply wp_if; intros _; [by eapply wp_mono; [apply wp_exit|intros; by apply next_weaken]|].
    apply (wp_say N true 0); [done|done|]. intros s4 [Hs4 _]. by wp_step. }
  intros [[r|r]|] s2 [Hs2 Hr2]; [done|done|].
  apply wp_then. eapply wp_mono; [by apply (server1_seed_section N)|]. intros [[r|r]|] s3 [Hs3 Hr3]; [done|done|].
  apply wp_then. eapply wp_mono; [by apply (server1_configure_section N)|]. intros [[r|r]|] s4 [Hs4 Hr4]; [done|done|].
  apply wp_then. eapply wp_mono; [by apply (server1_setup_section N)|]. intros [[r|r]|] s5 [Hs5 Hr5]; [done|done|].
  by wp_step.
Qed.

Lemma server1_exit_ok k k' n0 n1 b s ret :
  prog (owner k' n1 client_fd) true b s → owner k n0 listen_fd n1 → contexts n0 !! client_fd = Some (-1) →
  wp no_fault (exit_label ret) (λ r s', r = ret ∧ ended k' n0 listen_fd s') s.
Proof using All.
  intros Hs Hn1 Hc0. pose proof (owner_stable k' n1 client_fd) as HN. pose proof (stable_world _ _ HN) as Hw.
  unfold exit_label. wp_step. eapply wp_mono; [by apply (print_last_error_ok (owner k' n1 client_fd) true b)|].
  intros [] s1 [[Hs1 Hm1] _]. wp_step. apply wp_sock. eapply wp_mono; [by apply free_owner|]. intros [] m2 Hm2.
  wp_step. apply wp_sock. eapply wp_mono; [apply (free_owner k' n0); by eapply owner_below|]. intros [] m3 Hm3.
  pose proof (structures_net _ _ _ m3 (structures_net _ _ _ m2 Hs1)) as Hs3. set (s3 := with_net m3 _) in *.
  pose proof Hs3 as [(c & Hc & Hcp & Hcb) (f & Hf & _) [[x Hx] _] [e He] Hent Hkey Hcache Hl _].
  destruct (the_key_run _ _ Hs3) as [key _]. destruct Hkey as [key' Hkey].
  eapply wp_run; [exact (free_certificate_run s3 x Hx)|]. rewrite (no_chains _ _ _ Hs3).
  set (s4 := set_objs _ s3).
  assert (mbedtls_pk_free s4 = Ok ((), set_pkey None s4)) as E4.
  { unfold mbedtls_pk_free, the_key. rewrite bind_unfold, bind_unfold. cbn [get]. change (pkey s4) with (pkey s3).
    by rewrite Hkey. }
  eapply wp_run; [exact E4|]. destruct (free_ssl_run (set_pkey None s4) c Hc) as [w E5].
  eapply wp_run; [exact E5|]. eapply wp_run; [by apply (free_config_run _ f)|].
  set (s6 := set_objs _ (set_ssl _ _)).
  assert (mbedtls_ssl_cache_free s6 = Ok ((), set_cache false s6)) as E6.
  { unfold mbedtls_ssl_cache_free, the_cache. rewrite bind_unfold, bind_unfold. cbn [get].
    change (cache s6) with (cache s3). by rewrite Hcache. }
  eapply wp_run; [exact E6|].
  eapply wp_run; [by apply (free_drbg_run _ e)|]. eapply wp_run; [by apply free_entropy_run|]. wp_step.
  split; [done|]. split; [by split_and!|]. by apply closed_world.
Qed.
End server.

(** While the program serves: all its structures are alive, [n1] are the sockets
    with nothing but the listening one, and the connection of [client_fd] is the
    only other one, if there is one. *)
Definition serving `{Target, MbedTLS, PtrArray, SocketPlatform W, !MbedSSL W, !MbedProgram W}
    (k k' : Z) (n0 : net (W := W)) (s : program) : Prop :=
  ∃ n1 b, owner k (with_contexts n0) listen_fd n1 ∧ structures true b s ∧ owner k' n1 client_fd (below (objs s)).


Import TlsDemo TlsProgramDemo.

Lemma server1_patient : patient (W := Script.t).
Proof.
  split_and!; [apply handshake_finite| |intros len; apply write_finite|apply close_finite].
  apply (finite_measure _ (λ _, O)). intros s s1 E. unfold read_piece in E.
  apply bind_Ok in E as (u & s2 & E2 & (ret & s3 & E3 & E)%bind_Ok).
  destruct (read_counts (BUF_SIZE - 1) s ret s3) as (Hw & _); [by rewrite (bind_run _ _ _ _ _ E2)|].
  rewrite Hw in E. destruct (ret <=? 0); apply bind_Ok in E as (? & ? & _ & E); [done|].
  by apply bind_Ok in E as (? & ? & _ & ?).
Qed.


(** The program wants to go on when a client has closed its connection before it
    gets the response: it compares what [mbedtls_ssl_write] returns with the code
    for a connection that was reset by the peer.  The functions [mbedtls_net_*]
    of this repository never return that code, so that this branch is dead, and a
    response that cannot be written ends the server. *)
Theorem failed_write_ends_server1 `{Target, MbedTLS, !MbedTLSOk, PtrArray, !PtrArrayOk, SocketPlatform W,
    !PlatformOk W, !MbedSSL W, !MbedSSLOk W, !MbedProgram W, !MbedProgramOk W, !HttpsWorld W} fuel k n1 s :
  structures true client_fd s → owner k n1 client_fd (below (objs s)) →
  wp (eq OutOfFuel) (write_response fuel)
    (λ r _, match r with Some (Exit ret) => ret ≤ 0 | Some (Reset _) => False | None => True end) s.
Proof.
  intros Hs Hn. eapply wp_mono; [apply (server1_write_section (owner k n1 client_fd) client_fd)|].
  - apply owner_stable.
  - done.
  - by split.
  - intros r s' [_ Hr]. exact Hr.
Qed.
