(* ===== verification/MqttKernel.v ===== *)
(** The kernel of the MQTT sample, [samples/mbedtls/07-mqttclient/kernel.cpp]: it
    runs the subscriber and the publisher of [MqttSample] as tasks beside each
    other until both are disconnected.

    The two objects have members of their own and share the world, which is put
    into the object that is at work.  The scheduler is cooperative: where [Run]
    sleeps, the tasks of the clients make rounds in any order, and other tasks
    of the system may change the world. *)
From stdpp Require Import base numbers list gmap option strings.
From S2P Require Import Prelude.
From S2P Require Import Circle.
From S2P Require Import MqttSendPacket.
From S2P Require Import MqttReceivePacket.
From S2P Require Import MqttClient.
From S2P Require Import MqttClientLife.
From S2P Require Import MqttSample.
From S2P Require Import X509Profile.
From S2P Require Import StdlibApp.
Import Mqtt Client.

(** What [Run] calls of Circle: the NTP daemon, which becomes a task, and the
    scheduler. *)
Class KernelPlatform (W : Type) := {
  new_CNTPDaemon : list Z → W → () * W;
  CScheduler_Sleep : Z → W → () * W
}.

Module MqttKernel.
Definition NTP_SERVER : list Z := cstr "pool.ntp.org".
Definition TLS_RSA_MIN_KEY_SIZE : Z := 1024.

(** Where [Run] is: before its first statement, in one of its three sleeps, or
    at its end. *)
Inductive point := AtStart | NTPSleep | SubscriberSleep | LoopSleep | Returned (mode : StdlibApp.TShutdownMode).

Section kernel.
Context `{Target, Platform W, PtrList, SamplePlatform W, !KernelPlatform W}.

Abbreviation subscriber := (CMQTTClient (W := Subscriber.members * W)).
Abbreviation publisher := (CMQTTClient (W := Publisher.members * W)).

(** The profile in [m_TLSSupport], the two objects once they are there, and the
    world.  [set_world] of an object puts the shared world into it. *)
Record kernel := mkKernel {
  at_ : point;
  m_CertProfile : X509Profile.profile;
  pSubscriber : option subscriber;
  pPublisher : option publisher;
  shared : W
}.
Definition set_at (p : point) (k : kernel) : kernel :=
  mkKernel p (m_CertProfile k) (pSubscriber k) (pPublisher k) (shared k).
Definition set_shared (w : W) (k : kernel) : kernel :=
  mkKernel (at_ k) (m_CertProfile k) (pSubscriber k) (pPublisher k) w.

Definition with_world {D} (w : W) (c : CMQTTClient (W := D * W)) : CMQTTClient (W := D * W) :=
  set_world ((world c).1, w) c.
(** The object and the world after it was at work. *)
Definition set_subscriber (c : subscriber) (k : kernel) : kernel :=
  mkKernel (at_ k) (m_CertProfile k) (Some c) (pPublisher k) (world c).2.
Definition set_publisher (c : publisher) (k : kernel) : kernel :=
  mkKernel (at_ k) (m_CertProfile k) (pSubscriber k) (Some c) (world c).2.

Abbreviation K := (M kernel).

Definition sleep (nSeconds : Z) : K () := env shared set_shared (CScheduler_Sleep nSeconds).

(** [new CMQTTSubscriber (&m_TLSSupport)] and [new CMQTTPublisher (...)].  The
    first arguments of the constructors say whether the two buffers could be
    allocated; [junk] is the memory before. *)
Definition allocated (nSize : Z) : K bool := env shared set_shared (operator_new_array nSize).
Definition new_subscriber (junk : subscriber) : K () :=
  bReceive ← allocated (MAX_PACKET_SIZE * MAX_PACKETS_QUEUED + FRAME_BUFFER_SIZE);
  bTopic ← allocated (MAX_TOPIC_SIZE + 1);
  k ← get;
  '(_, c) ← lift_res (Subscriber.construct bTopic bReceive junk (shared k));
  modify (set_subscriber c).
Definition new_publisher (junk : publisher) : K () :=
  bReceive ← allocated (MAX_PACKET_SIZE * MAX_PACKETS_QUEUED + FRAME_BUFFER_SIZE);
  bTopic ← allocated (MAX_TOPIC_SIZE + 1);
  k ← get;
  '(_, c) ← lift_res (Publisher.construct bTopic bReceive junk (shared k));
  modify (set_publisher c).

(** ** [Run], cut where it sleeps *)

Definition Run_start : K () :=
  modify (λ k, mkKernel (at_ k) (X509Profile.SetRSAMinimumKeySize TLS_RSA_MIN_KEY_SIZE (m_CertProfile k))
                        (pSubscriber k) (pPublisher k) (shared k));;
  env shared set_shared (new_CNTPDaemon NTP_SERVER);;
  modify (set_at NTPSleep);;
  sleep 4.
Definition Run_subscriber (junk : subscriber) : K () :=
  new_subscriber junk;; modify (set_at SubscriberSleep);; sleep 2.
Definition Run_publisher (junk : publisher) : K () :=
  new_publisher junk;; modify (set_at LoopSleep);; sleep 10.
(** The condition of the [do] loop. *)
Definition Run_loop : K () :=
  k ← get;
  s ← deref (pSubscriber k);
  p ← deref (pPublisher k);
  if IsConnected s || IsConnected p then sleep 10
  else modify (set_at (Returned StdlibApp.ShutdownHalt)).

(** The part of [Run] behind the point it is at; [None] behind its end. *)
Definition Run_next (js : subscriber) (jp : publisher) (k : kernel) : option (K ()) :=
  match at_ k with
  | AtStart => Some Run_start
  | NTPSleep => Some (Run_subscriber js)
  | SubscriberSleep => Some (Run_publisher jp)
  | LoopSleep => Some Run_loop
  | Returned _ => None
  end.

(** ** The tasks of the clients *)

Definition subscriber_round (fuel : nat) (c : subscriber) : K () :=
  k ← get;
  '(_, c) ← lift_res (Run_round Subscriber.callbacks fuel (with_world (shared k) c));
  modify (set_subscriber c).
Definition publisher_round (fuel : nat) (c : publisher) : K () :=
  k ← get;
  '(_, c) ← lift_res (Run_round Publisher.callbacks fuel (with_world (shared k) c));
  modify (set_publisher c).

(** The system, with any content of the memory the objects are made in: [Run] goes on, a client makes a round, or another task changes
    the world.  The clients go on behind the end of [Run], until the system
    halts. *)
Inductive step (fuel : nat) (k : kernel) : res (() * kernel) → Prop :=
  | step_Run js jp m : junk_ok js → junk_ok jp → Run_next js jp k = Some m → step fuel k (m k)
  | step_subscriber c : pSubscriber k = Some c → step fuel k (subscriber_round fuel c k)
  | step_publisher c : pPublisher k = Some c → step fuel k (publisher_round fuel c k)
  | step_other w : step fuel k (Ok ((), set_shared w k)).

Inductive runs (fuel : nat) (k0 : kernel) : kernel → Prop :=
  | runs_start : runs fuel k0 k0
  | runs_step k u k' : runs fuel k0 k → step fuel k (Ok (u, k')) → runs fuel k0 k'.
End kernel.
End MqttKernel.
