(* ===== verification/MqttKernelProps.v ===== *)
(** Properties of the kernel of the MQTT sample: its two clients beside each
    other, and when it halts. *)
From stdpp Require Import base numbers list gmap option strings.
From S2P Require Import Prelude.
From S2P Require Import Circle.
From S2P Require Import MqttSendPacket.
From S2P Require Import MqttReceivePacket.
From S2P Require Import MqttClient.
From S2P Require Import MqttClientInv.
From S2P Require Import MqttClientSafety.
From S2P Require Import MqttClientTask.
From S2P Require Import MqttClientApi.
From S2P Require Import MqttClientLife.
From S2P Require Import MqttDemo.
From S2P Require Import MqttSample.
From S2P Require Import MqttSampleProps.
From S2P Require Import X509Profile.
From S2P Require Import StdlibApp.
From S2P Require Import MqttKernel.
Import Mqtt Client MqttKernel.
Import (hints) SendPacket ReceivePacket.

Section kernel.
Context `{Target, Platform W, !PlatformOk W, PtrList, !PtrListOk, SamplePlatform W, !SamplePlatformOk W,
  !KernelPlatform W}.
Implicit Types k : kernel (W := W).

(** * Both clients beside each other *)

(** The invariant of an object does not depend on the world. *)
Definition object_ok {D} (c : CMQTTClient (W := D * W)) : Prop :=
  ∃ bTopic bReceive, Inv bTopic bReceive false [] c.

Lemma object_world {D} (c : CMQTTClient (W := D * W)) w : object_ok c → object_ok (with_world w c).
Proof using Type. intros (bT & bR & Hc). exists bT, bR. by eapply Inv_view. Qed.

(** The objects are as the clients' invariant says, and they are there when
    [Run] uses them. *)
Record kernel_ok k : Prop := {
  ok_subscriber c : pSubscriber k = Some c → object_ok c;
  ok_publisher c : pPublisher k = Some c → object_ok c;
  ok_point : match at_ k with
             | AtStart | NTPSleep => True
             | SubscriberSleep => is_Some (pSubscriber k)
             | LoopSleep | Returned _ => is_Some (pSubscriber k) ∧ is_Some (pPublisher k)
             end
}.

Lemma kernel_ok_shared k w : kernel_ok k → kernel_ok (set_shared w k).
Proof using Type. intros [Hs Hp Ha]. by split. Qed.

Lemma kernel_ok_subscriber k c : kernel_ok k → object_ok c → kernel_ok (set_subscriber c k).
Proof using Type.
  intros [Hs Hp Ha] Hc. split; cbn; [by intros ? [= <-]|done|].
  destruct (at_ k); [done|done|by eexists|..]; (split; [by eexists|apply Ha]).
Qed.

Lemma kernel_ok_publisher k c : kernel_ok k → object_ok c → kernel_ok (set_publisher c k).
Proof using Type.
  intros [Hs Hp Ha] Hc. split; cbn; [done|by intros ? [= <-]|].
  destruct (at_ k); [done|done|exact Ha|..]; (split; [apply Ha|by eexists]).
Qed.

(** A step of [Run] that only uses the world. *)
Lemma wp_shared {A} F (f : W → A * W) (Q : A → kernel → Prop) k :
  (∀ a w, Q a (set_shared w k)) → wp F (env shared set_shared f) Q k.
Proof using Type. intros HQ. apply wp_env. intros a w _. apply HQ. Qed.

Lemma subscriber_constructed bT bR js u :
  junk_ok js → ∃ c, Subscriber.construct bT bR js u = Ok ((), c) ∧ object_ok c.
Proof using Type*.
  intros Hj. destruct (construct_derived_Inv Subscriber.callbacks bT bR js
    (Subscriber.set_m_bTimerRunning false (Subscriber.members_of js), u) SUB_CLIENT_ID)
    as (c & E & Hc); [apply subscriber_ok|done|by apply (bool_decide_unpack _)|].
  exists c. split; [exact E|by exists bT, bR].
Qed.

Lemma publisher_constructed bT bR jp u :
  junk_ok jp → ∃ c, Publisher.construct bT bR jp u = Ok ((), c) ∧ object_ok c.
Proof using Type*.
  intros Hj. destruct (construct_derived_Inv Publisher.callbacks bT bR jp
    (Publisher.set_m_bTimerRunning false (Publisher.members_of jp), u) PUB_CLIENT_ID)
    as (c & E & Hc); [apply publisher_ok|done|by apply (bool_decide_unpack _)|].
  exists c. split; [exact E|by exists bT, bR].
Qed.

Lemma new_subscriber_ok js k :
  kernel_ok k → junk_ok js →
  wp no_fault (new_subscriber js) (λ _ k', kernel_ok k' ∧ is_Some (pSubscriber k') ∧ at_ k' = at_ k ∧
    pPublisher k' = pPublisher k) k.
Proof using Type*.
  intros Hk Hj. unfold new_subscriber, allocated. wp_step. apply wp_shared. intros bR w.
  wp_step. apply wp_shared. intros bT w'. wp_step. wp_step. wp_step.
  destruct (subscriber_constructed bT bR js w' Hj) as (c & E & Hc).
  apply (wp_lift_Ok _ _ ((), c)); [exact E|]. wp_step.
  split; [|by split_and!; [eexists|..]]. apply kernel_ok_subscriber; [by do 2 apply kernel_ok_shared|done].
Qed.

Lemma new_publisher_ok jp k :
  kernel_ok k → junk_ok jp →
  wp no_fault (new_publisher jp) (λ _ k', kernel_ok k' ∧ is_Some (pPublisher k') ∧ at_ k' = at_ k ∧
    pSubscriber k' = pSubscriber k) k.
Proof using Type*.
  intros Hk Hj. unfold new_publisher, allocated. wp_step. apply wp_shared. intros bR w.
  wp_step. apply wp_shared. intros bT w'. wp_step. wp_step. wp_step.
  destruct (publisher_constructed bT bR jp w' Hj) as (c & E & Hc).
  apply (wp_lift_Ok _ _ ((), c)); [exact E|]. wp_step.
  split; [|by split_and!; [eexists|..]]. apply kernel_ok_publisher; [by do 2 apply kernel_ok_shared|done].
Qed.

(** What the condition of the loop finds. *)
Definition connected_of {D} (o : option (CMQTTClient (W := D * W))) : bool :=
  match o with Some c => IsConnected c | None => false end.

(** [Run] goes on without a fault, to the next of its points; from its loop it
    returns exactly when neither client is connected. *)
Definition next_point k (p : point) : Prop :=
  match at_ k with
  | AtStart => p = NTPSleep
  | NTPSleep => p = SubscriberSleep
  | SubscriberSleep => p = LoopSleep
  | LoopSleep => p = if connected_of (pSubscriber k) || connected_of (pPublisher k) then LoopSleep
                     else Returned StdlibApp.ShutdownHalt
  | Returned _ => False
  end.

Lemma kernel_ok_at k p :
  kernel_ok k → match p with
                | AtStart | NTPSleep => True
                | SubscriberSleep => is_Some (pSubscriber k)
                | LoopSleep | Returned _ => is_Some (pSubscriber k) ∧ is_Some (pPublisher k)
                end → kernel_ok (set_at p k).
Proof using Type. intros [Hs Hp Ha] Hp'. by split. Qed.

Lemma Run_ok js jp k m :
  kernel_ok k → junk_ok js → junk_ok jp → Run_next js jp k = Some m →
  wp no_fault m (λ _ k', kernel_ok k' ∧ next_point k (at_ k')) k.
Proof using Type*.
  intros Hk Hjs Hjp. unfold Run_next, next_point. pose proof (ok_point _ Hk) as Hpt.
  destruct (at_ k) eqn:Ea; intros [= <-].
  - unfold Run_start, sleep. wp_step. wp_step. wp_step. apply wp_shared. intros [] w. wp_step. wp_step.
    apply wp_shared. intros [] w'. split; [|done]. apply kernel_ok_shared, kernel_ok_at; [|done].
    destruct Hk as [Hs Hp Ha]. split; cbn; [done|done|by rewrite Ea].
  - unfold Run_subscriber, sleep. wp_step. eapply wp_mono; [by apply new_subscriber_ok|].
    intros [] k1 (Hk1 & Hs1 & _). wp_step. wp_step. apply wp_shared. intros [] w.
    split; [|done]. apply kernel_ok_shared. by apply kernel_ok_at.
  - unfold Run_publisher, sleep. wp_step. eapply wp_mono; [by apply new_publisher_ok|].
    intros [] k1 (Hk1 & Hp1 & _ & Hs1). wp_step. wp_step. apply wp_shared. intros [] w.
    split; [|done]. apply kernel_ok_shared. apply kernel_ok_at; [done|]. split; [by rewrite Hs1|done].
  - destruct Hpt as [[s Es] [p Ep]]. unfold Run_loop, sleep. wp_step. wp_step.
    wp_step. apply (wp_deref_Some _ _ s); [done|]. wp_step. apply (wp_deref_Some _ _ p); [done|].
    rewrite Es, Ep. cbn [connected_of]. destruct (IsConnected s || IsConnected p) eqn:Econ.
    + apply wp_shared. intros [] w. split; [by apply kernel_ok_shared|exact Ea].
    + wp_step. split; [|done]. apply kernel_ok_at; [done|]. rewrite Es, Ep. split; by eexists.
Qed.

(** A round of a client. *)
Lemma kernel_round_ok {D} (CB : Callbacks (W := D * W)) fuel c w :
  (∀ bT bR, callbacks_ok bT bR round_faults CB) → object_ok c →
  match Run_round CB fuel (with_world w c) with
  | Ok (_, c') => object_ok c'
  | Fault e => round_faults e
  end.
Proof using Type*.
  intros HCB Hc. apply (object_world c w) in Hc. destruct Hc as (bT & bR & Hc).
  assert (wp round_faults (Run_round CB fuel) (λ _ c', Inv bT bR false [] c') (with_world w c)) as Hr.
  { eapply Run_round_Inv; [apply HCB|by left|by left; right|exact Hc]. }
  unfold wp in Hr. destruct (Run_round CB fuel (with_world w c)) as [[u c']|e]; [by exists bT, bR|done].
Qed.

(** It comes to its end if the broker does not send for ever. *)
Lemma kernel_round_ends {D} (CB : Callbacks (W := D * W)) c w :
  (∀ bT bR, callbacks_ok bT bR (eq AssertFailed) CB) → object_ok c →
  Acc (λ c2 c1, next_packet CB c1 c2) (with_world w c) →
  ∃ n, ∀ fuel, (n ≤ fuel)%nat →
    match Run_round CB fuel (with_world w c) with Ok _ => True | Fault e => AssertFailed = e end.
Proof using Type*.
  intros HCB Hc [n Hn]%Acc_fewer. apply (object_world c w) in Hc. destruct Hc as (bT & bR & Hc).
  exists n. intros fuel Hf.
  pose proof (Run_round_Inv bT bR _ CB (HCB bT bR) fuel false [] (with_world w c) eq_refl
    (or_intror (fewer_mono CB _ _ _ Hn Hf)) Hc) as Hr.
  unfold wp in Hr. by destruct (Run_round CB fuel (with_world w c)) as [[??]|].
Qed.

Lemma kernel_step_ok fuel k o :
  kernel_ok k → step fuel k o →
  match o with Ok (_, k') => kernel_ok k' | Fault e => round_faults e end.
Proof using Type*.
  intros Hk [js jp m Hjs Hjp Hm|c Hc|c Hc|w].
  - pose proof (Run_ok js jp k m Hk Hjs Hjp Hm) as Hr. unfold wp in Hr.
    by destruct (m k) as [[[] k']|]; [destruct Hr|].
  - unfold subscriber_round. rewrite bind_unfold. cbn [get]. rewrite bind_unfold. unfold lift_res.
    pose proof (kernel_round_ok Subscriber.callbacks fuel c (shared k) (λ _ _, subscriber_ok _ _ _)
      (ok_subscriber _ Hk c Hc)) as Hr.
    destruct (Run_round _ _ _) as [[[] c']|e]; [by apply kernel_ok_subscriber|done].
  - unfold publisher_round. rewrite bind_unfold. cbn [get]. rewrite bind_unfold. unfold lift_res.
    pose proof (kernel_round_ok Publisher.callbacks fuel c (shared k) (λ _ _, publisher_ok _ _ _)
      (ok_publisher _ Hk c Hc)) as Hr.
    destruct (Run_round _ _ _) as [[[] c']|e]; [by apply kernel_ok_publisher|done].
  - by apply kernel_ok_shared.
Qed.

(** Before the first statement of [Run]. *)
Definition before_run k : Prop := at_ k = AtStart ∧ pSubscriber k = None ∧ pPublisher k = None.

Lemma runs_ok fuel k0 k : before_run k0 → runs fuel k0 k → kernel_ok k.
Proof using Type*.
  intros (Ha & Hs & Hp). induction 1 as [|k u k' _ IH Hst].
  - split; rewrite ?Hs, ?Hp, ?Ha; done.
  - exact (kernel_step_ok _ _ _ IH Hst).
Qed.

(** * The end *)

Definition disconnected {D} (o : option (CMQTTClient (W := D * W))) : Prop :=
  ∃ c, o = Some c ∧ m_ConnectStatus c = MQTTStatusDisconnected.

(** Both clients have been there and are disconnected. *)
Definition idle k : Prop :=
  (at_ k = LoopSleep ∨ ∃ mode, at_ k = Returned mode) ∧ disconnected (pSubscriber k) ∧ disconnected (pPublisher k).

Lemma disconnected_IsConnected {D} (c : CMQTTClient (W := D * W)) :
  m_ConnectStatus c = MQTTStatusDisconnected → IsConnected c = false.
Proof using Type. intros E. unfold IsConnected. by rewrite E. Qed.

(** A round of a client that is disconnected, whose [OnLoop] does nothing then,
    leaves it so: neither class connects again by itself. *)
Lemma idle_round {D} (CB : Callbacks (W := D * W)) fuel c w u c' :
  (∀ c, IsConnected c = false → OnLoop CB c = Ok ((), c)) →
  m_ConnectStatus c = MQTTStatusDisconnected →
  Run_round CB fuel (with_world w c) = Ok (u, c') → m_ConnectStatus c' = MQTTStatusDisconnected.
Proof using Type.
  intros Hloop Hc. unfold Run_round. rewrite bind_unfold. cbn [get].
  change (m_ConnectStatus (with_world w c)) with (m_ConnectStatus c). rewrite Hc. cbv beta iota.
  rewrite bool_decide_true by done. cbn [negb]. intros ([] & c1 & E1 & E2)%bind_Ok.
  revert E1. unfold world_op, env. destruct (CScheduler_MsSleep _ _) as [[] u1]. intros [= <-].
  rewrite Hloop in E2; [by injection E2 as _ <-|]. by apply disconnected_IsConnected.
Qed.

Lemma subscriber_idle_loop (c : CMQTTClient (W := Subscriber.members * W)) :
  IsConnected c = false → OnLoop Subscriber.callbacks c = Ok ((), c).
Proof using Type. intros E. cbn. unfold Subscriber.OnLoop. rewrite bind_unfold. cbn [get]. by rewrite E. Qed.
Lemma publisher_idle_loop (c : CMQTTClient (W := Publisher.members * W)) :
  IsConnected c = false → OnLoop Publisher.callbacks c = Ok ((), c).
Proof using Type. intros E. cbn. unfold Publisher.OnLoop. rewrite bind_unfold. cbn [get]. by rewrite E. Qed.

Lemma Run_loop_run k s p :
  pSubscriber k = Some s → pPublisher k = Some p →
  Run_loop k = if IsConnected s || IsConnected p then sleep 10 k
               else Ok ((), set_at (Returned StdlibApp.ShutdownHalt) k).
Proof using Type.
  intros Es Ep. unfold Run_loop. rewrite bind_unfold. cbn [get]. rewrite Es, Ep.
  rewrite bind_unfold. cbn [deref]. rewrite bind_unfold. cbn [deref]. by destruct (IsConnected s || IsConnected p).
Qed.

Lemma idle_step fuel k u k' : idle k → step fuel k (Ok (u, k')) → idle k'.
Proof using Type.
  intros (Ha & (s & Es & Hs) & (p & Ep & Hp)) Hst. inversion Hst as [js jp m _ _ Hm E|c Hc E|c Hc E|w E].
  - unfold Run_next in Hm. destruct Ha as [Ha|[mode Ha]]; rewrite Ha in Hm; [|done]. injection Hm as <-.
    rewrite (Run_loop_run k s p), !disconnected_IsConnected in E by done.
    injection E as _ <-. split; [right; by eexists|]. split; by eexists.
  - unfold subscriber_round in E. rewrite bind_unfold in E. cbn [get] in E.
    apply bind_Ok in E as ([[] c'] & k1 & E1 & [= _ <-]). unfold lift_res in E1.
    rewrite Es in Hc. injection Hc as <-.
    destruct (Run_round _ _ _) as [[? ?]|] eqn:Er; [|done]. injection E1 as -> -> <-.
    split; [exact Ha|]. split; [|by exists p]. exists c'. split; [done|].
    by eapply (idle_round Subscriber.callbacks); [apply subscriber_idle_loop| |exact Er].
  - unfold publisher_round in E. rewrite bind_unfold in E. cbn [get] in E.
    apply bind_Ok in E as ([[] c'] & k1 & E1 & [= _ <-]). unfold lift_res in E1.
    rewrite Ep in Hc. injection Hc as <-.
    destruct (Run_round _ _ _) as [[? ?]|] eqn:Er; [|done]. injection E1 as -> -> <-.
    split; [exact Ha|]. split; [by exists s|]. exists c'. split; [done|].
    by eapply (idle_round Publisher.callbacks); [apply publisher_idle_loop| |exact Er].
  - subst. split; [exact Ha|]. split; by eexists.
Qed.
End kernel.

(** * A concrete run *)
Module KernelDemo.
Import (hints) Script ListPtrList Demo SampleDemo.
#[export] Instance kernel_platform : KernelPlatform Script.t := {|
  new_CNTPDaemon server := Script.event "NTP" server;
  CScheduler_Sleep n := Script.sleep (100 * n)
|}.

Definition start : kernel (W := Script.t) :=
  mkKernel AtStart (X509Profile.mkProfile 0 0 0 2048) None None (Script.init []).

(** [Run] up to its next sleep, which has no fault here. *)
Definition go_on (k : kernel (W := Script.t)) : kernel :=
  match Run_next SampleDemo.subscriber_junk SampleDemo.publisher_junk k with
  | Some m => match m k with Ok (_, k') => k' | Fault _ => k end
  | None => k
  end.
Definition goes_on (k : kernel (W := Script.t)) : bool :=
  match Run_next SampleDemo.subscriber_junk SampleDemo.publisher_junk k with
  | Some m => match m k with Ok _ => true | Fault _ => false end
  | None => false
  end.

Lemma go_on_runs fuel k0 k : runs fuel k0 k → goes_on k = true → runs fuel k0 (go_on k).
Proof.
  unfold goes_on, go_on. intros Hr. destruct (Run_next _ _ k) as [m|] eqn:Em; [|done].
  destruct (m k) as [[u k']|] eqn:E; [|done]. intros _. apply (runs_step fuel k0 k u k' Hr).
  rewrite <-E. eapply step_Run; [| |exact Em]; apply SampleDemo.sample_junk_good.
Qed.

(** The state in the loop of [Run], with both clients waiting for CONNACK. *)
Definition looping : kernel := go_on (go_on (go_on start)).

Lemma looping_runs fuel : runs fuel start looping.
Proof.
  unfold looping. apply go_on_runs; [apply go_on_runs; [apply go_on_runs; [constructor|]|]|]; by vm_compute.
Qed.
End KernelDemo.
Import (hints) KernelDemo Script ListPtrList Demo SampleDemo.



(** [Run] takes a client that waits for the answer to its CONNECT packet for one
    that is disconnected: if neither broker session is confirmed when it looks,
    ten seconds after the publisher was made at the earliest, the kernel halts in
    the middle of the two connections. *)
Theorem halts_while_connecting `{Target, Platform W, !PlatformOk W, PtrList, !PtrListOk, SamplePlatform W,
    !SamplePlatformOk W, !KernelPlatform W} (k : kernel (W := W)) s p :
  pSubscriber k = Some s → pPublisher k = Some p →
  m_ConnectStatus s = MQTTStatusConnectPending → m_ConnectStatus p = MQTTStatusConnectPending →
  Run_loop k = Ok ((), set_at (Returned StdlibApp.ShutdownHalt) k).
Proof.
  intros Es Ep Hs Hp. rewrite (Run_loop_run k s p) by done. unfold IsConnected. by rewrite Hs, Hp.
Qed.
